(* ===== verification/_CoqProject ===== *)
-Q . S2P
Prelude.v
GoStrings.v
NetIP.v
GoTime.v
GoDuration.v
GoContext.v
NetURL.v
World.v
IPAlloc.v
WGValidate.v
Response.v
GoJson.v
GoJsonText.v
GoJsonPrint.v
ProxmoxClient.v
Crypto.v
SSHExec.v
SSHClient.v
ProxmoxErrors.v
Tables.v
AuditStore.v
NodeStore.v
NodeHandler.v
WGStore.v
WGService.v
WGHandler.v
WGSpec.v
AuthStore.v
WebAuthnStore.v
AdminAuth.v
Config.v
Database.v
StationStore.v
ProjectStore.v
ProjectHandler.v
TenantStore.v
StationPoller.v
ProxmoxSpec.v
CaddyClient.v
CaddySpec.v
TenantFSM.v
StoreSafe.v
Provisioner.v
ProvisionerSafe.v
ProvisionerSpec.v
Lifecycle.v
LifecycleSpec.v
Tiers.v
StationHandler.v
StationSpec.v
AuthHandler.v
AuthSpec.v
Billing.v
BillingSpec.v
ServicesSafe.v
TenantHandler.v
UserHandler.v
TenantHandlerSpec.v
Templates.v
AdminUI.v
AdminNodes.v
AdminTenants.v
AdminNetwork.v
AdminPages.v
AdminRoutes.v
AdminSafe.v
AdminPagesSpec.v
AdminSpec.v
AdminAgree.v
RequestDecode.v
Server.v
ServerSpec.v
RequestSpec.v
Startup.v
System.v
SystemSpec.v
Shutdown.v
Jobs.v
