(* ===== verification/Prelude.v ===== *)
(** * Controlplane: a verification library

    The program (Go, src/) runs a hosting platform. Nodes are Proxmox hosts
    with a RAM account; projects are container templates; a tenant is one
    container of a project on a node, reached through a Caddy route. Admin
    endpoints (API key) and user endpoints (JWT) act on one PostgreSQL
    database; building and removing containers goes through Proxmox's HTTP
    API and SSH, asynchronously for the former. The development translates
    the program's own logic into Rocq and proves it correct.

    ** Files, bottom up

    - [Prelude]: Go errors and their chains ([errors.Is], [errors.As]); result
      values; programs ([Prog]: a free monad over atomic operations on a state,
      with spawned threads), their sequential run [run], the weakest
      precondition [wp] (one program alone) and [safe]/[safe_pool] (an
      invariant and a guarantee kept at every atomic step, hence by every
      interleaving of a pool of threads).
    - [GoStrings], [NetIP], [NetURL], [GoTime], [GoDuration], [GoContext],
      [GoJson], [GoJsonText], [GoJsonPrint]: the strings, strconv,
      encoding/hex, net/netip, net/url, time (the calendar, RFC 3339 and
      ParseDuration), context and encoding/json functions the code calls (Go's
      standard library, not under src/), written out where the theorems depend
      on them. [GoJsonPrint] writes a document and proves that it is read back.
    - [World]: the state. Tables are [gmap]s from the primary key to a record
      with one field per column (model.go of each package); besides them the
      cache of Proxmox clients, the pending provisioning goroutines, the trace
      of remote calls and a tick. [Env] collects what the program cannot
      decide: statement failures, remote answers, clock, random bytes, AES-GCM,
      HMAC, url.Parse, uuid.Parse, the case tables of Unicode behind
      strings.ToLower, and the database's lower() and collation.
    - [Tables]: what the SQL of the stores shares (WHERE, ORDER BY created_at,
      UPDATE by key, INSERT) with the constraints of
      internal/database/migrations: primary keys, the partial unique indexes
      on live tenants, foreign keys, CHECKs and INTEGER ranges.
    - [IPAlloc] (internal/ipalloc/ipalloc.go), [Response]
      (internal/response), [Crypto] (internal/crypto/crypto.go), [SSHExec]
      (internal/sshexec/client.go: quoting and the command lines; read back by
      a lexer of the POSIX shell, [lex]), [SSHClient] (the same file: a command
      over one connection, the network and golang.org/x/crypto/ssh being the
      class [SSHServer]), [ProxmoxErrors]
      (internal/proxmox/errors.go, types.go), [AuditStore] (internal/audit),
      [Tiers] (internal/billing/tiers.go).
    - [NodeStore], [NodeHandler] (internal/node), [ProjectStore],
      [ProjectHandler] (internal/project), [TenantStore]
      (internal/tenant/store.go, tenant_pollable.go): one definition per method
      of the same name, one per SQL statement.
    - [WGValidate], [WGStore], [WGService], [WGHandler] (internal/wireguard):
      validation of a peer's prefixes, the peer table, the service that drives
      the interface of the hub, and the endpoints; [WGSpec].
    - [AuthStore] (internal/auth/token_store.go, the limiter of
      internal/auth/handler.go, internal/user): users, refresh tokens, login
      attempts and revocations.
    - [StationStore], [StationPoller], [StationHandler] (internal/station:
      store.go, poller.go, handler.go), [StationSpec]: the directory of radio
      stations, the goroutine that reads each tenant's status page, and the
      endpoints.
    - [ProxmoxClient] (internal/proxmox: client.go, node.go, container.go,
      task.go), [ProxmoxSpec]. The network and the host are the class
      [ProxmoxServer]; [ContextLaws] is what net/http documents about contexts.
      A client's calls share the node's name ([Conn]) and read a clock. The
      provisioner is written against the interface it declares, so there a call
      of the client is one remote event.
    - [CaddyClient] (internal/caddy: client.go, reconciler.go), [CaddySpec].
      Caddy's admin API is the class [CaddyServer] with the laws [CaddyLaws]
      (its documented behaviour).
    - [TenantFSM]: the tenant state machine [status_step], the data invariant
      [world_ok], the guarantee [world_step], and the rules by which every
      statement keeps both. [StoreSafe]: every store method keeps them.
    - [Provisioner] (internal/provisioner/provisioner.go), [ProvisionerSafe]
      (it keeps the invariant), [ProvisionerSpec] (what it achieves).
    - [Lifecycle], [LifecycleSpec] (internal/tenant/lifecycle.go). The service
      is written against the class [ProvisionerOps] (the interface of
      internal/tenant/handler.go) with laws [ProvisionerLaws]; [System] gives
      the instance for the real provisioner.
    - [TenantHandler] (internal/tenant/handler.go), [UserHandler]
      (internal/tenant/user_handler.go), [TenantHandlerSpec].
    - [AuthHandler] (internal/auth/handler.go, middleware.go, janitor.go), with
      [AuthSpec]; [Billing] (internal/billing: handler.go, stripe.go), with
      [BillingSpec]. golang-jwt, bcrypt, Stripe's SDK and wgctrl are
      parameters: the classes [AuthLib], [Stripe], [WgLib].
    - [ServicesSafe]: the auth, billing and WireGuard endpoints keep the
      invariant and the guarantee of [TenantFSM].
    - The administration under /admin (internal/admin). [Templates]
      (templates.go): how its templates are built, found and written out;
      html/template and the embedded files are the class [TemplateLib].
      [WebAuthnStore]
      (webauthn_store.go): the passkeys. [AdminAuth] (auth.go, webauthn.go):
      the session cookie, the challenges between a begin and a finish call,
      signing in and registering; the WebAuthn protocol is the class
      [WebAuthnLib]. [AdminUI] (handler.go): flashes, toasts and names.
      [AdminNodes] (handler_nodes.go, handler_projects.go), [AdminTenants]
      (handler_tenants.go), [AdminNetwork] (handler_network.go), [AdminPages]
      (handler_dashboard.go, handler_settings.go, handler_audit.go and the
      functions of templates.go): one definition per handler of the same name;
      a page is its data. [AdminRoutes] ([Routes] of handler.go): which routes
      need a session and which the CSRF token, whose check is the class
      [Nosurf]. [AdminSafe]: every one of them keeps the invariant;
      [AdminPagesSpec], [AdminSpec], [AdminAgree]: what they promise.
    - [RequestDecode] ([Decode] of internal/response/response.go): the bodies
      of requests, one [Format] per struct they are decoded into.
    - [Server] (internal/server/server.go, internal/auth/middleware.go): the
      routes, which credential each needs and the whole of a request,
      [handle]; [ServerSpec]. [RequestSpec]: from the text of a body to what
      the endpoint does.
    - [Config] (internal/config/config.go): the configuration from the
      environment. [Database] (internal/database): connecting and migrating,
      the libraries being the class [DatabaseLib]. [Startup] (cmd/server/main.go, [New] of server.go,
      internal/health): from the environment to a running server.
    - [System]: requests and goroutines as a pool of threads over one world,
      [reachable]; [SystemSpec]: theorems across components, and the witnesses
      that run whole requests. [Shutdown]: the end of [main], its phases
      interleaved with requests and provisioning goroutines. [Jobs]: the
      goroutines of [Provision] with their slots, their panics and the wait for
      them, interleaved with the rest of the system.

    ** What the theorems show

    - The whole system, every interleaving, every failure: [system_invariant]
      (uniqueness of live names and subdomains, of users' emails, token hashes,
      peers' keys and addresses, of stations' slugs and tenants; RAM accounts
      within capacity; references resolved; running tenants have a container;
      the limiter's table bounded), with requests (none that gives a project a
      negative RAM, [request_ok]; [negative_ram] shows what one does), provisioning jobs, the
      poller, the janitor and the hub's synchronisation all interleaved;
      [system_lifecycle] (rows follow the state machine and keep identity).
    - Goroutines: each holds one of ten slots while it works and gives it back
      when it panics, nothing deadlocks, and the invariants hold throughout
      ([jobs_bounded]). [jobs_drain] and [slots_refine] are facts of that model:
      without new requests its runs end, and its slots only remove
      interleavings, which carries the theorems of [System] over to it.
    - Access: [access_control] (a request without the credential of its route
      changes nothing), [foreign_tenant_untouchable], [User_Create_limit].
    - Bodies: what a client writes is what is served ([body_roundtrip]), and
      what does not parse changes nothing ([malformed_body_harmless]).
    - Administration: a session opens the pages for eight hours and nothing
      else does ([session_lifetime], [admin_access]); it is won only with a
      stored passkey ([loginFinish_sound]) and never by outsiders, whatever they
      send ([outsiders_stay_out]); the forms do what the API does
      ([admin_agrees_with_api]); the list of tenants is complete
      ([tenants_page_complete]); a page is written by its own template, whole or
      not at all ([Render_spec]).
    - Start-up: what loads is well formed ([Load_well_formed]) and what serves
      is closed to strangers ([main_outcome]).
    - Provisioning ends well or cleans up ([doProvision_settles],
      [provision_cleans_up]); its polling loop terminates
      ([waitForHealth_terminates]); removal reports the truth
      ([Deprovision_spec]); suspend and resume agree with the container
      ([suspend_consistent], [resume_consistent]); creation is all or nothing
      ([Create_spec]). Each of these is about one operation run alone, and says
      in disjuncts guarded by [faulty] what a failing statement leaves undone.
    - Sessions: [Login_sound], [limiter_lockout], [Register_spec],
      [access_token_lifetime] (fifteen minutes, to the second),
      [forged_token_refused] (other algorithms, other keys),
      [Refresh_rotates], [Logout_revokes], [ChangePassword_spec],
      [CleanOnce_keeps_decisions].
    - Billing: [Webhook_effect], [subscription_events_spec],
      [subscription_replay].
    - WireGuard: [SyncPeers_refines] (the interface implements the table, with
      what wg set leaves as it was), [CreatePeer_spec], [ValidateAllowedIPs_spec].
    - Stations: [search_literal] (a search text matches only itself),
      [List_by_listeners], [Station_Create_limit], [AutoCreateStation_once];
      the poller asks only private addresses ([poll_private]) and stores what
      the page said ([poll_agrees]).
    - Proxmox: waiting for a task ends by its deadline and its verdict is the
      host's ([Wait_ends]); a task that finishes is noticed ([Wait_reports]); a
      clone asks for exactly its options ([Clone_request]); the node's name is
      settled once whatever the interleaving ([node_name_settles]).
    - Routes: the reconciler makes Caddy's routes those of the active tenants
      ([Reconcile_refines]); a route written is read back
      ([Upsert_List_roundtrip]).
    - RAM accounts and placement: [ReserveRAM_spec], [reserve_release],
      [GetLeastLoaded_best]. Addresses: [Next_first_fit],
      [lastAddr_broadcast].
    - SSH: a command reports what happened and leaves no connection open
      ([execCommand_outcome]), and returns when the host keeps answering
      ([execCommand_returns]). Injection safety: [pct_exec_words],
      [Quote_one_word]. Secrets:
      [Encrypt_Decrypt], [Create_node_spec], [Update_drops_client]. Input and
      output: [ValidateSubdomain_spec], [NotFound_recognised],
      [listing_has_more].
    - Behaviour that differs from what the code means:
      [failed_then_deleted_releases_twice], [Delete_node_stuck],
      [allocation_not_reserved], [refresh_not_single_use],
      [redelivered_checkout_wins], [update_leaves_peer_connected],
      [last_passkey_race], [interval_wraps], [shutdown_outcome],
      [panic_recovery] (a panic after [SetActive] releases the RAM of a running
      tenant), [silent_host_blocks].

    ** Modelling decisions

    - One SQL statement is one atomic operation ([stmt]): it may fail for
      reasons of its own without effect (a lost connection, an expired
      context), break a constraint of the schema, or run as a whole. Rows with
      equal created_at come in a fixed order; keys are canonical UUID text, and
      an id is looked up as it is written: another spelling of a UUID, which
      uuid.Parse and PostgreSQL accept, finds no row here;
      text is valid UTF-8. The foreign key of tenants.owner_id is left out:
      no statement of the program removes a user, and the owner of a user's
      request is the subject of a token the server signed.
    - The hub's network is IPv4; an IPv6 prefix of a peer is only parsed.
    - [env_now] is the clock of the table or the token at hand, in its unit:
      seconds since the epoch in [AuthStore], [AuthHandler] and [AdminAuth],
      microseconds in the other tables and in the link of [SSOToken]; no theorem
      compares two of them.
    - Case folding of ASCII text is written out ([to_lower], with the two
      letters beyond ASCII that encoding/json folds onto it in [fold_name]); the
      case tables of Unicode, which only [NormalizeEmail] needs, are
      [env_to_lower].
    - wg set changes only the settings it is given, and a prefix belongs to one
      peer ([set_args], [set_allowed]); what prefixes a text names is a
      parameter there.
    - rs/cors is the class [CorsLib]: it answers preflights before the security
      headers are set and adds headers to the rest.
    - Remote calls ([ext]) append an event to the trace and answer anything.
      A Proxmox task is identified by the call that started it.
    - The endpoints of [Server] take bodies already decoded ([None] is an error
      of [Decode]); [RequestDecode] and [RequestSpec] start from the text. A
      second value of a key whose type is a list is decoded over the first;
      beyond the length of the first encoding/json may show older elements, the
      model zeros. A response is a status and a typed body.
    - A queried node carries no token ([scan_node]): the SELECTs do not read
      that column.
    - [Provision] appends a [Job]; the pool of [System] starts pending jobs at
      any time ([starts]), without slots and panics. [Jobs] adds both; there a
      remote call is one step, so a call that never returns is outside of it,
      and a panic may happen between any two operations of a job but not inside
      the recovery, where it would end the process. The lock of
      [getClient] is left out, which only adds interleavings. The ten-minute
      context of a job is not a clock of its own: its expiry is among the
      statement and remote failures, except in the theorems that assume an
      answering database.
    - To the provisioner a command over SSH is one remote event; [SSHClient]
      is what it consists of, against a clock and a host.
    - Theorems about one operation ([wp]) are about that operation run alone.
      Those with the hypothesis [forall t, env_fault t = None] are about a
      database that answers, with everything remote still arbitrary; those that
      mention [faulty] allow any statement to fail; the theorems of [System]
      have every interleaving and every failure.
    - [wait_fuel] is one poll per tick before the timeout and one after it,
      enough by [Wait_ends].
    - [health_fuel] is timeout/interval + 2 rounds, enough by
      [waitForHealth_terminates]; [walk] runs one step more than there
      are addresses in use, enough by [walk_total].

    ** Not modelled

    - The text of the HTML templates, and so what html/template makes of a
      page's data, and the static files (bytes served as they are).
    - The per-address rate limits, request ids and the access log of the
      server, and the body limit of the forms: they only turn requests away or
      add to what is reported.
    - The timeouts of the listener and the log handler.
    - The text of the migrations (internal/database/migrations) as programs of
      SQL; the constraints they declare are in [Tables] and the stores.
    - The HTTP and Stripe transports, the SSH protocol, the verification of
      signatures and the WebAuthn protocol: libraries the code calls.
    - Interface declarations, constructors that only store their arguments,
      imports and log lines: what remains of the files above holds no logic. *)

From stdpp Require Import gmap strings list fin_maps relations pretty.
From Stdlib Require Import Ascii.

Declare Scope prog_scope.
Delimit Scope prog_scope with prog.

(** Proof automation shared by the development: [safe] holds the lemmas that
    decompose a program into its atomic operations, [sql] rewrites the table
    operations, [goint] the integer-width facts. *)
Create HintDb safe.
Create Rewrite HintDb sql.
Create HintDb goint.

(** ** Go errors *)

(** The innermost value of a Go error chain. [Sentinel] is a package-level
    [errors.New] / [fmt.Errorf] variable, compared by identity; [PgError] is
    [*pgconn.PgError] with its SQLSTATE; [APIError] and [TaskError] are the
    Proxmox client's error types; [OtherErr] is any error whose identity the
    code never inspects. *)
Inductive cause :=
| Sentinel (name : string)
| PgError (code : string)
| APIError (status : string) (errors : list (string * string))
| TaskError (upid exitStatus typ : string)
| OtherErr (msg : string).

(** [fmt.Errorf("msg: %w", err)] adds one [EWrap]. *)
Inductive error :=
| EBase (c : cause)
| EWrap (msg : string) (e : error).

#[export] Instance cause_eq_dec : EqDecision cause.
Proof. solve_decision. Defined.

#[export] Instance error_eq_dec : EqDecision error.
Proof. solve_decision. Defined.

Fixpoint error_cause (e : error) : cause :=
  match e with
  | EBase c => c
  | EWrap _ e' => error_cause e'
  end.

(** [errors.Is(err, target)] for a sentinel target: the chain ends in it. *)
Definition errors_Is (e : error) (target : error) : bool :=
  bool_decide (error_cause e = error_cause target).

(** [errors.As(err, &pgErr) && pgErr.Code == code]. *)
Definition is_pg_code (e : error) (code : string) : bool :=
  match error_cause e with
  | PgError c => String.eqb c code
  | _ => false
  end.

Definition errorString (s : string) : error := EBase (OtherErr s).
Definition unique_violation : string := "23505".
Definition invalid_text_representation : string := "22P02".
Definition fk_violation : string := "23503".
Definition check_violation : string := "23514".
Definition out_of_range : string := "22003".

(** A Go pair [(value, error)]. *)
Inductive res (A : Type) :=
| Ok (a : A)
| Fail (e : error).
Arguments Ok {A} a.
Arguments Fail {A} e.

Definition wrap_res {A} (msg : string) (r : res A) : res A :=
  match r with
  | Ok a => Ok a
  | Fail e => Fail (EWrap msg e)
  end.

(** ** Programs: sequences of atomic operations on a shared world *)

(** A handler or a goroutine is a tree of atomic operations: one SQL statement,
    one remote call, one access to a mutex-protected field. The tree lets the
    same definition be run on its own ([run]) and interleaved with others
    ([pool_step]). *)
Inductive Prog (W A : Type) : Type :=
| Ret (a : A)
| Atom (B : Type) (op : W -> B * W) (k : B -> Prog W A).
Arguments Ret {W A} a.
Arguments Atom {W A B} op k.

Fixpoint bind {W A B} (p : Prog W A) (f : A -> Prog W B) : Prog W B :=
  match p with
  | Ret a => f a
  | Atom op k => Atom op (fun b => bind (k b) f)
  end.

(** [let! x := p in q] sequences; [let? x := p catch e => h in q] is the Go
    idiom [x, err := p; if err != nil { h }]; [if_err e := p then h else q] is
    [if err := p; err != nil { h }] for a call that returns only an error. *)
Notation "'let!' x := p 'in' q" := (bind p (fun x => q))
  (at level 10, x pattern, p at level 99, q at level 200) : prog_scope.
Notation "'let?' x := p 'catch' e => h 'in' q" :=
  (bind p (fun r => match r with Fail e => h | Ok x => q end))
  (at level 10, x name, p at level 99, e name, h at level 200, q at level 200) : prog_scope.
Notation "'if_err' e := p 'then' h 'else' q" :=
  (bind p (fun r => match r with Some e => h | None => q end))
  (at level 10, e name, p at level 99, h at level 200, q at level 200) : prog_scope.
Notation "p ;;; q" := (bind p (fun _ => q))
  (at level 100, q at level 200, right associativity) : prog_scope.
Open Scope prog_scope.

Definition atom {W A} (op : W -> A * W) : Prog W A := Atom op Ret.

(** Running a program alone. *)
Fixpoint run {W A} (p : Prog W A) (w : W) : A * W :=
  match p with
  | Ret a => (a, w)
  | Atom op k => let '(b, w') := op w in run (k b) w'
  end.

(** A critical section: the operations of [p] with nothing in between. *)
Definition atomically {W A} (p : Prog W A) : Prog W A := atom (run p).

Lemma run_bind {W A B} (p : Prog W A) (f : A -> Prog W B) w :
  run (bind p f) w = let '(a, w') := run p w in run (f a) w'.
Proof.
  revert w. induction p as [a|C op k IH]; intros w; simpl; [done|].
  destruct (op w) as [c w']. apply IH.
Qed.

Lemma run_atom {W A} (op : W -> A * W) w : run (atom op) w = op w.
Proof. unfold atom. simpl. by destruct (op w). Qed.

Lemma run_atomically {W A} (p : Prog W A) w : run (atomically p) w = run p w.
Proof. apply run_atom. Qed.

Lemma bind_assoc {W A B C} (p : Prog W A) (f : A -> Prog W B) (g : B -> Prog W C) w :
  run (bind (bind p f) g) w = run (bind p (fun a => bind (f a) g)) w.
Proof.
  rewrite !run_bind. destruct (run p w) as [a w']. rewrite ?run_bind. done.
Qed.

(** A program over one half of a pair of states. *)
Fixpoint on_fst {V W A} (p : Prog V A) : Prog (V * W) A :=
  match p with
  | Ret a => Ret a
  | Atom op k => Atom (fun s => ((op s.1).1, ((op s.1).2, s.2))) (fun b => on_fst (k b))
  end.

Fixpoint on_snd {V W A} (p : Prog W A) : Prog (V * W) A :=
  match p with
  | Ret a => Ret a
  | Atom op k => Atom (fun s => ((op s.2).1, (s.1, (op s.2).2))) (fun b => on_snd (k b))
  end.

Lemma run_on_fst {V W A} (p : Prog V A) (v : V) (w : W) :
  run (on_fst p) (v, w) = ((run p v).1, ((run p v).2, w)).
Proof.
  revert v. induction p as [a|B op k IH]; intros v; simpl; [done|].
  rewrite IH. by destruct (op v).
Qed.

Lemma run_on_snd {V W A} (p : Prog W A) (v : V) (w : W) :
  run (on_snd p) (v, w) = ((run p w).1, (v, (run p w).2)).
Proof.
  revert w. induction p as [a|B op k IH]; intros w; simpl; [done|].
  rewrite IH. by destruct (op w).
Qed.

(** ** Weakest preconditions of a sequential run *)

Definition wp {W A} (p : Prog W A) (Q : A -> W -> Prop) (w : W) : Prop :=
  Q (run p w).1 (run p w).2.

Lemma wp_ret {W A} (a : A) Q (w : W) : Q a w -> wp (Ret a) Q w.
Proof. done. Qed.

Lemma wp_bind {W A B} (p : Prog W A) (f : A -> Prog W B) Q w :
  wp p (fun a w' => wp (f a) Q w') w -> wp (bind p f) Q w.
Proof. unfold wp. rewrite run_bind. by destruct (run p w). Qed.

Lemma wp_atom {W A} (op : W -> A * W) Q w :
  Q (op w).1 (op w).2 -> wp (atom op) Q w.
Proof. unfold wp. by rewrite run_atom. Qed.

Lemma wp_mono {W A} (p : Prog W A) (Q Q' : A -> W -> Prop) w :
  wp p Q w -> (forall a w', Q a w' -> Q' a w') -> wp p Q' w.
Proof. unfold wp. auto. Qed.

Lemma wp_run {W A} (p : Prog W A) (Q : A -> W -> Prop) w :
  wp p Q w -> forall a w', run p w = (a, w') -> Q a w'.
Proof. unfold wp. intros H a w' E. by rewrite E in H. Qed.

Lemma wp_on_fst {V W A} (p : Prog V A) (Q : A -> V * W -> Prop) v w :
  wp p (fun a v' => Q a (v', w)) v -> wp (on_fst p) Q (v, w).
Proof. unfold wp. by rewrite run_on_fst. Qed.

Lemma wp_on_snd {V W A} (p : Prog W A) (Q : A -> V * W -> Prop) v w :
  wp p (fun a w' => Q a (v, w')) w -> wp (on_snd p) Q (v, w).
Proof. unfold wp. by rewrite run_on_snd. Qed.

(** ** Invariants and guarantees of every atomic operation *)

(** [safe I G Q p]: from any state satisfying [I], whatever the other threads
    left there, each atomic operation of [p] keeps [I] and makes a step of [G];
    the values it returns are the ones such states can give, and [p] returns
    only values satisfying [Q]. *)
Fixpoint safe {W A} (I : W -> Prop) (G : W -> W -> Prop) (Q : A -> Prop) (p : Prog W A) : Prop :=
  match p with
  | Ret a => Q a
  | Atom op k => forall w, I w -> I (op w).2 /\ G w (op w).2 /\ safe I G Q (k (op w).1)
  end.

Definition any {A} (_ : A) : Prop := True.

Section Safe.
Context {W : Type} (I : W -> Prop) (G : W -> W -> Prop).

Lemma safe_ret {A} (Q : A -> Prop) (a : A) : Q a -> safe I G Q (Ret a).
Proof. done. Qed.

Lemma safe_any {A} (a : A) : safe I G any (Ret a).
Proof. done. Qed.

Lemma safe_mono {A} (Q Q' : A -> Prop) (p : Prog W A) :
  safe I G Q p -> (forall a, Q a -> Q' a) -> safe I G Q' p.
Proof.
  intros Hp HQ. induction p as [a|B op k IH]; simpl in *; [auto|].
  intros w Hw. destruct (Hp w Hw) as (?&?&?). auto.
Qed.

Lemma safe_bind {A B} (Q : A -> Prop) (R : B -> Prop) (p : Prog W A) (f : A -> Prog W B) :
  safe I G Q p -> (forall a, Q a -> safe I G R (f a)) -> safe I G R (bind p f).
Proof.
  intros Hp Hf. induction p as [a|C op k IH]; simpl in *; [auto|].
  intros w Hw. destruct (Hp w Hw) as (?&?&?). auto.
Qed.

Lemma safe_atom {A} (Q : A -> Prop) (op : W -> A * W) :
  (forall w, I w -> I (op w).2 /\ G w (op w).2 /\ Q (op w).1) -> safe I G Q (atom op).
Proof. done. Qed.

(** The returned value of a call does not matter to what follows. *)
Lemma safe_bind_any {A B} (R : B -> Prop) (p : Prog W A) (f : A -> Prog W B) :
  safe I G any p -> (forall a, safe I G R (f a)) -> safe I G R (bind p f).
Proof. intros Hp Hf. by apply (safe_bind any). Qed.

(** Running a safe program alone. *)
Lemma safe_run {A} (Q : A -> Prop) (p : Prog W A) w :
  safe I G Q p -> I w -> I (run p w).2 /\ rtc G w (run p w).2 /\ Q (run p w).1.
Proof.
  revert w. induction p as [a|B op k IH]; intros w Hp Hw; simpl in *; [auto using rtc_refl|].
  destruct (Hp w Hw) as (HI & HG & Hk). destruct (op w) as [b w'] eqn:E. simpl in *.
  destruct (IH b w' Hk HI) as (?&?&?). split_and!; [done|by eapply rtc_l|done].
Qed.

Lemma safe_atomically `{!Reflexive G, !Transitive G} {A} (Q : A -> Prop) (p : Prog W A) :
  safe I G Q p -> safe I G Q (atomically p).
Proof.
  intros Hp. apply safe_atom. intros w Hw.
  destruct (safe_run Q p w Hp Hw) as (?&Hs&?). split_and!; [done| |done].
  clear -Hs Reflexive0 Transitive0. induction Hs; [reflexivity|by etrans].
Qed.

End Safe.

Lemma safe_impl {W A} (I : W -> Prop) (G G' : W -> W -> Prop) (Q : A -> Prop) (p : Prog W A) :
  (forall w w', I w -> G w w' -> G' w w') -> safe I G Q p -> safe I G' Q p.
Proof.
  intros HG. induction p as [a|B op k IH]; simpl; [done|].
  intros Hp w Hw. destruct (Hp w Hw) as (?&?&?). auto.
Qed.

(** ** Interleavings *)

(** A pool of threads over one world. A step performs the next atomic operation
    of some thread, retires a thread that has returned, or starts a goroutine
    the world has pending. *)
Inductive pool_step {W} (spawns : W -> Prog W unit -> W -> Prop) :
    list (Prog W unit) * W -> list (Prog W unit) * W -> Prop :=
| pool_atom ts1 ts2 B (op : W -> B * W) k w :
    pool_step spawns (ts1 ++ Atom op k :: ts2, w) (ts1 ++ k (op w).1 :: ts2, (op w).2)
| pool_done ts1 ts2 w :
    pool_step spawns (ts1 ++ Ret tt :: ts2, w) (ts1 ++ ts2, w)
| pool_spawn ts p w w' :
    spawns w p w' ->
    pool_step spawns (ts, w) (p :: ts, w').

(** A thread scheduled without interruption. *)
Lemma pool_run {W} (spawns : W -> Prog W unit -> W -> Prop) (p : Prog W unit) ts w :
  rtc (pool_step spawns) (p :: ts, w) (ts, (run p w).2).
Proof.
  revert w. induction p as [[]|B op k IH]; intros w; simpl.
  - apply rtc_once. apply (pool_done spawns [] ts w).
  - eapply rtc_l; [apply (pool_atom spawns [] ts B op k w)|]. simpl.
    specialize (IH (op w).1 (op w).2). by destruct (op w).
Qed.

(** A thread that runs the first part of its program without interruption. *)
Lemma pool_bind {W A} (spawns : W -> Prog W unit -> W -> Prop) (p : Prog W A) k ts1 ts2 w :
  rtc (pool_step spawns) (ts1 ++ bind p k :: ts2, w) (ts1 ++ k (run p w).1 :: ts2, (run p w).2).
Proof.
  revert w. induction p as [a|B op k0 IH]; intros w; simpl; [apply rtc_refl|].
  eapply rtc_l; [apply (pool_atom spawns ts1 ts2 B op (fun b => bind (k0 b) k) w)|].
  specialize (IH (op w).1 (op w).2). by destruct (op w).
Qed.

(** Safe threads keep the invariant, and the world moves by steps of [G], in
    every interleaving. *)
Theorem safe_pool {W} (spawns : W -> Prog W unit -> W -> Prop) (I : W -> Prop) (G : W -> W -> Prop) c c' :
  (forall w p w', spawns w p w' -> I w -> I w' /\ G w w' /\ safe I G any p) ->
  rtc (pool_step spawns) c c' ->
  I c.2 -> Forall (safe I G any) c.1 ->
  I c'.2 /\ rtc G c.2 c'.2 /\ Forall (safe I G any) c'.1.
Proof.
  intros Hspawn. induction 1 as [c|c1 c2 c3 Hstep _ IH]; intros HI Hts; [by auto using rtc_refl|].
  assert (I c2.2 /\ rtc G c1.2 c2.2 /\ Forall (safe I G any) c2.1) as (HI2 & HG & Hts2).
  { destruct Hstep as [ts1 ts2 B op k w|ts1 ts2 w|ts p w w' Hsp]; simpl in *.
    - apply Forall_app in Hts as [H1 [H2 H3]%Forall_cons].
      destruct (H2 w HI) as (?&?&?). split_and!; [done|by apply rtc_once|].
      apply Forall_app; split; [done|]. by constructor.
    - apply Forall_app in Hts as [H1 [H2 H3]%Forall_cons].
      split_and!; [done|apply rtc_refl|]. by apply Forall_app.
    - destruct (Hspawn _ _ _ Hsp HI) as (?&?&?).
      split_and!; [done|by apply rtc_once|by constructor]. }
  destruct (IH HI2 Hts2) as (?&?&?). split_and!; [done|by etrans|done].
Qed.

(** ** Termination *)

(** One element of a list makes a step of [R], or leaves. *)
Inductive list_step {A} (R : A -> A -> Prop) : list A -> list A -> Prop :=
| list_replace l1 a' a l2 : R a' a -> list_step R (l1 ++ a' :: l2) (l1 ++ a :: l2)
| list_remove l1 a l2 : list_step R (l1 ++ l2) (l1 ++ a :: l2).

Lemma list_step_cons {A} (R : A -> A -> Prop) l' a l :
  list_step R l' (a :: l) ->
  (exists a', R a' a /\ l' = a' :: l) \/ l' = l \/ exists l0, list_step R l0 l /\ l' = a :: l0.
Proof.
  intros Hs. remember (a :: l) as m eqn:Em.
  destruct Hs as [[|b l1] x y l2 HR|[|b l1] x l2]; simplify_eq/=; [by eauto| |by eauto|];
    right; right; eexists; (split; [|done]); by constructor.
Qed.

Lemma list_step_wf {A} (R : A -> A -> Prop) : well_founded R -> well_founded (list_step R).
Proof.
  intros HR. assert (forall a, Acc R a -> forall l, Acc (list_step R) l -> Acc (list_step R) (a :: l)) as Hc.
  { induction 1 as [a _ IHa]. induction 1 as [l Hl IHl]. constructor.
    intros m [(a' & Ha & ->)|[->|(l0 & Hl0 & ->)]]%list_step_cons; [|by constructor|by apply IHl].
    apply IHa; [done|by constructor]. }
  intros l. induction l as [|a l IH]; [|by apply Hc]. constructor.
  intros m Hm. exfalso. remember [] as l eqn:El. destruct Hm as [[]|[]]; simplify_eq/=.
Qed.

(** A well-founded relation has no infinite descent. *)
Lemma no_descent {A} (R : A -> A -> Prop) (s : nat -> A) :
  Acc R (s O) -> ~ (forall i, R (s (S i)) (s i)).
Proof.
  remember (s O) as a eqn:Ea. intros Ha. revert s Ea. induction Ha as [a _ IH]. intros s -> Hs.
  apply (IH (s 1%nat) (Hs O) (fun i => s (S i)) eq_refl). intros i. apply Hs.
Qed.

#[export] Hint Resolve safe_any : safe.

#[global] Arguments bind : simpl never.
#[global] Arguments wp : simpl never.
#[global] Arguments atomically : simpl never.
#[global] Arguments safe : simpl never.
