(* ===== verification/GoStrings.v ===== *)
(** * Go's string and number routines

    The parts of Go's [strings], [strconv] and [encoding/hex] the modelled
    packages call, on byte strings ([len] counts bytes, as in Go), with the
    lemmas the components share. *)

From stdpp Require Import strings list pretty.
From Stdlib Require Import Ascii ZArith Lia.
From S2P Require Import Prelude.

Open Scope Z_scope.

(** [len(s)]. *)
Definition len (s : string) : Z := Z.of_nat (String.length s).

Definition is_empty (s : string) : bool := String.eqb s EmptyString.

(** ** Character classes *)

Definition byte_of (c : ascii) : Z := Z.of_N (N_of_ascii c).

Definition in_range (lo hi : ascii) (c : ascii) : bool :=
  (byte_of lo <=? byte_of c)%Z && (byte_of c <=? byte_of hi)%Z.

Definition is_digit : ascii -> bool := in_range "0" "9".
Definition is_lower : ascii -> bool := in_range "a" "z".
Definition is_upper : ascii -> bool := in_range "A" "Z".
Definition digit_val (c : ascii) : Z := (byte_of c - 48)%Z.

Definition to_lower_char (c : ascii) : ascii :=
  if is_upper c then ascii_of_N (N_of_ascii c + 32) else c.

Fixpoint str_forallb (f : ascii -> bool) (s : string) : bool :=
  match s with
  | EmptyString => true
  | String c s' => f c && str_forallb f s'
  end.

Fixpoint str_map (f : ascii -> ascii) (s : string) : string :=
  match s with
  | EmptyString => EmptyString
  | String c s' => String (f c) (str_map f s')
  end.

(** [strings.ToLower] on ASCII. *)
Definition to_lower : string -> string := str_map to_lower_char.

Fixpoint str_last (s : string) : option ascii :=
  match s with
  | EmptyString => None
  | String c EmptyString => Some c
  | String _ s' => str_last s'
  end.

(** ** [strings.HasPrefix], [strings.Contains], [strings.SplitN(s, sep, 2)] *)

Fixpoint has_prefix (p s : string) : bool :=
  match p, s with
  | EmptyString, _ => true
  | String a p', String b s' => Ascii.eqb a b && has_prefix p' s'
  | _, _ => false
  end.

Fixpoint contains (sub s : string) : bool :=
  has_prefix sub s ||
  match s with
  | EmptyString => false
  | String _ s' => contains sub s'
  end.

(** The text before and after the first [sep]; [None] when it does not occur. *)
Fixpoint cut (sep : ascii) (s : string) : option (string * string) :=
  match s with
  | EmptyString => None
  | String c s' =>
      if Ascii.eqb c sep then Some (EmptyString, s')
      else match cut sep s' with
           | Some (a, b) => Some (String c a, b)
           | None => None
           end
  end.

(** The text before and after the last [sep]. *)
Fixpoint cut_last (sep : ascii) (s : string) : option (string * string) :=
  match s with
  | EmptyString => None
  | String c s' =>
      match cut_last sep s' with
      | Some (a, b) => Some (String c a, b)
      | None => if Ascii.eqb c sep then Some (EmptyString, s') else None
      end
  end.

(** [unicode.IsSpace] on UTF-8 text: a space is one, two or three bytes. *)
Definition is_space (c : ascii) : bool :=
  (9 <=? byte_of c)%Z && (byte_of c <=? 13)%Z || Ascii.eqb c " ".

(** U+0085 and U+00A0. *)
Definition is_space2 (a b : ascii) : bool :=
  (byte_of a =? 194)%Z && ((byte_of b =? 133)%Z || (byte_of b =? 160)%Z).

(** U+1680, U+2000 to U+200A, U+2028, U+2029, U+202F, U+205F and U+3000. *)
Definition is_space3 (a b c : ascii) : bool :=
  let x := byte_of c in
  if (byte_of a =? 225)%Z then (byte_of b =? 154)%Z && (x =? 128)%Z
  else if (byte_of a =? 227)%Z then (byte_of b =? 128)%Z && (x =? 128)%Z
  else if (byte_of a =? 226)%Z then
    (byte_of b =? 128)%Z &&
      ((128 <=? x)%Z && (x <=? 138)%Z || (x =? 168)%Z || (x =? 169)%Z || (x =? 175)%Z) ||
    (byte_of b =? 129)%Z && (x =? 159)%Z
  else false.

(** The text after its leading spaces; [rev] tells that both the text and the
    bytes of its characters are in reverse order. *)
Fixpoint trim_spaces (rev : bool) (s : string) : string :=
  match s with
  | EmptyString => EmptyString
  | String a s1 =>
      if is_space a then trim_spaces rev s1 else
      match s1 with
      | EmptyString => s
      | String b s2 =>
          if (if rev then is_space2 b a else is_space2 a b) then trim_spaces rev s2 else
          match s2 with
          | EmptyString => s
          | String c s3 => if (if rev then is_space3 c b a else is_space3 a b c) then trim_spaces rev s3 else s
          end
      end
  end.

Fixpoint string_rev_app (s t : string) : string :=
  match s with EmptyString => t | String c s' => string_rev_app s' (String c t) end.

Definition string_rev (s : string) : string := string_rev_app s EmptyString.

(** [strings.TrimSpace]. *)
Definition trim_space (s : string) : string :=
  string_rev (trim_spaces true (string_rev (trim_spaces false s))).

Example trim_space_ex :
  trim_space (String "194" (String "160" (" a b" +:+ String "226" (String "128" (String "169" (String "009" EmptyString))))))
    = "a b".
Proof. reflexivity. Qed.

(** [strings.TrimRight(s, "/")]. *)
Fixpoint trim_slashes (s : string) : string :=
  match s with
  | EmptyString => EmptyString
  | String c s' =>
      match trim_slashes s' with
      | EmptyString => if Ascii.eqb c "/" then EmptyString else String c EmptyString
      | t => String c t
      end
  end.

(** [strings.TrimLeft(s, "/")]. *)
Fixpoint trim_left_slashes (s : string) : string :=
  match s with
  | String "/" s' => trim_left_slashes s'
  | _ => s
  end.

(** [strings.Join]. *)
Fixpoint join (sep : string) (l : list string) : string :=
  match l with
  | [] => EmptyString
  | [x] => x
  | x :: l' => x +:+ sep +:+ join sep l'
  end.

(** [strings.TrimPrefix]. *)
Fixpoint trim_prefix_opt (p s : string) : option string :=
  match p, s with
  | EmptyString, _ => Some s
  | String a p', String b s' => if Ascii.eqb a b then trim_prefix_opt p' s' else None
  | _, _ => None
  end.
Definition trim_prefix (p s : string) : string := default s (trim_prefix_opt p s).

(** ** [strconv.Atoi] and [%d] *)

Definition max_int64 : Z := 9223372036854775807.
Definition min_int64 : Z := -9223372036854775808.

(** Two's-complement wrap-around of a 64-bit [int]. *)
Definition wrap64 (z : Z) : Z := ((z + 2 ^ 63) mod 2 ^ 64 - 2 ^ 63)%Z.

Definition in_int64 (z : Z) : bool := ((min_int64 <=? z) && (z <=? max_int64))%Z.

(** Postgres INTEGER. *)
Definition in_int4 (z : Z) : bool := ((-2147483648 <=? z) && (z <=? 2147483647))%Z.

Fixpoint digits_value (acc : Z) (s : string) : option Z :=
  match s with
  | EmptyString => Some acc
  | String c s' => if is_digit c then digits_value (10 * acc + digit_val c)%Z s' else None
  end.

Definition atoi (s : string) : option Z :=
  let '(neg, body) :=
    match s with
    | String "-" s' => (true, s')
    | String "+" s' => (false, s')
    | _ => (false, s)
    end in
  if is_empty body then None
  else match digits_value 0 body with
       | Some v => let v := if (neg : bool) then (- v)%Z else v in
                   if in_int64 v then Some v else None
       | None => None
       end.

Definition itoa (z : Z) : string := pretty z.

(** ** [encoding/hex] *)

Definition hex_digit (n : Z) : ascii :=
  ascii_of_N (Z.to_N (if (n <? 10)%Z then 48 + n else 87 + n)).

Definition from_hex_char (c : ascii) : option Z :=
  if is_digit c then Some (byte_of c - 48)%Z
  else if in_range "a" "f" c then Some (byte_of c - 87)%Z
  else if in_range "A" "F" c then Some (byte_of c - 55)%Z
  else None.

(** [hex.EncodeToString]. *)
Fixpoint hex_encode (s : string) : string :=
  match s with
  | EmptyString => EmptyString
  | String c s' =>
      String (hex_digit (byte_of c / 16)) (String (hex_digit (byte_of c mod 16)) (hex_encode s'))
  end.

(** [hex.DecodeString]. *)
Fixpoint hex_decode (s : string) : option string :=
  match s with
  | EmptyString => Some EmptyString
  | String a (String b s') =>
      match from_hex_char a, from_hex_char b, hex_decode s' with
      | Some x, Some y, Some r => Some (String (ascii_of_N (Z.to_N (16 * x + y))) r)
      | _, _, _ => None
      end
  | String _ EmptyString => None
  end.

(** ** [encoding/base64] *)

Section Base64.
#[local] Open Scope Z_scope.

Definition b64url_char (n : Z) : ascii :=
  if n <? 26 then ascii_of_N (Z.to_N (65 + n))
  else if n <? 52 then ascii_of_N (Z.to_N (97 + (n - 26)))
  else if n <? 62 then ascii_of_N (Z.to_N (48 + (n - 52)))
  else if n =? 62 then "-"%char else "_"%char.

(** [base64.RawURLEncoding.EncodeToString]. *)
Fixpoint b64url_encode (s : string) : string :=
  match s with
  | EmptyString => EmptyString
  | String a EmptyString =>
      let n := byte_of a in
      String (b64url_char (Z.shiftr n 2)) (String (b64url_char (Z.shiftl (Z.land n 3) 4)) EmptyString)
  | String a (String b EmptyString) =>
      let n := 256 * byte_of a + byte_of b in
      String (b64url_char (Z.shiftr n 10)) (String (b64url_char (Z.land (Z.shiftr n 4) 63))
        (String (b64url_char (Z.shiftl (Z.land n 15) 2)) EmptyString))
  | String a (String b (String c s')) =>
      let n := 65536 * byte_of a + 256 * byte_of b + byte_of c in
      String (b64url_char (Z.shiftr n 18)) (String (b64url_char (Z.land (Z.shiftr n 12) 63))
        (String (b64url_char (Z.land (Z.shiftr n 6) 63)) (String (b64url_char (Z.land n 63)) (b64url_encode s'))))
  end.

End Base64.

(** ** Lemmas *)

Lemma byte_of_range c : (0 <= byte_of c < 256)%Z.
Proof. unfold byte_of. pose proof (N_ascii_bounded c). lia. Qed.

Lemma hex_byte_roundtrip c :
  from_hex_char (hex_digit (byte_of c / 16)) = Some (byte_of c / 16)%Z /\
  from_hex_char (hex_digit (byte_of c mod 16)) = Some (byte_of c mod 16)%Z.
Proof.
  destruct c as [[] [] [] [] [] [] [] []]; vm_compute; split; reflexivity.
Qed.

Lemma hex_decode_encode s : hex_decode (hex_encode s) = Some s.
Proof.
  induction s as [|c s IH]; [done|]. cbn [hex_encode hex_decode].
  destruct (hex_byte_roundtrip c) as [-> ->]. rewrite IH.
  do 2 f_equal. rewrite <- Z.div_mod by lia. unfold byte_of.
  rewrite N2Z.id. apply ascii_N_embedding.
Qed.

Lemma wrap64_id z : in_int64 z = true -> wrap64 z = z.
Proof.
  unfold in_int64, min_int64, max_int64, wrap64. intros [H1 H2]%andb_prop.
  apply Z.leb_le in H1, H2. rewrite Z.mod_small; lia.
Qed.

Lemma atoi_int64 s n : atoi s = Some n -> min_int64 <= n <= max_int64.
Proof.
  unfold atoi. destruct (match s with String _ _ => _ | _ => _ end) as [neg body].
  destruct (is_empty body); [done|]. destruct (digits_value 0 body); [|done].
  destruct (in_int64 _) eqn:Hin; [|done]. intros [= <-].
  unfold in_int64 in Hin. by apply andb_prop in Hin as [H1%Z.leb_le H2%Z.leb_le].
Qed.

Lemma is_empty_true s : is_empty s = true <-> s = EmptyString.
Proof. unfold is_empty. apply String.eqb_eq. Qed.

Lemma is_empty_false s : is_empty s = false <-> s <> EmptyString.
Proof. unfold is_empty. apply String.eqb_neq. Qed.

Lemma str_eqb_refl s : String.eqb s s = true.
Proof. apply String.eqb_refl. Qed.

#[export] Hint Rewrite hex_decode_encode str_eqb_refl : sql.
#[export] Hint Resolve wrap64_id : goint.

(** ** Concatenation, prefixes, substrings *)

Lemma string_app_assoc (a b c : string) : (a +:+ b) +:+ c = a +:+ (b +:+ c).
Proof.
  induction a as [|x a IH]; [done|].
  change ((String x a +:+ b) +:+ c) with (String x ((a +:+ b) +:+ c)). by rewrite IH.
Qed.

Lemma app_cons c (a b : string) : String c a +:+ b = String c (a +:+ b).
Proof. reflexivity. Qed.

Lemma app_nil_str (s : string) : s +:+ EmptyString = s.
Proof. induction s as [|c s IH]; [done|]. by rewrite app_cons, IH. Qed.

Lemma string_length_app (a b : string) :
  String.length (a +:+ b) = (String.length a + String.length b)%nat.
Proof.
  induction a as [|c a IH]; [done|].
  change (String c a +:+ b) with (String c (a +:+ b)). simpl. by rewrite IH.
Qed.

Lemma trim_prefix_opt_iff p s r : trim_prefix_opt p s = Some r <-> s = p +:+ r.
Proof.
  revert s. induction p as [|a p IH]; intros s; simpl.
  - split; [by intros [= ->]|by intros ->].
  - destruct s as [|b s]; [done|]. destruct (Ascii.eqb_spec a b) as [->|Hne].
    + rewrite IH. split; [by intros ->|by intros [= ->]].
    + split; [done|]. intros [= <- _]. done.
Qed.

Lemma has_prefix_iff p s : has_prefix p s = true <-> exists r, s = p +:+ r.
Proof.
  revert s. induction p as [|a p IH]; intros s; simpl; [split; eauto|].
  destruct s as [|b s]; [split; [done|by intros [r ?]]|].
  rewrite andb_true_iff, Ascii.eqb_eq, IH. split.
  - intros [-> [r ->]]. by exists r.
  - intros [r [= <- ->]]. split; [done|by exists r].
Qed.

Lemma contains_iff sub s : contains sub s = true <-> exists a b, s = a +:+ sub +:+ b.
Proof.
  induction s as [|c s IH]; cbn [contains]; rewrite orb_true_iff, has_prefix_iff.
  - split; [intros [[r Hr]|]; [by exists EmptyString, r|done]|].
    intros ([|] & b & E); [left; by exists b|done].
  - rewrite IH. split.
    + intros [[r Hr]|(a & b & ->)]; [by exists EmptyString, r|by exists (String c a), b].
    + intros ([|c' a] & b & E); [left; by exists b|right]. injection E as -> ->. by exists a, b.
Qed.

Lemma str_forallb_app f a b : str_forallb f (a +:+ b) = str_forallb f a && str_forallb f b.
Proof. induction a as [|c a IH]; [done|]. rewrite app_cons. simpl. by rewrite IH, andb_assoc. Qed.

Lemma cut_last_app sep a b :
  cut_last sep b = None -> cut_last sep (a +:+ String sep b) = Some (a, b).
Proof.
  intros Hb. induction a as [|x a IH].
  - change (cut_last sep (String sep b) = Some (EmptyString, b)). simpl. by rewrite Hb, Ascii.eqb_refl.
  - rewrite app_cons. simpl. by rewrite IH.
Qed.

Lemma no_char_cut_last sep s : str_forallb (fun x => negb (Ascii.eqb x sep)) s = true -> cut_last sep s = None.
Proof.
  induction s as [|c s IH]; [done|]. simpl. intros [Hc Hs]%andb_prop. rewrite (IH Hs).
  by apply negb_true_iff in Hc as ->.
Qed.
