(* ===== verification/NetIP.v ===== *)
(** * IP addresses and prefixes

    The part of Go's [net/netip] and [net] that the code uses: parsing and
    printing IPv4 addresses, prefixes, masking and stepping; parsing IPv6
    addresses, [net.ParseIP] and [net.SplitHostPort]. An IPv4 [Addr] is its 32-bit value; the zero [Addr]
    (what [Next] returns past 255.255.255.255) is [None]. *)

From stdpp Require Import strings list pretty.
From Stdlib Require Import Ascii ZArith Lia.
From S2P Require Import Prelude GoStrings.

Open Scope Z_scope.

Definition addr_max : Z := 2 ^ 32 - 1.

Record Prefix := mkPrefix { p_addr : Z; p_bits : Z }.

(** [Addr.As4]: the bytes, most significant first. *)
Definition As4 (a : Z) : list Z :=
  [a / 2 ^ 24; (a / 2 ^ 16) mod 256; (a / 2 ^ 8) mod 256; a mod 256].

(** [AddrFrom4]. *)
Definition AddrFrom4 (bs : list Z) : Z :=
  match bs with
  | [b0; b1; b2; b3] => b0 * 2 ^ 24 + b1 * 2 ^ 16 + b2 * 2 ^ 8 + b3
  | _ => 0
  end.

(** [Addr.String] for an IPv4 address. *)
Definition AddrString (a : Z) : string :=
  match As4 a with
  | [b0; b1; b2; b3] => itoa b0 +:+ "." +:+ itoa b1 +:+ "." +:+ itoa b2 +:+ "." +:+ itoa b3
  | _ => EmptyString
  end.

(** [Addr.Next]. *)
Definition AddrNext (a : option Z) : option Z :=
  match a with
  | Some a => if a =? addr_max then None else Some (a + 1)
  | None => None
  end.

(** The field loop of netip's IPv4 parser: [prev] is the character before the
    current one, [fields] the octets read so far. *)
Fixpoint parseIPv4Fields (s : string) (prev : option ascii) (fields : list Z)
    (val digLen : Z) : option (list Z) :=
  match s with
  | EmptyString => if Nat.eqb (length fields) 3 then Some (fields ++ [val]) else None
  | String c s' =>
      if is_digit c then
        if (digLen =? 1) && (val =? 0) then None
        else let val' := val * 10 + digit_val c in
             if 255 <? val' then None
             else parseIPv4Fields s' (Some c) fields val' (digLen + 1)
      else if Ascii.eqb c "." then
        match prev with
        | None => None
        | Some pc =>
            if Ascii.eqb pc "." || is_empty s' then None
            else if Nat.eqb (length fields) 3 then None
            else parseIPv4Fields s' (Some c) (fields ++ [val]) 0 0
        end
      else None
  end.

Definition parseIPv4 (s : string) : option Z :=
  match parseIPv4Fields s None [] 0 0 with
  | Some bs => Some (AddrFrom4 bs)
  | None => None
  end.

(** [netip.ParsePrefix], for the prefixes whose address is IPv4. Text that is
    not a prefix and a well-formed IPv6 prefix both give [None]: the callers
    reject both. *)
Definition ParsePrefix4 (s : string) : option Prefix :=
  match cut_last "/" s with
  | None => None
  | Some (ip, bitsStr) =>
      match parseIPv4 ip with
      | None => None
      | Some a =>
          let leading_ok :=
            match bitsStr with
            | String c (String _ _) => in_range "1" "9" c
            | _ => true
            end in
          if negb leading_ok then None
          else match atoi bitsStr with
               | Some b => if (0 <=? b) && (b <=? 32) then Some (mkPrefix a b) else None
               | None => None
               end
      end
  end.

(** [Prefix.Masked]. *)
Definition Masked (p : Prefix) : Prefix :=
  mkPrefix (p_addr p / 2 ^ (32 - p_bits p) * 2 ^ (32 - p_bits p)) (p_bits p).

(** [Prefix.Contains] for an IPv4 address. *)
Definition PrefixContains (p : Prefix) (a : Z) : bool :=
  a / 2 ^ (32 - p_bits p) =? p_addr p / 2 ^ (32 - p_bits p).

Definition wf_prefix (p : Prefix) : Prop :=
  0 <= p_addr p <= addr_max /\ 0 <= p_bits p <= 32.

(** ** IPv6 texts *)

Definition is_hex (c : ascii) : bool := match from_hex_char c with Some _ => true | None => false end.

(** One group of an IPv6 address: how many digits, their value and the rest.
    More than four digits are an error. *)
Fixpoint hex_group (s : string) (off : nat) (acc : Z) : option (nat * Z * string) :=
  match s with
  | String c s' =>
      match from_hex_char c with
      | Some d => if Nat.ltb 3 off then None else hex_group s' (S off) (16 * acc + d)
      | None => Some (off, acc, s)
      end
  | EmptyString => Some (off, acc, EmptyString)
  end.

(** At the end of the text with [n] groups missing: an ellipsis stands for at
    least one of them. *)
Definition v6_end (n : nat) (ellipsis : bool) : bool :=
  match n with O => negb ellipsis | S _ => ellipsis end.

(** The group loop of netip's IPv6 parser, [n] groups before the end: the groups
    read, with [None] where the ellipsis stands. *)
Fixpoint v6_groups (n : nat) (ellipsis : bool) (s : string) : option (list (option Z)) :=
  match n with
  | O => None
  | S n' =>
      match hex_group s 0 0 with
      | None | Some (O, _, _) => None
      | Some (_, _, String "." _) =>
          if (ellipsis || Nat.eqb n 2) && Nat.leb 2 n && v6_end (n - 2) ellipsis then
            match parseIPv4 s with
            | Some a => Some [Some (a / 65536); Some (a mod 65536)]
            | None => None
            end
          else None
      | Some (_, v, EmptyString) => if v6_end n' ellipsis then Some [Some v] else None
      | Some (_, v, String ":" (String ":" rest)) =>
          if ellipsis then None
          else if is_empty rest then (if v6_end n' true then Some [Some v; None] else None)
          else option_map (fun gs => Some v :: None :: gs) (v6_groups n' true rest)
      | Some (_, v, String ":" (String c rest)) =>
          option_map (cons (Some v)) (v6_groups n' ellipsis (String c rest))
      | Some (_, _, _) => None
      end
  end.

(** The ellipsis stands for the zero groups that are missing. *)
Definition expand (gs : list (option Z)) : list Z :=
  flat_map (fun g => match g with Some v => [v] | None => repeat 0 (9 - length gs) end) gs.

(** The eight groups of an IPv6 address without a zone. *)
Definition parseIPv6 (s : string) : option (list Z) :=
  match s with
  | String ":" (String ":" EmptyString) => Some (repeat 0 8)
  | String ":" (String ":" rest) => option_map (fun gs => expand (None :: gs)) (v6_groups 8 true rest)
  | _ => option_map expand (v6_groups 8 false s)
  end.

(** ** [net.IP]

    As [To4] sees it: an IPv4 address, mapped ones included, or another IPv6
    address. *)
Inductive IP := IP4 (a : Z) | IP6 (gs : list Z).

Definition as_ip (gs : list Z) : IP :=
  match gs with
  | [0; 0; 0; 0; 0; 65535; hi; lo] => IP4 (hi * 65536 + lo)
  | _ => IP6 gs
  end.

(** [net.ParseIP]. *)
Definition ParseIP (s : string) : option IP :=
  match parseIPv4 s with
  | Some a => Some (IP4 a)
  | None => option_map as_ip (parseIPv6 s)
  end.

(** [net.ParseIP(s) != nil]. *)
Definition is_ip (s : string) : bool := match ParseIP s with Some _ => true | None => false end.

Definition IsLoopback (ip : IP) : bool :=
  match ip with IP4 a => a / 2 ^ 24 =? 127 | IP6 gs => bool_decide (gs = [0; 0; 0; 0; 0; 0; 0; 1]) end.

Definition IsLinkLocalUnicast (ip : IP) : bool :=
  match ip with
  | IP4 a => a / 2 ^ 16 =? 169 * 256 + 254
  | IP6 (g :: _) => Z.land g 65472 =? 65152
  | IP6 [] => false
  end.

Definition IsUnspecified (ip : IP) : bool :=
  match ip with IP4 a => a =? 0 | IP6 gs => bool_decide (gs = repeat 0 8) end.

(** [IPNet.Contains] for an IPv4 network. *)
Definition NetContains (p : Prefix) (ip : IP) : bool :=
  match ip with IP4 a => PrefixContains p a | IP6 _ => false end.

(** ** [net.SplitHostPort] *)

Definition has_char (c : ascii) (s : string) : bool := negb (str_forallb (fun x => negb (Ascii.eqb x c)) s).

Definition SplitHostPort (hostport : string) : option (string * string) :=
  match cut_last ":" hostport with
  | None => None
  | Some (before, port) =>
      match hostport with
      | String "[" rest =>
          match cut "]" rest with
          | Some (host, String ":" p) =>
              if has_char ":" p || has_char "[" rest || has_char "]" p then None else Some (host, p)
          | _ => None
          end
      | _ =>
          if has_char ":" before || has_char "[" hostport || has_char "]" hostport then None
          else Some (before, port)
      end
  end.

Example v6_texts : map (fun s => bool_decide (is_Some (parseIPv6 s)))
  ["::"; "::1"; "1::"; "1:2:3:4:5:6:7:8"; "::ffff:10.0.0.1"; "1::2::3"; "1:2:3:4:5:6:7::";
  "1:2:3:4:5:6:7:8:9"; "12345::"; ":1"; "1:2"; "1:2:3:4:5:6:7:8::"; "g::"; "1:"] =
  [true; true; true; true; true; false; true; false; false; false; false; false; false; false].
Proof. vm_compute. reflexivity. Qed.
Example v6_values : map parseIPv6 ["fe80::a:1"; "1:2:3:4:5:6:7::"; "::1"] =
  [Some [65152; 0; 0; 0; 0; 0; 10; 1]; Some [1; 2; 3; 4; 5; 6; 7; 0]; Some [0; 0; 0; 0; 0; 0; 0; 1]].
Proof. reflexivity. Qed.
Example ip_mapped : ParseIP "::ffff:10.0.0.1" = Some (IP4 167772161).
Proof. reflexivity. Qed.

(** ** Printing and parsing *)

Lemma As4_range a : 0 <= a <= addr_max -> Forall (fun b => 0 <= b < 256) (As4 a).
Proof.
  unfold addr_max, As4. intros H. repeat constructor; try (apply Z.mod_pos_bound; lia).
  - apply Z.div_pos; lia.
  - apply Z.div_lt_upper_bound; lia.
Qed.

Lemma AddrFrom4_As4 a : 0 <= a <= addr_max -> AddrFrom4 (As4 a) = a.
Proof.
  unfold addr_max, As4, AddrFrom4. intros H.
  change (2 ^ 24) with (256 * 256 * 256). change (2 ^ 16) with (256 * 256).
  change (2 ^ 8) with 256. rewrite <- !Z.div_div by lia.
  pose proof (Z.div_mod a 256). pose proof (Z.div_mod (a / 256) 256).
  pose proof (Z.div_mod (a / 256 / 256) 256). lia.
Qed.

(** The octets 0..255 as a list, to decide facts about one octet by computation. *)
Definition octets : list Z := seqZ 0 256.

Lemma octets_spec b : 0 <= b < 256 -> b ∈ octets.
Proof. intros. apply elem_of_seqZ. lia. Qed.

(** Reading the digits of one octet, then whatever follows. *)
Lemma parse_octet b rest prev fields :
  0 <= b < 256 ->
  exists pc, is_digit pc = true /\
    parseIPv4Fields (itoa b +:+ rest) prev fields 0 0 =
    parseIPv4Fields rest (Some pc) fields b (len (itoa b)).
Proof.
  intros Hb. apply octets_spec in Hb. revert b Hb.
  apply Forall_forall.
  repeat (apply Forall_cons; split; [eexists; split; [|reflexivity]; reflexivity|]).
  apply Forall_nil. done.
Qed.

(** A dot after an octet moves on to the next field. *)
Lemma parse_dot b rest pc fields dl :
  is_digit pc = true -> rest <> EmptyString -> (length fields < 3)%nat ->
  parseIPv4Fields ("." +:+ rest) (Some pc) fields b dl =
  parseIPv4Fields rest (Some "."%char) (fields ++ [b]) 0 0.
Proof.
  intros Hpc Hrest Hlen. change ("." +:+ rest) with (String "." rest). simpl.
  assert (Ascii.eqb pc "." = false) as ->.
  { apply Ascii.eqb_neq. intros ->. done. }
  apply is_empty_false in Hrest as ->. simpl.
  destruct (Nat.eqb_spec (length fields) 3); [lia|done].
Qed.

Lemma itoa_octet_nonempty b rest : 0 <= b < 256 -> itoa b +:+ rest <> EmptyString.
Proof.
  intros Hb. apply octets_spec in Hb. revert b Hb. apply Forall_forall.
  repeat (apply Forall_cons; split; [discriminate|]). apply Forall_nil. done.
Qed.

Lemma parseIPv4Fields_string b0 b1 b2 b3 :
  Forall (fun b => 0 <= b < 256) [b0; b1; b2; b3] ->
  parseIPv4Fields (itoa b0 +:+ "." +:+ itoa b1 +:+ "." +:+ itoa b2 +:+ "." +:+ itoa b3)
    None [] 0 0 = Some [b0; b1; b2; b3].
Proof.
  intros H. rewrite !Forall_cons in H. destruct H as (H0 & H1 & H2 & H3 & _).
  edestruct (parse_octet b0) as (p0 & Hp0 & ->); [done|].
  rewrite parse_dot; [|done|by apply itoa_octet_nonempty|simpl; lia].
  edestruct (parse_octet b1) as (p1 & Hp1 & ->); [done|].
  rewrite parse_dot; [|done|by apply itoa_octet_nonempty|simpl; lia].
  edestruct (parse_octet b2) as (p2 & Hp2 & ->); [done|].
  assert (itoa b3 = itoa b3 +:+ EmptyString) as E.
  { clear -H3. apply octets_spec in H3. revert b3 H3. apply Forall_forall.
    repeat (apply Forall_cons; split; [reflexivity|]). apply Forall_nil. done. }
  rewrite E.
  rewrite parse_dot; [|done|by apply itoa_octet_nonempty|simpl; lia].
  edestruct (parse_octet b3 EmptyString) as (p3 & Hp3 & ->); [done|]. reflexivity.
Qed.

Lemma parseIPv4_AddrString a :
  0 <= a <= addr_max -> parseIPv4 (AddrString a) = Some a.
Proof.
  intros H. unfold parseIPv4, AddrString. pose proof (As4_range a H) as Hr.
  unfold As4 in *. rewrite parseIPv4Fields_string by done. f_equal.
  by apply (AddrFrom4_As4 a).
Qed.

Lemma AddrString_inj a b :
  0 <= a <= addr_max -> 0 <= b <= addr_max -> AddrString a = AddrString b -> a = b.
Proof.
  intros Ha Hb E. apply parseIPv4_AddrString in Ha, Hb. congruence.
Qed.

(** ** What a parsed prefix is *)

Lemma digits_value_nonneg s acc v :
  0 <= acc -> digits_value acc s = Some v -> 0 <= v.
Proof.
  revert acc. induction s as [|c s IH]; intros acc Hacc; simpl; [by intros [= <-]|].
  destruct (is_digit c) eqn:Ec; [|done]. apply IH.
  unfold is_digit, in_range, digit_val in *. apply andb_prop in Ec as [E1 E2].
  apply Z.leb_le in E1. change (byte_of "0") with 48 in E1. lia.
Qed.

(** The parser's state is always at most three octets and a partial value in
    range, so a parsed address is a 32-bit value. *)
Lemma parseIPv4Fields_range s prev fields val dl bs :
  0 <= val < 256 -> Forall (fun b => 0 <= b < 256) fields ->
  parseIPv4Fields s prev fields val dl = Some bs ->
  length bs = 4%nat /\ Forall (fun b => 0 <= b < 256) bs.
Proof.
  revert prev fields val dl. induction s as [|c s IH]; intros prev fields val dl Hv Hf; simpl.
  - destruct (Nat.eqb_spec (length fields) 3); [|done]. intros [= <-].
    rewrite length_app. simpl. split; [lia|]. apply Forall_app. split; [done|]. by constructor.
  - destruct (is_digit c) eqn:Ec.
    + destruct (_ && _); [done|]. case_match eqn:Hlt; [done|]. apply IH; [|done].
      unfold is_digit, in_range, digit_val in *. apply andb_prop in Ec as [E1 E2].
      apply Z.leb_le in E1. change (byte_of "0") with 48 in E1. lia.
    + destruct (Ascii.eqb c "."); [|done]. destruct prev; [|done].
      destruct (_ || _); [done|]. destruct (Nat.eqb _ _); [done|].
      apply IH; [lia|]. apply Forall_app. split; [done|]. by constructor.
Qed.

Lemma parseIPv4_range s a : parseIPv4 s = Some a -> 0 <= a <= addr_max.
Proof.
  unfold parseIPv4. destruct (parseIPv4Fields s None [] 0 0) as [bs|] eqn:E; [|done].
  intros [= <-]. apply parseIPv4Fields_range in E as [Hlen Hbs]; [|lia|by constructor].
  destruct bs as [|b0 [|b1 [|b2 [|b3 [|]]]]]; try done.
  rewrite !Forall_cons in Hbs. unfold AddrFrom4, addr_max. lia.
Qed.

Lemma ParsePrefix4_wf s p : ParsePrefix4 s = Some p -> wf_prefix p.
Proof.
  unfold ParsePrefix4. destruct (cut_last _ _) as [[ip bitsStr]|]; [|done].
  destruct (parseIPv4 ip) as [a|] eqn:Ea; [|done]. destruct (negb _); [done|].
  destruct (atoi bitsStr) as [b|]; [|done]. case_match eqn:Hb; [|done].
  intros [= <-]. apply andb_prop in Hb as [H1%Z.leb_le H2%Z.leb_le].
  split; [by apply parseIPv4_range in Ea|done].
Qed.

(** The network address and the size of the host part. *)
Lemma Masked_bounds p :
  wf_prefix p ->
  p_addr (Masked p) <= p_addr p < p_addr (Masked p) + 2 ^ (32 - p_bits p) /\
  0 <= p_addr (Masked p) /\ p_addr (Masked p) + 2 ^ (32 - p_bits p) <= 2 ^ 32.
Proof.
  intros [Ha Hb]. unfold Masked, addr_max in *. simpl.
  set (h := 2 ^ (32 - p_bits p)). assert (0 < h) by (apply Z.pow_pos_nonneg; lia).
  pose proof (Z.div_mod (p_addr p) h). pose proof (Z.mod_pos_bound (p_addr p) h).
  assert (p_addr p / h < 2 ^ p_bits p) as Hq.
  { apply Z.div_lt_upper_bound; [done|]. unfold h. rewrite <- Z.pow_add_r by lia.
    replace (32 - p_bits p + p_bits p) with 32 by lia. lia. }
  assert (2 ^ p_bits p * h = 2 ^ 32) as Hp.
  { unfold h. rewrite <- Z.pow_add_r by lia. f_equal. lia. }
  pose proof (Z.div_pos (p_addr p) h). nia.
Qed.

Lemma PrefixContains_iff p a :
  wf_prefix p ->
  PrefixContains p a = true <->
  p_addr (Masked p) <= a < p_addr (Masked p) + 2 ^ (32 - p_bits p).
Proof.
  intros [Ha Hb]. unfold PrefixContains, Masked. simpl. rewrite Z.eqb_eq.
  set (h := 2 ^ (32 - p_bits p)). assert (0 < h) by (apply Z.pow_pos_nonneg; lia).
  pose proof (Z.div_mod a h). pose proof (Z.mod_pos_bound a h). split.
  - intros <-. lia.
  - intros H'. symmetry. apply (Z.div_unique a h _ (a - p_addr p / h * h)); nia.
Qed.
