(* ===== verification/GoTime.v ===== *)
(** * time: dates and RFC 3339 texts

    The part of Go's time package the program uses through encoding/json: the
    text [Time.MarshalJSON] writes for an instant in UTC and the strict parser
    behind [Time.UnmarshalJSON]. An instant is its seconds since the Unix
    epoch; a parsed text, which may carry a fraction, is in nanoseconds. *)

From stdpp Require Import strings list.
From Stdlib Require Import Ascii ZArith Lia.
From S2P Require Import Prelude GoStrings.

Open Scope Z_scope.

(** ** The calendar *)

Definition is_leap (y : Z) : bool := (y mod 4 =? 0) && (negb (y mod 100 =? 0) || (y mod 400 =? 0)).

Definition month_lengths (y : Z) : list Z :=
  [31; if is_leap y then 29 else 28; 31; 30; 31; 30; 31; 31; 30; 31; 30; 31].

(** [daysIn]; months count from 1. *)
Definition daysIn (m y : Z) : Z := nth (Z.to_nat (m - 1)) (month_lengths y) 0.

Definition sum (l : list Z) : Z := foldr Z.add 0 l.

(** Days from 1 January of year 1 to 1 January of year [y]. *)
Definition days_before (y : Z) : Z := let z := y - 1 in 365 * z + z / 4 - z / 100 + z / 400.

Definition days_of_date (y m d : Z) : Z :=
  days_before y + sum (firstn (Z.to_nat (m - 1)) (month_lengths y)) + (d - 1).

(** The month, from 1, and the day of the month of a day of the year. *)
Fixpoint month_day (m : Z) (lengths : list Z) (yday : Z) : Z * Z :=
  match lengths with
  | [] => (m, yday + 1)
  | l :: ls => if yday <? l then (m, yday + 1) else month_day (m + 1) ls (yday - l)
  end.

(** Cycles of 400, 100, 4 and 1 years; the last of each may be one day longer. *)
Definition year_yday (days : Z) : Z * Z :=
  let n400 := days / 146097 in let r400 := days mod 146097 in
  let n100 := Z.min 3 (r400 / 36524) in let r100 := r400 - 36524 * n100 in
  let n4 := r100 / 1461 in let r4 := r100 mod 1461 in
  let n1 := Z.min 3 (r4 / 365) in
  (400 * n400 + 100 * n100 + 4 * n4 + n1 + 1, r4 - 365 * n1).

Definition date_of_days (days : Z) : Z * Z * Z :=
  let '(y, yday) := year_yday days in
  let '(m, d) := month_day 1 (month_lengths y) yday in (y, m, d).

(** Days from 1 January of year 1 to 1 January 1970. *)
Definition unix_epoch : Z := 719162.

(** [Date] of time in UTC. *)
Definition unix_of (y m d hh mm ss : Z) : Z :=
  86400 * (days_of_date y m d - unix_epoch) + 3600 * hh + 60 * mm + ss.

(** ** Texts *)

Definition digit (n : Z) : ascii := ascii_of_N (Z.to_N (48 + n)).
Definition pad2 (n : Z) (s : string) : string := String (digit (n / 10)) (String (digit (n mod 10)) s).
Definition pad4 (n : Z) (s : string) : string := pad2 (n / 100) (pad2 (n mod 100) s).

(** [appendStrictRFC3339] on a time in UTC without a fraction: an error for a
    year that does not have four digits. *)
Definition FormatRFC3339 (t : Z) : option string :=
  let '(y, m, d) := date_of_days (t / 86400 + unix_epoch) in
  let s := t mod 86400 in
  if (y <? 0) || (9999 <? y) then None else
  Some (pad4 y (String "-" (pad2 m (String "-" (pad2 d (String "T"
    (pad2 (s / 3600) (String ":" (pad2 (s / 60 mod 60) (String ":" (pad2 (s mod 60) "Z"))))))))))).

(** [parseUint]: digits only, between the bounds. *)
Definition parseUint (cs : list ascii) (lo hi : Z) : option Z :=
  match foldl (fun acc c => match acc with
                            | Some x => if is_digit c then Some (10 * x + digit_val c) else None
                            | None => None
                            end) (Some 0) cs with
  | Some x => if (lo <=? x) && (x <=? hi) then Some x else None
  | None => None
  end.

(** The digits of a fraction, at most nine of which count, and the rest. *)
Fixpoint fraction (unit acc : Z) (s : list ascii) : Z * list ascii :=
  match s with
  | c :: s' => if is_digit c then fraction (unit / 10) (acc + unit * digit_val c) s' else (acc, s)
  | [] => (acc, [])
  end.

(** The optional fraction, in nanoseconds; a dot without a digit is left. *)
Definition parse_fraction (s : list ascii) : Z * list ascii :=
  match s with
  | c :: d :: _ => if Ascii.eqb c "." && is_digit d then fraction 100000000 0 (List.tl s) else (0, s)
  | _ => (0, s)
  end.

(** The zone: its offset from UTC in seconds. *)
Definition parse_zone (s : list ascii) : option Z :=
  match s with
  | [c] => if Ascii.eqb c "Z" then Some 0 else None
  | [sg; h1; h2; c; m1; m2] =>
      match parseUint [h1; h2] 0 23, parseUint [m1; m2] 0 59 with
      | Some hr, Some mm =>
          if negb (Ascii.eqb c ":") then None
          else if Ascii.eqb sg "+" then Some (60 * (60 * hr + mm))
          else if Ascii.eqb sg "-" then Some (- (60 * (60 * hr + mm)))
          else None
      | _, _ => None
      end
  | _ => None
  end.

(** [parseStrictRFC3339]: the instant in nanoseconds since the epoch. *)
Definition ParseRFC3339 (s : string) : option Z :=
  match String.list_ascii_of_string s with
  | y1 :: y2 :: y3 :: y4 :: h1 :: o1 :: o2 :: h2 :: d1 :: d2 :: t ::
      a1 :: a2 :: c1 :: i1 :: i2 :: c2 :: s1 :: s2 :: rest =>
      match parseUint [y1; y2; y3; y4] 0 9999, parseUint [o1; o2] 1 12,
            parseUint [a1; a2] 0 23, parseUint [i1; i2] 0 59, parseUint [s1; s2] 0 59 with
      | Some y, Some mo, Some hh, Some mi, Some ss =>
          match parseUint [d1; d2] 1 (daysIn mo y) with
          | Some d =>
              if negb (Ascii.eqb h1 "-" && Ascii.eqb h2 "-" && Ascii.eqb t "T" &&
                       Ascii.eqb c1 ":" && Ascii.eqb c2 ":") then None else
              let '(nsec, rest) := parse_fraction rest in
              match parse_zone rest with
              | Some off => Some (10 ^ 9 * (unix_of y mo d hh mi ss - off) + nsec)
              | None => None
              end
          | None => None
          end
      | _, _, _, _, _ => None
      end
  | _ => None
  end.

Example format_epoch : FormatRFC3339 0 = Some "1970-01-01T00:00:00Z".
Proof. reflexivity. Qed.
Example format_leap : FormatRFC3339 1709210096 = Some "2024-02-29T12:34:56Z".
Proof. reflexivity. Qed.
Example parse_offset : ParseRFC3339 "2024-02-29T13:34:56.5+01:00" = Some 1709210096500000000.
Proof. reflexivity. Qed.
Example parse_no_such_day : ParseRFC3339 "2023-02-29T00:00:00Z" = None.
Proof. reflexivity. Qed.

(** ** Formatting, then parsing *)

Lemma year_yday_spec days y yday :
  year_yday days = (y, yday) ->
  days_before y + yday = days /\ 0 <= yday < 365 + (if is_leap y then 1 else 0).
Proof.
  unfold year_yday. intros [= Hy Hd]. set (r400 := days mod 146097) in *. set (n400 := days / 146097) in *.
  set (n100 := Z.min 3 (r400 / 36524)) in *. set (r100 := r400 - 36524 * n100) in *.
  set (n4 := r100 / 1461) in *. set (r4 := r100 mod 1461) in *. set (n1 := Z.min 3 (r4 / 365)) in *.
  assert (days = 146097 * n400 + r400 /\ 0 <= r400 < 146097) as [E400 B400]
    by (split; [apply Z.div_mod; lia|apply Z.mod_pos_bound; lia]).
  assert (0 <= n100 <= 3 /\ 0 <= r100 <= 36524 /\ (r100 = 36524 -> n100 = 3)) as (B100 & R100 & M100)
    by (unfold r100, n100; clearbody r400; Z.to_euclidean_division_equations; lia).
  assert (r100 = 1461 * n4 + r4 /\ 0 <= r4 < 1461) as [E4 R4]
    by (split; [apply Z.div_mod; lia|apply Z.mod_pos_bound; lia]).
  assert (0 <= n4 <= 24) as B4 by lia.
  assert (0 <= n1 <= 3 /\ 0 <= r4 - 365 * n1 <= 365 /\ (r4 - 365 * n1 = 365 -> n1 = 3)) as (B1 & R1 & M1)
    by (unfold n1; clearbody r4; Z.to_euclidean_division_equations; lia).
  assert (y - 1 = 400 * n400 + 100 * n100 + 4 * n4 + n1) as Hz by lia. clear Hy. subst yday.
  assert ((y - 1) / 400 = n400) as D400 by (symmetry; apply Z.div_unique with (100 * n100 + 4 * n4 + n1); lia).
  assert ((y - 1) / 100 = 4 * n400 + n100) as D100 by (symmetry; apply Z.div_unique with (4 * n4 + n1); lia).
  assert ((y - 1) / 4 = 100 * n400 + 25 * n100 + n4) as D4 by (symmetry; apply Z.div_unique with n1; lia).
  split.
  - unfold days_before. rewrite D400, D100, D4. lia.
  - split; [lia|].
    destruct (Z.eq_dec (r4 - 365 * n1) 365) as [Hl|Hl]; [|destruct (is_leap y); lia].
    rewrite Hl. specialize (M1 Hl).
    assert (is_leap y = true) as ->; [|lia].
    unfold is_leap. rewrite andb_true_iff, orb_true_iff, negb_true_iff, !Z.eqb_eq, Z.eqb_neq.
    assert (n4 <> 24 \/ n100 = 3) as Hn by lia.
    split; [apply Z.mod_divide; [lia|]; exists (100 * n400 + 25 * n100 + n4 + 1); lia|].
    destruct (Z.eq_dec n4 24) as [H24|H24].
    + right. apply Z.mod_divide; [lia|]. exists (n400 + 1). lia.
    + left. rewrite <- (Z.mod_unique y 100 (4 * n400 + n100) (4 * n4 + n1 + 1)); lia.
Qed.

Lemma month_day_spec lengths m0 yday m d :
  Forall (fun l => 0 < l) lengths -> 0 <= yday < sum lengths -> month_day m0 lengths yday = (m, d) ->
  exists k l, lengths !! k = Some l /\ m = m0 + Z.of_nat k /\ 1 <= d <= l /\
    sum (firstn k lengths) + (d - 1) = yday.
Proof.
  revert m0 yday. induction lengths as [|l ls IH]; intros m0 yday Hpos Hy; cbn [month_day]; [simpl in Hy; lia|].
  apply Forall_cons in Hpos as [Hl Hpos]. cbn [sum foldr] in Hy. fold (sum ls) in Hy.
  destruct (Z.ltb_spec yday l) as [Hlt|Hge].
  - intros [= <- <-]. exists O, l. cbn. split; [done|]. lia.
  - intros Hm. destruct (IH (m0 + 1) (yday - l) Hpos ltac:(lia) Hm) as (k & l' & Hk & -> & Hd & Hs).
    exists (S k), l'. split; [done|]. split; [lia|]. split; [done|]. cbn [firstn sum foldr]. fold (sum (firstn k ls)). lia.
Qed.

Lemma month_lengths_spec y :
  Forall (fun l => 0 < l <= 31) (month_lengths y) /\ length (month_lengths y) = 12%nat /\
  sum (month_lengths y) = 365 + (if is_leap y then 1 else 0).
Proof. unfold month_lengths. destruct (is_leap y); repeat split; repeat constructor; lia. Qed.

(** Every day is some date of the calendar, and that date is the day. *)
Lemma date_of_days_spec days y m d :
  date_of_days days = (y, m, d) -> 1 <= m <= 12 /\ 1 <= d <= daysIn m y /\ d <= 31 /\ days_of_date y m d = days.
Proof.
  unfold date_of_days. destruct (year_yday days) as [y' yday] eqn:Ey.
  destruct (month_day 1 (month_lengths y') yday) as [m' d'] eqn:Em. intros [= -> -> ->].
  destruct (year_yday_spec _ _ _ Ey) as [Hdays Hyd]. destruct (month_lengths_spec y) as (Hpos & Hlen & Hsum).
  destruct (month_day_spec (month_lengths y) 1 yday m d) as (k & l & Hk & -> & Hd & Hs); [|lia|done|].
  { eapply Forall_impl; [done|]. simpl. lia. }
  pose proof (lookup_lt_Some _ _ _ Hk). rewrite Forall_forall in Hpos.
  assert (l <= 31) by (apply Hpos; by eapply list_elem_of_lookup_2).
  unfold daysIn, days_of_date. replace (Z.to_nat (1 + Z.of_nat k - 1)) with k by lia.
  erewrite nth_lookup_Some by done. repeat split; try lia.
Qed.

(** What holds of each decimal digit, by evaluation. *)
Lemma each_digit (f : Z -> bool) n : forallb f (seqZ 0 10) = true -> 0 <= n < 10 -> f n = true.
Proof. rewrite forallb_forall. intros Hf Hn. apply Hf, list_elem_of_In, elem_of_seqZ. lia. Qed.

Lemma digit_spec n : 0 <= n < 10 -> is_digit (digit n) = true /\ digit_val (digit n) = n.
Proof.
  intros Hn. pose proof (each_digit (fun n => is_digit (digit n) && (digit_val (digit n) =? n)) n eq_refl Hn) as H.
  simpl in H. apply andb_true_iff in H as [? ?%Z.eqb_eq]. done.
Qed.

Lemma parseUint_pad2 n lo hi :
  0 <= n < 100 -> lo <= n <= hi -> parseUint [digit (n / 10); digit (n mod 10)] lo hi = Some n.
Proof.
  intros Hn Hr. unfold parseUint. cbn [foldl].
  destruct (digit_spec (n / 10)) as [-> ->]; [Z.to_euclidean_division_equations; lia|].
  destruct (digit_spec (n mod 10)) as [-> ->]; [apply Z.mod_pos_bound; lia|].
  replace (10 * (10 * 0 + n / 10) + n mod 10) with n by (pose proof (Z.div_mod n 10); lia).
  destruct (Z.leb_spec lo n), (Z.leb_spec n hi); [done|lia..].
Qed.

Lemma parseUint_pad4 n :
  0 <= n <= 9999 ->
  parseUint [digit (n / 100 / 10); digit ((n / 100) mod 10); digit (n mod 100 / 10); digit ((n mod 100) mod 10)] 0 9999
  = Some n.
Proof.
  intros Hn. unfold parseUint. cbn [foldl].
  assert (0 <= n / 100 < 100 /\ 0 <= n mod 100 < 100) as [Ha Hb] by (Z.to_euclidean_division_equations; lia).
  destruct (digit_spec (n / 100 / 10)) as [-> ->]; [Z.to_euclidean_division_equations; lia|].
  destruct (digit_spec ((n / 100) mod 10)) as [-> ->]; [apply Z.mod_pos_bound; lia|].
  destruct (digit_spec (n mod 100 / 10)) as [-> ->]; [Z.to_euclidean_division_equations; lia|].
  destruct (digit_spec ((n mod 100) mod 10)) as [-> ->]; [apply Z.mod_pos_bound; lia|].
  replace (10 * _ + _) with n.
  - destruct (Z.leb_spec 0 n), (Z.leb_spec n 9999); [done|lia..].
  - pose proof (Z.div_mod n 100). pose proof (Z.div_mod (n / 100) 10). pose proof (Z.div_mod (n mod 100) 10). lia.
Qed.

(** What [FormatRFC3339] writes, the parser reads back as the same instant. *)
Lemma ParseRFC3339_Format t s : FormatRFC3339 t = Some s -> ParseRFC3339 s = Some (10 ^ 9 * t).
Proof.
  unfold FormatRFC3339. destruct (date_of_days _) as [[y m] d] eqn:Ed.
  destruct (date_of_days_spec _ _ _ _ Ed) as (Hm & Hd & Hd31 & Hdays).
  destruct (Z.ltb_spec y 0); [done|]. destruct (Z.ltb_spec 9999 y); [done|]. intros [= <-].
  assert (0 <= t mod 86400 < 86400) as Hs by (apply Z.mod_pos_bound; lia).
  set (r := t mod 86400) in *.
  assert (0 <= r / 3600 <= 23 /\ 0 <= (r / 60) mod 60 <= 59 /\ 0 <= r mod 60 <= 59 /\
          3600 * (r / 3600) + 60 * ((r / 60) mod 60) + r mod 60 = r) as (H1 & H2 & H3 & Hr).
  { clearbody r. Z.to_euclidean_division_equations; lia. }
  unfold ParseRFC3339, pad4, pad2. cbn [String.list_ascii_of_string].
  rewrite parseUint_pad4, (parseUint_pad2 m), (parseUint_pad2 (r / 3600)), (parseUint_pad2 ((r / 60) mod 60)),
    (parseUint_pad2 (r mod 60)), (parseUint_pad2 d) by lia.
  rewrite !Ascii.eqb_refl. cbn [negb andb parse_fraction parse_zone]. rewrite Ascii.eqb_refl.
  do 2 f_equal. unfold unix_of. rewrite Hdays. pose proof (Z.div_mod t 86400). unfold r in *. lia.
Qed.
