(* ===== verification/GoDuration.v ===== *)
(** * time.ParseDuration

    Durations such as "1h30m" or "500ms", in nanoseconds. A fraction is scaled
    in 64-bit floating point, as Go does it (the operations of [SpecFloat]). *)

From stdpp Require Import strings list.
From Stdlib Require Import Ascii ZArith Lia SpecFloat.
From S2P Require Import Prelude GoStrings.

Open Scope Z_scope.

Definition f64 (z : Z) : spec_float := binary_normalize 53 1024 z 0 false.
Definition f64_mul : spec_float -> spec_float -> spec_float := SFmul 53 1024.
Definition f64_div : spec_float -> spec_float -> spec_float := SFdiv 53 1024.

(** [uint64(f)] of a float that is not negative. *)
Definition f64_trunc (f : spec_float) : Z :=
  match f with S754_finite false m e => Z.shiftl (Zpos m) e | _ => 0 end.

(** [leadingInt]: [None] beyond 1<<63. *)
Fixpoint leadingInt (x : Z) (s : list ascii) : option (Z * list ascii) :=
  match s with
  | c :: s' =>
      if negb (is_digit c) then Some (x, s)
      else if 2 ^ 63 / 10 <? x then None
      else let x' := 10 * x + digit_val c in
           if 2 ^ 63 <? x' then None else leadingInt x' s'
  | [] => Some (x, [])
  end.

(** [leadingFraction]: the digits as an integer, their power of ten, the rest;
    the digits after an overflow are skipped. *)
Fixpoint leadingFraction (overflow : bool) (x scale : Z) (s : list ascii) : Z * Z * list ascii :=
  match s with
  | c :: s' =>
      if negb (is_digit c) then (x, scale, s)
      else if overflow then leadingFraction true x scale s'
      else if (2 ^ 63 - 1) / 10 <? x then leadingFraction true x scale s'
      else let y := 10 * x + digit_val c in
           if 2 ^ 63 <? y then leadingFraction true x scale s' else leadingFraction false y (10 * scale) s'
  | [] => (x, scale, [])
  end.

(** The unit: everything up to a digit or a dot. *)
Fixpoint unit_text (s : list ascii) : list ascii * list ascii :=
  match s with
  | c :: s' => if Ascii.eqb c "." || is_digit c then ([], s) else let '(u, r) := unit_text s' in (c :: u, r)
  | [] => ([], [])
  end.

(** [unitMap]; the micro sign and the Greek letter both make microseconds. *)
Definition unitMap : list (list ascii * Z) := [
  (["n"; "s"]%char, 1); (["u"; "s"]%char, 1000); (["194"; "181"; "s"]%char, 1000); (["206"; "188"; "s"]%char, 1000);
  (["m"; "s"]%char, 1000000); (["s"]%char, 1000000000); (["m"]%char, 60 * 1000000000); (["h"]%char, 3600 * 1000000000)].

Definition unit_of (u : list ascii) : option Z :=
  option_map snd (List.find (fun kv => bool_decide (kv.1 = u)) unitMap).

(** One number with its unit, in nanoseconds, and the rest. *)
Definition parse_term (s : list ascii) : option (Z * list ascii) :=
  match s with
  | [] => None
  | c :: _ =>
      if negb (Ascii.eqb c "." || is_digit c) then None else
      match leadingInt 0 s with
      | None => None
      | Some (v, s1) =>
          let pre := negb (Nat.eqb (length s) (length s1)) in
          let '(f, scale, s2, post) :=
            match s1 with
            | d :: s1' =>
                if Ascii.eqb d "." then
                  let '(f, scale, r) := leadingFraction false 0 1 s1' in
                  (f, scale, r, negb (Nat.eqb (length s1') (length r)))
                else (0, 1, s1, false)
            | [] => (0, 1, s1, false)
            end in
          if negb pre && negb post then None else
          let '(u, rest) := unit_text s2 in
          match unit_of u with
          | None => None
          | Some unit =>
              if 2 ^ 63 / unit <? v then None else
              let v := v * unit +
                (if 0 <? f then f64_trunc (f64_mul (f64 f) (f64_div (f64 unit) (f64 scale))) else 0) in
              if 2 ^ 63 <? v then None else Some (v, rest)
          end
      end
  end.

(** The terms added up; every term consumes at least its unit. *)
Fixpoint parse_terms (fuel : nat) (d : Z) (s : list ascii) : option Z :=
  match fuel with
  | O => None
  | S n =>
      match s with
      | [] => Some d
      | _ => match parse_term s with
             | None => None
             | Some (v, rest) => if 2 ^ 63 <? d + v then None else parse_terms n (d + v) rest
             end
      end
  end.

Definition ParseDuration (text : string) : option Z :=
  let s := String.list_ascii_of_string text in
  let '(neg, s) := match s with
                   | c :: s' => if Ascii.eqb c "-" then (true, s') else if Ascii.eqb c "+" then (false, s') else (false, s)
                   | [] => (false, s)
                   end in
  match s with
  | [] => None
  | _ =>
      if bool_decide (s = ["0"%char]) then Some 0 else
      match parse_terms (S (length s)) 0 s with
      | None => None
      | Some d => if neg then Some (- d) else if 2 ^ 63 - 1 <? d then None else Some d
      end
  end.

Example duration_seconds : ParseDuration "30s" = Some 30000000000.
Proof. vm_compute. reflexivity. Qed.
Example duration_fraction : ParseDuration "1h0.1ms" = Some 3600000100000.
Proof. vm_compute. reflexivity. Qed.
Example duration_no_unit : ParseDuration "30" = None.
Proof. vm_compute. reflexivity. Qed.
Example duration_overflow : ParseDuration "9223372036854775808ns" = None.
Proof. vm_compute. reflexivity. Qed.

Lemma leadingInt_length x s v r : leadingInt x s = Some (v, r) -> (length r <= length s)%nat.
Proof.
  revert x. induction s as [|c s IH]; intros x; cbn [leadingInt]; [by intros [= _ <-]|].
  destruct (negb _); [by intros [= _ <-]|]. destruct (_ <? _); [done|]. cbv zeta. destruct (_ <? _); [done|].
  intros Hl%IH. simpl. lia.
Qed.

Lemma leadingFraction_length o x k s : (length (leadingFraction o x k s).2 <= length s)%nat.
Proof.
  revert o x k. induction s as [|c s IH]; intros o x k; cbn [leadingFraction]; [done|].
  destruct (negb _); [done|]. cbv zeta. destruct o; [etrans; [apply IH|simpl; lia]|].
  destruct (_ <? _); [etrans; [apply IH|simpl; lia]|]. destruct (_ <? _); (etrans; [apply IH|simpl; lia]).
Qed.

Lemma unit_text_length s : (length (unit_text s).1 + length (unit_text s).2 = length s)%nat.
Proof.
  induction s as [|c s IH]; cbn [unit_text]; [done|]. destruct (_ || _); [done|].
  destruct (unit_text s) as [u r]. simpl in *. lia.
Qed.

(** ** Bounds *)

Lemma digit_val_nonneg c : is_digit c = true -> 0 <= digit_val c.
Proof.
  unfold is_digit, in_range, digit_val. rewrite andb_true_iff. intros [H%Z.leb_le _]. change (byte_of "0") with 48 in H. lia.
Qed.

Lemma leadingInt_nonneg x s v r : 0 <= x -> leadingInt x s = Some (v, r) -> 0 <= v.
Proof.
  revert x. induction s as [|c s IH]; intros x Hx; cbn [leadingInt]; [by intros [= <- _]|].
  destruct (negb (is_digit c)) eqn:Ed; [by intros [= <- _]|]. apply negb_false_iff, digit_val_nonneg in Ed.
  destruct (_ <? _); [done|]. cbv zeta. destruct (_ <? _); [done|]. apply IH. lia.
Qed.

Lemma f64_trunc_nonneg f : 0 <= f64_trunc f.
Proof. destruct f as [| | |[] m e]; simpl; try lia. apply Z.shiftl_nonneg. lia. Qed.

Lemma unit_of_pos u n : unit_of u = Some n -> 0 < n /\ (0 < length u)%nat.
Proof.
  unfold unit_of. destruct (List.find _ _) as [[k m]|] eqn:Ef; [|done]. intros [= <-].
  apply find_some in Ef as [Hin Hu%bool_decide_eq_true]. simpl in Hu. subst k. simpl.
  repeat (destruct Hin as [[= <- <-]|Hin]; [simpl; lia|]). done.
Qed.

(** The number of [parse_term] in parts: what [leadingInt] read and the rest. *)
Lemma parse_term_spec s v r :
  parse_term s = Some (v, r) -> 0 <= v <= 2 ^ 63 /\ (length r < length s)%nat.
Proof.
  unfold parse_term. destruct s as [|c s]; [done|]. destruct (negb _); [done|].
  destruct (leadingInt 0 (c :: s)) as [[n s1]|] eqn:El; [|done].
  pose proof (leadingInt_nonneg 0 _ _ _ ltac:(lia) El) as Hn. apply leadingInt_length in El. cbv zeta.
  destruct (match s1 with [] => _ | _ => _ end) as [[[f k] s2] post] eqn:Ef.
  assert (length s2 <= length s1)%nat as H2.
  { destruct s1 as [|d s1]; [by injection Ef as _ _ <- _|]. destruct (Ascii.eqb d "."); [|by injection Ef as _ _ <- _].
    pose proof (leadingFraction_length false 0 1 s1). destruct (leadingFraction _ _ _ _) as [[? ?] ?].
    injection Ef as _ _ <- _. simpl in *. lia. }
  destruct (negb _ && negb _); [done|]. pose proof (unit_text_length s2) as Hu.
  destruct (unit_text s2) as [u rest]. destruct (unit_of u) as [unit|] eqn:Eu; [|done]. apply unit_of_pos in Eu as [Hpos Hlen].
  destruct (_ <? _); [done|].
  set (x := if 0 <? f then _ else 0). assert (0 <= x) as Hx by (unfold x; destruct (0 <? f); [apply f64_trunc_nonneg|lia]).
  clearbody x. destruct (Z.ltb_spec (2 ^ 63) (n * unit + x)); [done|]. intros [= <- <-].
  split; [nia|]. simpl in *. lia.
Qed.

Lemma parse_terms_range fuel d s r : 0 <= d <= 2 ^ 63 -> parse_terms fuel d s = Some r -> 0 <= r <= 2 ^ 63.
Proof.
  revert d s. induction fuel as [|n IH]; intros d s Hd; cbn [parse_terms]; [done|].
  destruct s as [|c s]; [by intros [= <-]|]. destruct (parse_term _) as [[v rest]|] eqn:Et; [|done].
  apply parse_term_spec in Et as [Hv _]. destruct (Z.ltb_spec (2 ^ 63) (d + v)); [done|]. apply IH. lia.
Qed.

(** A duration that parses and is positive fits the type. *)
Lemma ParseDuration_le text d : ParseDuration text = Some d -> 0 < d -> d < 2 ^ 63.
Proof.
  unfold ParseDuration. destruct (match String.list_ascii_of_string text with [] => _ | _ => _ end) as [neg s].
  destruct s as [|c s]; [done|]. destruct (bool_decide _); [by intros [= <-]|].
  destruct (parse_terms _ _ _) as [r|] eqn:Er; [|done]. pose proof (parse_terms_range _ 0 _ _ ltac:(lia) Er) as Hr.
  destruct neg; [intros [= <-]; lia|]. destruct (Z.ltb_spec (2 ^ 63 - 1) r); [done|]. intros [= <-]. lia.
Qed.

(** The fuel is enough: a term leaves less than it was given. *)
Lemma parse_terms_fuel fuel fuel' d s :
  (length s < fuel)%nat -> (length s < fuel')%nat -> parse_terms fuel d s = parse_terms fuel' d s.
Proof.
  revert fuel' d s. induction fuel as [|n IH]; intros [|n'] d s Hf Hf'; [lia..|]. cbn [parse_terms].
  destruct s as [|c s]; [done|]. destruct (parse_term (c :: s)) as [[v r]|] eqn:Et; [|done].
  apply parse_term_spec in Et as [_ Et]. destruct (_ <? _); [done|]. apply IH; simpl in *; lia.
Qed.
