(* ===== verification/GoContext.v ===== *)
(** * context: deadlines

    What the code uses of Go's contexts: when one is done, and why. The clock
    is the caller's. *)

From stdpp Require Import strings.
From Stdlib Require Import ZArith.
From S2P Require Import Prelude.

Open Scope Z_scope.

(** A context: when it is done, if ever, and why. Times are milliseconds. *)
Record Context := mkContext { ctx_Done : option Z; ctx_Err : error }.

Definition DeadlineExceeded : error := EBase (Sentinel "context deadline exceeded").

(** [context.WithTimeout(parent, d)] at time [now]. *)
Definition ctx_WithTimeout (parent : Context) (now d : Z) : Context :=
  match ctx_Done parent with
  | Some t => if t <? now + d then parent else mkContext (Some (now + d)) DeadlineExceeded
  | None => mkContext (Some (now + d)) DeadlineExceeded
  end.

Definition ctx_expired (ctx : Context) (now : Z) : bool :=
  match ctx_Done ctx with Some t => t <=? now | None => false end.
