(* ===== verification/NetURL.v ===== *)
(** * net/url: percent-encoding and form values

    The functions of Go's standard library with which requests to Proxmox are
    written: [url.QueryEscape], [url.PathEscape] and [url.Values.Encode]. Their
    inverses are what a server applies to the request; the round trips say that
    no value can change the structure of a form or of a path. *)

From stdpp Require Import gmap strings list fin_maps sorting.
From Stdlib Require Import Ascii ZArith Lia.
From S2P Require Import Prelude GoStrings.

Open Scope Z_scope.

(** ** Escaping *)

(** The unreserved characters of RFC 3986. *)
Definition unreserved (c : ascii) : bool :=
  is_digit c || is_lower c || is_upper c ||
  Ascii.eqb c "-" || Ascii.eqb c "_" || Ascii.eqb c "." || Ascii.eqb c "~".

(** What a path segment may hold as it is: of the reserved characters, all but
    the slash, the semicolon, the comma and the question mark. *)
Definition segment_char (c : ascii) : bool :=
  unreserved c ||
  Ascii.eqb c "$" || Ascii.eqb c "&" || Ascii.eqb c "+" || Ascii.eqb c ":" || Ascii.eqb c "=" || Ascii.eqb c "@".

Definition upper_hex (n : Z) : ascii :=
  ascii_of_N (Z.to_N (if n <? 10 then 48 + n else 55 + n)).

(** [plain] are the characters kept; in a query a space becomes a plus sign. *)
Fixpoint escape (plain : ascii -> bool) (query : bool) (s : string) : string :=
  match s with
  | EmptyString => EmptyString
  | String c s' =>
      if query && Ascii.eqb c " " then String "+" (escape plain query s')
      else if plain c then String c (escape plain query s')
      else String "%" (String (upper_hex (byte_of c / 16)) (String (upper_hex (byte_of c mod 16))
             (escape plain query s')))
  end.

Definition QueryEscape : string -> string := escape unreserved true.
Definition PathEscape : string -> string := escape segment_char false.

(** [url.QueryUnescape] and [url.PathUnescape]. *)
Fixpoint unescape (query : bool) (s : string) : option string :=
  match s with
  | EmptyString => Some EmptyString
  | String c s' =>
      if Ascii.eqb c "%" then
        match s' with
        | String a (String b s'') =>
            match from_hex_char a, from_hex_char b, unescape query s'' with
            | Some x, Some y, Some r => Some (String (ascii_of_N (Z.to_N (16 * x + y))) r)
            | _, _, _ => None
            end
        | _ => None
        end
      else option_map (String (if query && Ascii.eqb c "+" then " "%char else c)) (unescape query s')
  end.

(** ** Forms *)

(** [url.Values] with one value per key, as [Set] leaves them. *)
Abbreviation Values := (gmap string string).

#[global] Instance string_leb_dec : RelDecision (fun a b : string * string => String.leb a.1 b.1 = true).
Proof. intros a b. apply _. Defined.

(** The entries by ascending key. *)
Definition sorted_entries (v : Values) : list (string * string) :=
  merge_sort (fun a b => String.leb a.1 b.1 = true) (map_to_list v).

Definition encode_entry (kv : string * string) : string :=
  QueryEscape kv.1 +:+ "=" +:+ QueryEscape kv.2.

(** [(Values) Encode]. *)
Definition Encode (v : Values) : string := join "&" (map encode_entry (sorted_entries v)).

(** [url.ParseQuery], one pair per entry: what a server reads from a form. *)
Definition parse_entry (s : string) : option (list (string * string)) :=
  if is_empty s then Some []
  else if contains ";" s then None
  else
    let '(k, v) := match cut "=" s with Some kv => kv | None => (s, EmptyString) end in
    match unescape true k, unescape true v with
    | Some k, Some v => Some [(k, v)]
    | _, _ => None
    end.

Fixpoint ParseQuery_aux (fuel : nat) (s : string) : option (list (string * string)) :=
  match fuel with
  | O => None
  | S fuel =>
      match cut "&" s with
      | None => parse_entry s
      | Some (a, b) =>
          match parse_entry a, ParseQuery_aux fuel b with
          | Some x, Some y => Some (x ++ y)
          | _, _ => None
          end
      end
  end.

(** Each round consumes a separator, so the length bounds the rounds. *)
Definition ParseQuery (s : string) : option (list (string * string)) :=
  ParseQuery_aux (S (String.length s)) s.

Example Encode_ex :
  Encode (<["newid" := "105"]> (<["hostname" := "a&b c"]> ∅)) = "hostname=a%26b+c&newid=105".
Proof. reflexivity. Qed.

Example PathEscape_ex : PathEscape "UPID:pve:0/1:" = "UPID:pve:0%2F1:".
Proof. reflexivity. Qed.

(** ** Round trips *)

Lemma upper_hex_roundtrip c :
  from_hex_char (upper_hex (byte_of c / 16)) = Some (byte_of c / 16) /\
  from_hex_char (upper_hex (byte_of c mod 16)) = Some (byte_of c mod 16).
Proof. destruct c as [[] [] [] [] [] [] [] []]; vm_compute; split; reflexivity. Qed.

Lemma byte_recompose c : ascii_of_N (Z.to_N (16 * (byte_of c / 16) + byte_of c mod 16)) = c.
Proof. rewrite <- Z.div_mod by lia. unfold byte_of. rewrite N2Z.id. apply ascii_N_embedding. Qed.

Lemma unescape_escape plain query s :
  plain "%"%char = false -> (query = true -> plain "+"%char = false) ->
  unescape query (escape plain query s) = Some s.
Proof.
  intros Hpct Hplus. induction s as [|c s IH]; [done|]. cbn [escape].
  destruct (query && Ascii.eqb c " ") eqn:Esp.
  - apply andb_true_iff in Esp as [-> ->%Ascii.eqb_eq]. cbn. by rewrite IH.
  - destruct (plain c) eqn:Ep.
    + cbn [unescape]. destruct (Ascii.eqb_spec c "%") as [->|]; [congruence|]. rewrite IH. cbn. do 2 f_equal.
      destruct query; [|done]. destruct (Ascii.eqb_spec c "+") as [->|]; [rewrite Hplus in Ep; done|done].
    + cbn [unescape]. rewrite Ascii.eqb_refl. destruct (upper_hex_roundtrip c) as [-> ->]. rewrite IH.
      by rewrite byte_recompose.
Qed.

Lemma QueryUnescape_QueryEscape s : unescape true (QueryEscape s) = Some s.
Proof. by apply unescape_escape. Qed.

Lemma PathUnescape_PathEscape s : unescape false (PathEscape s) = Some s.
Proof. by apply unescape_escape. Qed.

(** Every character of an escaped text is kept, a plus sign, a percent sign or a digit. *)
Definition escaped_char (plain : ascii -> bool) (query : bool) (c : ascii) : bool :=
  plain c || (query && Ascii.eqb c "+") || Ascii.eqb c "%" || is_digit c || is_upper c.

Lemma upper_hex_char n : 0 <= n < 16 -> is_digit (upper_hex n) || is_upper (upper_hex n) = true.
Proof.
  intros H. assert (forallb (fun n => is_digit (upper_hex n) || is_upper (upper_hex n)) (seqZ 0 16) = true) as Hall
    by reflexivity.
  rewrite forallb_forall in Hall. apply Hall. apply list_elem_of_In, elem_of_seqZ. lia.
Qed.

Lemma escape_chars plain query s : str_forallb (escaped_char plain query) (escape plain query s) = true.
Proof.
  induction s as [|c s IH]; [done|]. cbn [escape].
  destruct (query && Ascii.eqb c " ") eqn:Esp.
  - apply andb_true_iff in Esp as [-> _]. cbn [str_forallb]. rewrite IH, andb_true_r.
    unfold escaped_char. rewrite Ascii.eqb_refl. cbn. by rewrite orb_true_r.
  - destruct (plain c) eqn:Ep; cbn [str_forallb]; rewrite IH, ?andb_true_r.
    + unfold escaped_char. by rewrite Ep.
    + pose proof (byte_of_range c). unfold escaped_char.
      pose proof (upper_hex_char (byte_of c / 16)) as H1. pose proof (upper_hex_char (byte_of c mod 16)) as H2.
      rewrite <- !orb_assoc, H1, H2 by (try (apply Z.mod_pos_bound); lia || (split; [apply Z.div_pos; lia|apply Z.div_lt_upper_bound; lia])).
      by rewrite !orb_true_r.
Qed.

Definition no_char (sep : ascii) (s : string) : bool := str_forallb (fun x => negb (Ascii.eqb x sep)) s.

Lemma str_forallb_impl (f g : ascii -> bool) s :
  (forall c, f c = true -> g c = true) -> str_forallb f s = true -> str_forallb g s = true.
Proof.
  intros Hfg. induction s as [|c s IH]; [done|]. cbn [str_forallb].
  intros [?%Hfg ?%IH]%andb_true_iff. by apply andb_true_iff.
Qed.

Lemma escape_no_char plain query s x :
  escaped_char plain query x = false -> no_char x (escape plain query s) = true.
Proof.
  intros Hx. eapply str_forallb_impl; [|apply escape_chars]. intros c Hc.
  destruct (Ascii.eqb_spec c x) as [->|]; [congruence|done].
Qed.

Lemma cut_app sep a b : no_char sep a = true -> cut sep (a +:+ String sep b) = Some (a, b).
Proof.
  unfold no_char. induction a as [|c a IH]; cbn [str_forallb].
  - intros _. change (EmptyString +:+ String sep b) with (String sep b). cbn [cut]. by rewrite Ascii.eqb_refl.
  - intros [Hc%negb_true_iff Ha]%andb_true_iff. rewrite app_cons. cbn [cut]. by rewrite Hc, IH.
Qed.

Lemma cut_none sep s : no_char sep s = true -> cut sep s = None.
Proof.
  unfold no_char. induction s as [|c s IH]; cbn [str_forallb]; [done|].
  intros [Hc%negb_true_iff Ha]%andb_true_iff. cbn [cut]. by rewrite Hc, IH.
Qed.

Lemma no_char_app x a b : no_char x (a +:+ b) = no_char x a && no_char x b.
Proof. apply str_forallb_app. Qed.

Lemma not_contains_char x s : no_char x s = true -> contains (String x EmptyString) s = false.
Proof.
  intros Hs. destruct (contains _ s) eqn:E; [|done]. apply contains_iff in E as (a & b & ->).
  rewrite !no_char_app in Hs. cbn in Hs. rewrite Ascii.eqb_refl in Hs. cbn in Hs.
  by rewrite andb_false_r in Hs.
Qed.

Lemma entry_no_char x kv :
  escaped_char unreserved true x = false -> Ascii.eqb "=" x = false -> no_char x (encode_entry kv) = true.
Proof.
  intros Hx He. unfold encode_entry. rewrite !no_char_app.
  unfold QueryEscape. rewrite !escape_no_char by done. unfold no_char. cbn [str_forallb]. by rewrite He.
Qed.

Lemma parse_encode_entry kv : parse_entry (encode_entry kv) = Some [kv].
Proof.
  unfold parse_entry. assert (is_empty (encode_entry kv) = false) as ->.
  { apply is_empty_false. unfold encode_entry. by destruct (QueryEscape kv.1). }
  rewrite not_contains_char by by apply entry_no_char.
  unfold encode_entry. change ("=" +:+ QueryEscape kv.2) with (String "=" (QueryEscape kv.2)).
  rewrite cut_app by by apply escape_no_char. rewrite !QueryUnescape_QueryEscape. by destruct kv.
Qed.

Lemma ParseQuery_aux_join l fuel :
  (length l < fuel)%nat -> ParseQuery_aux fuel (join "&" (map encode_entry l)) = Some l.
Proof.
  revert fuel. induction l as [|kv l IH]; intros [|fuel] Hf; try (cbn in Hf; lia); [done|].
  destruct l as [|kv' l].
  - cbn [map join ParseQuery_aux]. rewrite cut_none by by apply entry_no_char. apply parse_encode_entry.
  - change (join "&" (map encode_entry (kv :: kv' :: l))) with
      (encode_entry kv +:+ String "&" (join "&" (map encode_entry (kv' :: l)))).
    cbn [ParseQuery_aux]. rewrite cut_app by by apply entry_no_char.
    rewrite parse_encode_entry, IH by (cbn in *; lia). done.
Qed.

Lemma join_length l : (length l <= String.length (join "&" (map encode_entry l)))%nat.
Proof.
  assert (forall kv, 1 <= String.length (encode_entry kv))%nat as He.
  { intros kv. unfold encode_entry. rewrite !string_length_app. cbn. lia. }
  induction l as [|kv l IH]; [done|]. destruct l as [|kv' l]; [apply He|].
  change (join "&" (map encode_entry (kv :: kv' :: l))) with
    (encode_entry kv +:+ String "&" (join "&" (map encode_entry (kv' :: l)))).
  rewrite string_length_app. cbn [String.length]. specialize (He kv). cbn [length] in *. lia.
Qed.

Lemma ParseQuery_Encode v : ParseQuery (Encode v) = Some (sorted_entries v).
Proof.
  unfold ParseQuery, Encode. apply ParseQuery_aux_join. pose proof (join_length (sorted_entries v)). lia.
Qed.

Lemma sorted_entries_Permutation v : sorted_entries v ≡ₚ map_to_list v.
Proof. apply merge_sort_Permutation. Qed.

Lemma sorted_entries_map v : list_to_map (sorted_entries v) = v.
Proof.
  rewrite <- (list_to_map_to_list v) at 2. apply list_to_map_proper; [|apply sorted_entries_Permutation].
  rewrite sorted_entries_Permutation. apply NoDup_fst_map_to_list.
Qed.
