(* ===== verification/World.v ===== *)
(** * The shared world: tables, remote systems, faults

    The rows of the PostgreSQL tables as records named after the Go structs
    ([internal/*/model.go]), the database and the in-process state they share,
    the environment every program runs against, and the two atomic operations
    programs are made of: a SQL statement ([stmt]) and a remote call ([ext]). *)

From stdpp Require Import gmap strings list fin_maps sorting pretty.
From Stdlib Require Import ZArith Lia.
From S2P Require Import Prelude GoStrings.

Open Scope Z_scope.

(** ** Rows *)

(** The values [chk_tenants_status] admits. *)
Inductive TenantStatus :=
| provisioning | active | suspended | deleting | errored | deleted.

#[export] Instance TenantStatus_eq_dec : EqDecision TenantStatus.
Proof. solve_decision. Defined.

Definition status_string (s : TenantStatus) : string :=
  match s with
  | provisioning => "provisioning" | active => "active" | suspended => "suspended"
  | deleting => "deleting" | errored => "error" | deleted => "deleted"
  end.

Definition status_eqb (a b : TenantStatus) : bool := bool_decide (a = b).

(** [tenant.Tenant]. Times are microseconds since the epoch. *)
Record Tenant := mkTenant {
  t_ID : string; t_Name : string; t_ProjectID : string; t_NodeID : string;
  t_LXCID : option Z; t_LXCIP : option string; t_Subdomain : string;
  t_Status : TenantStatus; t_ErrorMessage : option string; t_OwnerID : option string;
  t_StripeSubscriptionID : option string; t_StripeCustomerID : option string;
  t_Tier : string; t_DashboardToken : option string; t_HealthStatus : string;
  t_HealthCheckedAt : option Z; t_CreatedAt : Z; t_UpdatedAt : Z }.

(** [node.Node]: the struct and the row. *)
Record Node := mkNode {
  n_ID : string; n_Name : string; n_TailscaleIP : string; n_ProxmoxURL : string;
  n_APITokenEncrypted : string; n_TotalRAMMB : Z; n_AllocatedRAMMB : Z;
  n_Status : string; n_CreatedAt : Z; n_UpdatedAt : Z }.

(** [project.Project]. *)
Record Project := mkProject {
  p_ID : string; p_Name : string; p_TemplateID : Z; p_Ports : list Z;
  p_StripePriceID : option string; p_HealthPath : string; p_RAMMB : Z;
  p_NetworkCIDR : string; p_Gateway : string; p_CreatedAt : Z; p_UpdatedAt : Z }.

(** [audit.Entry], with the JSON details as the string map they were built from. *)
Record AuditEntry := mkAudit {
  a_ID : string; a_Action : string; a_EntityType : string; a_EntityID : string;
  a_Details : option (list (string * string)); a_CreatedAt : Z }.

(** [user.User]. *)
Record User := mkUser {
  us_ID : string; us_Email : string; us_PasswordHash : string; us_DisplayName : string;
  us_CreatedAt : Z; us_UpdatedAt : Z }.

(** Rows of [refresh_tokens] and [revoked_tokens]. *)
Record RefreshRow := mkRefresh {
  rt_ID : string; rt_UserID : string; rt_TokenHash : string; rt_ExpiresAt : Z;
  rt_CreatedAt : Z; rt_RevokedAt : option Z }.
Record RevokedRow := mkRevoked { rv_UserID : string; rv_ExpiresAt : Z; rv_RevokedAt : Z }.

(** [auth.limitEntry]. *)
Record limitEntry := mkLimit { li_failures : Z; li_lastFail : Z }.

(** What authentication keeps: the three tables (revocations by their [jti])
    and the login limiter of the handler. *)
Record Auth := mkAuth {
  au_users : gmap string User;
  au_refresh : gmap string RefreshRow;
  au_revoked : gmap string RevokedRow;
  au_limiter : gmap string limitEntry }.

(** [wireguard.Peer]. *)
Record Peer := mkPeer {
  pe_ID : string; pe_Name : string; pe_PublicKey : string; pe_PresharedKeyEncrypted : option string;
  pe_WgIP : string; pe_AllowedIPs : string; pe_Endpoint : option string; pe_Type : string;
  pe_TenantID : option string; pe_Enabled : bool; pe_CreatedAt : Z; pe_UpdatedAt : Z }.

(** The columns of a row of [stations]. *)
Record StationRow := mkStationRow {
  sr_ID : string; sr_Name : string; sr_Slug : string; sr_Genre : string; sr_Description : string;
  sr_ArtworkURL : string; sr_StreamURL : string; sr_OwnerID : option string; sr_TenantID : option string;
  sr_IsPublic : bool; sr_IsOnline : bool; sr_CreatedAt : Z; sr_UpdatedAt : Z }.

(** [station.Station]: a row, and the live fields that are not stored. A
    float64 is the text of its shortest decimal literal. *)
Record Station := mkStation {
  st_Row : StationRow; st_ListenersCount : Z; st_NowPlaying : string; st_BPM : string }.

(** [station.StationStatus]. *)
Record StationStatus := mkStationStatus {
  ss_IsOnline : bool; ss_ListenersCount : Z; ss_NowPlaying : string; ss_BPM : string; ss_FetchedAt : Z }.

(** What the stations package keeps: the table, and the cache of the poller. *)
Record Radio := mkRadio {
  ra_stations : gmap string StationRow;
  ra_cache : gmap string StationStatus }.

(** ** Passkeys of the administrator *)

(** [webauthn.Credential], by the fields that are stored. *)
Record Credential := mkCredential {
  wc_ID : string; wc_PublicKey : string; wc_AttestationType : string; wc_Transport : list string;
  wc_AAGUID : string; wc_SignCount : Z }.

Record CredentialRow := mkCredentialRow { cd_ID : string; cd_Credential : Credential; cd_CreatedAt : Z }.

(** [webauthn.SessionData]: what the library keeps of a challenge, opaque here,
    and when it expires. *)
Record SessionData := mkSessionData { sd_content : string; sd_Expires : Z }.
Record sessionEntry := mkSessionEntry { se_data : SessionData; se_flowType : string }.

(** The table webauthn_credentials, and the challenges between a begin and a
    finish call ([webauthnSessions]). *)
Record Passkeys := mkPasskeys {
  pk_credentials : gmap string CredentialRow;
  pk_sessions : gmap string sessionEntry }.

(** ** Remote calls *)

(** What the control plane asks of other systems: Proxmox (per node), SSH,
    Caddy, a tenant's dashboard, Stripe, the [wg] command. Each is one call;
    [EvWait] is [Task.Wait]. *)
Inductive Task := TClone | TStart | TStop | TDelete.

#[export] Instance Task_eq_dec : EqDecision Task.
Proof. solve_decision. Defined.

Inductive Event :=
| EvGetNextID (nodeID : string)
| EvCloneContainer (nodeID : string) (templateID newID : Z) (hostname : string)
| EvStartContainer (nodeID : string) (vmid : Z)
| EvStopContainer (nodeID : string) (vmid : Z)
| EvDeleteContainer (nodeID : string) (vmid : Z)
| EvConfigureNetwork (nodeID : string) (vmid : Z) (net0 : string)
| EvConfigureMountPoints (nodeID : string) (vmid : Z) (mounts : list (string * string))
| EvWait (nodeID : string) (t : Task) (vmid : Z)
| EvSSH (host command : string)
| EvAddRoute (subdomain ip : string)
| EvRemoveRoute (subdomain : string)
| EvStatusGet (url : string)
| EvHealthGet (url : string)
| EvCheckoutSession (email priceID successURL cancelURL : string) (metadata : list (string * string))
| EvPortalSession (customerID returnURL : string)
| EvWg (args : list string) (stdin : option string).

#[export] Instance Event_eq_dec : EqDecision Event.
Proof. solve_decision. Defined.

(** [provisioner.ProxmoxClient] as the cache keeps it: the node it was built for
    and the URL and token it holds. *)
Record ProxmoxClient := mkClient { c_NodeID : string; c_URL : string; c_Token : string }.

(** A goroutine started by [Provisioner.Provision], with its arguments. *)
Record Job := mkJob {
  j_TenantID : string; j_NodeID : string; j_ProjectID : string;
  j_Subdomain : string; j_RAMMB : Z }.

(** ** The world *)

Record World := mkWorld {
  w_tenants : gmap string Tenant;
  w_nodes : gmap string Node;
  w_projects : gmap string Project;
  w_audit : list AuditEntry;
  w_auth : Auth;
  w_peers : gmap string Peer;
  w_radio : Radio;
  w_keys : Passkeys;
  w_clients : gmap string ProxmoxClient;   (* Provisioner.clients *)
  w_jobs : list Job;                       (* goroutines not yet running *)
  w_trace : list Event;                    (* remote calls made, oldest first *)
  w_tick : nat }.          (* operations performed *)

Definition set_tenants (m : gmap string Tenant) (w : World) : World :=
  mkWorld m (w_nodes w) (w_projects w) (w_audit w) (w_auth w) (w_peers w) (w_radio w) (w_keys w) (w_clients w) (w_jobs w) (w_trace w) (w_tick w).
Definition set_nodes (m : gmap string Node) (w : World) : World :=
  mkWorld (w_tenants w) m (w_projects w) (w_audit w) (w_auth w) (w_peers w) (w_radio w) (w_keys w) (w_clients w) (w_jobs w) (w_trace w) (w_tick w).
Definition set_projects (m : gmap string Project) (w : World) : World :=
  mkWorld (w_tenants w) (w_nodes w) m (w_audit w) (w_auth w) (w_peers w) (w_radio w) (w_keys w) (w_clients w) (w_jobs w) (w_trace w) (w_tick w).
Definition set_audit (l : list AuditEntry) (w : World) : World :=
  mkWorld (w_tenants w) (w_nodes w) (w_projects w) l (w_auth w) (w_peers w) (w_radio w) (w_keys w) (w_clients w) (w_jobs w) (w_trace w) (w_tick w).
Definition set_auth (a : Auth) (w : World) : World :=
  mkWorld (w_tenants w) (w_nodes w) (w_projects w) (w_audit w) a (w_peers w) (w_radio w) (w_keys w) (w_clients w) (w_jobs w) (w_trace w) (w_tick w).
Definition set_peers (m : gmap string Peer) (w : World) : World :=
  mkWorld (w_tenants w) (w_nodes w) (w_projects w) (w_audit w) (w_auth w) m (w_radio w) (w_keys w) (w_clients w) (w_jobs w) (w_trace w) (w_tick w).
Definition set_radio (r : Radio) (w : World) : World :=
  mkWorld (w_tenants w) (w_nodes w) (w_projects w) (w_audit w) (w_auth w) (w_peers w) r (w_keys w) (w_clients w) (w_jobs w) (w_trace w) (w_tick w).
Definition set_keys (k : Passkeys) (w : World) : World :=
  mkWorld (w_tenants w) (w_nodes w) (w_projects w) (w_audit w) (w_auth w) (w_peers w) (w_radio w) k (w_clients w) (w_jobs w) (w_trace w) (w_tick w).
Definition set_clients (m : gmap string ProxmoxClient) (w : World) : World :=
  mkWorld (w_tenants w) (w_nodes w) (w_projects w) (w_audit w) (w_auth w) (w_peers w) (w_radio w) (w_keys w) m (w_jobs w) (w_trace w) (w_tick w).
Definition set_jobs (l : list Job) (w : World) : World :=
  mkWorld (w_tenants w) (w_nodes w) (w_projects w) (w_audit w) (w_auth w) (w_peers w) (w_radio w) (w_keys w) (w_clients w) l (w_trace w) (w_tick w).
Definition set_trace (l : list Event) (w : World) : World :=
  mkWorld (w_tenants w) (w_nodes w) (w_projects w) (w_audit w) (w_auth w) (w_peers w) (w_radio w) (w_keys w) (w_clients w) (w_jobs w) l (w_tick w).
Definition set_tick (n : nat) (w : World) : World :=
  mkWorld (w_tenants w) (w_nodes w) (w_projects w) (w_audit w) (w_auth w) (w_peers w) (w_radio w) (w_keys w) (w_clients w) (w_jobs w) (w_trace w) n.

(** ** The environment

    Everything the programs do not decide: which statements fail, the values
    [gen_random_uuid()], [now()] and [crypto/rand] produce, the answers of the
    remote systems, and the third-party functions the code relies on. The
    [nat] is the number of operations performed so far, so an environment can
    answer every call of an execution differently. *)
Record URL := mkURL { u_Scheme : string; u_Host : string }.

(** [station.dashboardStatusResponse], by the fields the code reads. *)
Record dashboardStatusResponse := mkDashboard {
  ds_Audio_Title : string; ds_Icecast_Listeners : Z; ds_StreamMode_Mode : string; ds_BPM_Current : string }.

(** What a dashboard answers: its status code, and its body when that decodes. *)
Record StatusAnswer := mkStatusAnswer { sa_StatusCode : Z; sa_Data : option dashboardStatusResponse }.

Class Env := {
  env_fault : nat -> option string;
  env_uuid : nat -> string;
  env_now : nat -> Z;
  env_rand : nat -> nat -> res string;   (* operation, number of bytes *)
  env_ext : nat -> Event -> option error;
  env_next_id : nat -> Z;
  env_http_status : nat -> Z;
  env_dashboard : nat -> string -> StatusAnswer;
  env_elapsed : nat -> Z;
  env_ctx_done : nat -> bool;
  env_uuid_valid : string -> bool;
  env_url_parse : string -> option URL;
  env_seal : string -> string -> string -> string;
  env_open : string -> string -> string -> option string;
  env_hmac : string -> string -> string;    (* HMAC-SHA256: key, message *)
  env_lower : string -> string;             (* lower() of the database *)
  env_text_le : string -> string -> bool;   (* its collation *)
  env_to_lower : string -> string }.        (* strings.ToLower, by the case tables of Unicode *)

Abbreviation P := (Prog World).

Fixpoint repeat_string (n : nat) (s : string) : string :=
  match n with O => EmptyString | S n' => s +:+ repeat_string n' s end.

Lemma repeat_string_length n c : String.length (repeat_string n (String c EmptyString)) = n.
Proof. induction n as [|n IH]; [done|]. simpl repeat_string. 
  change (String.length (String c (repeat_string n (String c EmptyString))) = S n).
  simpl. by rewrite IH. Qed.

(** A statement of the database fails, somewhere: what the theorems that allow
    failing statements guard their exceptions with. *)
Definition faulty `{Env} : Prop := exists k, is_Some (env_fault k).

Lemma up_not_faulty `{Env} : (forall k, env_fault k = None) -> ~ faulty.
Proof. intros Hup [k Hk]. rewrite Hup in Hk. by destruct Hk. Qed.

(** Concrete environments for evaluating programs: the caller chooses the
    failing statements and the remote answers; in [calm] nothing fails. *)
Definition env_with (fault : nat -> option string) (answer : nat -> Event -> option error) : Env := {|
  env_fault := fault;
  env_uuid := fun t => "uuid-" +:+ pretty t;
  env_now := Z.of_nat;
  env_rand := fun _ n => Ok (repeat_string n "r");
  env_ext := answer;
  env_next_id := fun _ => 100;
  env_http_status := fun _ => 200;
  env_dashboard := fun _ _ => mkStatusAnswer 200 (Some (mkDashboard "a song" 7 "live" "120"));
  env_elapsed := Z.of_nat;
  env_ctx_done := fun _ => false;
  env_uuid_valid := fun s => negb (is_empty s);
  env_url_parse := fun s => if has_prefix "https://" s then Some (mkURL "https" "host")
    else if has_prefix "http://" s then Some (mkURL "http" "host") else None;
  env_seal := fun _ _ m => m;
  env_open := fun _ _ c => Some c;
  env_hmac := fun k m => k +:+ m;
  env_lower := to_lower;
  env_text_le := String.leb;
  env_to_lower := to_lower |}.

Definition calm : Env := env_with (fun _ => None) (fun _ _ => None).

(** The same environment with other random bytes. *)
Definition env_with_rand (rand : nat -> nat -> res string) (E : Env) : Env := {|
  env_fault := env_fault; env_uuid := env_uuid; env_now := env_now; env_rand := rand;
  env_ext := env_ext; env_next_id := env_next_id; env_http_status := env_http_status;
  env_dashboard := env_dashboard; env_lower := env_lower; env_text_le := env_text_le; env_to_lower := env_to_lower;
  env_elapsed := env_elapsed; env_ctx_done := env_ctx_done; env_uuid_valid := env_uuid_valid;
  env_url_parse := env_url_parse; env_seal := env_seal;
  env_open := env_open; env_hmac := env_hmac |}.

Definition empty_auth : Auth := mkAuth ∅ ∅ ∅ ∅.
Definition empty_world : World := mkWorld ∅ ∅ ∅ [] empty_auth ∅ (mkRadio ∅ ∅) (mkPasskeys ∅ ∅) ∅ [] [] 0.

Section Ops.
Context `{Env}.

(** One SQL statement: it fails without effect, or runs against the tables. *)
Definition stmt {A} (f : World -> res A * World) : P (res A) :=
  atom (fun w =>
    let w1 := set_tick (S (w_tick w)) w in
    match env_fault (w_tick w) with
    | Some m => (Fail (errorString m), w1)
    | None => f w1
    end).

(** A statement that only reads. *)
Definition query {A} (f : World -> A) : P (res A) := stmt (fun w => (Ok (f w), w)).

(** One remote call: recorded, then answered by the environment. *)
Definition ext (ev : Event) : P (option error) :=
  atom (fun w =>
    (env_ext (w_tick w) ev,
     set_trace (w_trace w ++ [ev]) (set_tick (S (w_tick w)) w))).

(** A read or write of in-process state under its mutex. *)
Definition local {A} (f : World -> A * World) : P A := atom f.

(** A value the environment supplies at this point of the execution. *)
Definition sample {A} (f : nat -> A) : P A :=
  atom (fun w => (f (w_tick w), set_tick (S (w_tick w)) w)).

End Ops.

(** ** What an operation leaves alone *)

(** Same tables and in-process state: what a read or a failed statement does. *)
Definition same_db (w w' : World) : Prop :=
  w_tenants w' = w_tenants w /\ w_nodes w' = w_nodes w /\ w_projects w' = w_projects w /\
  w_audit w' = w_audit w /\ w_auth w' = w_auth w /\ w_peers w' = w_peers w /\ w_jobs w' = w_jobs w /\
  w_radio w' = w_radio w /\ w_keys w' = w_keys w.

(** Nothing but the operation counter changed. *)
Definition unchanged (w w' : World) : Prop :=
  same_db w w' /\ w_clients w' = w_clients w /\ w_trace w' = w_trace w.

#[export] Instance same_db_preorder : PreOrder same_db.
Proof.
  split; [by intros w|]. intros a b c (?&?&?&?&?&?&?&?&?) (?&?&?&?&?&?&?&?&?). repeat split; congruence.
Qed.

#[export] Instance unchanged_preorder : PreOrder unchanged.
Proof.
  split; [by intros w|]. intros a b c (H1&?&?) (H2&?&?).
  split; [by etrans|]. split; congruence.
Qed.

Lemma unchanged_same_db w w' : unchanged w w' -> same_db w w'.
Proof. by intros [? _]. Qed.

Section OpLemmas.
Context `{Env}.

Lemma wp_stmt {A} (f : World -> res A * World) Q w :
  (forall m, env_fault (w_tick w) = Some m ->
     Q (Fail (errorString m)) (set_tick (S (w_tick w)) w)) ->
  (env_fault (w_tick w) = None ->
     Q (f (set_tick (S (w_tick w)) w)).1 (f (set_tick (S (w_tick w)) w)).2) ->
  wp (stmt f) Q w.
Proof.
  intros H1 H2. apply wp_atom. destruct (env_fault (w_tick w)); simpl; auto.
Qed.

Lemma wp_query {A} (f : World -> A) Q w :
  (forall m w', unchanged w w' -> env_fault (w_tick w) = Some m -> Q (Fail (errorString m)) w') ->
  (forall w', unchanged w w' -> env_fault (w_tick w) = None -> Q (Ok (f w')) w') ->
  wp (query f) Q w.
Proof. intros H1 H2. apply wp_stmt; intros; simpl; [by apply H1|by apply H2]. Qed.

Lemma wp_ext ev (Q : option error -> World -> Prop) w :
  (forall w', same_db w w' -> w_clients w' = w_clients w -> w_trace w' = w_trace w ++ [ev] ->
     Q (env_ext (w_tick w) ev) w') ->
  wp (ext ev) Q w.
Proof. intros HQ. apply wp_atom. simpl. by apply HQ. Qed.

Lemma wp_sample {A} (f : nat -> A) Q w :
  (forall w', unchanged w w' -> Q (f (w_tick w)) w') -> wp (sample f) Q w.
Proof. intros HQ. apply wp_atom. simpl. by apply HQ. Qed.

(** The operation counter, and with it a clock that follows it, only grows. *)
Definition ticks {A} (p : P A) : Prop := forall w, (w_tick w <= w_tick (run p w).2)%nat.

Lemma ticks_ret {A} (a : A) : ticks (Ret a).
Proof. by intros w. Qed.

Lemma ticks_bind {A B} (p : P A) (f : A -> P B) : ticks p -> (forall a, ticks (f a)) -> ticks (bind p f).
Proof.
  intros Hp Hf w. rewrite run_bind. specialize (Hp w). destruct (run p w) as [a w1].
  specialize (Hf a w1). simpl in *. lia.
Qed.

Lemma ticks_stmt {A} (f : World -> res A * World) :
  (forall w, w_tick (f w).2 = w_tick w) -> ticks (stmt f).
Proof.
  intros Hf w. unfold stmt. rewrite run_atom. destruct (env_fault (w_tick w)); simpl; [lia|].
  rewrite Hf. simpl. lia.
Qed.

Lemma ticks_sample {A} (f : nat -> A) : ticks (sample f).
Proof. intros w. unfold sample. rewrite run_atom. simpl. lia. Qed.

Lemma wp_ticks {A} (p : P A) Q w :
  ticks p -> wp p Q w -> wp p (fun a w' => Q a w' /\ (w_tick w <= w_tick w')%nat) w.
Proof. intros Hp Hw. split; [done|apply Hp]. Qed.

(** What an invariant and a guarantee have to tolerate for reads, failed
    statements, remote calls and samples to be safe. *)
Class Quiet (I : World -> Prop) (G : World -> World -> Prop) : Prop := {
  quiet_tick : forall w n, I w -> I (set_tick n w) /\ G w (set_tick n w);
  quiet_trace : forall w ev n, I w -> I (set_trace (w_trace w ++ [ev]) (set_tick n w)) /\
                  G w (set_trace (w_trace w ++ [ev]) (set_tick n w)) }.

Lemma safe_stmt {A} I G `{!Quiet I G} (Q : res A -> Prop) (f : World -> res A * World) :
  (forall e, Q (Fail e)) ->
  (forall w n, I w -> I (f (set_tick n w)).2 /\ G w (f (set_tick n w)).2 /\ Q (f (set_tick n w)).1) ->
  safe I G Q (stmt f).
Proof.
  intros HQ Hf. apply safe_atom. intros w Hw.
  destruct (env_fault (w_tick w)); simpl; [|by apply Hf].
  destruct (quiet_tick w (S (w_tick w)) Hw). auto.
Qed.

Lemma safe_query {A} I G `{!Quiet I G} (Q : res A -> Prop) (f : World -> A) :
  (forall e, Q (Fail e)) ->
  (forall w, I w -> Q (Ok (f w))) ->
  safe I G Q (query f).
Proof.
  intros HQ Hf. apply safe_stmt; [done..|]. intros w n Hw. simpl.
  destruct (quiet_tick w n Hw). auto.
Qed.

Lemma safe_query_any {A} I G `{!Quiet I G} (f : World -> A) : safe I G any (query f).
Proof. by apply safe_query. Qed.

Lemma safe_ext I G `{!Quiet I G} ev : safe I G any (ext ev).
Proof.
  apply safe_atom. intros w Hw. simpl.
  by destruct (quiet_trace w ev (S (w_tick w)) Hw).
Qed.

Lemma safe_sample {A} I G `{!Quiet I G} (f : nat -> A) : safe I G any (sample f).
Proof.
  apply safe_atom. intros w Hw. simpl. by destruct (quiet_tick w (S (w_tick w)) Hw).
Qed.

End OpLemmas.

#[export] Hint Resolve safe_query_any safe_ext safe_sample : safe.

#[global] Arguments stmt : simpl never.
#[global] Arguments query : simpl never.
#[global] Arguments ext : simpl never.
#[global] Arguments local : simpl never.
#[global] Arguments sample : simpl never.
