(* ===== verification/IPAlloc.v ===== *)
(** * internal/ipalloc: picking a free address out of a subnet

    [Next] walks the host range of an IPv4 prefix and returns the first address
    the caller has not used; [Allocate] runs it in a transaction behind the
    Postgres advisory lock. The walk is given [S (size used)] iterations of
    fuel: [walk_total] shows that is always enough. *)

From stdpp Require Import gmap strings list fin_sets.
From Stdlib Require Import Ascii ZArith Lia.
From S2P Require Import Prelude GoStrings NetIP World.

Open Scope Z_scope.

Definition AdvisoryLockKey : Z := 1280852809. (* 0x4C584349 *)

(** The broadcast address: every host bit set, byte by byte. *)
Definition lastAddr (prefix : Prefix) : Z :=
  let bytes := As4 (p_addr prefix) in
  let hostBits := 32 - p_bits prefix in
  AddrFrom4 (fold_left
    (fun bs i => alter (fun b => Z.lor b (Z.shiftl 1 (Z.of_nat i mod 8))) (3 - i / 8)%nat bs)
    (seq 0 (Z.to_nat hostBits)) bytes).

(** What one run of the candidate loop ends in. *)
Inductive walk_result := Found (s : string) | Exhausted | OutOfFuel.

(** [for candidate.IsValid() && candidate.Less(broadcast) { ... }]. *)
Fixpoint walk (fuel : nat) (candidate : option Z) (broadcast : Z) (used : gset string)
    : walk_result :=
  match fuel with
  | O => OutOfFuel
  | S fuel' =>
      match candidate with
      | None => Exhausted
      | Some c =>
          if c <? broadcast then
            let s := AddrString c in
            if bool_decide (s ∈ used) then walk fuel' (AddrNext (Some c)) broadcast used
            else Found s
          else Exhausted
      end
  end.

Definition errNotIPv4 (cidr : string) : error :=
  errorString ("parse cidr " +:+ cidr +:+ ": not an IPv4 prefix").
Definition errNoAvailableIPs (cidr : string) : error :=
  errorString ("no available IPs in " +:+ cidr).
Definition errOutOfFuel : error := errorString "out of fuel".

Definition Next (cidr : string) (used : gset string) : res string :=
  match ParsePrefix4 cidr with
  | None => Fail (errNotIPv4 cidr)
  | Some p =>
      let prefix := Masked p in
      let network := p_addr prefix in
      let broadcast := lastAddr prefix in
      let candidate := AddrNext (AddrNext (Some network)) in
      match walk (S (size used)) candidate broadcast used with
      | Found s => Ok s
      | Exhausted => Fail (errNoAvailableIPs cidr)
      | OutOfFuel => Fail errOutOfFuel
      end
  end.

(** [CollectIPs]: the column of addresses as a set. *)
Definition CollectIPs (rows : list string) : gset string := list_to_set rows.

Section Allocate.
Context `{Env}.

(** [Allocate]: begin, take the advisory lock, list the used addresses, choose,
    commit. The lock and the commit are statements that change no table. *)
Definition Allocate (cidr : string) (listUsed : P (res (gset string))) : P (res string) :=
  match ParsePrefix4 cidr with
  | None => Ret (Fail (errNotIPv4 cidr))
  | Some _ =>
      let? _u := query (fun _ => tt) catch e => Ret (Fail e) in (* BEGIN *)
      let? _u := query (fun _ => tt) catch e => Ret (Fail (EWrap "advisory lock" e)) in
      let? used := listUsed catch e => Ret (Fail e) in
      match Next cidr used with
      | Fail e => Ret (Fail e)
      | Ok addr =>
          let? _u := query (fun _ => tt) catch e => Ret (Fail e) in (* COMMIT *)
          Ret (Ok addr)
      end
  end.

End Allocate.

(** ** The broadcast address *)

Lemma lor_pow2_octet b j :
  0 <= b < 256 -> 0 <= j < 8 -> b mod 2 ^ (j + 1) < 2 ^ j -> Z.lor b (2 ^ j) = b + 2 ^ j.
Proof.
  intros Hb Hj Hm.
  assert (Forall (fun b => Forall (fun j => (b mod 2 ^ (j + 1) <? 2 ^ j) = true ->
            Z.lor b (2 ^ j) = b + 2 ^ j) (seqZ 0 8)) octets) as Hall.
  { apply Forall_forall. intros b' Hb'.
    assert (forallb (fun b => forallb (fun j => implb (b mod 2 ^ (j + 1) <? 2 ^ j)
              (Z.lor b (2 ^ j) =? b + 2 ^ j)) (seqZ 0 8)) octets = true) as Hc by reflexivity.
    rewrite forallb_forall in Hc. apply list_elem_of_In in Hb'.
    specialize (Hc _ Hb'). rewrite forallb_forall in Hc.
    apply Forall_forall. intros j' Hj' Hlt. apply list_elem_of_In in Hj'.
    specialize (Hc _ Hj'). rewrite Hlt in Hc. by apply Z.eqb_eq. }
  rewrite Forall_forall in Hall. specialize (Hall b (octets_spec _ Hb)).
  rewrite Forall_forall in Hall. apply Hall; [apply elem_of_seqZ; lia|by apply Z.ltb_lt].
Qed.

Lemma list4_ext {A} (a b c d a' b' c' d' : A) :
  a = a' -> b = b' -> c = c' -> d = d' -> [a; b; c; d] = [a'; b'; c'; d'].
Proof. by intros -> -> -> ->. Qed.

(** One iteration of the loop: when bits 0..i-1 are set and bit i is clear,
    setting bit i of the bytes adds [2^i] to the address. *)
Lemma set_host_bit_all :
  Forall (fun i : nat => forall q, 0 <= q ->
    q * 2 ^ (Z.of_nat i + 1) + 2 ^ Z.of_nat i - 1 + 2 ^ Z.of_nat i <= addr_max ->
    alter (fun b => Z.lor b (2 ^ (Z.of_nat i mod 8))) (3 - i / 8)%nat
      (As4 (q * 2 ^ (Z.of_nat i + 1) + 2 ^ Z.of_nat i - 1)) =
    As4 (q * 2 ^ (Z.of_nat i + 1) + 2 ^ Z.of_nat i - 1 + 2 ^ Z.of_nat i)) (seq 0 32).
Proof.
  unfold addr_max.
  repeat (apply Forall_cons; split; [intros q Hq Hv|]); [..|by apply Forall_nil].
  all: cbv [As4 alter list_alter Nat.sub Nat.div Nat.divmod fst].
  all: repeat match goal with
    | |- context [2 ^ ?e] => let x := eval vm_compute in (2 ^ e) in
        lazymatch x with Zpos _ => change (2 ^ e) with x in * end
    | H : context [2 ^ ?e] |- _ => let x := eval vm_compute in (2 ^ e) in
        lazymatch x with Zpos _ => change (2 ^ e) with x in * end
    end.
  all: match goal with |- context [Z.lor ?b ?m] =>
      let j := eval vm_compute in (Z.log2 m) in
      change (Z.lor b m) with (Z.lor b (2 ^ j)); rewrite (lor_pow2_octet b j);
        [change (2 ^ j) with m| |lia|]
    end.
  all: first [apply list4_ext | idtac].
  all: repeat match goal with |- context [2 ^ ?e] =>
        let x := eval vm_compute in (2 ^ e) in change (2 ^ e) with x end.
  all: Z.to_euclidean_division_equations; lia.
Qed.

Lemma set_host_bits a h n :
  0 <= a -> (h <= 32)%nat -> (n <= h)%nat -> (2 ^ Z.of_nat h | a) ->
  a + 2 ^ Z.of_nat h - 1 <= addr_max ->
  fold_left
    (fun bs i => alter (fun b => Z.lor b (Z.shiftl 1 (Z.of_nat i mod 8))) (3 - i / 8)%nat bs)
    (seq 0 n) (As4 a) = As4 (a + 2 ^ Z.of_nat n - 1).
Proof.
  intros Ha Hh Hn Hdiv Hmax. induction n as [|n IH].
  { simpl. f_equal. rewrite Z.pow_0_r. lia. }
  rewrite seq_S, fold_left_app, IH by lia. cbn [fold_left Nat.add].
  destruct Hdiv as [m ->].
  assert (2 ^ Z.of_nat h = 2 ^ Z.of_nat (h - S n) * 2 ^ (Z.of_nat n + 1)) as Eh.
  { rewrite <- Z.pow_add_r by lia. f_equal. lia. }
  assert (2 ^ (Z.of_nat n + 1) = 2 * 2 ^ Z.of_nat n) as E2 by (rewrite Z.pow_add_r by lia; lia).
  assert (0 < 2 ^ Z.of_nat n) by (apply Z.pow_pos_nonneg; lia).
  assert (0 < 2 ^ Z.of_nat (h - S n)) by (apply Z.pow_pos_nonneg; lia).
  assert (0 <= m) by nia.
  pose proof set_host_bit_all as Hall. rewrite Forall_forall in Hall.
  specialize (Hall n ltac:(apply elem_of_seq; lia) (m * 2 ^ Z.of_nat (h - S n))).
  rewrite <- (Z.shiftl_1_l (Z.of_nat n mod 8)) in Hall.
  replace (m * 2 ^ Z.of_nat h + 2 ^ Z.of_nat n - 1)
    with (m * 2 ^ Z.of_nat (h - S n) * 2 ^ (Z.of_nat n + 1) + 2 ^ Z.of_nat n - 1) by nia.
  rewrite Hall; [|nia|].
  - f_equal. rewrite Nat2Z.inj_succ, Z.pow_succ_r by lia. nia.
  - enough (2 * 2 ^ Z.of_nat n <= 2 ^ Z.of_nat h) by nia.
    rewrite <- E2. apply Z.pow_le_mono_r; lia.
Qed.

(** ** The candidate loop *)

Section Walk.
Variable used : gset string.
Variable broadcast : Z.
Hypothesis broadcast_max : broadcast <= addr_max.

Lemma walk_spec fuel c :
  0 <= c ->
  match walk fuel (Some c) broadcast used with
  | Found s => exists a, c <= a < broadcast /\ s = AddrString a /\ s ∉ used /\
                 forall x, c <= x < a -> AddrString x ∈ used
  | Exhausted => forall x, c <= x < broadcast -> AddrString x ∈ used
  | OutOfFuel => c + Z.of_nat fuel - 1 < broadcast \/ fuel = O
  end /\
  (walk fuel (Some c) broadcast used = OutOfFuel ->
   forall x, c <= x < c + Z.of_nat fuel -> AddrString x ∈ used).
Proof.
  revert c. induction fuel as [|fuel IH]; intros c Hc; cbn [walk].
  { split; [by right|]. intros _ x. lia. }
  destruct (Z.ltb_spec c broadcast) as [Hlt|Hge]; [|split; [intros x; lia|done]].
  case_bool_decide as Hu.
  2:{ split; [|done]. exists c. split_and!; [lia|lia|done|done|]. intros x. lia. }
  unfold AddrNext. destruct (Z.eqb_spec c addr_max) as [->|Hne]; [lia|].
  destruct (IH (c + 1)) as [H1 H2]; [lia|].
  assert (forall x, c <= x -> x <> c -> c + 1 <= x) as Hstep by lia.
  split.
  - destruct (walk fuel _ _ _) as [s| |].
    + destruct H1 as (a & ? & ? & ? & Hx). exists a. split_and!; try lia; try done.
      intros x Hxr. destruct (Z.eq_dec x c) as [->|]; [done|]. apply Hx. lia.
    + intros x Hxr. destruct (Z.eq_dec x c) as [->|]; [done|]. apply H1. lia.
    + left. destruct H1; lia.
  - intros Hw x Hxr. destruct (Z.eq_dec x c) as [->|]; [done|]. apply H2; [done|lia].
Qed.

(** More candidates than used addresses: one of them is free. *)
Lemma walk_total c :
  0 <= c -> walk (S (size used)) (Some c) broadcast used <> OutOfFuel.
Proof.
  intros Hc Hw. destruct (walk_spec (S (size used)) c Hc) as [H1 H2].
  rewrite Hw in H1. destruct H1 as [H1|]; [|done]. specialize (H2 Hw).
  set (cs := AddrString <$> seqZ c (Z.of_nat (S (size used)))).
  assert (NoDup cs) as Hnd.
  { apply NoDup_fmap_2_strong; [|apply NoDup_seqZ].
    intros x y Hx%elem_of_seqZ Hy%elem_of_seqZ E. apply AddrString_inj in E; lia. }
  assert (list_to_set cs ⊆ used) as Hsub.
  { intros s Hs. apply elem_of_list_to_set, list_elem_of_fmap in Hs as (x & -> & Hx).
    apply elem_of_seqZ in Hx. by apply H2. }
  apply subseteq_size in Hsub. rewrite size_list_to_set in Hsub by done.
  unfold cs in Hsub. rewrite length_fmap, length_seqZ in Hsub. lia.
Qed.

End Walk.

Lemma Masked_lastAddr p :
  wf_prefix p -> lastAddr (Masked p) = p_addr (Masked p) + 2 ^ (32 - p_bits p) - 1.
Proof.
  intros Hp. pose proof (Masked_bounds p Hp) as (Hb & H0 & Hmax). destruct Hp as [Ha Hbits].
  set (h := Z.to_nat (32 - p_bits p)).
  assert (Z.of_nat h = 32 - p_bits p) as Hh by lia.
  unfold lastAddr. change (p_bits (Masked p)) with (p_bits p). cbv zeta. fold h.
  rewrite <- Hh in Hb, Hmax |- *.
  assert (0 < 2 ^ Z.of_nat h) by (apply Z.pow_pos_nonneg; lia).
  rewrite (set_host_bits _ h); unfold addr_max; try lia.
  - apply AddrFrom4_As4. unfold addr_max. lia.
  - exists (p_addr p / 2 ^ (32 - p_bits p)). unfold Masked. simpl. by rewrite Hh.
Qed.

(** The loop starts two past the network address. When that is past the end of
    the address space the loop body never runs. *)
Lemma candidate_start network :
  0 <= network <= addr_max ->
  AddrNext (AddrNext (Some network)) =
  if network + 2 <=? addr_max then Some (network + 2) else None.
Proof.
  intros H. unfold AddrNext. destruct (Z.eqb_spec network addr_max), (Z.leb_spec (network + 2) addr_max);
    try lia; try done; destruct (Z.eqb_spec (network + 1) addr_max); try lia; try done.
  f_equal. lia.
Qed.

(** The host addresses of a subnet: between the gateway and the broadcast
    address. *)
Definition host_range (p : Prefix) (a : Z) : Prop :=
  p_addr (Masked p) + 2 <= a < p_addr (Masked p) + 2 ^ (32 - p_bits p) - 1.

Lemma Next_cases (cidr : string) (used : gset string) (p : Prefix) :
  ParsePrefix4 cidr = Some p ->
  match Next cidr used with
  | Ok s => exists a, host_range p a /\ PrefixContains p a = true /\ s = AddrString a /\ s ∉ used /\
              forall x, p_addr (Masked p) + 2 <= x < a -> AddrString x ∈ used
  | Fail e => (forall x, host_range p x -> AddrString x ∈ used) /\ e = errNoAvailableIPs cidr
  end.
Proof.
  intros Hparse. pose proof (ParsePrefix4_wf _ _ Hparse) as Hwf.
  pose proof (Masked_bounds p Hwf) as (Hb & H0 & Hmax).
  unfold Next, host_range. rewrite Hparse, Masked_lastAddr by done.
  set (network := p_addr (Masked p)) in *. set (broadcast := network + 2 ^ (32 - p_bits p) - 1).
  rewrite candidate_start by (unfold addr_max; lia).
  assert (broadcast <= addr_max) as Hbr by (unfold broadcast, addr_max; lia).
  destruct (Z.leb_spec (network + 2) addr_max) as [Hle|Hgt].
  2:{ split; [intros x; lia|done]. }
  assert (0 <= network + 2) as Hpos by lia.
  pose proof (walk_total used broadcast Hbr _ Hpos) as Htot.
  destruct (walk_spec used broadcast Hbr (S (size used)) _ Hpos) as [Hspec _].
  change (p_addr (Masked p)) with network. fold broadcast.
  destruct (walk _ _ _ _) as [s| |]; [|done|done].
  destruct Hspec as (a & Ha & -> & Hu & Hlow). exists a.
  split_and!; try lia; try done.
  apply PrefixContains_iff; [done|]. unfold broadcast, network in *. lia.
Qed.

(** C13. Allocation is first fit over the whole host range: for every IPv4
    subnet, [Next] either returns the lowest address strictly between the
    gateway (network + 1) and the broadcast address that is not in use, or, when
    every such address is in use, reports the subnet exhausted; it always
    terminates and never returns the network, gateway or broadcast address. *)
Theorem Next_first_fit cidr used p
  (Hparse : ParsePrefix4 cidr = Some p) :
  let network := p_addr (Masked p) in
  let broadcast := network + 2 ^ (32 - p_bits p) - 1 in
  (exists a, network + 2 <= a < broadcast /\ PrefixContains p a = true /\
     AddrString a ∉ used /\ (forall x, network + 2 <= x < a -> AddrString x ∈ used) /\
     Next cidr used = Ok (AddrString a)) \/
  ((forall x, network + 2 <= x < broadcast -> AddrString x ∈ used) /\
   Next cidr used = Fail (errNoAvailableIPs cidr)).
Proof.
  intros network broadcast. pose proof (Next_cases cidr used p Hparse) as Hn.
  destruct (Next cidr used) as [s|e]; [left|right].
  - destruct Hn as (a & Ha & Hc & -> & Hu & Hlow). by exists a.
  - by destruct Hn as [Hall ->].
Qed.

Lemma Next_first_fit_witness :
  ParsePrefix4 "10.10.10.77/24" = Some (mkPrefix 168430157 24) /\
  ((exists a, 168430082 <= a < 168430335 /\ PrefixContains (mkPrefix 168430157 24) a = true /\
     AddrString a ∉ ({["10.10.10.2"; "10.10.10.3"]} : gset string) /\
     (forall x, 168430082 <= x < a -> AddrString x ∈ ({["10.10.10.2"; "10.10.10.3"]} : gset string)) /\
     Next "10.10.10.77/24" {["10.10.10.2"; "10.10.10.3"]} = Ok (AddrString a)) \/
   ((forall x, 168430082 <= x < 168430335 -> AddrString x ∈ ({["10.10.10.2"; "10.10.10.3"]} : gset string)) /\
    Next "10.10.10.77/24" {["10.10.10.2"; "10.10.10.3"]} = Fail (errNoAvailableIPs "10.10.10.77/24"))).
Proof.
  split; [vm_compute; reflexivity|].
  exact (Next_first_fit "10.10.10.77/24" {["10.10.10.2"; "10.10.10.3"]}
    (mkPrefix 168430157 24) eq_refl).
Defined.

Example Next_computes :
  Next "10.10.10.0/24" {["10.10.10.2"; "10.10.10.3"]} = Ok "10.10.10.4".
Proof. vm_compute. reflexivity. Qed.

Example Next_slash31 : Next "255.255.255.254/31" ∅ = Fail (errNoAvailableIPs "255.255.255.254/31").
Proof. vm_compute. reflexivity. Qed.

(** The byte loop of [lastAddr] computes the broadcast address: for every
    IPv4 prefix, setting host bit after host bit in the four bytes of the
    network address gives the last address the prefix contains. *)
Theorem lastAddr_broadcast p (Hp : wf_prefix p) :
  lastAddr (Masked p) = p_addr (Masked p) + 2 ^ (32 - p_bits p) - 1 /\
  PrefixContains p (lastAddr (Masked p)) = true /\
  PrefixContains p (lastAddr (Masked p) + 1) = false.
Proof.
  rewrite Masked_lastAddr by done. split; [done|].
  assert (0 < 2 ^ (32 - p_bits p)) by (apply Z.pow_pos_nonneg; destruct Hp; lia). split.
  - apply PrefixContains_iff; [done|]. lia.
  - apply not_true_iff_false. rewrite PrefixContains_iff by done. lia.
Qed.

Lemma lastAddr_broadcast_witness :
  wf_prefix (mkPrefix 168430157 25) /\ lastAddr (Masked (mkPrefix 168430157 25)) = 168430207.
Proof.
  assert (wf_prefix (mkPrefix 168430157 25)) as Hp
    by (unfold wf_prefix, addr_max; simpl; lia).
  split; [exact Hp|].
  destruct (lastAddr_broadcast (mkPrefix 168430157 25) Hp) as [E _]. rewrite E. reflexivity.
Defined.

(** ** The transaction *)

Section AllocateSpec.
Context `{Env}.

(** [Allocate] changes nothing; an address it gives is a host address that was
    not in the set it read. *)
Lemma wp_Allocate cidr (listUsed : P (res (gset string))) (used : World -> gset string) Q w :
  (forall w0 w1, unchanged w0 w1 -> used w1 = used w0) ->
  (forall w0 (K : res (gset string) -> World -> Prop), (forall e w', unchanged w0 w' -> K (Fail e) w') ->
     (forall w', unchanged w0 w' -> K (Ok (used w0)) w') -> wp listUsed K w0) ->
  (forall e w', unchanged w w' -> Q (Fail e) w') ->
  (forall p a w', unchanged w w' -> ParsePrefix4 cidr = Some p -> host_range p a ->
     AddrString a ∉ used w -> Q (Ok (AddrString a)) w') ->
  wp (Allocate cidr listUsed) Q w.
Proof.
  intros Hu Hl HF HO. unfold Allocate. destruct (ParsePrefix4 cidr) as [p|] eqn:Ep; [|by apply wp_ret, HF].
  apply wp_bind, wp_query; [by intros; apply wp_ret, HF|]. intros w1 H1 _.
  apply wp_bind, wp_query; [intros ? w2 H2 _; apply wp_ret, HF; by etrans|]. intros w2 H2 _.
  assert (unchanged w w2) as H02 by by etrans.
  apply wp_bind, Hl; [intros e w3 H3; apply wp_ret, HF; by etrans|]. intros w3 H3.
  assert (unchanged w w3) as H03 by by etrans. rewrite (Hu w w2 H02).
  pose proof (Next_cases cidr (used w) p Ep) as Hn.
  destruct (Next cidr (used w)) as [s|e]; [|by apply wp_ret, HF].
  destruct Hn as (a & Ha & _ & -> & Hn & _).
  apply wp_bind, wp_query; [intros ? w4 H4 _; apply wp_ret, HF; by etrans|]. intros w4 H4 _.
  apply wp_ret. eapply HO; [by etrans|done..].
Qed.

End AllocateSpec.
