(* ===== verification/WGValidate.v ===== *)
(** * internal/wireguard/validate.go: what a peer may claim

    [ValidateAllowedIPs], [ValidatePublicKey] and [ValidateEndpoint], with the
    parts of Go's [net/netip] and [encoding/base64] only they use: prefixes
    (of an IPv6 one only its length) and the decoded length of a base64 text.
    The validators return the text of their error, or nothing. *)

From stdpp Require Import gmap strings list.
From Stdlib Require Import Ascii ZArith Lia.
From S2P Require Import Prelude GoStrings NetIP.

Open Scope Z_scope.

(** ** [strings.Split] on one character *)

Fixpoint split (sep : ascii) (s : string) : list string :=
  match s with
  | EmptyString => [EmptyString]
  | String c s' =>
      if Ascii.eqb c sep then EmptyString :: split sep s'
      else match split sep s' with
           | w :: ws => String c w :: ws
           | [] => [String c EmptyString]
           end
  end.

(** ** [netip.ParsePrefix] *)

Inductive AnyPrefix := Is4 (p : Prefix) | Is6 (bits : Z).

Definition Bits (p : AnyPrefix) : Z := match p with Is4 p => p_bits p | Is6 b => b end.

(** [netip.ParsePrefix]: the address is read as IPv6 when a colon comes before
    any dot. A prefix may not have a zone, so any percent sign is an error. *)
Definition ParsePrefix (s : string) : option AnyPrefix :=
  match ParsePrefix4 s with
  | Some p => Some (Is4 p)
  | None =>
      match cut_last "/" s with
      | None => None
      | Some (ip, bitsStr) =>
          let leading_ok :=
            match bitsStr with String c (String _ _) => in_range "1" "9" c | _ => true end in
          if negb (bool_decide (is_Some (parseIPv6 ip)) && leading_ok) then None
          else match atoi bitsStr with
               | Some b => if (0 <=? b) && (b <=? 128) then Some (Is6 b) else None
               | None => None
               end
      end
  end.

(** [Prefix.String] of an IPv4 prefix. *)
Definition PrefixString (p : Prefix) : string := AddrString (p_addr p) +:+ "/" +:+ itoa (p_bits p).

(** ** [base64.StdEncoding.DecodeString] *)

Definition is_sextet (c : ascii) : bool :=
  in_range "A" "Z" c || in_range "a" "z" c || is_digit c || Ascii.eqb c "+" || Ascii.eqb c "/".

(** Quantum by quantum; padding only in the last one. *)
Fixpoint quanta (s : string) : option Z :=
  match s with
  | EmptyString => Some 0
  | String a (String b (String c (String d rest))) =>
      if negb (is_sextet a && is_sextet b) then None
      else if is_sextet c && is_sextet d then option_map (Z.add 3) (quanta rest)
      else if negb (is_empty rest) then None
      else if is_sextet c && Ascii.eqb d "=" then Some 2
      else if Ascii.eqb c "=" && Ascii.eqb d "=" then Some 1
      else None
  | _ => None
  end.

Fixpoint strip_newlines (s : string) : string :=
  match s with
  | EmptyString => EmptyString
  | String c s' =>
      if Ascii.eqb c "010" || Ascii.eqb c "013" then strip_newlines s' else String c (strip_newlines s')
  end.

(** How many bytes the text decodes to, if it is base64; newlines are skipped. *)
Definition base64_len (s : string) : option Z := quanta (strip_newlines s).

(** [base64.StdEncoding.EncodeToString]. *)
Definition b64_char (n : Z) : ascii :=
  ascii_of_N (Z.to_N (if n <? 26 then 65 + n else if n <? 52 then 71 + n else if n <? 62 then n - 4
                      else if n =? 62 then 43 else 47)).

Fixpoint base64_encode (s : string) : string :=
  match s with
  | EmptyString => EmptyString
  | String a EmptyString =>
      String (b64_char (byte_of a / 4)) (String (b64_char (byte_of a mod 4 * 16)) "==")
  | String a (String b EmptyString) =>
      String (b64_char (byte_of a / 4)) (String (b64_char (byte_of a mod 4 * 16 + byte_of b / 16))
        (String (b64_char (byte_of b mod 16 * 4)) "="))
  | String a (String b (String c rest)) =>
      String (b64_char (byte_of a / 4)) (String (b64_char (byte_of a mod 4 * 16 + byte_of b / 16))
        (String (b64_char (byte_of b mod 16 * 4 + byte_of c / 64))
          (String (b64_char (byte_of c mod 64)) (base64_encode rest))))
  end.

(** ** The validators *)

(** 10.10.0.0/16. *)
Definition allowedSupernet : Prefix := mkPrefix (10 * 2 ^ 24 + 10 * 2 ^ 16) 16.

Definition SupernetContains (p : AnyPrefix) : bool :=
  match p with Is4 p => PrefixContains allowedSupernet (p_addr p) | Is6 _ => false end.

(** One element of the list; the first error ends the loop. *)
Definition check_part (part : string) : option string :=
  let cidr := trim_space part in
  if is_empty cidr then None else
  match ParsePrefix cidr with
  | None => Some ("invalid CIDR " +:+ cidr)
  | Some prefix =>
      if Bits prefix =? 0 then Some "0.0.0.0/0 is not allowed — route-all traffic is prohibited"
      else if negb (SupernetContains prefix) then
        Some ("CIDR " +:+ cidr +:+ " is outside allowed range " +:+ PrefixString allowedSupernet)
      else if Bits prefix <? p_bits allowedSupernet then
        Some ("CIDR " +:+ cidr +:+ " is wider than allowed range " +:+ PrefixString allowedSupernet)
      else None
  end.

Fixpoint check_parts (parts : list string) : option string :=
  match parts with
  | [] => None
  | p :: ps => match check_part p with Some e => Some e | None => check_parts ps end
  end.

Definition ValidateAllowedIPs (allowedIPs : string) : option string :=
  match split "," allowedIPs with
  | [] => Some "empty allowed IPs"
  | parts => check_parts parts
  end.

Definition ValidatePublicKey (key : string) : option string :=
  match base64_len key with
  | None => Some "invalid base64"
  | Some n => if n =? 32 then None else Some ("key must be 32 bytes, got " +:+ itoa n)
  end.

Definition ValidateEndpoint (endpoint : string) : option string :=
  match SplitHostPort endpoint with
  | None => Some "must be host:port format"
  | Some (host, portStr) =>
      if is_empty host then Some "must be host:port format"
      else match atoi portStr with
           | None => Some "port must be 1-65535"
           | Some port => if (port <? 1) || (65535 <? port) then Some "port must be 1-65535" else None
           end
  end.

(** ** Examples *)

Example ips_host : ValidateAllowedIPs "10.10.0.7/32, 10.10.3.0/24" = None.
Proof. reflexivity. Qed.
Example ips_all : ValidateAllowedIPs "0.0.0.0/0" = Some "0.0.0.0/0 is not allowed — route-all traffic is prohibited".
Proof. reflexivity. Qed.
Example ips_wide : ValidateAllowedIPs "10.10.0.0/8" = Some "CIDR 10.10.0.0/8 is wider than allowed range 10.10.0.0/16".
Proof. vm_compute. reflexivity. Qed.
Example ips_v6 : ValidateAllowedIPs "fd00::1:2/64" = Some "CIDR fd00::1:2/64 is outside allowed range 10.10.0.0/16".
Proof. vm_compute. reflexivity. Qed.
Example b64_text : base64_encode "light work." = "bGlnaHQgd29yay4=" /\ base64_len "bGlnaHQgd29yay4=" = Some 11.
Proof. split; reflexivity. Qed.
Example b64_bad : map base64_len ["bGlnaHQ"; "bGl=aHQg"; "bG=="; "b==="; "bG=A"] = [None; None; Some 1; None; None].
Proof. reflexivity. Qed.
Example endpoint_ok : ValidateEndpoint "vpn.example.com:51820" = None.
Proof. reflexivity. Qed.
Example endpoint_v6 : ValidateEndpoint "[::1]:51820" = None.
Proof. reflexivity. Qed.
Example endpoint_port : ValidateEndpoint "host:65536" = Some "port must be 1-65535".
Proof. reflexivity. Qed.
Example endpoint_bare_v6 : ValidateEndpoint "::1:51820" = Some "must be host:port format".
Proof. reflexivity. Qed.

(** ** What the validation admits *)

(** Every address of the prefix is in 10.10.0.0/16. *)
Definition within_supernet (p : Prefix) : Prop :=
  forall a, PrefixContains p a = true -> PrefixContains allowedSupernet a = true.

Lemma within_supernet_iff p : wf_prefix p ->
  within_supernet p <-> PrefixContains allowedSupernet (p_addr p) = true /\ p_bits allowedSupernet <= p_bits p.
Proof.
  intros Hp. pose proof Hp as [Ha Hb]. pose proof (Masked_bounds p Hp) as (Hm & Hm0 & Hm1).
  assert (wf_prefix allowedSupernet) as Hs by (vm_compute; split; split; discriminate).
  pose proof (fun a => PrefixContains_iff p a Hp) as Hc.
  pose proof (fun a => PrefixContains_iff allowedSupernet a Hs) as Hcs.
  change (p_addr (Masked allowedSupernet)) with (2570 * 2 ^ 16) in Hcs.
  change (2 ^ (32 - p_bits allowedSupernet)) with (2 ^ 16) in Hcs.
  change (p_bits allowedSupernet) with 16. unfold within_supernet. split.
  - intros Hall. split; [apply Hall, Hc; lia|].
    assert (0 < 2 ^ (32 - p_bits p)) by (apply Z.pow_pos_nonneg; lia).
    pose proof (Hall (p_addr (Masked p)) ltac:(apply Hc; lia)) as H1.
    pose proof (Hall (p_addr (Masked p) + 2 ^ (32 - p_bits p) - 1) ltac:(apply Hc; lia)) as H2.
    apply Hcs in H1, H2. apply Z.nlt_ge. intros Hlt.
    pose proof (Z.pow_le_mono_r 2 17 (32 - p_bits p)). lia.
  - intros [H1 H2] a Hin. unfold PrefixContains in *. apply Z.eqb_eq in H1, Hin. apply Z.eqb_eq.
    change (32 - p_bits allowedSupernet) with 16 in *. rewrite <- H1.
    replace (2 ^ 16) with (2 ^ (32 - p_bits p) * 2 ^ (p_bits p - 16))
      by (rewrite <- Z.pow_add_r by lia; f_equal; lia).
    rewrite <- !Z.div_div by (try apply Z.pow_nonzero; try apply Z.pow_pos_nonneg; lia). by rewrite Hin.
Qed.

Lemma check_parts_none parts : check_parts parts = None <-> Forall (fun p => check_part p = None) parts.
Proof.
  induction parts as [|p ps IH]; simpl; [by split|]. rewrite Forall_cons, <- IH.
  destruct (check_part p); naive_solver.
Qed.

Lemma check_part_none part :
  check_part part = None <->
  trim_space part = EmptyString \/
  exists p, ParsePrefix4 (trim_space part) = Some p /\ within_supernet p.
Proof.
  unfold check_part. destruct (is_empty _) eqn:Ee.
  { apply is_empty_true in Ee. split; auto. }
  apply is_empty_false in Ee. unfold ParsePrefix.
  destruct (ParsePrefix4 (trim_space part)) as [p|] eqn:Ep.
  - pose proof (ParsePrefix4_wf _ _ Ep) as Hp. pose proof (within_supernet_iff p Hp) as Hw.
    cbn [Bits SupernetContains]. destruct (Z.eqb_spec (p_bits p) 0) as [E0|E0].
    { split; [done|]. intros [?|(q & [= <-] & Hq)]; [done|]. apply Hw in Hq as [_ Hq].
      change (p_bits allowedSupernet) with 16 in Hq. lia. }
    destruct (PrefixContains allowedSupernet (p_addr p)) eqn:Ec; cbn [negb].
    + destruct (Z.ltb_spec (p_bits p) (p_bits allowedSupernet)).
      * split; [done|]. intros [?|(q & [= <-] & Hq)]; [done|]. apply Hw in Hq as [_ Hq]. lia.
      * split; [|done]. intros _. right. exists p. split; [done|]. apply Hw. by split.
    + split; [done|]. intros [?|(q & [= <-] & Hq)]; [done|]. apply Hw in Hq as [Hq _]. congruence.
  - split; [|by intros [?|(q & ? & _)]].
    destruct (cut_last "/" (trim_space part)) as [[ip bs]|]; [|done].
    destruct (negb _); [done|]. destruct (atoi bs) as [b|]; [|done]. destruct (_ && _); [|done].
    cbn [Bits SupernetContains]. by destruct (b =? 0).
Qed.

(** Peers stay inside the mesh: [ValidateAllowedIPs] accepts a list exactly
    when each comma-separated element is blank or an IPv4 prefix every address
    of which lies in 10.10.0.0/16. IPv6 prefixes and 0.0.0.0/0 are among what
    it refuses. *)
Theorem ValidateAllowedIPs_spec (allowedIPs : string) :
  ValidateAllowedIPs allowedIPs = None <->
  Forall (fun part => trim_space part = EmptyString \/
    exists p, ParsePrefix4 (trim_space part) = Some p /\
      forall a, PrefixContains p a = true -> 10 * 2 ^ 24 + 10 * 2 ^ 16 <= a < 10 * 2 ^ 24 + 11 * 2 ^ 16)
    (split "," allowedIPs).
Proof.
  assert (split "," allowedIPs <> []) as Hne.
  { destruct allowedIPs as [|c s]; simpl; [done|]. destruct (Ascii.eqb c ","); [done|].
    by destruct (split "," s). }
  unfold ValidateAllowedIPs. destruct (split "," allowedIPs) as [|w ws] eqn:Es; [done|].
  rewrite check_parts_none. apply Forall_iff. intros part. rewrite check_part_none.
  assert (wf_prefix allowedSupernet) as Hs by (vm_compute; split; split; discriminate).
  pose proof (fun a => PrefixContains_iff allowedSupernet a Hs) as Hcs. 
  change (p_addr (Masked allowedSupernet)) with (2570 * 2 ^ 16) in Hcs.
  change (2 ^ (32 - p_bits allowedSupernet)) with (2 ^ 16) in Hcs.
  assert (forall p, within_supernet p <-> forall a, PrefixContains p a = true ->
    10 * 2 ^ 24 + 10 * 2 ^ 16 <= a < 10 * 2 ^ 24 + 11 * 2 ^ 16) as Hw.
  { intros p. split; intros Hp a Ha; [apply Hp, Hcs in Ha; lia|apply Hcs; specialize (Hp a Ha); lia]. }
  split; (intros [?|(p & ? & ?)]; [by left|right; exists p; split; [done|by apply Hw]]).
Qed.
