(* ===== verification/Response.v ===== *)
(** * internal/response: pagination and HTTP responses

    [ParseListParams] and the list envelope every paginated handler fills, and
    the responses the handlers write: a status code and the value encoded as
    JSON. *)

From stdpp Require Import strings list.
From Stdlib Require Import ZArith Lia.
From S2P Require Import Prelude GoStrings World.

Open Scope Z_scope.

Definition DefaultLimit : Z := 50.
Definition MaxLimit : Z := 200.

Record ListParams := mkListParams {
  lp_Limit : Z; lp_Offset : Z; lp_Status : string; lp_NodeID : string; lp_ProjectID : string }.

Record ListResult (T : Type) := mkListResult {
  lr_Items : list T; lr_Total : Z; lr_Limit : Z; lr_Offset : Z; lr_HasMore : bool }.
Arguments mkListResult {T}.
Arguments lr_Items {T}.
Arguments lr_Total {T}.
Arguments lr_Limit {T}.
Arguments lr_Offset {T}.
Arguments lr_HasMore {T}.

(** [q] is [r.URL.Query().Get]. *)
Definition ParseListParams (q : string -> string) : ListParams :=
  let limit :=
    match atoi (q "limit") with
    | Some n => if 0 <? n then n else DefaultLimit
    | None => DefaultLimit
    end in
  let limit := if MaxLimit <? limit then MaxLimit else limit in
  let offset :=
    match atoi (q "offset") with
    | Some n => if 0 <=? n then n else 0
    | None => 0
    end in
  mkListParams limit offset (q "status") (q "node_id") (q "project_id").

(** [HasMore: params.Offset+len(items) < total], in 64-bit arithmetic. *)
Definition hasMore {T} (offset : Z) (items : list T) (total : Z) : bool :=
  wrap64 (offset + Z.of_nat (length items)) <? total.

Definition listResult {T} (p : ListParams) (items : list T) (total : Z) : ListResult T :=
  mkListResult items total (lp_Limit p) (lp_Offset p) (hasMore (lp_Offset p) items total).

(** ** Responses *)

Definition StatusOK : Z := 200.
Definition StatusCreated : Z := 201.
Definition StatusAccepted : Z := 202.
Definition StatusNoContent : Z := 204.
Definition StatusBadRequest : Z := 400.
Definition StatusUnauthorized : Z := 401.
Definition StatusForbidden : Z := 403.
Definition StatusNotFound : Z := 404.
Definition StatusConflict : Z := 409.
Definition StatusTooManyRequests : Z := 429.
Definition StatusInternalServerError : Z := 500.
Definition StatusNotImplemented : Z := 501.
Definition StatusServiceUnavailable : Z := 503.

(** A JSON value. [JFloat] is a number literal that is not an integer. *)
Inductive Json :=
| JNull
| JBool (b : bool)
| JInt (z : Z)
| JFloat (literal : string)
| JString (s : string)
| JArray (l : list Json)
| JObject (m : list (string * Json)).

(** ** Pages of the administration interface

    What the handlers of internal/admin hand to the templates; how a template
    turns it into HTML is left out, and so is the CSRF token of each form. *)

Record breadcrumb := mkCrumb { bc_Label : string; bc_URL : string }.
Record pageData := mkPageData { pd_Title : string; pd_Nav : string; pd_Breadcrumbs : list breadcrumb }.

Record enrichedTenant := mkEnriched { et_Tenant : Tenant; et_ProjectName : string; et_NodeName : string }.

Record CredentialInfo := mkCredentialInfo { ci_ID : string; ci_CreatedAt : Z; ci_SignCount : Z }.

Record DashboardData := mkDashboardData {
  dd_Nodes : list Node; dd_Projects : list Project; dd_Tenants : list Tenant;
  dd_TotalRAM : Z; dd_AllocatedRAM : Z;
  dd_ActiveTenants : Z; dd_SuspendedTenants : Z; dd_ErrorTenants : Z;
  dd_HealthyCount : Z; dd_UnhealthyCount : Z; dd_UnknownHealthCount : Z;
  dd_RecentTenants : list enrichedTenant; dd_RecentAudit : list AuditEntry }.

(** The WireGuard section of a tenant's page. *)
Record TenantPeerData := mkTenantPeer {
  tp_WGPeer : option Peer; tp_WGConfig : string; tp_WGQRBase64 : string; tp_WGEnabled : bool;
  tp_PrivateKey : string }.

Inductive Page :=
| PLogin (hasCredentials : bool)
| PDashboard (d : DashboardData)
| PNodes (l : list Node)
| PNodeDetail (n : Node) (tenants : list enrichedTenant) (hasTenants : bool)
| PProjects (l : list Project)
| PProjectDetail (p : Project) (tenants : list enrichedTenant) (hasTenants : bool)
| PTenants (nodes : list Node) (projects : list Project) (tenants : list enrichedTenant)
    (filterStatus filterProject filterNode : string) (totalCount : Z)
| PTenantDetail (t : Tenant) (projectName nodeName : string) (entries : list AuditEntry) (wg : TenantPeerData)
| PAudit (entries : list AuditEntry) (total limit offset : Z) (hasMore : bool) (filterEntityType filterAction : string)
| PSettings (dbStatus : string) (nodeCount activeTenants : Z) (credentials : list CredentialInfo)
| PNetwork (peers : list Peer) (filterType : string) (adminCount nodeCount userCount enabledCount totalCount : Z)
| PPeerDetail (peer : Peer) (config qrBase64 privateKey : string)
(* partials *)
| PNodeRow (n : Node)
| PProjectRow (p : Project)
| PTenantRow (t : enrichedTenant)
| PFlash (name msg : string).

(** The value a handler encodes. A nil pointer is [None]. *)
Inductive Body :=
| BEmpty
| BError (message : string)
| BNode (n : Node)
| BNodes (l : ListResult Node)
| BProject (p : Project)
| BProjects (l : ListResult Project)
| BTenant (t : option Tenant)
| BTenants (l : ListResult Tenant)
| BSSO (url : string) (expires_in : Z) (tier : string)
| BPeer (p : Peer)
| BPeers (l : list Peer)
| BPeerCreated (p : Peer) (private_key config : string)
| BStation (s : Station)
| BStations (l : ListResult Station)
| BJson (j : Json)
| BPage (data : option pageData) (p : Page)   (* [None] for a page without the layout *)
| BText (msg : string).                       (* http.Error *)

(** [http.Cookie], as far as the handlers set it. *)
Record Cookie := mkCookie {
  ck_Name : string; ck_Value : string; ck_Path : string; ck_HttpOnly : bool; ck_Secure : bool;
  ck_SameSiteStrict : bool; ck_MaxAge : Z }.

(** The headers are those of the administration interface, in the order they
    were set. *)
Record HTTPResponse := mkHTTPResponse {
  r_Status : Z; r_Body : Body; r_Cookies : list Cookie; r_Headers : list (string * string) }.

Definition mkResponse (status : Z) (b : Body) (cs : list Cookie) : HTTPResponse := mkHTTPResponse status b cs [].

(** [response.JSON] and [response.Error]. *)
Definition JSON (status : Z) (b : Body) : HTTPResponse := mkResponse status b [].
(** The headers [http.SetCookie] added before the body was written. *)
Definition with_cookies (cs : list Cookie) (r : HTTPResponse) : HTTPResponse :=
  mkHTTPResponse (r_Status r) (r_Body r) cs (r_Headers r).
Definition Error (status : Z) (message : string) : HTTPResponse := JSON status (BError message).

(** [response.ValidUUID]: [uuid.Parse] accepts the text. *)
Definition ValidUUID `{Env} (s : string) : bool := env_uuid_valid s.

(** ** Bounds *)

(** Rows [offset, offset+limit) of a result. *)
Definition page {T} (limit offset : Z) (l : list T) : list T :=
  take (Z.to_nat limit) (drop (Z.to_nat offset) l).

Lemma page_length {T} limit offset (l : list T) :
  0 <= limit -> 0 <= offset ->
  Z.of_nat (length (page limit offset l)) = Z.max 0 (Z.min limit (Z.of_nat (length l) - offset)).
Proof. intros H1 H2. unfold page. rewrite length_take, length_drop. lia. Qed.

(** A [SELECT ..., COUNT( * ) OVER() ... LIMIT l OFFSET o] as the stores read it:
    the total comes with the rows, so a page past the end reports 0. *)
Definition paginated {T} (limit offset : Z) (rows : list T) : list T * Z :=
  let items := page limit offset rows in
  (items, match items with [] => 0 | _ => Z.of_nat (length rows) end).

Lemma ParseListParams_range q :
  1 <= lp_Limit (ParseListParams q) <= MaxLimit /\
  0 <= lp_Offset (ParseListParams q) <= max_int64.
Proof.
  unfold ParseListParams, MaxLimit, DefaultLimit. cbn [lp_Limit lp_Offset]. split.
  - destruct (atoi (q "limit")) as [n|]; [destruct (Z.ltb_spec 0 n)|];
      case_match eqn:E; rewrite ?Z.ltb_lt, ?Z.ltb_ge in E; lia.
  - destruct (atoi (q "offset")) as [n|] eqn:E; [|unfold max_int64; lia].
    apply atoi_int64 in E. destruct (Z.leb_spec 0 n); unfold max_int64 in *; lia.
Qed.

Lemma page_nil {T} limit offset (l : list T) :
  0 < limit -> 0 <= offset ->
  page limit offset l = [] <-> Z.of_nat (length l) <= offset.
Proof.
  intros Hl Ho. pose proof (page_length limit offset l). split.
  - intros E. rewrite E in *. simpl in *. lia.
  - intros Hge. apply length_zero_iff_nil. lia.
Qed.

(** Pagination: whatever the query string holds, a listing returns at most
    200 rows, the limit and offset it echoes are in range, and [has_more] is
    true exactly when the following page holds rows; no 64-bit overflow of
    offset + count can turn it around. *)
Theorem listing_has_more {T} (q : string -> string) (rows : list T)
  (Hrows : Z.of_nat (length rows) <= max_int64) :
  let p := ParseListParams q in
  let '(items, total) := paginated (lp_Limit p) (lp_Offset p) rows in
  let r := listResult p items total in
  (length (lr_Items r) <= 200)%nat /\
  1 <= lr_Limit r <= MaxLimit /\ 0 <= lr_Offset r <= max_int64 /\
  (lr_HasMore r = true <->
   lr_Items r <> [] /\
   page (lp_Limit p) (lr_Offset r + Z.of_nat (length (lr_Items r))) rows <> []).
Proof.
  intros p. unfold paginated, listResult. cbn [lr_Items lr_Limit lr_Offset lr_HasMore].
  destruct (ParseListParams_range q) as [Hl Ho]. fold p in Hl, Ho.
  pose proof (page_length (lp_Limit p) (lp_Offset p) rows ltac:(lia) ltac:(lia)) as Hlen.
  set (items := page (lp_Limit p) (lp_Offset p) rows) in *.
  unfold MaxLimit in *. split_and!; try lia.
  rewrite page_nil by lia. unfold hasMore.
  destruct items as [|x items'] eqn:Ei.
  - rewrite Z.ltb_lt. simpl (length []) in *.
    rewrite Z.add_0_r, wrap64_id; [|unfold in_int64, min_int64, max_int64 in *; lia].
    split; [lia|by intros []].
  - rewrite wrap64_id; [|unfold in_int64, min_int64, max_int64 in *; lia].
    rewrite Z.ltb_lt. split; [intros; split; [done|lia]|intros [_ ?]; lia].
Qed.

Lemma listing_has_more_witness :
  let q := fun k => if String.eqb k "limit" then "2" else if String.eqb k "offset" then "1" else EmptyString in
  let '(items, total) := paginated 2 1 [10; 20; 30; 40] in
  lr_HasMore (listResult (ParseListParams q) items total) = true /\
  (length (lr_Items (listResult (ParseListParams q) items total)) <= 200)%nat.
Proof.
  intros q.
  assert (Z.of_nat (length [10; 20; 30; 40]) <= max_int64) as Hr by (vm_compute; discriminate).
  pose proof (listing_has_more q [10; 20; 30; 40] Hr) as Hspec.
  split; [reflexivity|]. exact (proj1 Hspec).
Defined.
