(* ===== verification/GoJson.v ===== *)
(** * encoding/json: [json.Unmarshal] into the types of this program

    A document is already parsed into a [Json] value (the order and the
    repetition of keys kept); a [Decoder] writes it over a Go value the way
    [json.Unmarshal] does: null leaves a scalar as it is, a key that no field
    has is skipped, a key matches a field whatever its case ([fold_name]), a later key
    overrides an earlier one, and a value of another type is an error ([None]).
    A float64 is the text of its literal. *)

From stdpp Require Import gmap strings list.
From Stdlib Require Import Ascii ZArith Lia.
From S2P Require Import Prelude GoStrings World Response.

Open Scope Z_scope.

(** How keys are compared: up to Unicode case folding. Two letters beyond ASCII
    fold to an ASCII one, the long s (bytes 197 191) and the Kelvin sign (226 132
    170); every other character of a key only has to differ from ASCII as before,
    since the names of fields are ASCII. *)
Fixpoint fold_name (s : string) : string :=
  match s with
  | EmptyString => EmptyString
  | String a s1 =>
      match s1 with
      | String b s2 =>
          if Ascii.eqb a "197" && Ascii.eqb b "191" then String "s" (fold_name s2) else
          match s2 with
          | String c s3 =>
              if Ascii.eqb a "226" && Ascii.eqb b "132" && Ascii.eqb c "170" then String "k" (fold_name s3)
              else String (to_lower_char a) (fold_name s1)
          | EmptyString => String (to_lower_char a) (fold_name s1)
          end
      | EmptyString => String (to_lower_char a) EmptyString
      end
  end.

Example fold_name_ex :
  fold_name ("tail" +:+ String "197" (String "191" "cale_IP")) = "tailscale_ip" /\
  fold_name (String "226" (String "132" (String "170" "ey"))) = "key".
Proof. split; reflexivity. Qed.

Definition Decoder (A : Type) := A -> Json -> option A.

Definition d_string : Decoder string := fun old j =>
  match j with JNull => Some old | JString s => Some s | _ => None end.

Definition d_int : Decoder Z := fun old j =>
  match j with
  | JNull => Some old
  | JInt z => if in_int64 z then Some z else None
  | _ => None
  end.

Definition d_float : Decoder string := fun old j =>
  match j with JNull => Some old | JInt z => Some (itoa z) | JFloat l => Some l | _ => None end.

(** [any] and [json.RawMessage]; a raw message keeps even a null. *)
Definition d_any : Decoder (option Json) := fun _ j =>
  match j with JNull => Some None | _ => Some (Some j) end.
Definition d_raw : Decoder (option Json) := fun _ j => Some (Some j).

(** [[]T], elements decoded over the zero value. *)
Definition d_slice {A} (zero : A) (d : Decoder A) : Decoder (list A) := fun _ j =>
  match j with JNull => Some [] | JArray l => mapM (d zero) l | _ => None end.

(** A field of a struct: its name in JSON and how its value is written. *)
Definition Field (S : Type) := (string * Decoder S)%type.

Definition field {S A} (name : string) (get : S -> A) (set : A -> S -> S) (d : Decoder A) : Field S :=
  (name, fun s j => option_map (fun a => set a s) (d (get s) j)).

Definition find_field {S} (fs : list (Field S)) (key : string) : option (Decoder S) :=
  option_map snd (List.find (fun f => String.eqb (fold_name f.1) (fold_name key)) fs).

Definition decode_entry {S} (fs : list (Field S)) (r : option S) (kv : string * Json) : option S :=
  match r with
  | None => None
  | Some s => match find_field fs kv.1 with Some d => d s kv.2 | None => Some s end
  end.

Definition d_struct {S} (fs : list (Field S)) : Decoder S := fun s j =>
  match j with
  | JNull => Some s
  | JObject m => foldl (decode_entry fs) (Some s) m
  | _ => None
  end.

(** [map[string]string]. The value and whether an error was met: decoding goes
    on after a value of the wrong type, which leaves its key with an empty text. *)
Definition d_string_map (old : gmap string string) (j : Json) : gmap string string * bool :=
  match j with
  | JNull => (∅, true)
  | JObject m =>
      foldl (fun '(acc, ok) kv =>
        match kv.2 with
        | JString s => (<[kv.1 := s]> acc, ok)
        | JNull => (<[kv.1 := EmptyString]> acc, ok)
        | _ => (<[kv.1 := EmptyString]> acc, false)
        end) (old, true) m
  | _ => (old, false)
  end.
