(* ===== verification/GoJsonText.v ===== *)
(** * encoding/json: the text of a document

    The grammar of [json.Unmarshal]'s scanner, as a parser to [Json] values.
    A text is taken to be valid UTF-8; the bound of 10,000 on the nesting is
    left out. The fuel of the parser is twice the length of the text: of
    two calls, one inside the other, the outer or the inner consumes a byte. *)

From stdpp Require Import strings list.
From Stdlib Require Import Ascii ZArith Lia.
From S2P Require Import Prelude GoStrings World Response GoTime GoJson.

Open Scope Z_scope.

Abbreviation chars := (list ascii).

Definition json_space (c : ascii) : bool :=
  Ascii.eqb c " " || Ascii.eqb c "009" || Ascii.eqb c "010" || Ascii.eqb c "013".

Fixpoint skip_space (s : chars) : chars :=
  match s with c :: s' => if json_space c then skip_space s' else s | [] => [] end.

(** The rest after a word the text starts with. *)
Fixpoint skip_word (w s : chars) : option chars :=
  match w, s with
  | [], _ => Some s
  | a :: w', b :: s' => if Ascii.eqb a b then skip_word w' s' else None
  | _, [] => None
  end.

(** ** Strings *)

Definition byte (n : Z) : ascii := ascii_of_N (Z.to_N n).

(** [utf8.AppendRune] on a code point outside the surrogates. *)
Definition utf8 (r : Z) : chars :=
  if r <? 128 then [byte r]
  else if r <? 2048 then [byte (192 + r / 64); byte (128 + r mod 64)]
  else if r <? 65536 then [byte (224 + r / 4096); byte (128 + r / 64 mod 64); byte (128 + r mod 64)]
  else [byte (240 + r / 262144); byte (128 + r / 4096 mod 64); byte (128 + r / 64 mod 64); byte (128 + r mod 64)].

Definition hex4 (a b c d : ascii) : option Z :=
  match from_hex_char a, from_hex_char b, from_hex_char c, from_hex_char d with
  | Some x, Some y, Some z, Some w => Some (4096 * x + 256 * y + 16 * z + w)
  | _, _, _, _ => None
  end.

Definition high_surrogate (r : Z) : bool := (55296 <=? r) && (r <? 56320).
Definition low_surrogate (r : Z) : bool := (56320 <=? r) && (r <? 57344).

(** The character a one-letter escape stands for. *)
Definition simple_escape (c : ascii) : option ascii :=
  if Ascii.eqb c "034" || Ascii.eqb c "\" || Ascii.eqb c "/" then Some c
  else if Ascii.eqb c "b" then Some "008"%char
  else if Ascii.eqb c "f" then Some "012"%char
  else if Ascii.eqb c "n" then Some "010"%char
  else if Ascii.eqb c "r" then Some "013"%char
  else if Ascii.eqb c "t" then Some "009"%char
  else None.

(** The rest of a string literal after its opening quote: the bytes it denotes
    and what follows the closing quote. Half of a surrogate pair becomes the
    replacement character. *)
Fixpoint parse_chars (fuel : nat) (s : chars) : option (chars * chars) :=
  match fuel with
  | O => None
  | S n =>
      let continue (cs : chars) (rest : chars) :=
        match parse_chars n rest with Some (l, r) => Some (cs ++ l, r) | None => None end in
      match s with
      | [] => None
      | c :: s' =>
          if Ascii.eqb c "034" then Some ([], s')
          else if byte_of c <? 32 then None
          else if negb (Ascii.eqb c "\") then continue [c] s'
          else match s' with
          | e :: rest =>
              if Ascii.eqb e "u" then
                match rest with
                | h1 :: h2 :: h3 :: h4 :: rest =>
                    match hex4 h1 h2 h3 h4 with
                    | None => None
                    | Some r =>
                        if negb (high_surrogate r || low_surrogate r) then continue (utf8 r) rest
                        else match rest with
                        | b :: u :: l1 :: l2 :: l3 :: l4 :: rest' =>
                            match hex4 l1 l2 l3 l4 with
                            | Some r2 =>
                                if Ascii.eqb b "\" && Ascii.eqb u "u" && high_surrogate r && low_surrogate r2
                                then continue (utf8 (65536 + 1024 * (r - 55296) + (r2 - 56320))) rest'
                                else continue (utf8 65533) rest
                            | None => continue (utf8 65533) rest
                            end
                        | _ => continue (utf8 65533) rest
                        end
                    end
                | _ => None
                end
              else match simple_escape e with Some x => continue [x] rest | None => None end
          | [] => None
          end
      end
  end.

(** ** Numbers *)

(** The longest run of digits. *)
Fixpoint digits (s : chars) : chars * chars :=
  match s with
  | c :: s' => if is_digit c then let '(l, r) := digits s' in (c :: l, r) else ([], s)
  | [] => ([], [])
  end.

(** One part of a literal with at least one digit behind [pre]. *)
Definition digits_after (pre : chars) (s : chars) : option (chars * chars) :=
  match digits s with ([], _) => None | (l, r) => Some (pre ++ l, r) end.

Definition parse_fraction_part (s : chars) : option (chars * chars) :=
  match s with
  | c :: s' => if Ascii.eqb c "." then digits_after [c] s' else Some ([], s)
  | [] => Some ([], [])
  end.

Definition parse_exponent (s : chars) : option (chars * chars) :=
  match s with
  | c :: s' =>
      if Ascii.eqb c "e" || Ascii.eqb c "E" then
        match s' with
        | g :: s'' => if Ascii.eqb g "+" || Ascii.eqb g "-" then digits_after [c; g] s'' else digits_after [c] s'
        | [] => None
        end
      else Some ([], s)
  | [] => Some ([], [])
  end.

Definition of_chars (l : chars) : string := String.string_of_list_ascii l.

Definition parse_number (s : chars) : option (Json * chars) :=
  let '(sign, s1) := match s with
                     | c :: s' => if Ascii.eqb c "-" then ([c], s') else ([], s)
                     | [] => ([], [])
                     end in
  match digits s1 with
  | ([], _) => None
  | (d0 :: ds, rest) =>
      let '(ip, rest) := if Ascii.eqb d0 "0" then ([d0], ds ++ rest) else (d0 :: ds, rest) in
      match parse_fraction_part rest with
      | None => None
      | Some (fp, rest) =>
          match parse_exponent rest with
          | None => None
          | Some (ep, rest) =>
              match fp ++ ep, digits_value 0 (of_chars ip) with
              | [], Some n => Some (JInt (match sign with [] => n | _ => - n end), rest)
              | _, _ => Some (JFloat (of_chars (sign ++ ip ++ fp ++ ep)), rest)
              end
          end
      end
  end.

(** ** Values *)

Definition comma : ascii := ",".

Fixpoint parse_value (fuel : nat) (s : chars) : option (Json * chars) :=
  match fuel with
  | O => None
  | S n =>
      match skip_space s with
      | [] => None
      | c :: s' =>
          if Ascii.eqb c "034" then
            match parse_chars n s' with Some (l, r) => Some (JString (of_chars l), r) | None => None end
          else if Ascii.eqb c "{" then
            match skip_space s' with
            | d :: s'' => if Ascii.eqb d "}" then Some (JObject [], s'')
                          else match parse_members n (d :: s'') with
                               | Some (m, r) => Some (JObject m, r) | None => None end
            | [] => None
            end
          else if Ascii.eqb c "[" then
            match skip_space s' with
            | d :: s'' => if Ascii.eqb d "]" then Some (JArray [], s'')
                          else match parse_elements n (d :: s'') with
                               | Some (l, r) => Some (JArray l, r) | None => None end
            | [] => None
            end
          else match skip_word ["n"; "u"; "l"; "l"]%char (c :: s'), skip_word ["t"; "r"; "u"; "e"]%char (c :: s'),
                     skip_word ["f"; "a"; "l"; "s"; "e"]%char (c :: s') with
               | Some r, _, _ => Some (JNull, r)
               | _, Some r, _ => Some (JBool true, r)
               | _, _, Some r => Some (JBool false, r)
               | _, _, _ => parse_number (c :: s')
               end
      end
  end
with parse_members (fuel : nat) (s : chars) : option (list (string * Json) * chars) :=
  match fuel with
  | O => None
  | S n =>
      match skip_space s with
      | q :: s1 =>
          if negb (Ascii.eqb q "034") then None else
          match parse_chars n s1 with
          | None => None
          | Some (k, s2) =>
              match skip_space s2 with
              | colon :: s3 =>
                  if negb (Ascii.eqb colon ":") then None else
                  match parse_value n s3 with
                  | None => None
                  | Some (v, s4) =>
                      match skip_space s4 with
                      | d :: s5 =>
                          if Ascii.eqb d "}" then Some ([(of_chars k, v)], s5)
                          else if Ascii.eqb d comma then
                            match parse_members n s5 with
                            | Some (m, r) => Some ((of_chars k, v) :: m, r) | None => None end
                          else None
                      | [] => None
                      end
                  end
              | [] => None
              end
          end
      | [] => None
      end
  end
with parse_elements (fuel : nat) (s : chars) : option (list Json * chars) :=
  match fuel with
  | O => None
  | S n =>
      match parse_value n s with
      | None => None
      | Some (v, s1) =>
          match skip_space s1 with
          | d :: s2 =>
              if Ascii.eqb d "]" then Some ([v], s2)
              else if Ascii.eqb d comma then
                match parse_elements n s2 with Some (l, r) => Some (v :: l, r) | None => None end
              else None
          | [] => None
          end
      end
  end.

(** The whole text is one value. *)
Definition ParseJSON (text : string) : option Json :=
  let s := String.list_ascii_of_string text in
  match parse_value (2 * length s + 2) s with
  | Some (j, rest) => match skip_space rest with [] => Some j | _ => None end
  | None => None
  end.

(** [Time.UnmarshalJSON], in nanoseconds; a time written with escapes, which it
    refuses, is read here as the text it denotes. *)
Definition d_time : Decoder Z := fun old j =>
  match j with JNull => Some old | JString s => ParseRFC3339 s | _ => None end.

(** [json.Unmarshal] into a value that starts as [zero]. *)
Definition Unmarshal {A} (zero : A) (d : Decoder A) (text : string) : option A :=
  match ParseJSON text with Some j => d zero j | None => None end.
