(* ===== verification/GoJsonPrint.v ===== *)
(** * encoding/json: writing a document

    A text for every document without fractions, and the proof that the parser
    of [GoJsonText] reads it back, whatever follows. Requests and stored values
    are written this way. *)

From stdpp Require Import strings list pretty.
From Stdlib Require Import Ascii ZArith Lia.
From S2P Require Import Prelude GoStrings World Response GoTime GoJson GoJsonText.

Open Scope Z_scope.

Definition to_chars (s : string) : chars := String.list_ascii_of_string s.

Lemma of_to_chars s : of_chars (to_chars s) = s.
Proof. apply String.string_of_list_ascii_of_string. Qed.

Lemma to_chars_app a b : to_chars (a +:+ b) = to_chars a ++ to_chars b.
Proof. induction a as [|c a IH]; [done|]. rewrite app_cons. unfold to_chars in *. cbn. by rewrite IH. Qed.

Lemma length_to_chars s : length (to_chars s) = String.length s.
Proof. induction s as [|c s IH]; [done|]. unfold to_chars in *. cbn. by rewrite IH. Qed.

(** ** The writer *)

(** A quote and a backslash behind a backslash, a control character as its
    code, anything else as it is. *)
Definition escape (c : ascii) : chars :=
  if Ascii.eqb c "034" || Ascii.eqb c "\" then ["\"%char; c]
  else if byte_of c <? 32 then
    ["\"; "u"; "0"; "0"; hex_digit (byte_of c / 16); hex_digit (byte_of c mod 16)]%char
  else [c].

Definition print_string (s : string) : chars := "034"%char :: concat (map escape (to_chars s)) ++ ["034"%char].

Fixpoint join (l : list chars) : chars :=
  match l with
  | [] => []
  | [x] => x
  | x :: l => x ++ comma :: join l
  end.

Fixpoint print (j : Json) : chars :=
  match j with
  | JNull => ["n"; "u"; "l"; "l"]%char
  | JBool true => ["t"; "r"; "u"; "e"]%char
  | JBool false => ["f"; "a"; "l"; "s"; "e"]%char
  | JInt z => to_chars (itoa z)
  | JFloat l => to_chars l
  | JString s => print_string s
  | JArray l => "["%char :: join (map print l) ++ ["]"%char]
  | JObject m => "{"%char :: join (map (fun kv => print_string kv.1 ++ ":"%char :: print kv.2) m) ++ ["}"%char]
  end.

Definition print_json (j : Json) : string := of_chars (print j).

(** No number with a fraction or an exponent. *)
Fixpoint whole (j : Json) : Prop :=
  match j with
  | JFloat _ => False
  | JArray l => foldr (fun j P => whole j /\ P) True l
  | JObject m => foldr (fun kv P => whole kv.2 /\ P) True m
  | _ => True
  end.

(** Induction with the hypothesis for every element. *)
Lemma Json_deep_ind (P : Json -> Prop) :
  P JNull -> (forall b, P (JBool b)) -> (forall z, P (JInt z)) -> (forall l, P (JFloat l)) ->
  (forall s, P (JString s)) -> (forall l, Forall P l -> P (JArray l)) ->
  (forall m, Forall (fun kv => P kv.2) m -> P (JObject m)) -> forall j, P j.
Proof.
  intros Hn Hb Hi Hf Hs Ha Ho. fix go 1. intros [|b|z|l|s|l|m]; [done|apply Hb|apply Hi|apply Hf|apply Hs| |].
  - apply Ha. induction l as [|j l IH]; constructor; [apply go|apply IH].
  - apply Ho. induction m as [|[k j] m IH]; constructor; [apply go|apply IH].
Qed.

(** ** Strings *)

(** The characters below 32, one by one. *)
Lemma control_escape c :
  byte_of c < 32 ->
  hex4 "0" "0" (hex_digit (byte_of c / 16)) (hex_digit (byte_of c mod 16)) = Some (byte_of c) /\
  utf8 (byte_of c) = [c].
Proof.
  intros Hc. assert (forall n, (n < 32)%nat ->
    let c := ascii_of_nat n in
    hex4 "0" "0" (hex_digit (byte_of c / 16)) (hex_digit (byte_of c mod 16)) = Some (byte_of c) /\ utf8 (byte_of c) = [c])
    as Hall.
  { intros n Hn. do 32 (destruct n as [|n]; [by vm_compute|]). lia. }
  specialize (Hall (nat_of_ascii c)). cbv zeta in Hall. rewrite ascii_nat_embedding in Hall. apply Hall.
  unfold byte_of in Hc. unfold nat_of_ascii. lia.
Qed.

Lemma parse_escape n c s :
  parse_chars (S n) (escape c ++ s) = match parse_chars n s with Some (l, r) => Some (c :: l, r) | None => None end.
Proof.
  unfold escape. destruct (Ascii.eqb c "034" || Ascii.eqb c "\") eqn:E.
  { apply orb_true_iff in E as [->%Ascii.eqb_eq| ->%Ascii.eqb_eq]; cbn [app parse_chars]; by destruct (parse_chars n s) as [[]|]. }
  apply orb_false_iff in E as [E1 E2]. destruct (Z.ltb_spec (byte_of c) 32) as [Hc|Hc].
  - destruct (control_escape c Hc) as [Hh Hu]. cbn [app].
    change (parse_chars (S n) ("\"%char :: "u"%char :: ?s)) with
      (match s with
       | h1 :: h2 :: h3 :: h4 :: rest =>
           match hex4 h1 h2 h3 h4 with
           | None => None
           | Some r =>
               if negb (high_surrogate r || low_surrogate r)
               then match parse_chars n rest with Some (l, r') => Some (utf8 r ++ l, r') | None => None end
               else match rest with
                    | b :: u :: l1 :: l2 :: l3 :: l4 :: rest' =>
                        match hex4 l1 l2 l3 l4 with
                        | Some r2 =>
                            if Ascii.eqb b "\" && Ascii.eqb u "u" && high_surrogate r && low_surrogate r2
                            then match parse_chars n rest' with
                                 | Some (l, r') => Some (utf8 (65536 + 1024 * (r - 55296) + (r2 - 56320)) ++ l, r') | None => None end
                            else match parse_chars n rest with Some (l, r') => Some (utf8 65533 ++ l, r') | None => None end
                        | None => match parse_chars n rest with Some (l, r') => Some (utf8 65533 ++ l, r') | None => None end
                        end
                    | _ => match parse_chars n rest with Some (l, r') => Some (utf8 65533 ++ l, r') | None => None end
                    end
           end
       | _ => None
       end).
    cbn iota. rewrite Hh. unfold high_surrogate, low_surrogate.
    destruct (Z.leb_spec 55296 (byte_of c)); [lia|]. destruct (Z.leb_spec 56320 (byte_of c)); [lia|]. cbn [andb orb negb].
    by rewrite Hu.
  - cbn [app parse_chars]. rewrite E1, E2. destruct (Z.ltb_spec (byte_of c) 32); [lia|]. done.
Qed.

Lemma parse_print_chars l n rest :
  (length l < n)%nat -> parse_chars n (concat (map escape l) ++ "034"%char :: rest) = Some (l, rest).
Proof.
  revert n. induction l as [|c l IH]; intros n Hn; (destruct n as [|n]; [simpl in Hn; lia|]); [done|].
  cbn [map concat]. rewrite <- app_assoc, parse_escape, IH; [done|simpl in Hn; lia].
Qed.

Lemma escape_length l : (length l <= length (concat (map escape l)))%nat.
Proof.
  induction l as [|c l IH]; [done|]. cbn [map concat]. rewrite length_app. simpl.
  assert (1 <= length (escape c))%nat; [|lia]. unfold escape. repeat case_match; simpl; lia.
Qed.

Lemma print_string_length s : (length (to_chars s) + 2 <= length (print_string s))%nat.
Proof. unfold print_string. simpl. rewrite length_app. pose proof (escape_length (to_chars s)). simpl. lia. Qed.

(** ** Integers *)

Lemma pretty_digit x :
  is_digit (pretty_N_char x) = true /\
  ((x < 10)%N -> digit_val (pretty_N_char x) = Z.of_N x) /\
  ((0 < x)%N -> pretty_N_char x <> "0"%char).
Proof.
  split_and!.
  - unfold pretty_N_char. by repeat case_match.
  - intros Hx. assert (forall n, (n < 10)%nat -> digit_val (pretty_N_char (N.of_nat n)) = Z.of_nat n) as Hall.
    { intros n Hn. do 10 (destruct n as [|n]; [by vm_compute|]). lia. }
    specialize (Hall (N.to_nat x) ltac:(lia)). rewrite N2Nat.id in Hall. lia.
  - intros Hx. unfold pretty_N_char. repeat case_match; congruence || lia.
Qed.

Lemma digits_value_app a t s :
  digits_value a (t +:+ s) = match digits_value a t with Some v => digits_value v s | None => None end.
Proof.
  revert a. induction t as [|c t IH]; intros a; [done|]. rewrite app_cons. cbn [digits_value].
  destruct (is_digit c); [apply IH|done].
Qed.

(** What the digits of a number begin with, and what they are read as. *)
Lemma pretty_go_read x s :
  exists t, pretty_N_go x s = t +:+ s /\ Forall (fun c => is_digit c = true) (to_chars t) /\
    (if decide (x = 0)%N then t = EmptyString else exists c t', t = String c t' /\ c <> "0"%char) /\
    digits_value 0 t = Some (Z.of_N x).
Proof.
  revert s. induction (N.lt_wf_0 x) as [x _ IH]; intros s.
  destruct (decide (x = 0)%N) as [->|Hx]; [exists EmptyString; rewrite pretty_N_go_0; by repeat constructor|].
  rewrite pretty_N_go_step by lia.
  assert (x `mod` 10 < 10)%N as Hm by (apply N.mod_lt; lia).
  assert (Z.of_N x = 10 * Z.of_N (x `div` 10) + Z.of_N (x `mod` 10)) as Hxe.
  { pose proof (N.div_mod x 10 ltac:(done)). lia. }
  destruct (pretty_digit (x `mod` 10)) as (Hd & Hv & Hz). specialize (Hv Hm).
  destruct (IH (x `div` 10)%N ltac:(apply N.div_lt; lia) (String (pretty_N_char (x `mod` 10)) s)) as (t & -> & Ht & Hh & Hr).
  exists (t +:+ String (pretty_N_char (x `mod` 10)) EmptyString). split_and!.
  - clear. induction t as [|c t IH]; [done|]. rewrite !app_cons. by rewrite IH.
  - rewrite to_chars_app. apply Forall_app. split; [done|]. by repeat constructor.
  - destruct (decide (x `div` 10 = 0)%N) as [E|E].
    + subst t. eexists _, _. split; [done|]. apply Hz. rewrite E in Hxe. lia.
    + destruct Hh as (c & t' & -> & ?). rewrite app_cons. by eexists _, _.
  - rewrite digits_value_app, Hr. cbn [digits_value]. by rewrite Hd, Hv, <- Hxe.
Qed.

Lemma itoa_nonneg n :
  exists c t, itoa (Z.of_N n) = String c t /\ Forall (fun c => is_digit c = true) (c :: to_chars t) /\
    (c = "0"%char -> t = EmptyString) /\ digits_value 0 (String c t) = Some (Z.of_N n).
Proof.
  unfold itoa. destruct (decide (n = 0)%N) as [->|Hn]; [by exists "0"%char, EmptyString; repeat constructor|].
  replace (pretty (Z.of_N n)) with (pretty n) by (destruct n; done).
  unfold pretty, pretty_N. rewrite decide_False by done.
  destruct (pretty_go_read n EmptyString) as (t & -> & Ht & Hh & Hr). rewrite decide_False in Hh by done.
  destruct Hh as (c & t' & -> & Hc). exists c, t'. split_and!; [|done|done|done].
  clear. rewrite app_cons. f_equal. induction t' as [|d t IH]; [done|]. rewrite app_cons. by rewrite IH.
Qed.

(** What may follow a number. *)
Definition number_end (c : ascii) : bool :=
  negb (is_digit c || Ascii.eqb c "." || Ascii.eqb c "e" || Ascii.eqb c "E").
Definition ends_number (s : chars) : Prop := match s with c :: _ => number_end c = true | [] => True end.

Lemma digits_run l rest :
  Forall (fun c => is_digit c = true) l -> ends_number rest -> digits (l ++ rest) = (l, rest).
Proof.
  intros Hl Hr. induction Hl as [|c l Hc _ IH]; cbn [app].
  - destruct rest as [|c rest]; [done|]. cbn [digits]. cbn in Hr. unfold number_end in Hr.
    destruct (is_digit c); [done|done].
  - cbn [digits]. by rewrite Hc, IH.
Qed.

Lemma no_fraction rest : ends_number rest -> parse_fraction_part rest = Some ([], rest).
Proof.
  destruct rest as [|c rest]; [done|]. cbn. unfold number_end. destruct (Ascii.eqb c "."); [|done].
  by rewrite orb_true_r.
Qed.

Lemma no_exponent rest : ends_number rest -> parse_exponent rest = Some ([], rest).
Proof.
  destruct rest as [|c rest]; [done|]. cbn. unfold number_end.
  destruct (Ascii.eqb c "e"), (Ascii.eqb c "E"); try done; by rewrite ?orb_true_r.
Qed.

Lemma parse_digits c ds n rest (sign : chars) :
  Forall (fun c => is_digit c = true) (c :: ds) -> (c = "0"%char -> ds = []) -> ends_number rest ->
  digits_value 0 (of_chars (c :: ds)) = Some n ->
  match digits ((c :: ds) ++ rest) with
  | ([], _) => None
  | (d0 :: ds, rest) =>
      let '(ip, rest) := if Ascii.eqb d0 "0" then ([d0], ds ++ rest) else (d0 :: ds, rest) in
      match parse_fraction_part rest with
      | None => None
      | Some (fp, rest) =>
          match parse_exponent rest with
          | None => None
          | Some (ep, rest) =>
              match fp ++ ep, digits_value 0 (of_chars ip) with
              | [], Some n => Some (JInt (match sign with [] => n | _ => - n end), rest)
              | _, _ => Some (JFloat (of_chars (sign ++ ip ++ fp ++ ep)), rest)
              end
          end
      end
  end = Some (JInt (match sign with [] => n | _ => - n end), rest).
Proof.
  intros Hd H0 Hr Hn. rewrite digits_run by done.
  assert ((if Ascii.eqb c "0" then ([c], ds ++ rest) else (c :: ds, rest)) = (c :: ds, rest)) as ->.
  { destruct (Ascii.eqb_spec c "0"%char) as [E|E]; [|done]. by rewrite (H0 E). }
  rewrite no_fraction, no_exponent by done. cbn [app]. by rewrite Hn.
Qed.

Lemma is_digit_cases c : is_digit c = true -> json_space c = false /\ Ascii.eqb c "034" = false /\
  Ascii.eqb c "{" = false /\ Ascii.eqb c "[" = false /\ Ascii.eqb c "-" = false /\
  Ascii.eqb "n" c = false /\ Ascii.eqb "t" c = false /\ Ascii.eqb "f" c = false.
Proof. intros Hc. destruct c as [[] [] [] [] [] [] [] []]; vm_compute in Hc; try discriminate; by vm_compute. Qed.

Lemma parse_value_number n c s :
  json_space c = false -> Ascii.eqb c "034" = false -> Ascii.eqb c "{" = false -> Ascii.eqb c "[" = false ->
  Ascii.eqb "n" c = false -> Ascii.eqb "t" c = false -> Ascii.eqb "f" c = false ->
  parse_value (S n) (c :: s) = parse_number (c :: s).
Proof.
  intros H1 H2 H3 H4 H5 H6 H7. unfold parse_value; fold parse_value. cbn [skip_space]. rewrite H1, H2, H3, H4.
  cbn [skip_word]. by rewrite H5, H6, H7.
Qed.

Lemma parse_int z n rest :
  ends_number rest -> parse_value (S n) (to_chars (itoa z) ++ rest) = Some (JInt z, rest).
Proof.
  intros Hr. destruct (decide (0 <= z)) as [Hz|Hz].
  - destruct (itoa_nonneg (Z.to_N z)) as (c & t & E & Hd & H0 & Hv). rewrite Z2N.id in * by lia. rewrite E.
    change (to_chars (String c t) ++ rest) with (c :: (to_chars t ++ rest)).
    pose proof (proj1 (proj1 (Forall_cons _ _ _) Hd)) as Hc.
    destruct (is_digit_cases c Hc) as (?&?&?&?&Hm&?&?&?). rewrite parse_value_number by done.
    unfold parse_number. rewrite Hm. change (c :: to_chars t ++ rest) with ((c :: to_chars t) ++ rest).
    apply (parse_digits c (to_chars t) z rest []); [done| |done|].
    + intros Ec. by rewrite (H0 Ec).
    + change (of_chars (c :: to_chars t)) with (String c (of_chars (to_chars t))). by rewrite of_to_chars.
  - destruct z as [|p|p]; [lia|lia|].
    destruct (itoa_nonneg (N.pos p)) as (c & t & E & Hd & H0 & Hv).
    replace (itoa (Z.neg p)) with ("-" +:+ String c t) by (by rewrite <- E).
    rewrite to_chars_app. change (to_chars "-" ++ to_chars (String c t)) with ("-"%char :: (c :: to_chars t)).
    cbn [app]. rewrite parse_value_number by done. unfold parse_number. rewrite Ascii.eqb_refl.
    pose proof (parse_digits c (to_chars t) (Z.pos p) rest ["-"%char] Hd) as Hp. apply Hp; [|done|].
    + intros Ec. by rewrite (H0 Ec).
    + change (of_chars (c :: to_chars t)) with (String c (of_chars (to_chars t))). by rewrite of_to_chars.
Qed.

Lemma itoa_length z : (1 <= length (to_chars (itoa z)))%nat.
Proof.
  destruct (decide (0 <= z)) as [Hz|Hz].
  - destruct (itoa_nonneg (Z.to_N z)) as (c & t & E & _). rewrite Z2N.id in E by lia. rewrite E. simpl. lia.
  - destruct z as [|p|p]; [lia|lia|]. destruct (itoa_nonneg (N.pos p)) as (c & t & E & _).
    replace (itoa (Z.neg p)) with ("-" +:+ String c t) by (by rewrite <- E). rewrite to_chars_app. simpl. lia.
Qed.

(** ** Values *)

Definition starts_value (c : ascii) : Prop := json_space c = false /\ Ascii.eqb c "]" = false.

Lemma print_start j : whole j -> exists c s, print j = c :: s /\ starts_value c.
Proof.
  destruct j as [|[]|z|l|s|l|m]; intros Hw; try done; try (by eexists _, _).
  cbn [print]. destruct (decide (0 <= z)) as [Hz|Hz].
  - destruct (itoa_nonneg (Z.to_N z)) as (c & t & E & Hd & _). rewrite Z2N.id in E by lia. rewrite E.
    exists c, (to_chars t). split; [done|]. apply Forall_cons in Hd as [Hd _].
    destruct c as [[] [] [] [] [] [] [] []]; vm_compute in Hd; try discriminate; by vm_compute.
  - destruct z as [|p|p]; [lia|lia|]. by exists "-"%char, (to_chars (pretty (N.pos p))).
Qed.

Lemma print_length j : whole j -> (1 <= length (print j))%nat.
Proof. intros Hw. destruct (print_start j Hw) as (c & s & -> & _). simpl. lia. Qed.

(** What [parse_value] does behind a bracket or a brace. *)
Lemma parse_value_array n c s :
  starts_value c ->
  parse_value (S n) ("["%char :: c :: s) =
  match parse_elements n (c :: s) with Some (l, r) => Some (JArray l, r) | None => None end.
Proof. intros [H1 H2]. unfold parse_value; fold parse_value parse_elements. cbn [skip_space]. cbn. by rewrite H1, H2. Qed.

Lemma parse_value_object n s :
  parse_value (S n) ("{"%char :: "034"%char :: s) =
  match parse_members n ("034"%char :: s) with Some (m, r) => Some (JObject m, r) | None => None end.
Proof. done. Qed.

(** An element and what follows it. *)
Lemma parse_element n j d s :
  json_space d = false ->
  (forall rest, ends_number rest -> parse_value n (print j ++ rest) = Some (j, rest)) -> number_end d = true ->
  parse_elements (S n) (print j ++ d :: s) =
  if Ascii.eqb d "]" then Some ([j], s)
  else if Ascii.eqb d comma then match parse_elements n s with Some (l, r) => Some (j :: l, r) | None => None end
  else None.
Proof.
  intros Hd Hj Hn. cbn [parse_elements]. rewrite Hj by done. cbn [skip_space]. by rewrite Hd.
Qed.

Lemma parse_member n k j d s :
  json_space d = false -> whole j ->
  (forall rest, ends_number rest -> parse_value n (print j ++ rest) = Some (j, rest)) -> number_end d = true ->
  (length (to_chars k) < n)%nat ->
  parse_members (S n) (print_string k ++ ":"%char :: print j ++ d :: s) =
  if Ascii.eqb d "}" then Some ([(k, j)], s)
  else if Ascii.eqb d comma then match parse_members n s with Some (m, r) => Some ((k, j) :: m, r) | None => None end
  else None.
Proof.
  intros Hd Hw Hj Hn Hk. unfold print_string. cbn [app parse_members skip_space].
  change (json_space "034") with false. cbn iota.
  change (negb (Ascii.eqb "034" "034")) with false. cbn iota.
  rewrite <- app_assoc. cbn [app]. rewrite parse_print_chars by done. cbn [skip_space].
  change (json_space ":") with false. cbn iota. rewrite Ascii.eqb_refl. cbn [negb].
  rewrite Hj by done. cbn [skip_space]. rewrite Hd, of_to_chars. done.
Qed.

(** What may follow a value: only a number does not end by itself. *)
Definition may_follow (j : Json) (rest : chars) : Prop :=
  match j with JInt _ => ends_number rest | _ => True end.

Definition reads_back (j : Json) : Prop :=
  whole j -> forall n rest, (2 * length (print j) <= n)%nat -> may_follow j rest ->
  parse_value n (print j ++ rest) = Some (j, rest).

Lemma ends_may_follow j rest : ends_number rest -> may_follow j rest.
Proof. by destruct j. Qed.

Lemma parse_print_elements l :
  Forall reads_back l -> foldr (fun j P => whole j /\ P) True l -> l <> [] ->
  forall n rest, (2 * length (join (map print l)) + 1 <= n)%nat ->
  parse_elements n (join (map print l) ++ "]"%char :: rest) = Some (l, rest).
Proof.
  induction 1 as [|j l Hj Hl IH]; [done|]. intros [Hw Hws] _ n rest Hn.
  pose proof (print_length j Hw). destruct n as [|n]; [lia|]. destruct l as [|j2 l].
  - cbn [map join] in *. rewrite parse_element; [done|done| |done]. intros r Hr. apply Hj; [done|lia|by apply ends_may_follow].
  - change (join (map print (j :: j2 :: l))) with (print j ++ comma :: join (map print (j2 :: l))) in *.
    rewrite length_app in Hn. cbn [length] in Hn. rewrite <- app_assoc. cbn [app].
    rewrite parse_element; [|done| |done]; [|intros r Hr; apply Hj; [done|lia|by apply ends_may_follow]].
    change (Ascii.eqb comma "]") with false. rewrite Ascii.eqb_refl. rewrite IH; [done|done|done|lia].
Qed.

Definition print_member (kv : string * Json) : chars := print_string kv.1 ++ ":"%char :: print kv.2.

Lemma parse_print_members m :
  Forall (fun kv => reads_back kv.2) m -> foldr (fun kv P => whole kv.2 /\ P) True m -> m <> [] ->
  forall n rest, (2 * length (join (map print_member m)) + 1 <= n)%nat ->
  parse_members n (join (map print_member m) ++ "}"%char :: rest) = Some (m, rest).
Proof.
  induction 1 as [|[k j] m Hj Hm IH]; [done|]. intros [Hw Hws] _ n rest Hn. cbn [fst snd] in *.
  pose proof (print_length j Hw). pose proof (print_string_length k). destruct n as [|n]; [lia|].
  destruct m as [|kv m].
  - cbn [map join] in *. unfold print_member in *. cbn [fst snd] in *. rewrite length_app in Hn. cbn [length] in Hn.
    rewrite <- app_assoc. cbn [app]. rewrite parse_member; [done|done|done| |done|lia].
    intros r Hr. apply Hj; [done|lia|by apply ends_may_follow].
  - change (join (map print_member ((k, j) :: kv :: m))) with
      (print_member (k, j) ++ comma :: join (map print_member (kv :: m))) in *.
    rewrite length_app in Hn. cbn [length] in Hn. unfold print_member at 1 in Hn. unfold print_member at 1.
    cbn [fst snd] in *. rewrite length_app in Hn. cbn [length] in Hn.
    rewrite <- !app_assoc. cbn [app].
    rewrite parse_member; [|done|done| |done|lia]; [|intros r Hr; apply Hj; [done|lia|by apply ends_may_follow]].
    change (Ascii.eqb comma "}") with false. rewrite Ascii.eqb_refl. rewrite IH; [done|done|done|lia].
Qed.

(** Every document is read back from its text, and the parser stops behind it. *)
Theorem parse_print j n rest :
  whole j -> (2 * length (print j) <= n)%nat -> may_follow j rest ->
  parse_value n (print j ++ rest) = Some (j, rest).
Proof.
  intros Hw Hn Hr. revert Hw n rest Hn Hr. change (reads_back j).
  induction j as [|b|z|l|s|l Hl|m Hm] using Json_deep_ind; intros Hw n rest Hn Hr.
  - destruct n as [|n]; [simpl in Hn; lia|done].
  - destruct n as [|n]; [destruct b; simpl in Hn; lia|]. by destruct b.
  - pose proof (itoa_length z). cbn [print] in *. destruct n as [|n]; [lia|]. by apply parse_int.
  - done.
  - pose proof (print_string_length s). cbn [print] in *. destruct n as [|n]; [lia|].
    unfold print_string. cbn [app]. unfold parse_value; fold parse_value. cbn [skip_space].
    change (json_space "034") with false. cbn iota. rewrite Ascii.eqb_refl.
    rewrite <- app_assoc. cbn [app]. rewrite parse_print_chars by lia. by rewrite of_to_chars.
  - cbn [print] in *. cbn [length] in Hn. rewrite length_app in Hn. cbn [length] in Hn. destruct n as [|n]; [lia|].
    destruct l as [|j l]; [done|]. cbn [app]. rewrite <- app_assoc. cbn [app].
    assert (exists c s, join (map print (j :: l)) = c :: s /\ starts_value c) as (c & s & Ej & Hc).
    { destruct Hw as [Hw _]. destruct (print_start j Hw) as (c & s & Ej & Hc). exists c.
      destruct l; cbn [map join]; rewrite Ej; by eexists. }
    rewrite Ej. cbn [app]. rewrite parse_value_array by done.
    change (c :: s ++ "]"%char :: rest) with ((c :: s) ++ "]"%char :: rest). rewrite <- Ej.
    rewrite parse_print_elements; [done|done|done|done|lia].
  - cbn [print] in *. change (map (fun kv => print_string kv.1 ++ ":"%char :: print kv.2) m) with (map print_member m) in *.
    cbn [length] in Hn. rewrite length_app in Hn. cbn [length] in Hn. destruct n as [|n]; [lia|].
    destruct m as [|[k j] m]; [done|]. cbn [app]. rewrite <- app_assoc. cbn [app].
    assert (exists s, join (map print_member ((k, j) :: m)) = "034"%char :: s) as [s Ej].
    { destruct m; cbn [map join]; unfold print_member at 1, print_string; cbn [app fst snd]; by eexists. }
    rewrite Ej. cbn [app]. rewrite parse_value_object.
    change ("034"%char :: s ++ "}"%char :: rest) with (("034"%char :: s) ++ "}"%char :: rest). rewrite <- Ej.
    rewrite parse_print_members; [done|done|done|done|lia].
Qed.

Theorem ParseJSON_print j : whole j -> ParseJSON (print_json j) = Some j.
Proof.
  intros Hw. unfold ParseJSON, print_json. fold (to_chars (of_chars (print j))). unfold to_chars, of_chars.
  rewrite String.list_ascii_of_string_of_list_ascii. pose proof (parse_print j (2 * length (print j) + 2) [] Hw) as Hp.
  rewrite app_nil_r in Hp. rewrite Hp; [done|lia|by apply ends_may_follow].
Qed.
