(* ===== verification/ProxmoxClient.v ===== *)
(** * internal/proxmox: the client of the Proxmox VE API

    client.go, node.go, container.go and task.go, with the types of types.go.
    The network and the Proxmox host are a parameter ([ProxmoxServer]): what a
    request is answered, when, and what it does to the host. A response body
    is a parsed JSON value. [Client.nodeName], which a mutex guards, and the
    clock that deadlines and tickers read are part of the state ([Conn]). *)

From stdpp Require Import gmap strings list fin_maps.
From Stdlib Require Import Ascii ZArith Lia.
From S2P Require Import Prelude GoStrings GoContext NetURL World Response GoJson.

Open Scope Z_scope.

(** ** HTTP and contexts *)

Inductive Method := GET | POST | PUT | DELETE.

Record HTTPRequest := mkHTTPRequest {
  rq_Method : Method; rq_URL : string; rq_Authorization : string;
  rq_ContentType : option string; rq_Body : option string }.

(** The body: [Fail] when reading it failed, [Ok None] when it is not JSON.
    More than ten megabytes are not read; the rest of such a document is none. *)
Record HTTPResp := mkHTTPResp { rs_StatusCode : Z; rs_Status : string; rs_Body : res (option Json) }.

(** [pve_do ctx request now s]: what [http.Client.Do] and reading the body
    give, when they return, and the host's next state. [pve_pick] is the choice
    [select] makes between two ready cases: the context's if true. *)
Class ProxmoxServer := {
  pve_state : Type;
  pve_do : Context -> HTTPRequest -> Z -> pve_state -> res HTTPResp * Z * pve_state;
  pve_pick : Z -> pve_state -> bool }.

Record Conn `{ProxmoxServer} := mkConn { cn_node : string; cn_now : Z; cn_pve : pve_state }.

(** ** types.go *)

(** [response]: the raw data, absent or not, and the field errors. *)
Record response := mkEnvelope { en_Data : option Json; en_Errors : gmap string string }.

Record Container := mkContainer {
  ct_VMID : Z; ct_Name : string; ct_Status : string; ct_CPU : string; ct_Mem : Z; ct_MaxMem : Z;
  ct_Disk : Z; ct_MaxDisk : Z; ct_Uptime : Z; ct_Template : Z }.

Record ContainerStatus := mkContainerStatus {
  cs_VMID : Z; cs_Name : string; cs_Status : string; cs_CPU : string; cs_CPUs : Z; cs_Mem : Z;
  cs_MaxMem : Z; cs_Disk : Z; cs_MaxDisk : Z; cs_Swap : Z; cs_MaxSwap : Z; cs_Uptime : Z;
  cs_PID : Z; cs_Template : Z; cs_Lock : string; cs_HA : option Json }.

Record nodeMemory := mkNodeMemory { nm_Total : Z; nm_Used : Z; nm_Free : Z }.
Record nodeStatusResponse := mkNodeStatusResponse {
  nr_CPU : string; nr_Memory : nodeMemory; nr_Uptime : Z; nr_Kversion : string; nr_PVEVersion : string }.
Record NodeStatus := mkNodeStatus {
  ns_CPUUsage : string; ns_MemoryTotal : Z; ns_MemoryUsed : Z; ns_MemoryFree : Z; ns_Uptime : Z;
  ns_KernelVersion : string; ns_PVEVersion : string }.

Record nodeListEntry := mkNodeListEntry { nl_Node : string }.

Record TaskStatus := mkTaskStatus {
  ts_Status : string; ts_ExitStatus : string; ts_Type : string; ts_ID : string; ts_Node : string;
  ts_PID : Z; ts_StartTime : Z }.

Record CloneOptions := mkCloneOptions {
  co_NewID : Z; co_Hostname : string; co_Description : string; co_Full : bool; co_Storage : string;
  co_Pool : string }.

(** How each is decoded; a Go zero value first. *)
Definition zeroContainer : Container := mkContainer 0 "" "" "0" 0 0 0 0 0 0.

Definition d_Container : Decoder Container := d_struct [
  field "vmid" ct_VMID (fun a '(mkContainer _ b c d e f g h i j) => mkContainer a b c d e f g h i j) d_int;
  field "name" ct_Name (fun b '(mkContainer a _ c d e f g h i j) => mkContainer a b c d e f g h i j) d_string;
  field "status" ct_Status (fun c '(mkContainer a b _ d e f g h i j) => mkContainer a b c d e f g h i j) d_string;
  field "cpu" ct_CPU (fun d '(mkContainer a b c _ e f g h i j) => mkContainer a b c d e f g h i j) d_float;
  field "mem" ct_Mem (fun e '(mkContainer a b c d _ f g h i j) => mkContainer a b c d e f g h i j) d_int;
  field "maxmem" ct_MaxMem (fun f '(mkContainer a b c d e _ g h i j) => mkContainer a b c d e f g h i j) d_int;
  field "disk" ct_Disk (fun g '(mkContainer a b c d e f _ h i j) => mkContainer a b c d e f g h i j) d_int;
  field "maxdisk" ct_MaxDisk (fun h '(mkContainer a b c d e f g _ i j) => mkContainer a b c d e f g h i j) d_int;
  field "uptime" ct_Uptime (fun i '(mkContainer a b c d e f g h _ j) => mkContainer a b c d e f g h i j) d_int;
  field "template" ct_Template (fun j '(mkContainer a b c d e f g h i _) => mkContainer a b c d e f g h i j) d_int].

Definition zeroContainerStatus : ContainerStatus :=
  mkContainerStatus 0 "" "" "0" 0 0 0 0 0 0 0 0 0 0 "" None.

Definition d_ContainerStatus : Decoder ContainerStatus := d_struct [
  field "vmid" cs_VMID (fun x '(mkContainerStatus _ b c d e f g h i j k l m n o p) => mkContainerStatus x b c d e f g h i j k l m n o p) d_int;
  field "name" cs_Name (fun x '(mkContainerStatus a _ c d e f g h i j k l m n o p) => mkContainerStatus a x c d e f g h i j k l m n o p) d_string;
  field "status" cs_Status (fun x '(mkContainerStatus a b _ d e f g h i j k l m n o p) => mkContainerStatus a b x d e f g h i j k l m n o p) d_string;
  field "cpu" cs_CPU (fun x '(mkContainerStatus a b c _ e f g h i j k l m n o p) => mkContainerStatus a b c x e f g h i j k l m n o p) d_float;
  field "cpus" cs_CPUs (fun x '(mkContainerStatus a b c d _ f g h i j k l m n o p) => mkContainerStatus a b c d x f g h i j k l m n o p) d_int;
  field "mem" cs_Mem (fun x '(mkContainerStatus a b c d e _ g h i j k l m n o p) => mkContainerStatus a b c d e x g h i j k l m n o p) d_int;
  field "maxmem" cs_MaxMem (fun x '(mkContainerStatus a b c d e f _ h i j k l m n o p) => mkContainerStatus a b c d e f x h i j k l m n o p) d_int;
  field "disk" cs_Disk (fun x '(mkContainerStatus a b c d e f g _ i j k l m n o p) => mkContainerStatus a b c d e f g x i j k l m n o p) d_int;
  field "maxdisk" cs_MaxDisk (fun x '(mkContainerStatus a b c d e f g h _ j k l m n o p) => mkContainerStatus a b c d e f g h x j k l m n o p) d_int;
  field "swap" cs_Swap (fun x '(mkContainerStatus a b c d e f g h i _ k l m n o p) => mkContainerStatus a b c d e f g h i x k l m n o p) d_int;
  field "maxswap" cs_MaxSwap (fun x '(mkContainerStatus a b c d e f g h i j _ l m n o p) => mkContainerStatus a b c d e f g h i j x l m n o p) d_int;
  field "uptime" cs_Uptime (fun x '(mkContainerStatus a b c d e f g h i j k _ m n o p) => mkContainerStatus a b c d e f g h i j k x m n o p) d_int;
  field "pid" cs_PID (fun x '(mkContainerStatus a b c d e f g h i j k l _ n o p) => mkContainerStatus a b c d e f g h i j k l x n o p) d_int;
  field "template" cs_Template (fun x '(mkContainerStatus a b c d e f g h i j k l m _ o p) => mkContainerStatus a b c d e f g h i j k l m x o p) d_int;
  field "lock" cs_Lock (fun x '(mkContainerStatus a b c d e f g h i j k l m n _ p) => mkContainerStatus a b c d e f g h i j k l m n x p) d_string;
  field "ha" cs_HA (fun x '(mkContainerStatus a b c d e f g h i j k l m n o _) => mkContainerStatus a b c d e f g h i j k l m n o x) d_any].

Definition d_nodeMemory : Decoder nodeMemory := d_struct [
  field "total" nm_Total (fun a '(mkNodeMemory _ b c) => mkNodeMemory a b c) d_int;
  field "used" nm_Used (fun b '(mkNodeMemory a _ c) => mkNodeMemory a b c) d_int;
  field "free" nm_Free (fun c '(mkNodeMemory a b _) => mkNodeMemory a b c) d_int].

Definition zeroNodeStatusResponse : nodeStatusResponse :=
  mkNodeStatusResponse "0" (mkNodeMemory 0 0 0) 0 "" "".

Definition d_nodeStatusResponse : Decoder nodeStatusResponse := d_struct [
  field "cpu" nr_CPU (fun a '(mkNodeStatusResponse _ b c d e) => mkNodeStatusResponse a b c d e) d_float;
  field "memory" nr_Memory (fun b '(mkNodeStatusResponse a _ c d e) => mkNodeStatusResponse a b c d e) d_nodeMemory;
  field "uptime" nr_Uptime (fun c '(mkNodeStatusResponse a b _ d e) => mkNodeStatusResponse a b c d e) d_int;
  field "kversion" nr_Kversion (fun d '(mkNodeStatusResponse a b c _ e) => mkNodeStatusResponse a b c d e) d_string;
  field "pveversion" nr_PVEVersion (fun e '(mkNodeStatusResponse a b c d _) => mkNodeStatusResponse a b c d e) d_string].

Definition d_nodeListEntry : Decoder nodeListEntry := d_struct [
  field "node" nl_Node (fun a _ => mkNodeListEntry a) d_string].

Definition zeroTaskStatus : TaskStatus := mkTaskStatus "" "" "" "" "" 0 0.

Definition d_TaskStatus : Decoder TaskStatus := d_struct [
  field "status" ts_Status (fun a '(mkTaskStatus _ b c d e f g) => mkTaskStatus a b c d e f g) d_string;
  field "exitstatus" ts_ExitStatus (fun b '(mkTaskStatus a _ c d e f g) => mkTaskStatus a b c d e f g) d_string;
  field "type" ts_Type (fun c '(mkTaskStatus a b _ d e f g) => mkTaskStatus a b c d e f g) d_string;
  field "id" ts_ID (fun d '(mkTaskStatus a b c _ e f g) => mkTaskStatus a b c d e f g) d_string;
  field "node" ts_Node (fun e '(mkTaskStatus a b c d _ f g) => mkTaskStatus a b c d e f g) d_string;
  field "pid" ts_PID (fun f '(mkTaskStatus a b c d e _ g) => mkTaskStatus a b c d e f g) d_int;
  field "starttime" ts_StartTime (fun g '(mkTaskStatus a b c d e f _) => mkTaskStatus a b c d e f g) d_int].

(** ** client.go *)

(** [proxmox.Client], without the node name (in [Conn]) and the HTTP client. *)
Record Client := mkClient { pc_baseURL : string; pc_apiToken : string }.

Definition NewClient (baseURL apiToken : string) : Client := mkClient (trim_slashes baseURL) apiToken.

(** The option [WithNodeName]; without it the name is found on first use. *)
Definition WithNodeName `{ProxmoxServer} (name : string) (s : Conn) : Conn := mkConn _ name (cn_now s) (cn_pve s).

Definition apiURL (c : Client) (path : string) : string :=
  pc_baseURL c +:+ "/api2/json/" +:+ trim_left_slashes path.

(** [json.Unmarshal(bodyBytes, &envelope)]: what was filled in and whether it
    succeeded. *)
Definition decode_envelope_field (r : response * bool) (kv : string * Json) : response * bool :=
  let '(en, ok) := r in
  if String.eqb (fold_name kv.1) "data" then (mkEnvelope (Some kv.2) (en_Errors en), ok)
  else if String.eqb (fold_name kv.1) "errors" then
    let '(m, ok') := d_string_map (en_Errors en) kv.2 in (mkEnvelope (en_Data en) m, ok && ok')
  else (en, ok).

Definition decode_envelope (body : option Json) : response * bool :=
  let zero := mkEnvelope None ∅ in
  match body with
  | None => (zero, false)
  | Some JNull => (zero, true)
  | Some (JObject m) => foldl decode_envelope_field (zero, true) m
  | Some _ => (zero, false)
  end.

Definition api_error (resp : HTTPResp) (en : response) : error :=
  EBase (APIError (rs_Status resp) (map_to_list (en_Errors en))).

Definition success (code : Z) : bool := (200 <=? code) && (code <? 300).

(** [out] is decoded over [zero]; without an [out] the decoder is [discard]. *)
Definition discard : Decoder unit := fun _ _ => Some tt.

Definition decodeResponse {A} (d : Decoder A) (zero : A) (resp : HTTPResp) : res A :=
  match rs_Body resp with
  | Fail e => Fail (EWrap "read response body" e)
  | Ok body =>
      let '(envelope, ok) := decode_envelope body in
      if negb (success (rs_StatusCode resp)) then Fail (api_error resp envelope)
      else if negb ok then Fail (errorString "decode response envelope")
      else if negb (bool_decide (en_Errors envelope = ∅)) then Fail (api_error resp envelope)
      else match en_Data envelope with
           | None => Ok zero
           | Some j =>
               match d zero j with
               | None => Fail (errorString "decode response data")
               | Some a => Ok a
               end
           end
  end.

(** A body and its content type, present when there are parameters. *)
Definition form (params : Values) : option string * option string :=
  if bool_decide (params = ∅) then (None, None)
  else (Some "application/x-www-form-urlencoded", Some (Encode params)).

Section Client.
Context `{Env} `{ProxmoxServer} (c : Client) (ctx : Context).

(** [http.NewRequestWithContext], then [Do] and the body. *)
Definition do_request (rq : HTTPRequest) : Prog Conn (res HTTPResp) :=
  match env_url_parse (rq_URL rq) with
  | None => Ret (Fail (errorString "create request"))
  | Some _ =>
      let? resp := atom (fun s =>
          let '(r, t, p) := pve_do ctx rq (cn_now s) (cn_pve s) in (r, mkConn _ (cn_node s) t p))
      catch e => Ret (Fail (EWrap "execute request" e)) in
      Ret (Ok resp)
  end.

Definition get {A} (path : string) (d : Decoder A) (zero : A) : Prog Conn (res A) :=
  let? resp := do_request (mkHTTPRequest GET (apiURL c path) (pc_apiToken c) None None)
  catch e => Ret (Fail e) in
  Ret (decodeResponse d zero resp).

Definition post (path : string) (params : Values) : Prog Conn (res string) :=
  let '(ctype, body) := form params in
  let? resp := do_request (mkHTTPRequest POST (apiURL c path) (pc_apiToken c) ctype body)
  catch e => Ret (Fail e) in
  Ret (decodeResponse d_string EmptyString resp).

Definition delete (path : string) (params : Values) : Prog Conn (res string) :=
  let reqURL := if bool_decide (params = ∅) then apiURL c path
                else apiURL c path +:+ "?" +:+ Encode params in
  let? resp := do_request (mkHTTPRequest DELETE reqURL (pc_apiToken c) None None)
  catch e => Ret (Fail e) in
  Ret (decodeResponse d_string EmptyString resp).

Definition put (path : string) (params : Values) : Prog Conn (option error) :=
  let '(ctype, body) := form params in
  let? resp := do_request (mkHTTPRequest PUT (apiURL c path) (pc_apiToken c) ctype body)
  catch e => Ret (Some e) in
  Ret (match decodeResponse discard tt resp with Ok _ => None | Fail e => Some e end).

(** ** node.go: the node's name *)

Definition discoverNodeName : Prog Conn (res string) :=
  let? nodes := get "nodes" (d_slice (mkNodeListEntry EmptyString) d_nodeListEntry) []
  catch e => Ret (Fail (EWrap "discover node name" e)) in
  match nodes with
  | [] => Ret (Fail (errorString "discover node name: no nodes found"))
  | n :: _ => Ret (Ok (nl_Node n))
  end.

Definition read_node : Prog Conn string := atom (fun s => (cn_node s, s)).
Definition write_node (name : string) : Prog Conn unit :=
  atom (fun s => (tt, mkConn _ name (cn_now s) (cn_pve s))).

(** What runs under the write lock: the name is read again, discovered and
    stored. Every other access to the name takes the lock, and there is one
    request, so the section is atomic with respect to all of them. *)
Definition discover_locked : Prog Conn (res string) :=
  let! name := read_node in
  if negb (is_empty name) then Ret (Ok name) else
  let? name := discoverNodeName catch e => Ret (Fail e) in
  write_node name ;;; Ret (Ok name).

Definition resolveNode : Prog Conn (res string) :=
  let! name := read_node in
  if negb (is_empty name) then Ret (Ok name) else atomically discover_locked.

Definition NodeName : Prog Conn (res string) := resolveNode.

Definition GetNodeStatus : Prog Conn (res NodeStatus) :=
  let? node := resolveNode catch e => Ret (Fail e) in
  let? raw := get ("nodes/" +:+ node +:+ "/status") d_nodeStatusResponse zeroNodeStatusResponse
  catch e => Ret (Fail (EWrap "get node status" e)) in
  Ret (Ok (mkNodeStatus (nr_CPU raw) (nm_Total (nr_Memory raw)) (nm_Used (nr_Memory raw))
             (nm_Free (nr_Memory raw)) (nr_Uptime raw) (nr_Kversion raw) (nr_PVEVersion raw))).

(** The next id comes as an integer or as its decimal text. *)
Definition parse_nextid (raw : option Json) : res Z :=
  match raw with
  | None => Fail (errorString "get next id: unexpected data format")
  | Some j =>
      match d_int 0 j with
      | Some id => Ok id
      | None =>
          match d_string EmptyString j with
          | None => Fail (errorString "get next id: unexpected data format")
          | Some idStr =>
              match atoi idStr with
              | None => Fail (errorString "get next id: parse")
              | Some id => Ok id
              end
          end
      end
  end.

Definition GetNextID : Prog Conn (res Z) :=
  let? raw := get "cluster/nextid" d_raw None catch e => Ret (Fail (EWrap "get next id" e)) in
  Ret (parse_nextid raw).

(** ** container.go *)

(** [proxmox.Task]; its client is the one of the section. *)
Record Task := mkTask { tk_UPID : string; tk_node : string }.

Definition lxc_path (node : string) (vmid : Z) : string := "nodes/" +:+ node +:+ "/lxc/" +:+ itoa vmid.

Definition ListContainers : Prog Conn (res (list Container)) :=
  let? node := resolveNode catch e => Ret (Fail e) in
  let? l := get ("nodes/" +:+ node +:+ "/lxc") (d_slice zeroContainer d_Container) []
  catch e => Ret (Fail (EWrap "list containers" e)) in
  Ret (Ok l).

Definition GetContainerStatus (vmid : Z) : Prog Conn (res ContainerStatus) :=
  let? node := resolveNode catch e => Ret (Fail e) in
  let? st := get (lxc_path node vmid +:+ "/status/current") d_ContainerStatus zeroContainerStatus
  catch e => Ret (Fail (EWrap "get container status" e)) in
  Ret (Ok st).

(** [if v != "" { params.Set(k, v) }]. *)
Definition Set_nonempty (k v : string) (params : Values) : Values :=
  if is_empty v then params else <[k := v]> params.

Definition clone_params (opts : CloneOptions) : Values :=
  Set_nonempty "pool" (co_Pool opts)
  (Set_nonempty "storage" (co_Storage opts)
  ((if co_Full opts then insert "full" "1" else id)
  (Set_nonempty "description" (co_Description opts)
  (Set_nonempty "hostname" (co_Hostname opts)
  (<["newid" := itoa (co_NewID opts)]> ∅))))).

Definition CloneContainer (templateID : Z) (opts : CloneOptions) : Prog Conn (res Task) :=
  if co_NewID opts <? 100 then Ret (Fail (errorString "clone container: NewID must be >= 100")) else
  let? node := resolveNode catch e => Ret (Fail e) in
  let? upid := post (lxc_path node templateID +:+ "/clone") (clone_params opts)
  catch e => Ret (Fail (EWrap "clone container" e)) in
  Ret (Ok (mkTask upid node)).

Definition StartContainer (vmid : Z) : Prog Conn (res Task) :=
  let? node := resolveNode catch e => Ret (Fail e) in
  let? upid := post (lxc_path node vmid +:+ "/status/start") ∅
  catch e => Ret (Fail (EWrap "start container" e)) in
  Ret (Ok (mkTask upid node)).

Definition StopContainer (vmid : Z) : Prog Conn (res Task) :=
  let? node := resolveNode catch e => Ret (Fail e) in
  let? upid := post (lxc_path node vmid +:+ "/status/stop") ∅
  catch e => Ret (Fail (EWrap "stop container" e)) in
  Ret (Ok (mkTask upid node)).

Definition ShutdownContainer (vmid timeout : Z) : Prog Conn (res Task) :=
  let? node := resolveNode catch e => Ret (Fail e) in
  let params : Values := if 0 <? timeout then <["timeout" := itoa timeout]> ∅ else ∅ in
  let? upid := post (lxc_path node vmid +:+ "/status/shutdown") params
  catch e => Ret (Fail (EWrap "shutdown container" e)) in
  Ret (Ok (mkTask upid node)).

Definition ConfigureNetwork (vmid : Z) (net0Value : string) : Prog Conn (option error) :=
  let? node := resolveNode catch e => Ret (Some e) in
  if_err e := put (lxc_path node vmid +:+ "/config") (<["net0" := net0Value]> ∅)
  then Ret (Some (EWrap "configure network" e)) else
  Ret None.

Definition ConfigureMountPoints (vmid : Z) (mounts : gmap string string) : Prog Conn (option error) :=
  let? node := resolveNode catch e => Ret (Some e) in
  if_err e := put (lxc_path node vmid +:+ "/config") mounts
  then Ret (Some (EWrap "configure mount points" e)) else
  Ret None.

Definition DeleteContainer (vmid : Z) (force : bool) : Prog Conn (res Task) :=
  let? node := resolveNode catch e => Ret (Fail e) in
  let params : Values := if force then <["force" := "1"]> ∅ else ∅ in
  let? upid := delete (lxc_path node vmid) params
  catch e => Ret (Fail (EWrap "delete container" e)) in
  Ret (Ok (mkTask upid node)).

(** ** task.go *)

Definition status_path (t : Task) : string :=
  "nodes/" +:+ tk_node t +:+ "/tasks/" +:+ PathEscape (tk_UPID t) +:+ "/status".

Definition getStatus (t : Task) : Prog Conn (res TaskStatus) :=
  let? status := get (status_path t) d_TaskStatus zeroTaskStatus catch e => Ret (Fail e) in
  Ret (Ok status).

End Client.

Record waitConfig := mkWaitConfig { wc_pollInterval : Z; wc_timeout : Z }.
Definition defaultPollInterval : Z := 2000.
Definition defaultTimeout : Z := 300000.

Definition WaitOption := waitConfig -> waitConfig.
Definition WithPollInterval (d : Z) : WaitOption := fun cfg => mkWaitConfig d (wc_timeout cfg).
Definition WithTimeout (d : Z) : WaitOption := fun cfg => mkWaitConfig (wc_pollInterval cfg) d.
Definition wait_config (opts : list WaitOption) : waitConfig :=
  foldl (fun cfg opt => opt cfg) (mkWaitConfig defaultPollInterval defaultTimeout) opts.

(** How [Wait] ends. [time.NewTicker] panics on an interval that is not
    positive; [OutOfFuel] is not an outcome of the code. *)
Inductive wait_result :=
| Returned (e : option error)
| Panicked
| OutOfFuel.

(** The ticker started at [start] fires every [interval]; its channel holds one
    tick. After a receive at [last] the next one becomes available at: *)
Definition next_tick (start interval last : Z) : Z :=
  start + ((last - start) / interval + 1) * interval.

Section Wait.
Context `{Env} `{ProxmoxServer} (c : Client).

Definition read_clock : Prog Conn Z := atom (fun s => (cn_now s, s)).
Definition sleep_until (t : Z) (s : Conn) : Conn := mkConn _ (cn_node s) t (cn_pve s).

(** [select] on the context and the ticker: the time of the tick received, or
    [None] when the context's case was taken. *)
Definition select_tick (ctx : Context) (tick : Z) : Prog Conn (option Z) :=
  atom (fun s =>
    let tick := Z.max (cn_now s) tick in
    match ctx_Done ctx with
    | None => (Some tick, sleep_until tick s)
    | Some t =>
        let t := Z.max (cn_now s) t in
        if (t <? tick) || ((t =? tick) && pve_pick (cn_now s) (cn_pve s)) then (None, sleep_until t s)
        else (Some tick, sleep_until tick s)
    end).

Fixpoint wait_loop (fuel : nat) (t : Task) (ctx : Context) (start interval last : Z) : Prog Conn wait_result :=
  match fuel with
  | O => Ret OutOfFuel
  | S fuel =>
      let? status := getStatus c ctx t
      catch e => Ret (Returned (Some (EWrap ("poll task " +:+ tk_UPID t) e))) in
      if String.eqb (ts_Status status) "stopped" then
        if String.eqb (ts_ExitStatus status) "OK" then Ret (Returned None)
        else Ret (Returned (Some (EBase (TaskError (tk_UPID t) (ts_ExitStatus status) (ts_Type status)))))
      else
        let! tick := select_tick ctx (next_tick start interval last) in
        match tick with
        | None => Ret (Returned (Some (EWrap ("wait for task " +:+ tk_UPID t) (ctx_Err ctx))))
        | Some now => wait_loop fuel t ctx start interval now
        end
  end.

(** One poll at most per tick before the deadline, and one after it. *)
Definition wait_fuel (cfg : waitConfig) : nat :=
  Z.to_nat (Z.max 0 (wc_timeout cfg) / wc_pollInterval cfg) + 2.

Definition Wait (t : Task) (ctx : Context) (opts : list WaitOption) : Prog Conn wait_result :=
  let cfg := wait_config opts in
  let! now := read_clock in
  let ctx := ctx_WithTimeout ctx now (wc_timeout cfg) in
  if wc_pollInterval cfg <=? 0 then Ret Panicked else
  wait_loop (wait_fuel cfg) t ctx now (wc_pollInterval cfg) now.

End Wait.
