(* ===== verification/Crypto.v ===== *)
(** * internal/crypto/crypto.go: API tokens at rest

    AES-256-GCM is the environment's [env_seal key nonce plaintext] and
    [env_open key nonce ciphertext]; the hex framing, the key and nonce sizes
    and every error path are the code's. *)

From stdpp Require Import gmap strings list.
From Stdlib Require Import ZArith Lia.
From S2P Require Import Prelude GoStrings World.

Open Scope Z_scope.

(** [gcm.NonceSize()] of a cipher made by [cipher.NewGCM]. *)
Definition NonceSize : nat := 12.

Definition decode_key (hexKey : string) : res string :=
  match hex_decode hexKey with
  | None => Fail (EWrap "decode key" (errorString "encoding/hex: invalid"))
  | Some key => if len key =? 32 then Ok key else Fail (errorString "key must be 32 bytes")
  end.

Section Crypto.
Context `{Env}.

Definition Encrypt (plaintext hexKey : string) : P (res string) :=
  match decode_key hexKey with
  | Fail e => Ret (Fail e)
  | Ok key =>
      let? nonce := sample (fun t => env_rand t NonceSize)
      catch e => Ret (Fail (EWrap "generate nonce" e)) in
      Ret (Ok (hex_encode (nonce +:+ env_seal key nonce plaintext)))
  end.

Definition Decrypt (hexCiphertext hexKey : string) : res string :=
  match decode_key hexKey with
  | Fail e => Fail e
  | Ok key =>
      match hex_decode hexCiphertext with
      | None => Fail (EWrap "decode ciphertext" (errorString "encoding/hex: invalid"))
      | Some ciphertext =>
          if len ciphertext <? Z.of_nat NonceSize then Fail (errorString "ciphertext too short")
          else
            let nonce := String.substring 0 NonceSize ciphertext in
            let ct := String.substring NonceSize (String.length ciphertext - NonceSize) ciphertext in
            match env_open key nonce ct with
            | None => Fail (EWrap "decrypt" (errorString "cipher: message authentication failed"))
            | Some plaintext => Ok plaintext
            end
      end
  end.

(** What the code relies on: [io.ReadFull] fills the buffer it is given, and
    [gcm.Open] inverts [gcm.Seal] under the same key and nonce. *)
Class CryptoLaws : Prop := {
  rand_length : forall t n s, env_rand t n = Ok s -> String.length s = n;
  open_seal : forall key nonce m, String.length nonce = NonceSize ->
    env_open key nonce (env_seal key nonce m) = Some m }.

End Crypto.

Lemma substring_app_l (a b : string) : String.substring 0 (String.length a) (a +:+ b) = a.
Proof.
  induction a as [|c a IH]; [by destruct b|].
  change (String c a +:+ b) with (String c (a +:+ b)). simpl. by rewrite IH.
Qed.

Lemma substring_full (b : string) : String.substring 0 (String.length b) b = b.
Proof. induction b as [|c b IH]; simpl; [done|by rewrite IH]. Qed.

Lemma substring_app_r (a b : string) :
  String.substring (String.length a) (String.length b) (a +:+ b) = b.
Proof.
  induction a as [|c a IH]; [apply substring_full|].
  change (String c a +:+ b) with (String c (a +:+ b)). simpl. apply IH.
Qed.

(** Decrypting what [Encrypt] makes out of a nonce. *)
Lemma Decrypt_sealed `{Env} (Laws : CryptoLaws) key hexKey token nonce :
  decode_key hexKey = Ok key -> String.length nonce = NonceSize ->
  Decrypt (hex_encode (nonce +:+ env_seal key nonce token)) hexKey = Ok token.
Proof.
  intros Hkey Hlen. unfold Decrypt. rewrite Hkey, hex_decode_encode. unfold len.
  rewrite string_length_app, Hlen.
  destruct (Z.ltb_spec (Z.of_nat (NonceSize + String.length (env_seal key nonce token))) (Z.of_nat NonceSize)); [lia|].
  replace (NonceSize + String.length (env_seal key nonce token) - NonceSize)%nat
    with (String.length (env_seal key nonce token)) by lia.
  rewrite <- Hlen at 1 2. rewrite substring_app_l, substring_app_r.
  rewrite open_seal by done. done.
Qed.

Lemma wp_Encrypt_raw `{Env} token hexKey Q w :
  (forall e w', unchanged w w' -> Q (Fail e) w') ->
  (forall key nonce w', unchanged w w' -> decode_key hexKey = Ok key ->
     env_rand (w_tick w) NonceSize = Ok nonce ->
     Q (Ok (hex_encode (nonce +:+ env_seal key nonce token))) w') ->
  wp (Encrypt token hexKey) Q w.
Proof.
  intros HF HOk. unfold Encrypt. destruct (decode_key hexKey) as [key|e]; [|by apply wp_ret, HF].
  apply wp_bind, wp_sample. intros w' Hw.
  destruct (env_rand _ _) as [nonce|e] eqn:Hr; apply wp_ret; [by apply HOk|by apply HF].
Qed.

Lemma wp_Encrypt `{Env} token hexKey Q w :
  (forall e w', unchanged w w' -> Q (Fail e) w') ->
  (forall ct w', unchanged w w' -> (CryptoLaws -> Decrypt ct hexKey = Ok token) -> Q (Ok ct) w') ->
  wp (Encrypt token hexKey) Q w.
Proof.
  intros HF HO. apply wp_Encrypt_raw; [done|]. intros key nonce w' Hw Hkey Hr.
  apply HO; [done|]. intros Laws. apply (Decrypt_sealed Laws key); [done|]. by eapply rand_length.
Qed.

(** A node's API token survives storage: with a 32-byte hex key, whatever
    [Encrypt] returned is decrypted by [Decrypt] under the same key to the
    token it was given, for every token and every nonce; the only way [Encrypt]
    fails is the random source failing. *)
Theorem Encrypt_Decrypt `{Env} (Laws : CryptoLaws) (key hexKey token : string) w
  (Hkey : decode_key hexKey = Ok key) :
  match (run (Encrypt token hexKey) w).1 with
  | Ok ct => Decrypt ct hexKey = Ok token
  | Fail _ => exists e, env_rand (w_tick w) NonceSize = Fail e
  end.
Proof.
  unfold Encrypt. rewrite Hkey, run_bind. unfold sample. rewrite run_atom.
  destruct (env_rand (w_tick w) NonceSize) as [nonce|e] eqn:Hr; simpl; [|by eauto].
  apply (Decrypt_sealed Laws key); [done|]. by eapply rand_length.
Qed.

Lemma Encrypt_Decrypt_witness :
  let E := calm in
  let hexKey := hex_encode (repeat_string 32 "k") in
  @CryptoLaws calm /\
  exists ct, (run (@Encrypt calm "root@pam!cp=secret" hexKey) empty_world).1 = Ok ct /\
             @Decrypt calm ct hexKey = Ok "root@pam!cp=secret".
Proof.
  intros E hexKey. assert (@CryptoLaws calm) as Laws.
  { split; [|done]. intros t n s. simpl. intros [= <-]. apply repeat_string_length. }
  split; [done|]. eexists. split; [reflexivity|].
  exact (Encrypt_Decrypt Laws (repeat_string 32 "k") hexKey "root@pam!cp=secret" empty_world eq_refl).
Defined.
