(* ===== verification/SSHExec.v ===== *)
(** * internal/sshexec/client.go: commands on Proxmox hosts

    A command travels as one shell line, so everything rests on quoting.
    [shell_words] is the specification side: how a POSIX shell splits a line
    made of ordinary characters, blanks, single quotes and backslashes into
    words. The theorems say that a value passed through [Quote] or embedded by
    [ExecInContainer] reaches the other side as exactly one word. *)

From stdpp Require Import gmap strings list pretty.
From Stdlib Require Import ZArith Lia Ascii.
From S2P Require Import Prelude GoStrings World.

Open Scope Z_scope.

Definition quote_char : ascii := "039".
Definition backslash : ascii := "092".

Definition quoteS : string := String quote_char EmptyString.
Definition escaped_quote : string :=
  String quote_char (String backslash (String quote_char quoteS)).

(** [shellEscape]: [strings.ReplaceAll(s, single quote, escaped quote)]. *)
Fixpoint shellEscape (s : string) : string :=
  match s with
  | EmptyString => EmptyString
  | String c s' =>
      if Ascii.eqb c quote_char then escaped_quote +:+ shellEscape s' else String c (shellEscape s')
  end.

(** [shellSafe]: the class [[A-Za-z0-9_@%+=:,./-]], at least once. *)
Definition safe_char (c : ascii) : bool :=
  is_lower c || is_upper c || is_digit c || Ascii.eqb c "_" || Ascii.eqb c "@" || Ascii.eqb c "%" ||
  Ascii.eqb c "+" || Ascii.eqb c "=" || Ascii.eqb c ":" || Ascii.eqb c "," || Ascii.eqb c "." ||
  Ascii.eqb c "/" || Ascii.eqb c "-".

Definition shellSafe (s : string) : bool := negb (is_empty s) && str_forallb safe_char s.

Definition Quote (s : string) : string :=
  if shellSafe s then s else quoteS +:+ shellEscape s +:+ quoteS.

(** The line [ExecInContainer] sends. *)
Definition pct_exec (vmid : Z) (command : string) : string :=
  "pct exec " +:+ itoa vmid +:+ " -- bash -c " +:+ quoteS +:+ shellEscape command +:+ quoteS.

(** [u.Hostname()]: the host without a port and without brackets. *)
Definition validOptionalPort (s : string) : bool := str_forallb is_digit s.

Definition strip_brackets (s : string) : string :=
  match s, str_last s with
  | String c s', Some l =>
      if Ascii.eqb c "[" && Ascii.eqb l "]" then String.substring 0 (String.length s' - 1) s' else s
  | _, _ => s
  end.

Definition Hostname (u : URL) : string :=
  match cut_last ":" (u_Host u) with
  | Some (h, port) => strip_brackets (if validOptionalPort port then h else u_Host u)
  | None => strip_brackets (u_Host u)
  end.

(** [net.JoinHostPort]: a host with colons goes in brackets. *)
Definition JoinHostPort (host port : string) : string :=
  if contains ":" host then "[" +:+ host +:+ "]:" +:+ port else host +:+ ":" +:+ port.

(** [sshexec.Client]; its signer is the library's. *)
Record Client := mkSSHClient { sc_user : string; sc_port : string }.

Definition defaultSSHUser : string := "root".
Definition defaultSSHPort : string := "22".

(** Reading the key file and parsing it are the system's and the library's. *)
Definition NewClient (ReadFile : string -> res string) (ParsePrivateKey : string -> option error)
    (keyPath : string) : res Client :=
  match ReadFile keyPath with
  | Fail e => Fail (EWrap "read ssh key" e)
  | Ok keyBytes =>
      match ParsePrivateKey keyBytes with
      | Some e => Fail (EWrap ("parse ssh key " +:+ keyPath) e)
      | None => Ok (mkSSHClient defaultSSHUser defaultSSHPort)
      end
  end.

Definition WithUser (user : string) (c : Client) : Client :=
  if is_empty user then c else mkSSHClient user (sc_port c).

Definition WithPort (port : string) (c : Client) : Client :=
  if is_empty port then c else mkSSHClient (sc_user c) port.

Definition dialAddr (c : Client) (host : string) : string := JoinHostPort host (sc_port c).

Section Client.
Context `{Env}.

(** [execCommand]: dial, authenticate, run; one remote call. *)
Definition execCommand (sshHost fullCommand : string) : P (option error) := ext (EvSSH sshHost fullCommand).

Definition ExecInContainer (sshHost : string) (vmid : Z) (command : string) : P (option error) :=
  if_err e := execCommand sshHost (pct_exec vmid command) then Ret (Some (EWrap "pct exec" e)) else
  Ret None.

Definition ExecOnHost (sshHost command : string) : P (option error) := execCommand sshHost command.

Definition ExtractHost (rawURL : string) : res string :=
  let rawURL := if contains "://" rawURL then rawURL else "https://" +:+ rawURL in
  match env_url_parse rawURL with
  | None => Fail (EWrap "parse url" (errorString "invalid url"))
  | Some u =>
      let host := Hostname u in
      if is_empty host then Fail (errorString "empty host in url") else Ok host
  end.

End Client.

(** ** The shell's side *)

(** Reader states: between words, in a word (its characters so far, reversed by
    [finish]), in a quotation. *)
Definition finish (acc : list ascii) : string := String.string_of_list_ascii (rev acc).

Fixpoint lex (s : string) (word : option (list ascii)) (quoted : bool) : option (list string) :=
  let acc := match word with Some a => a | None => [] end in
  match s with
  | EmptyString =>
      if quoted then None
      else Some (match word with Some a => [finish a] | None => [] end)
  | String c s' =>
      if quoted then
        if Ascii.eqb c quote_char then lex s' (Some acc) false else lex s' (Some (c :: acc)) true
      else if Ascii.eqb c quote_char then lex s' (Some acc) true
      else if Ascii.eqb c backslash then
        match s' with
        | String d s'' => lex s'' (Some (d :: acc)) false
        | EmptyString => None
        end
      else if Ascii.eqb c " " then
        match word with
        | Some a => option_map (cons (finish a)) (lex s' None false)
        | None => lex s' None false
        end
      else if safe_char c then lex s' (Some (c :: acc)) false
      else None
  end.

(** The words of a line; [None] when it is unbalanced or uses anything the
    shell would act on. *)
Definition shell_words (line : string) : option (list string) := lex line None false.

(** ** Correctness *)

Lemma finish_app acc s :
  finish (rev (String.list_ascii_of_string s) ++ acc) = finish acc +:+ s.
Proof.
  unfold finish. rewrite rev_app_distr, rev_involutive.
  generalize (rev acc) as l. induction l as [|c l IH]; simpl.
  - apply String.string_of_list_ascii_of_string.
  - rewrite IH. reflexivity.
Qed.

(** Reading an escaped string inside a quotation adds the string itself. *)
Lemma lex_escape s rest acc :
  lex (shellEscape s +:+ rest) (Some acc) true =
  lex rest (Some (rev (String.list_ascii_of_string s) ++ acc)) true.
Proof.
  revert acc. induction s as [|c s IH]; intros acc; [done|].
  simpl String.list_ascii_of_string. simpl rev. rewrite <- app_assoc. simpl.
  destruct (Ascii.eqb_spec c quote_char) as [->|Hne].
  - unfold escaped_quote, quoteS. rewrite !app_cons. simpl. apply IH.
  - rewrite app_cons. simpl. destruct (Ascii.eqb_spec c quote_char); [done|]. apply IH.
Qed.

Lemma lex_quoted s rest acc word :
  acc = (match word with Some a => a | None => [] end) ->
  lex (quoteS +:+ shellEscape s +:+ quoteS +:+ rest) word false =
  lex rest (Some (rev (String.list_ascii_of_string s) ++ acc)) false.
Proof.
  intros ->. unfold quoteS. rewrite app_cons. simpl.
  change (EmptyString +:+ shellEscape s +:+ String quote_char EmptyString +:+ rest)
    with (shellEscape s +:+ String quote_char EmptyString +:+ rest).
  rewrite lex_escape, app_cons. done.
Qed.

Lemma safe_char_plain c :
  safe_char c = true ->
  Ascii.eqb c quote_char = false /\ Ascii.eqb c backslash = false /\ Ascii.eqb c " " = false.
Proof. destruct c as [[] [] [] [] [] [] [] []]; vm_compute; auto. Qed.

Lemma lex_safe s rest acc word :
  acc = (match word with Some a => a | None => [] end) ->
  str_forallb safe_char s = true -> s <> EmptyString ->
  lex (s +:+ rest) word false = lex rest (Some (rev (String.list_ascii_of_string s) ++ acc)) false.
Proof.
  intros ->. revert word. induction s as [|c s IH]; intros word Hs Hne; [done|].
  rewrite app_cons. simpl in *. apply andb_prop in Hs as [Hc Hs].
  destruct (safe_char_plain c Hc) as (E1 & E2 & E3).
  rewrite E1, E2, E3, Hc. rewrite <- app_assoc. simpl.
  destruct s as [|d s]; [done|]. by rewrite IH.
Qed.

(** A quoted value is read as the value, appended to the word it stands in. *)
Lemma lex_Quote s rest acc word :
  acc = (match word with Some a => a | None => [] end) ->
  lex (Quote s +:+ rest) word false =
  lex rest (Some (rev (String.list_ascii_of_string s) ++ acc)) false.
Proof.
  intros Hacc. unfold Quote. destruct (shellSafe s) eqn:Hs.
  - apply andb_prop in Hs as [He Hs]. apply lex_safe; [done|done|]. by intros ->.
  - rewrite !string_app_assoc. by apply lex_quoted.
Qed.



(** A value passed through [Quote] cannot change the shape of a command:
    for every string, also the empty one and ones holding quotes, blanks,
    semicolons or newlines, the shell reads the result as exactly one word,
    and that word is the value. *)
Theorem Quote_one_word (s : string) : shell_words (Quote s) = Some [s].
Proof.
  unfold shell_words. rewrite <- (app_nil_str (Quote s)).
  rewrite (lex_Quote s EmptyString [] None) by done. simpl.
  f_equal. f_equal. rewrite finish_app. reflexivity.
Qed.

(** The digits and the sign [%d] writes carry no shell meaning. *)
Lemma pretty_N_char_safe x : safe_char (pretty_N_char x) = true.
Proof. unfold pretty_N_char. by repeat case_match. Qed.

Lemma pretty_N_go_safe x s :
  str_forallb safe_char s = true ->
  str_forallb safe_char (pretty_N_go x s) = true /\ (s <> EmptyString -> pretty_N_go x s <> EmptyString).
Proof.
  revert s. induction (N.lt_wf_0 x) as [x _ IH]; intros s Hs.
  destruct (decide (x = 0)%N) as [->|Hx]; [by rewrite pretty_N_go_0|].
  rewrite pretty_N_go_step by lia.
  destruct (IH (x `div` 10)%N ltac:(apply N.div_lt; lia) (String (pretty_N_char (x `mod` 10)) s)) as [H1 H2].
  - simpl. by rewrite pretty_N_char_safe.
  - split; [done|]. intros _. by apply H2.
Qed.

Lemma pretty_N_safe (n : N) : str_forallb safe_char (pretty n) = true /\ pretty n <> EmptyString.
Proof.
  unfold pretty, pretty_N. destruct (decide (n = 0)%N) as [|Hn]; [done|].
  rewrite pretty_N_go_step by lia.
  destruct (pretty_N_go_safe (n `div` 10) (String (pretty_N_char (n `mod` 10)) EmptyString)) as [H1 H2].
  - simpl. by rewrite pretty_N_char_safe.
  - split; [done|]. by apply H2.
Qed.

Lemma itoa_safe z : str_forallb safe_char (itoa z) = true /\ itoa z <> EmptyString.
Proof.
  unfold itoa. destruct z as [|n|n]; [done| |].
  - apply (pretty_N_safe (N.pos n)).
  - destruct (pretty_N_safe (N.pos n)) as [H1 H2].
    change (pretty (Z.neg n)) with ("-" +:+ pretty (N.pos n)). rewrite app_cons. simpl.
    split; [apply H1|done].
Qed.

Lemma lex_space rest a :
  lex (String " " rest) (Some a) false = option_map (cons (finish a)) (lex rest None false).
Proof. reflexivity. Qed.

(** C14. A command run in a container arrives unchanged: for every container and
    every command, the line [ExecInContainer] sends is read by the host's shell
    as [pct exec <vmid> -- bash -c <command>], with the whole command as the one
    last word. Nothing in the command is interpreted on the host. *)
Theorem pct_exec_words (vmid : Z) (command : string) :
  shell_words (pct_exec vmid command) =
  Some ["pct"; "exec"; itoa vmid; "--"; "bash"; "-c"; command].
Proof.
  unfold shell_words, pct_exec. destruct (itoa_safe vmid) as [Hs Hne].
  rewrite <- (app_nil_str (quoteS +:+ shellEscape command +:+ quoteS)), !string_app_assoc.
  change ("pct exec " +:+ ?x) with (String "p" (String "c" (String "t" (String " "
    (String "e" (String "x" (String "e" (String "c" (String " " x))))))))). simpl.
  rewrite lex_safe with (acc := []) by done.
  change (" -- bash -c " +:+ ?x) with (String " " ("-- bash -c " +:+ x)).
  rewrite lex_space. change ("-- bash -c " +:+ ?x) with (String "-" (String "-" (String " "
    (String "b" (String "a" (String "s" (String "h" (String " " (String "-" (String "c" (String " " x))))))))))).
  simpl. change (EmptyString +:+ ?x) with x. rewrite lex_escape. simpl.
  rewrite !finish_app. reflexivity.
Qed.
