(* ===== verification/SSHClient.v ===== *)
(** * internal/sshexec/client.go: a command over SSH

    [execCommand] with the network, the host and golang.org/x/crypto/ssh as the
    class [SSHServer]: each call is answered at some time or never. Only the
    dial is given the context. What the call reports is what the host did and
    no connection outlives it; it returns soon after its deadline when the host
    answers, and not at all when the host is silent after the dial. *)

From stdpp Require Import strings list.
From Stdlib Require Import ZArith Lia.
From S2P Require Import Prelude GoStrings GoContext SSHExec.

Open Scope Z_scope.

(** [ssh.ClientConfig]; a host key is checked by a function of the host's name
    and the key. *)
Record ClientConfig (Signer Key : Type) := mkClientConfig {
  cc_User : string; cc_Auth : list Signer; cc_HostKeyCallback : string -> Key -> option error }.
Arguments mkClientConfig {Signer Key}.

Definition InsecureIgnoreHostKey {Key} : string -> Key -> option error := fun _ _ => None.

(** Times are milliseconds; an answer that is [None] never comes.
    [ssh_run conn cmd now s] is when [session.Run] returns if left alone;
    [ssh_abort conn now s] when it does after a SIGKILL and the close of the
    session at [now]. [ssh_pick] is [select]'s choice between two ready cases:
    the context's if true. *)
Class SSHServer := {
  ssh_state : Type;
  ssh_conn : Type;
  ssh_Signer : Type;
  ssh_PublicKey : Type;
  ssh_dial : Context -> string -> Z -> ssh_state -> res ssh_conn * Z * ssh_state;
  ssh_NewClientConn : ssh_conn -> string -> ClientConfig ssh_Signer ssh_PublicKey -> Z -> ssh_state ->
    option (option error * Z * ssh_state);
  ssh_NewSession : ssh_conn -> Z -> ssh_state -> option (option error * Z * ssh_state);
  ssh_run : ssh_conn -> string -> Z -> ssh_state -> option (option error * Z) * ssh_state;
  ssh_abort : ssh_conn -> Z -> ssh_state -> option Z * ssh_state;
  ssh_pick : Z -> ssh_state -> bool }.

(** The clock, the connections this process holds open, and the rest. *)
Record Net `{SSHServer} := mkNet { nt_now : Z; nt_open : list ssh_conn; nt_state : ssh_state }.

(** How a call ends; [Blocked] is a call that does not. *)
Inductive exec_result :=
| Returned (e : option error)
| Blocked.

Section Exec.
Context `{SSHServer} (c : Client) (signer : ssh_Signer).

Definition config : ClientConfig ssh_Signer ssh_PublicKey :=
  mkClientConfig (sc_user c) [signer] InsecureIgnoreHostKey.

(** A call the library answers, or not. *)
Definition answered (f : Z -> ssh_state -> option (option error * Z * ssh_state)) :
    Prog Net (option (option error)) :=
  atom (fun s =>
    match f (nt_now s) (nt_state s) with
    | Some (e, t, st) => (Some e, mkNet _ t (nt_open s) st)
    | None => (None, s)
    end).

Definition DialContext (ctx : Context) (addr : string) : Prog Net (res ssh_conn) :=
  atom (fun s =>
    match ssh_dial ctx addr (nt_now s) (nt_state s) with
    | (Ok conn, t, st) => (Ok conn, mkNet _ t (conn :: nt_open s) st)
    | (Fail e, t, st) => (Fail e, mkNet _ t (nt_open s) st)
    end).

(** [conn.Close()], or the [client.Close()] that owns it; the connection is the
    last one opened by this call. *)
Definition Close : Prog Net unit :=
  atom (fun s => (tt, mkNet _ (nt_now s) (tail (nt_open s)) (nt_state s))).

(** The goroutine that runs the command, and the select on its result and the
    context. When the context comes first the session is killed and closed, and
    the goroutine waited for. *)
Definition run_select (ctx : Context) (conn : ssh_conn) (fullCommand : string) : Prog Net (option (option error)) :=
  atom (fun s =>
    let now := nt_now s in
    let '(done, st) := ssh_run conn fullCommand now (nt_state s) in
    let finished e t := (Some e, mkNet _ (Z.max now t) (nt_open s) st) in
    let cancelled t :=
      match ssh_abort conn t st with
      | (Some t', st) => (Some (Some (ctx_Err ctx)), mkNet _ (Z.max t t') (nt_open s) st)
      | (None, st) => (None, mkNet _ t (nt_open s) st)
      end in
    match ctx_Done ctx, done with
    | None, Some (e, t) => finished e t
    | None, None => (None, mkNet _ now (nt_open s) st)
    | Some T, None => cancelled (Z.max now T)
    | Some T, Some (e, t) =>
        let T := Z.max now T in
        if (t <? T) || ((t =? T) && negb (ssh_pick now st)) then finished e t else cancelled T
    end).

Definition execCommand (ctx : Context) (sshHost fullCommand : string) : Prog Net exec_result :=
  let addr := dialAddr c sshHost in
  let? conn := DialContext ctx addr catch e => Ret (Returned (Some (EWrap "ssh dial" e))) in
  let! err := answered (ssh_NewClientConn conn addr config) in
  match err with
  | None => Ret Blocked
  | Some (Some e) => Close ;;; Ret (Returned (Some (EWrap "ssh handshake" e)))
  | Some None =>
      let! err := answered (ssh_NewSession conn) in
      match err with
      | None => Ret Blocked
      | Some (Some e) => Close ;;; Ret (Returned (Some (EWrap "ssh session" e)))
      | Some None =>
          let! r := run_select ctx conn fullCommand in
          match r with
          | None => Ret Blocked
          | Some e => Close ;;; Ret (Returned e)
          end
      end
  end.

Definition ExecInContainer (ctx : Context) (sshHost : string) (vmid : Z) (command : string) : Prog Net exec_result :=
  let! r := execCommand ctx sshHost (pct_exec vmid command) in
  match r with
  | Returned (Some e) => Ret (Returned (Some (EWrap "pct exec" e)))
  | r => Ret r
  end.

Definition ExecOnHost (ctx : Context) (sshHost command : string) : Prog Net exec_result :=
  execCommand ctx sshHost command.

End Exec.

(** ** What a call promises *)

Section Outcomes.
Context `{HS : SSHServer} (c : Client) (signer : ssh_Signer).

(** The session on [conn] is open from the state [s]: the host answered the
    dial, the handshake with this client's key, and the session. *)
Definition session_open (ctx : Context) (sshHost : string) (s : Net) (conn : ssh_conn) (now : Z) (st : ssh_state) : Prop :=
  exists t1 st1 t2 st2,
    ssh_dial ctx (dialAddr c sshHost) (nt_now s) (nt_state s) = (Ok conn, t1, st1) /\
    ssh_NewClientConn conn (dialAddr c sshHost) (config c signer) t1 st1 = Some (None, t2, st2) /\
    ssh_NewSession conn t2 st2 = Some (None, now, st).

Definition stages : list string := ["ssh dial"; "ssh handshake"; "ssh session"].

(** The error [e] of a call made in [s] that ended in [s']: a stage failed and
    no session was opened, so the command was not sent; or it was run and [e] is
    what the host reported, or the context's error. *)
Definition reports (ctx : Context) (sshHost cmd : string) (s s' : Net) (e : option error) : Prop :=
  (exists stage e0, stage ∈ stages /\ e = Some (EWrap stage e0) /\
     forall conn now st, ~ session_open ctx sshHost s conn now st) \/
  (exists conn now st, session_open ctx sshHost s conn now st /\
     ((exists t, (ssh_run conn cmd now st).1 = Some (e, t)) \/
      (e = Some (ctx_Err ctx) /\ exists T, ctx_Done ctx = Some T /\ T <= nt_now s'))).

(** The state in which the command is started, when it is. *)
Definition connected (ctx : Context) (sshHost : string) (s s1 : Net) (conn : ssh_conn) : Prop :=
  nt_open s1 = conn :: nt_open s /\ session_open ctx sshHost s conn (nt_now s1) (nt_state s1).

(** The stages before the command. *)
Lemma wp_connect ctx sshHost (k : ssh_conn -> Prog Net exec_result) (Q : exec_result -> Net -> Prop) s :
  let addr := dialAddr c sshHost in
  let prog :=
    let? conn := DialContext ctx addr catch e => Ret (Returned (Some (EWrap "ssh dial" e))) in
    let! err := answered (ssh_NewClientConn conn addr (config c signer)) in
    match err with
    | None => Ret Blocked
    | Some (Some e) => Close ;;; Ret (Returned (Some (EWrap "ssh handshake" e)))
    | Some None =>
        let! err := answered (ssh_NewSession conn) in
        match err with
        | None => Ret Blocked
        | Some (Some e) => Close ;;; Ret (Returned (Some (EWrap "ssh session" e)))
        | Some None => k conn
        end
    end in
  (forall stage e s', stage ∈ stages -> nt_open s' = nt_open s ->
     (forall conn now st, ~ session_open ctx sshHost s conn now st) ->
     Q (Returned (Some (EWrap stage e))) s') ->
  (forall conn s', nt_open s' = conn :: nt_open s -> Q Blocked s') ->
  (forall conn s1, connected ctx sshHost s s1 conn -> wp (k conn) Q s1) ->
  wp prog Q s.
Proof.
  cbv zeta. intros Hfail Hblock Hk. apply wp_bind. unfold DialContext. apply wp_atom.
  destruct (ssh_dial _ _ _ _) as [[[conn|e] t1] st1] eqn:E1; cbn [fst snd].
  2: { apply wp_ret, Hfail; [left|done|]. intros ? ? ? (?&?&?&?&?&_). congruence. }
  apply wp_bind. unfold answered. apply wp_atom. cbn [nt_now nt_state nt_open].
  destruct (ssh_NewClientConn _ _ _ _ _) as [[[[e|] t2] st2]|] eqn:E2; cbn [fst snd].
  - apply wp_bind. unfold Close. apply wp_atom. cbn. apply wp_ret, Hfail; [right; left|done|].
    intros ? ? ? (?&?&?&?&F1&F2&_). rewrite E1 in F1. by simplify_eq.
  - apply wp_bind, wp_atom. cbn [nt_now nt_state nt_open].
    destruct (ssh_NewSession _ _ _) as [[[[e|] t3] st3]|] eqn:E3; cbn [fst snd].
    + apply wp_bind. unfold Close. apply wp_atom. cbn. apply wp_ret, Hfail; [right; right; left|done|].
      intros ? ? ? (?&?&?&?&F1&F2&F3). rewrite E1 in F1. by simplify_eq.
    + apply Hk. split; [done|]. by exists t1, st1, t2, st2.
    + apply wp_ret. by eapply Hblock.
  - apply wp_ret. by eapply Hblock.
Qed.

Lemma wp_run_select ctx conn cmd s :
  wp (run_select ctx conn cmd) (fun r s' => nt_open s' = nt_open s /\
    match r with
    | Some e => (exists t, (ssh_run conn cmd (nt_now s) (nt_state s)).1 = Some (e, t)) \/
        (e = Some (ctx_Err ctx) /\ exists T, ctx_Done ctx = Some T /\ T <= nt_now s')
    | None => True
    end) s.
Proof.
  unfold run_select. apply wp_atom. destruct (ssh_run _ _ _ _) as [done st] eqn:Er. cbn [fst].
  destruct (ctx_Done ctx) as [T|], done as [[e t]|]; cbn [fst snd nt_open]; eauto 10.
  1: destruct (_ || _); [cbn [fst snd nt_open]; by eauto|].
  all: destruct (ssh_abort _ _ _) as [[t'|] st']; cbn [fst snd nt_open nt_now]; (split; [done|]); [|done];
    right; (split; [done|]); exists T; (split; [done|lia]).
Qed.

(** C15. What a command over SSH reports is what happened, whatever the network
    and the host do. A call that returns leaves no connection open. It reports
    success only when the host was dialled, accepted this client's key, opened a
    session and reported that the command ended with success; an error named
    after a stage means that no session was opened and the command was not sent;
    any other error is the command's own or, past its deadline, the context's.
    A call that never returns holds its one connection open. *)
Theorem execCommand_outcome (ctx : Context) (sshHost cmd : string) (s : Net) :
  wp (execCommand c signer ctx sshHost cmd) (fun r s' =>
    match r with
    | Returned e => nt_open s' = nt_open s /\ reports ctx sshHost cmd s s' e
    | Blocked => exists conn, nt_open s' = conn :: nt_open s
    end) s.
Proof.
  apply wp_connect.
  - intros stage e s' Hin Ho Hno. split; [done|]. left. by exists stage, e.
  - intros conn s' Ho. by exists conn.
  - intros conn s1 [Ho Hopen]. apply wp_bind. eapply wp_mono; [apply wp_run_select|].
    intros [e|] s2 [Ho2 Hr]; [|apply wp_ret; exists conn; by rewrite Ho2].
    apply wp_bind. unfold Close. apply wp_atom. apply wp_ret. cbn [fst snd nt_open nt_now].
    rewrite Ho2, Ho. split; [done|]. right. exists conn, (nt_now s1), (nt_state s1). by split.
Qed.

(** ** Time *)

(** What package net documents of [DialContext]. *)
Class DialLaws := {
  dial_monotone : forall ctx addr now st, now <= (ssh_dial ctx addr now st).1.2;
  dial_deadline : forall ctx addr now st t,
    ctx_Done ctx = Some t -> (ssh_dial ctx addr now st).1.2 <= Z.max now t }.

(** A host that answers the protocol's messages within [d]. *)
Class Responsive (d : Z) := {
  responsive_nonneg : 0 <= d;
  handshake_answers : forall conn addr cfg now st, exists e t st',
    ssh_NewClientConn conn addr cfg now st = Some (e, t, st') /\ now <= t <= now + d;
  session_answers : forall conn now st, exists e t st', ssh_NewSession conn now st = Some (e, t, st') /\ now <= t <= now + d;
  abort_answers : forall conn now st, exists t st', ssh_abort conn now st = (Some t, st') /\ t <= now + d }.

Lemma wp_answered d (f : Z -> ssh_state -> option (option error * Z * ssh_state)) s :
  (exists e t st', f (nt_now s) (nt_state s) = Some (e, t, st') /\ nt_now s <= t <= nt_now s + d) ->
  wp (answered f) (fun r s' => (exists e, r = Some e) /\ nt_open s' = nt_open s /\
    nt_now s <= nt_now s' <= nt_now s + d) s.
Proof. intros (e & t & st' & E & Ht). unfold answered. apply wp_atom. rewrite E. by eauto. Qed.

Lemma wp_Close_ret {A} (a : A) s :
  wp (Close ;;; Ret a) (fun r s' => r = a /\ nt_open s' = tail (nt_open s) /\ nt_now s' = nt_now s) s.
Proof. apply wp_bind. unfold Close. apply wp_atom. by apply wp_ret. Qed.

Lemma wp_run_select_deadline d ctx D conn cmd s :
  Responsive d -> ctx_Done ctx = Some D ->
  wp (run_select ctx conn cmd) (fun r s' => (exists e, r = Some e) /\ nt_open s' = nt_open s /\
    nt_now s' <= Z.max (nt_now s) D + d) s.
Proof.
  intros Hd HD. pose proof responsive_nonneg. unfold run_select. apply wp_atom. rewrite HD.
  destruct (ssh_run _ _ _ _) as [[[e t]|] st].
  1: destruct ((_ <? _) || _) eqn:Ec; [cbn; split_and!; [by eauto|done|]|].
  { apply orb_true_iff in Ec as [Ec%Z.ltb_lt|[Ec%Z.eqb_eq _]%andb_prop]; lia. }
  all: destruct (abort_answers conn (Z.max (nt_now s) D) st) as (t' & st' & -> & Ht); cbn; (split_and!; [by eauto|done|lia]).
Qed.

(** C16. With a host that answers, a command over SSH ends by its deadline: the
    dial by the deadline itself, and the handshake, the opening of the session
    and, when the command still runs then, its interruption each within the time
    [d] in which the host answers, however long the command would run. That is
    three answers after the deadline at most, and whatever it returns, the
    connection it opened is closed. *)
Theorem execCommand_returns (d D : Z) (ctx : Context) (sshHost cmd : string) (s : Net)
  (HL : DialLaws) (HR : Responsive d) (HD : ctx_Done ctx = Some D) :
  wp (execCommand c signer ctx sshHost cmd) (fun r s' =>
    (exists e, r = Returned e) /\ nt_open s' = nt_open s /\ nt_now s' <= Z.max (nt_now s) D + 3 * d) s.
Proof.
  pose proof responsive_nonneg as Hd. unfold execCommand. apply wp_bind. unfold DialContext at 1. apply wp_atom.
  pose proof (dial_monotone ctx (dialAddr c sshHost) (nt_now s) (nt_state s)) as H1.
  pose proof (dial_deadline ctx (dialAddr c sshHost) (nt_now s) (nt_state s) D HD) as H2.
  destruct (ssh_dial _ _ _ _) as [[[conn|e] t1] st1]; cbn [fst snd] in *;
    [|apply wp_ret; cbn; split_and!; [by eauto|done|lia]].
  assert (forall e s1, nt_open s1 = conn :: nt_open s -> nt_now s1 <= Z.max (nt_now s) D + 3 * d ->
    wp (Close ;;; Ret (Returned e)) (fun r s' => (exists e, r = Returned e) /\ nt_open s' = nt_open s /\
      nt_now s' <= Z.max (nt_now s) D + 3 * d) s1) as Hend.
  { intros e s1 Ho Hn. eapply wp_mono; [apply wp_Close_ret|]. intros ? s2 (-> & -> & ->). rewrite Ho. by eauto. }
  apply wp_bind. eapply wp_mono; [apply (wp_answered d), handshake_answers|]. cbn [nt_now nt_open].
  intros r s2 ([[e|] ->] & Ho2 & Ht2); [apply Hend; [done|lia]|].
  apply wp_bind. eapply wp_mono; [apply (wp_answered d), session_answers|].
  intros r s3 ([[e|] ->] & Ho3 & Ht3); [apply Hend; [congruence|lia]|].
  apply wp_bind. eapply wp_mono; [by apply (wp_run_select_deadline d ctx D)|].
  intros r s4 ([e ->] & Ho4 & Ht4). apply Hend; [congruence|lia].
Qed.

(** A host that accepts the connection and says nothing holds the call for ever,
    whatever the deadline. *)
Lemma silent_host_blocks ctx sshHost cmd s conn t st :
  ssh_dial ctx (dialAddr c sshHost) (nt_now s) (nt_state s) = (Ok conn, t, st) ->
  ssh_NewClientConn conn (dialAddr c sshHost) (config c signer) t st = None ->
  run (execCommand c signer ctx sshHost cmd) s = (Blocked, mkNet _ t (conn :: nt_open s) st).
Proof.
  intros E1 E2. unfold execCommand. rewrite run_bind. unfold DialContext. rewrite run_atom, E1.
  rewrite run_bind. unfold answered. rewrite run_atom. cbn [nt_now nt_state nt_open]. by rewrite E2.
Qed.

End Outcomes.

(** ** Example *)

(** A host that needs ten milliseconds for a connection, twenty for a handshake
    and a hundred for a command, except a sleep, which it never ends. *)
#[local] Instance demo_ssh : SSHServer := {|
  ssh_state := unit; ssh_conn := string; ssh_Signer := string; ssh_PublicKey := string;
  ssh_dial := fun ctx addr now st =>
    match ctx_Done ctx with
    | Some D => if D <=? now + 10 then (Fail (ctx_Err ctx), Z.max now D, st) else (Ok addr, now + 10, st)
    | None => (Ok addr, now + 10, st)
    end;
  ssh_NewClientConn := fun _ _ _ now st => Some (None, now + 20, st);
  ssh_NewSession := fun _ now st => Some (None, now, st);
  ssh_run := fun _ cmd now st => (if String.eqb cmd "sleep infinity" then None else Some (None, now + 100), st);
  ssh_abort := fun _ now st => (Some (now + 1), st);
  ssh_pick := fun _ _ => true |}.

Definition demo_client : Client := mkSSHClient defaultSSHUser defaultSSHPort.
Definition demo_deadline : Context := mkContext (Some 1000) DeadlineExceeded.
Definition demo_net : Net := @mkNet demo_ssh 0 [] tt.

Lemma execCommand_returns_witness :
  run (@execCommand demo_ssh demo_client "key" demo_deadline "10.10.0.2" "sleep infinity") demo_net =
    (Returned (Some DeadlineExceeded), @mkNet demo_ssh 1001 [] tt) /\
  run (@execCommand demo_ssh demo_client "key" demo_deadline "10.10.0.2" "true") demo_net =
    (Returned None, @mkNet demo_ssh 130 [] tt) /\
  wp (@execCommand demo_ssh demo_client "key" demo_deadline "10.10.0.2" "sleep infinity") (fun r s' =>
    (exists e, r = Returned e) /\ nt_open s' = [] /\ nt_now s' <= Z.max 0 1000 + 3 * 20) demo_net.
Proof.
  split; [vm_compute; reflexivity|]. split; [vm_compute; reflexivity|].
  apply (@execCommand_returns demo_ssh demo_client "key" 20 1000 demo_deadline "10.10.0.2" "sleep infinity" demo_net).
  - split.
    + intros ctx addr now st. simpl. destruct (ctx_Done ctx) as [D|]; [|simpl; lia].
      destruct (Z.leb_spec D (now + 10)); simpl; lia.
    + intros ctx addr now st t Ht. simpl. rewrite Ht. destruct (Z.leb_spec t (now + 10)); simpl; lia.
  - split; [lia|..]; intros; repeat eexists; lia.
  - reflexivity.
Defined.
