(* ===== verification/ProxmoxErrors.v ===== *)
(** * internal/proxmox/errors.go and the error types of types.go

    How the deprovisioning path recognises a container that is already gone. *)

From stdpp Require Import gmap strings list.
From Stdlib Require Import ZArith Lia Ascii.
From S2P Require Import Prelude GoStrings World.
From S2P Require SSHExec.

(** [(e *APIError) Error()], the map's entries in the order it is ranged over. *)
Definition APIError_Error (status : string) (errors : list (string * string)) : string :=
  match errors with
  | [] => "proxmox api " +:+ status
  | _ => "proxmox api " +:+ status +:+ ": " +:+ join "; " (map (fun kv => kv.1 +:+ ": " +:+ kv.2) errors)
  end.

(** [(e *TaskError) Error()]. *)
Definition TaskError_Error (upid exitStatus typ : string) : string :=
  "proxmox task " +:+ upid +:+ " failed: " +:+ exitStatus +:+ " (type: " +:+ typ +:+ ")".

(** [err.Error()]: the texts of the chain, separated by colons. *)
Fixpoint Error_string (e : error) : string :=
  match e with
  | EWrap msg e' => msg +:+ ": " +:+ Error_string e'
  | EBase (Sentinel n) => n
  | EBase (PgError code) => "SQLSTATE " +:+ code
  | EBase (APIError status errors) => APIError_Error status errors
  | EBase (TaskError upid exitStatus typ) => TaskError_Error upid exitStatus typ
  | EBase (OtherErr msg) => msg
  end.

Definition containsNotFoundPattern (msg : string) : bool :=
  let msg := to_lower msg in
  contains "does not exist" msg || contains "no such container" msg.

Definition IsContainerNotFound (err : option error) : bool :=
  match err with
  | None => false
  | Some e =>
      match error_cause e with
      | APIError status errors => containsNotFoundPattern (APIError_Error status errors)
      | TaskError upid exitStatus typ => containsNotFoundPattern (TaskError_Error upid exitStatus typ)
      | _ => containsNotFoundPattern (Error_string e)
      end
  end.

(** ** Properties *)

Lemma has_prefix_app p s : has_prefix p (p +:+ s) = true.
Proof.
  induction p as [|c p IH]; [by destruct s|].
  change (String c p +:+ s) with (String c (p +:+ s)). simpl. by rewrite Ascii.eqb_refl.
Qed.

Lemma contains_app a sub b : contains sub (a +:+ sub +:+ b) = true.
Proof.
  induction a as [|c a IH].
  - change (EmptyString +:+ sub +:+ b) with (sub +:+ b). destruct (sub +:+ b) eqn:E.
    + destruct sub; [done|]. done.
    + simpl. rewrite <- E, has_prefix_app. done.
  - change (String c a +:+ sub +:+ b) with (String c (a +:+ sub +:+ b)). simpl. rewrite IH.
    by rewrite orb_true_r.
Qed.

Lemma to_lower_app a b : to_lower (a +:+ b) = to_lower a +:+ to_lower b.
Proof.
  induction a as [|c a IH]; [done|].
  change (String c a +:+ b) with (String c (a +:+ b)).
  change (String (to_lower_char c) (to_lower (a +:+ b)) = String (to_lower_char c) (to_lower a +:+ to_lower b)).
  by rewrite IH.
Qed.

(** Proxmox's answers for a missing container are recognised whatever they
    are wrapped in: an API error whose status line says that CT n does not
    exist, and a failed task whose exit status says so, in any letter case of
    the surrounding text and under any chain of wrapping errors. *)
Theorem NotFound_recognised (e : error) (pre post : string) :
  (error_cause e = APIError (pre +:+ "does not exist" +:+ post) [] -> IsContainerNotFound (Some e) = true) /\
  (forall upid typ, error_cause e = TaskError upid (pre +:+ "does not exist" +:+ post) typ ->
     IsContainerNotFound (Some e) = true).
Proof.
  assert (forall a b, containsNotFoundPattern (a +:+ "does not exist" +:+ b) = true) as Hpat.
  { intros a b. unfold containsNotFoundPattern. rewrite !to_lower_app.
    change (to_lower "does not exist") with "does not exist". by rewrite contains_app. }
  split.
  - intros Hc. unfold IsContainerNotFound. rewrite Hc. simpl.
    rewrite <- string_app_assoc. apply Hpat.
  - intros upid typ Hc. unfold IsContainerNotFound. rewrite Hc. unfold TaskError_Error.
    rewrite <- (string_app_assoc upid), <- (string_app_assoc "proxmox task ").
    rewrite !string_app_assoc.
    rewrite <- (string_app_assoc " failed: "), <- (string_app_assoc upid),
      <- (string_app_assoc "proxmox task "). apply Hpat.
Qed.

Lemma NotFound_recognised_witness :
  IsContainerNotFound (Some (EWrap "delete container"
    (EBase (APIError "500 CT 105 does not exist" [])))) = true.
Proof.
  apply (proj1 (NotFound_recognised
    (EWrap "delete container" (EBase (APIError "500 CT 105 does not exist" []))) "500 CT 105 " EmptyString)).
  reflexivity.
Defined.
