(* ===== verification/Tables.v ===== *)
(** * The SQL the stores share

    The statements of the stores are [SELECT ... WHERE ... ORDER BY created_at],
    single-row [UPDATE ... WHERE id = $1 AND ...], [INSERT ... RETURNING] and
    [DELETE] over the tables of the migrations, with the constraints those
    declare: primary keys, the partial unique indexes on tenants, foreign keys,
    the status CHECKs and the INTEGER width of the integer columns. *)

From stdpp Require Import gmap strings list fin_maps sorting.
From Stdlib Require Import ZArith Lia.
From S2P Require Import Prelude GoStrings World.

Open Scope Z_scope.

(** A statement the database refuses for the text of a UUID argument. *)
Definition bad_text `{Env} {A} : P (res A) :=
  stmt (fun w => (Fail (EBase (PgError invalid_text_representation)), w)).

(** ** Selecting *)

(** [ORDER BY key DESC]; rows with equal keys come in some fixed order. *)
Definition key_ge {T} (key : T -> Z) (a b : T) : Prop := key b <= key a.

#[export] Instance key_ge_dec {T} (key : T -> Z) : RelDecision (key_ge key).
Proof. intros a b. unfold key_ge. apply _. Defined.

Definition order_desc {T} (key : T -> Z) (l : list T) : list T := merge_sort (key_ge key) l.

Definition rows {T} (m : gmap string T) : list T := (map_to_list m).*2.

Definition select {T} (where_ : T -> bool) (m : gmap string T) : list T :=
  List.filter where_ (rows m).

Lemma rows_size {A} (m : gmap string A) : length (rows m) = size m.
Proof. unfold rows. rewrite length_map. by rewrite length_map_to_list. Qed.

Lemma elem_of_rows {T} (m : gmap string T) x : x ∈ rows m <-> exists k, m !! k = Some x.
Proof.
  unfold rows. rewrite list_elem_of_fmap. split.
  - intros ([k y] & -> & Hk). exists k. by apply elem_of_map_to_list in Hk.
  - intros [k Hk]. exists (k, x). split; [done|]. by apply elem_of_map_to_list.
Qed.

Lemma elem_of_select {T} (f : T -> bool) m x :
  x ∈ select f m <-> f x = true /\ exists k, m !! k = Some x.
Proof.
  unfold select. rewrite list_elem_of_In, filter_In, <- list_elem_of_In, elem_of_rows. tauto.
Qed.

Lemma elem_of_order_desc {T} (key : T -> Z) l x : x ∈ order_desc key l <-> x ∈ l.
Proof. unfold order_desc. by rewrite (merge_sort_Permutation (key_ge key) l). Qed.

Lemma length_order_desc {T} (key : T -> Z) l : length (order_desc key l) = length l.
Proof. unfold order_desc. by rewrite (merge_sort_Permutation (key_ge key) l). Qed.

Lemma rows_insert {T} (m : gmap string T) id x : m !! id = None -> rows (<[id := x]> m) ≡ₚ x :: rows m.
Proof. intros Hn. unfold rows. by rewrite map_to_list_insert. Qed.

(** A new row counts when it matches. *)
Lemma length_select_insert {T} (f : T -> bool) (m : gmap string T) id x :
  m !! id = None ->
  Z.of_nat (length (select f (<[id := x]> m))) = Z.of_nat (length (select f m)) + (if f x then 1 else 0).
Proof.
  intros Hn. unfold select.
  assert (forall l l' : list T, l ≡ₚ l' -> length (List.filter f l) = length (List.filter f l')) as Hperm.
  { induction 1; simpl; repeat (destruct (f _)); simpl; congruence. }
  rewrite (Hperm _ _ (rows_insert m id x Hn)). simpl. destruct (f x); simpl; lia.
Qed.

(** [ORDER BY key ASC LIMIT 1] and [ORDER BY key DESC LIMIT 1]. *)
Definition first_by {T} (better : T -> T -> bool) (l : list T) : option T :=
  fold_left (fun best x =>
    match best with
    | None => Some x
    | Some b => if better x b then Some x else best
    end) l None.

Lemma first_by_acc {T} (better : T -> T -> bool) (l : list T) acc :
  fold_left (fun best x =>
    match best with None => Some x | Some b => if better x b then Some x else best end) l (Some acc)
  ∈ Some <$> acc :: l.
Proof.
  revert acc. induction l as [|x l IH]; intros acc; simpl; [set_solver|].
  destruct (better x acc); [specialize (IH x)|specialize (IH acc)]; set_solver.
Qed.

Lemma first_by_elem {T} (better : T -> T -> bool) (l : list T) x :
  first_by better l = Some x -> x ∈ l.
Proof.
  unfold first_by. destruct l as [|y l]; simpl; [done|].
  intros E. pose proof (first_by_acc better l y) as Hin. rewrite E in Hin.
  apply list_elem_of_fmap in Hin as (z & [= ->] & Hz). done.
Qed.

Lemma first_by_some {T} (better : T -> T -> bool) (l : list T) :
  l <> [] -> exists x, first_by better l = Some x.
Proof.
  destruct l as [|y l]; [done|]. intros _. unfold first_by. simpl.
  pose proof (first_by_acc better l y) as Hin.
  apply list_elem_of_fmap in Hin as (z & -> & _). by exists z.
Qed.

(** With a strict weak order read off an integer key, the result is maximal. *)
Lemma first_by_max {T} (key : T -> Z) (l : list T) x y :
  first_by (fun a b => key b <? key a) l = Some x -> y ∈ l -> key y <= key x.
Proof.
  unfold first_by. assert (forall l (acc : option T) x,
    fold_left (fun best x => match best with None => Some x
      | Some b => if key b <? key x then Some x else best end) l acc = Some x ->
    (forall a, acc = Some a -> key a <= key x) /\ (forall y, y ∈ l -> key y <= key x)) as Hgen.
  { clear. induction l as [|z l IH]; intros acc x; simpl.
    - intros ->. split; [by intros a [= ->]|by intros y ?%elem_of_nil].
    - intros E. apply IH in E as [E1 E2]. destruct acc as [b|].
      + destruct (Z.ltb_spec (key b) (key z)).
        * specialize (E1 z eq_refl). split; [intros a [= <-]; lia|].
          intros y [->|Hy]%elem_of_cons; [done|auto].
        * specialize (E1 b eq_refl). split; [by intros a [= <-]|].
          intros y [->|Hy]%elem_of_cons; [lia|auto].
      + specialize (E1 z eq_refl). split; [done|].
        intros y [->|Hy]%elem_of_cons; [done|auto]. }
  intros E Hy. apply Hgen in E as [_ E]. auto.
Qed.

(** ** Tenants *)

(** The assignments the UPDATE statements on [tenants] use. *)
Inductive TenantSet :=
| SetName (v : string)
| SetStatus (v : TenantStatus)
| SetLXCID (v : Z)
| SetLXCIP (v : string)
| SetErrorMessage (v : option string)
| SetStripeSubscriptionID (v : string)
| SetStripeCustomerID (v : string)
| SetTier (v : string)
| SetDashboardToken (v : string)
| SetHealthStatus (v : string) (at_ : Z).

Definition apply_set (c : TenantSet) (t : Tenant) : Tenant :=
  let '(mkTenant id name proj node lxc ip sub st err own ssub scus tier tok hs hc cr up) := t in
  match c with
  | SetName v => mkTenant id v proj node lxc ip sub st err own ssub scus tier tok hs hc cr up
  | SetStatus v => mkTenant id name proj node lxc ip sub v err own ssub scus tier tok hs hc cr up
  | SetLXCID v => mkTenant id name proj node (Some v) ip sub st err own ssub scus tier tok hs hc cr up
  | SetLXCIP v => mkTenant id name proj node lxc (Some v) sub st err own ssub scus tier tok hs hc cr up
  | SetErrorMessage v => mkTenant id name proj node lxc ip sub st v own ssub scus tier tok hs hc cr up
  | SetStripeSubscriptionID v =>
      mkTenant id name proj node lxc ip sub st err own (Some v) scus tier tok hs hc cr up
  | SetStripeCustomerID v =>
      mkTenant id name proj node lxc ip sub st err own ssub (Some v) tier tok hs hc cr up
  | SetTier v => mkTenant id name proj node lxc ip sub st err own ssub scus v tok hs hc cr up
  | SetDashboardToken v =>
      mkTenant id name proj node lxc ip sub st err own ssub scus tier (Some v) hs hc cr up
  | SetHealthStatus v a =>
      mkTenant id name proj node lxc ip sub st err own ssub scus tier tok v (Some a) cr up
  end.

Definition set_updated (now : Z) (t : Tenant) : Tenant :=
  let '(mkTenant id name proj node lxc ip sub st err own ssub scus tier tok hs hc cr _) := t in
  mkTenant id name proj node lxc ip sub st err own ssub scus tier tok hs hc cr now.

(** [SET a, b, ...], then the trigger [trg_tenants_updated_at]. *)
Definition apply_sets (now : Z) (cs : list TenantSet) (t : Tenant) : Tenant :=
  set_updated now (fold_left (fun t c => apply_set c t) cs t).

Definition live (t : Tenant) : bool := negb (status_eqb (t_Status t) deleted).

(** [idx_tenants_name_active] and [idx_tenants_subdomain_active]. *)
Definition clashes (t o : Tenant) : bool :=
  negb (String.eqb (t_ID o) (t_ID t)) && live t && live o &&
  (String.eqb (t_Name o) (t_Name t) || String.eqb (t_Subdomain o) (t_Subdomain t)).

Definition index_conflict (m : gmap string Tenant) (t : Tenant) : bool :=
  existsb (clashes t) (rows m).

(** Foreign keys of [tenants] to [nodes] and [projects]. *)
Definition references_node (nodeID : string) (t : Tenant) : bool := String.eqb (t_NodeID t) nodeID.
Definition references_project (projectID : string) (t : Tenant) : bool :=
  String.eqb (t_ProjectID t) projectID.

Section TenantTable.
Context `{Env}.

(** [UPDATE tenants SET sets WHERE id = id AND where_ RETURNING *]: the row it
    wrote, or [None] when no row matched. *)
Definition update_tenant (id : string) (where_ : Tenant -> bool) (sets : list TenantSet)
    (w : World) : res (option Tenant) * World :=
  match w_tenants w !! id with
  | None => (Ok None, w)
  | Some t =>
      if where_ t then
        let t' := apply_sets (env_now (w_tick w)) sets t in
        if index_conflict (w_tenants w) t' then (Fail (EBase (PgError unique_violation)), w)
        else (Ok (Some t'), set_tenants (<[id := t']> (w_tenants w)) w)
      else (Ok None, w)
  end.

(** [INSERT INTO tenants (name, project_id, node_id, subdomain, owner_id) ... RETURNING *]. *)
Definition insert_tenant (name projectID nodeID subdomain : string) (ownerID : option string)
    (w : World) : res Tenant * World :=
  let now := env_now (w_tick w) in
  let id := env_uuid (w_tick w) in
  let t := mkTenant id name projectID nodeID None None subdomain provisioning None ownerID
             None None "free" None "unknown" None now now in
  if bool_decide (is_Some (w_tenants w !! id)) || index_conflict (w_tenants w) t then
    (Fail (EBase (PgError unique_violation)), w)
  else if negb (bool_decide (is_Some (w_projects w !! projectID)) &&
                bool_decide (is_Some (w_nodes w !! nodeID))) then
    (Fail (EBase (PgError fk_violation)), w)
  else (Ok t, set_tenants (<[id := t]> (w_tenants w)) w).

End TenantTable.

(** ** The tenants table's constraints as an invariant *)

(** Rows are stored under their primary key and no two live rows share a name
    or a subdomain. *)
Definition tenants_ok (m : gmap string Tenant) : Prop :=
  (forall id t, m !! id = Some t -> t_ID t = id) /\
  (forall id1 id2 t1 t2, m !! id1 = Some t1 -> m !! id2 = Some t2 -> id1 <> id2 ->
     live t1 = true -> live t2 = true ->
     t_Name t1 <> t_Name t2 /\ t_Subdomain t1 <> t_Subdomain t2).

Lemma clashes_spec t o :
  clashes t o = true <->
  t_ID o <> t_ID t /\ live t = true /\ live o = true /\
  (t_Name o = t_Name t \/ t_Subdomain o = t_Subdomain t).
Proof.
  unfold clashes. rewrite !andb_true_iff, negb_true_iff, orb_true_iff, String.eqb_neq, !String.eqb_eq.
  tauto.
Qed.

Lemma index_conflict_false m t :
  index_conflict m t = false <-> forall id o, m !! id = Some o -> clashes t o = false.
Proof.
  unfold index_conflict. split.
  - intros Hc id o Ho. apply not_true_iff_false. intros Hcl.
    apply not_true_iff_false in Hc. apply Hc, existsb_exists. exists o. split; [|done].
    apply list_elem_of_In, elem_of_rows. by exists id.
  - intros Hc. apply not_true_iff_false. intros (o & Ho & Hcl)%existsb_exists.
    apply list_elem_of_In, elem_of_rows in Ho as [id Ho]. by rewrite (Hc _ _ Ho) in Hcl.
Qed.

Lemma tenants_ok_insert m t :
  tenants_ok m -> index_conflict m t = false -> tenants_ok (<[t_ID t := t]> m).
Proof.
  intros [Hk Hu] Hc. rewrite index_conflict_false in Hc. split.
  - intros id o. rewrite lookup_insert. case_decide; [|apply Hk]. by intros [= <-].
  - assert (forall id o, m !! id = Some o -> id <> t_ID t -> live t = true -> live o = true ->
      t_Name o <> t_Name t /\ t_Subdomain o <> t_Subdomain t) as Hnew.
    { intros id o Ho Hne Ht Hlo. specialize (Hc _ _ Ho). pose proof (Hk _ _ Ho).
      split; intros E; assert (clashes t o = true) by (apply clashes_spec; subst; tauto); congruence. }
    intros id1 id2 t1 t2. rewrite !lookup_insert.
    repeat case_decide; intros; simplify_eq; try done.
    + destruct (Hnew id2 t2) as [? ?]; auto.
    + by apply (Hnew id1 t1).
    + by apply (Hu id1 id2).
Qed.

(** Re-writing a row without touching what the indexes read cannot conflict. *)
Lemma no_conflict_same_key m id t t' :
  tenants_ok m -> m !! id = Some t -> t_ID t' = t_ID t ->
  t_Name t' = t_Name t -> t_Subdomain t' = t_Subdomain t ->
  (live t' = true -> live t = true) ->
  index_conflict m t' = false.
Proof.
  intros [Hk Hu] Ht Hid Hn Hs Hl. apply index_conflict_false. intros id' o Ho.
  apply not_true_iff_false. rewrite clashes_spec. intros (Hne & Hlt & Hlo & Hor).
  rewrite Hid, (Hk _ _ Ht), (Hk _ _ Ho) in Hne.
  destruct (Hu id' id o t Ho Ht Hne Hlo (Hl Hlt)) as [? ?]. rewrite Hn, Hs in Hor. tauto.
Qed.
