(* ===== verification/AuditStore.v ===== *)
(** * internal/audit/store.go: the audit log

    Append-only entries, newest first. [Log] never fails its caller. *)

From stdpp Require Import gmap strings list fin_maps.
From Stdlib Require Import ZArith Lia.
From S2P Require Import Prelude GoStrings World Response Tables.

Open Scope Z_scope.

Section AuditStore.
Context `{Env}.

Definition insert_audit (action entityType entityID : string)
    (details : option (list (string * string))) (w : World) : res unit * World :=
  (Ok tt, set_audit (w_audit w ++
     [mkAudit (env_uuid (w_tick w)) action entityType entityID details (env_now (w_tick w))]) w).

(** [details] is always a string map or nil, which [json.Marshal] accepts. *)
Definition Log (action entityType entityID : string)
    (details : option (list (string * string))) : P unit :=
  let? x := stmt (insert_audit action entityType entityID details)
  catch e => Ret tt in
  Ret tt.

Definition audit_where (entityType action : string) (a : AuditEntry) : bool :=
  (is_empty entityType || String.eqb (a_EntityType a) entityType) &&
  (is_empty action || String.eqb (a_Action a) action).

Definition List (limit offset : Z) (entityType action : string) : P (res (list AuditEntry * Z)) :=
  let? entries := query (fun w =>
    paginated limit offset
      (order_desc a_CreatedAt (List.filter (audit_where entityType action) (w_audit w))))
  catch e => Ret (Fail (EWrap "query audit_log" e)) in
  Ret (Ok entries).

Definition ListByEntity (entityType entityID : string) (limit : Z) : P (res (list AuditEntry)) :=
  let? entries := query (fun w =>
    page limit 0 (order_desc a_CreatedAt
      (List.filter (fun a => String.eqb (a_EntityType a) entityType && String.eqb (a_EntityID a) entityID)
         (w_audit w))))
  catch e => Ret (Fail (EWrap "query audit_log by entity" e)) in
  Ret (Ok entries).

(** Logging touches the log and nothing else. *)
Definition same_but_audit (w w' : World) : Prop :=
  w_tenants w' = w_tenants w /\ w_nodes w' = w_nodes w /\ w_projects w' = w_projects w /\
  w_clients w' = w_clients w /\ w_jobs w' = w_jobs w /\ w_trace w' = w_trace w /\
  w_auth w' = w_auth w /\ w_peers w' = w_peers w /\ w_radio w' = w_radio w /\ w_keys w' = w_keys w.

Lemma wp_Log action etype eid details Q w :
  (forall w', same_but_audit w w' ->
     (w_audit w' = w_audit w \/
      exists id now, w_audit w' = w_audit w ++ [mkAudit id action etype eid details now]) -> Q tt w') ->
  wp (Log action etype eid details) Q w.
Proof.
  intros HQ. apply wp_bind, wp_stmt; intros; apply wp_ret, HQ; simpl; eauto; by repeat split.
Qed.

End AuditStore.
