(* ===== verification/NodeStore.v ===== *)
(** * internal/node/store.go: the nodes table

    Node rows with their RAM account. [total_ram_mb] and [allocated_ram_mb] are
    INTEGER columns: a parameter outside 32 bits does not reach the server, and
    an expression that leaves them fails the statement. The queries do not
    select the API token, so the nodes they return carry the empty one. *)

From stdpp Require Import gmap strings list fin_maps.
From Stdlib Require Import ZArith Lia.
From S2P Require Import Prelude GoStrings World Response Tables.

Open Scope Z_scope.

Definition ErrInsufficientCapacity : error := EBase (Sentinel "node.ErrInsufficientCapacity").
Definition ErrNoUpdate : error := EBase (Sentinel "node.ErrNoUpdate").
Definition ErrRAMBelowAllocated : error := EBase (Sentinel "node.ErrRAMBelowAllocated").
Definition ErrNoRows : error := EBase (Sentinel "pgx.ErrNoRows").
Definition errEncode : error := errorString "unable to encode parameter as int4".
Definition errRange : error := EBase (PgError out_of_range).

Record CreateNodeRequest := mkCreateNode {
  cn_Name : string; cn_TailscaleIP : string; cn_ProxmoxURL : string; cn_APIToken : string;
  cn_TotalRAMMB : Z }.

Record UpdateNodeRequest := mkUpdateNode {
  un_Status : option string; un_TotalRAMMB : option Z; un_ProxmoxURL : option string;
  un_APIToken : option string }.

(** [chk_nodes_status]. *)
Definition node_status_ok (s : string) : bool :=
  String.eqb s "active" || String.eqb s "maintenance" || String.eqb s "offline".

(** The columns every query of the store returns. *)
Definition scan_node (n : Node) : Node :=
  mkNode (n_ID n) (n_Name n) (n_TailscaleIP n) (n_ProxmoxURL n) EmptyString
    (n_TotalRAMMB n) (n_AllocatedRAMMB n) (n_Status n) (n_CreatedAt n) (n_UpdatedAt n).

Inductive NodeSet :=
| NSetStatus (v : string)
| NSetTotal (v : Z)
| NSetURL (v : string)
| NSetToken (v : string)
| NSetAllocated (v : Z).

Definition apply_nset (c : NodeSet) (n : Node) : Node :=
  let '(mkNode id name ip url tok total alloc st cr up) := n in
  match c with
  | NSetStatus v => mkNode id name ip url tok total alloc v cr up
  | NSetTotal v => mkNode id name ip url tok v alloc st cr up
  | NSetURL v => mkNode id name ip v tok total alloc st cr up
  | NSetToken v => mkNode id name ip url v total alloc st cr up
  | NSetAllocated v => mkNode id name ip url tok total v st cr up
  end.

Definition nset_updated (now : Z) (n : Node) : Node :=
  let '(mkNode id name ip url tok total alloc st cr _) := n in
  mkNode id name ip url tok total alloc st cr now.

Definition free_ram (n : Node) : Z := n_TotalRAMMB n - n_AllocatedRAMMB n.

Section Store.
Context `{Env}.

(** [UPDATE nodes SET sets WHERE id = id AND where_], with the CHECK and the
    trigger [trg_nodes_updated_at]; the row written, if any. *)
Definition update_node (id : string) (where_ : Node -> bool) (sets : Node -> list NodeSet)
    (w : World) : res (option Node) * World :=
  match w_nodes w !! id with
  | None => (Ok None, w)
  | Some n =>
      if where_ n then
        let n' := nset_updated (env_now (w_tick w)) (fold_left (fun n c => apply_nset c n) (sets n) n) in
        if negb (in_int4 (n_TotalRAMMB n') && in_int4 (n_AllocatedRAMMB n')) then (Fail errRange, w)
        else if negb (node_status_ok (n_Status n')) then (Fail (EBase (PgError check_violation)), w)
        else (Ok (Some n'), set_nodes (<[id := n']> (w_nodes w)) w)
      else (Ok None, w)
  end.

Definition List : P (res (list Node)) :=
  let? nodes := query (fun w => map scan_node (order_desc n_CreatedAt (rows (w_nodes w))))
  catch e => Ret (Fail (EWrap "query nodes" e)) in
  Ret (Ok nodes).

Definition ListPaginated (limit offset : Z) : P (res (list Node * Z)) :=
  let? nodes := query (fun w =>
    paginated limit offset (map scan_node (order_desc n_CreatedAt (rows (w_nodes w)))))
  catch e => Ret (Fail (EWrap "query nodes" e)) in
  Ret (Ok nodes).

Definition GetByID (id : string) : P (res (option Node)) :=
  let? n := query (fun w => option_map scan_node (w_nodes w !! id))
  catch e => Ret (Fail (EWrap "query node" e)) in
  Ret (Ok n).

(** [INSERT INTO nodes (...) VALUES (...) RETURNING ...]. *)
Definition insert_node (req : CreateNodeRequest) (w : World) : res Node * World :=
  let now := env_now (w_tick w) in
  let id := env_uuid (w_tick w) in
  let n := mkNode id (cn_Name req) (cn_TailscaleIP req) (cn_ProxmoxURL req) (cn_APIToken req)
             (cn_TotalRAMMB req) 0 "active" now now in
  if bool_decide (is_Some (w_nodes w !! id)) ||
     existsb (fun o => String.eqb (n_Name o) (n_Name n)) (rows (w_nodes w)) then
    (Fail (EBase (PgError unique_violation)), w)
  else (Ok n, set_nodes (<[id := n]> (w_nodes w)) w).

Definition Create (req : CreateNodeRequest) : P (res Node) :=
  if negb (in_int4 (cn_TotalRAMMB req)) then Ret (Fail (EWrap "insert node" errEncode)) else
  let? n := stmt (insert_node req)
  catch e => Ret (Fail (EWrap "insert node" e)) in
  Ret (Ok (scan_node n)).

(** The SET clauses, in the order the code appends them. *)
Definition node_sets (req : UpdateNodeRequest) : list NodeSet :=
  match un_Status req with Some v => [NSetStatus v] | None => [] end ++
  match un_TotalRAMMB req with Some v => [NSetTotal v] | None => [] end ++
  match un_ProxmoxURL req with Some v => [NSetURL v] | None => [] end ++
  match un_APIToken req with Some v => [NSetToken v] | None => [] end.

(** The WHERE clause: [AND allocated_ram_mb <= $k] when total_ram_mb is set. *)
Definition node_where (req : UpdateNodeRequest) (n : Node) : bool :=
  match un_TotalRAMMB req with
  | Some v => n_AllocatedRAMMB n <=? v
  | None => true
  end.

Definition encodable (v : option Z) : bool :=
  match v with Some z => in_int4 z | None => true end.

Definition Update (id : string) (req : UpdateNodeRequest) : P (res (option Node)) :=
  match node_sets req with
  | [] => Ret (Fail ErrNoUpdate)
  | sets =>
      if negb (encodable (un_TotalRAMMB req)) then Ret (Fail (EWrap "update node" errEncode)) else
      let? o := stmt (update_node id (node_where req) (fun _ => sets))
      catch e => Ret (Fail (EWrap "update node" e)) in
      match o with
      | Some n => Ret (Ok (Some (scan_node n)))
      | None =>
          match un_TotalRAMMB req with
          | Some _ =>
              let! existing := GetByID id in
              match existing with
              | Ok (Some _) => Ret (Fail ErrRAMBelowAllocated)
              | _ => Ret (Ok None)
              end
          | None => Ret (Ok None)
          end
      end
  end.

Definition CountTenants (nodeID : string) : P (res Z) :=
  let? count := query (fun w =>
    Z.of_nat (length (select (fun t => references_node nodeID t && live t) (w_tenants w))))
  catch e => Ret (Fail (EWrap "count tenants on node" e)) in
  Ret (Ok count).

Definition GetEncryptedTokenByID (id : string) : P (res string) :=
  let? token := query (fun w => option_map n_APITokenEncrypted (w_nodes w !! id))
  catch e => Ret (Fail (EWrap "query node token" e)) in
  Ret (Ok (match token with Some t => t | None => EmptyString end)).

(** [DELETE FROM nodes WHERE id = $1]: refused while any tenant row, whatever
    its status, references the node. *)
Definition delete_node (id : string) (w : World) : res Z * World :=
  match w_nodes w !! id with
  | None => (Ok 0, w)
  | Some _ =>
      if existsb (references_node id) (rows (w_tenants w)) then
        (Fail (EBase (PgError fk_violation)), w)
      else (Ok 1, set_nodes (base.delete id (w_nodes w)) w)
  end.

Definition Delete (id : string) : P (option error) :=
  let? affected := stmt (delete_node id)
  catch e => Ret (Some (EWrap "delete node" e)) in
  if affected =? 0 then Ret (Some ErrNoRows) else Ret None.

Definition suitable (requiredMB : Z) (n : Node) : bool :=
  String.eqb (n_Status n) "active" && (requiredMB <=? free_ram n).

(** [ORDER BY free DESC LIMIT 1] over the suitable rows; evaluating
    [total_ram_mb - allocated_ram_mb] of an active row can leave 32 bits. *)
Definition GetLeastLoaded (requiredMB : Z) : P (res (option Node)) :=
  if negb (in_int4 requiredMB) then Ret (Fail (EWrap "query least loaded node" errEncode)) else
  let? n := stmt (fun w =>
    if forallb (fun n => in_int4 (free_ram n))
         (select (fun n => String.eqb (n_Status n) "active") (w_nodes w)) then
      (Ok (option_map scan_node (first_by (fun a b => free_ram b <? free_ram a)
                           (select (suitable requiredMB) (w_nodes w)))), w)
    else (Fail errRange, w))
  catch e => Ret (Fail (EWrap "query least loaded node" e)) in
  Ret (Ok n).

(** [SET allocated_ram_mb = allocated_ram_mb + $2 WHERE id = $1 AND
    total_ram_mb - allocated_ram_mb >= $2]. *)
Definition reserve_ram (nodeID : string) (ramMB : Z) (w : World) : res (option Node) * World :=
  match w_nodes w !! nodeID with
  | Some n =>
      if negb (in_int4 (free_ram n)) then (Fail errRange, w)
      else update_node nodeID (fun n => ramMB <=? free_ram n)
             (fun n => [NSetAllocated (n_AllocatedRAMMB n + ramMB)]) w
  | None => (Ok None, w)
  end.

Definition ReserveRAM (nodeID : string) (ramMB : Z) : P (option error) :=
  if negb (in_int4 ramMB) then Ret (Some (EWrap "reserve ram" errEncode)) else
  let? tag := stmt (reserve_ram nodeID ramMB)
  catch e => Ret (Some (EWrap "reserve ram" e)) in
  match tag with
  | None => Ret (Some ErrInsufficientCapacity)
  | Some _ => Ret None
  end.

(** [SET allocated_ram_mb = GREATEST(allocated_ram_mb - $2, 0)]. *)
Definition release_ram (nodeID : string) (ramMB : Z) (w : World) : res (option Node) * World :=
  match w_nodes w !! nodeID with
  | Some n =>
      if negb (in_int4 (n_AllocatedRAMMB n - ramMB)) then (Fail errRange, w)
      else update_node nodeID (fun _ => true)
             (fun n => [NSetAllocated (Z.max (n_AllocatedRAMMB n - ramMB) 0)]) w
  | None => (Ok None, w)
  end.

Definition ReleaseRAM (nodeID : string) (ramMB : Z) : P (option error) :=
  if negb (in_int4 ramMB) then Ret (Some (EWrap "release ram" errEncode)) else
  let? tag := stmt (release_ram nodeID ramMB)
  catch e => Ret (Some (EWrap "release ram" e)) in
  Ret None.

End Store.

(** ** What the statements do *)

(** The RAM account and the constraints of the table. *)
Definition node_ok (n : Node) : Prop :=
  0 <= n_AllocatedRAMMB n <= n_TotalRAMMB n /\ in_int4 (n_TotalRAMMB n) = true /\
  node_status_ok (n_Status n) = true.

Definition nodes_ok (m : gmap string Node) : Prop :=
  (forall id n, m !! id = Some n -> n_ID n = id /\ node_ok n) /\
  (forall id1 id2 n1 n2, m !! id1 = Some n1 -> m !! id2 = Some n2 -> id1 <> id2 ->
     n_Name n1 <> n_Name n2).

Lemma in_int4_true z : in_int4 z = true <-> -2147483648 <= z <= 2147483647.
Proof. unfold in_int4. rewrite andb_true_iff, !Z.leb_le. done. Qed.

Lemma node_ok_free n : node_ok n -> in_int4 (free_ram n) = true /\ in_int4 (n_AllocatedRAMMB n) = true.
Proof. intros (?&H&_). rewrite !in_int4_true in *. unfold free_ram. lia. Qed.

Lemma nodes_ok_insert m id n n' :
  nodes_ok m -> m !! id = Some n -> n_ID n' = n_ID n -> n_Name n' = n_Name n -> node_ok n' ->
  nodes_ok (<[id := n']> m).
Proof.
  intros [Hr Hu] Hn Hid Hname Hok. destruct (Hr _ _ Hn) as [Hk _]. split.
  - intros id1 n1. rewrite lookup_insert. case_decide; [|apply Hr].
    intros [= <-]. subst. by rewrite Hid.
  - intros id1 id2 n1 n2. rewrite !lookup_insert.
    repeat case_decide; intros; simplify_eq; try done; rewrite ?Hname; by eapply Hu.
Qed.

Lemma nodes_ok_add m n :
  nodes_ok m -> m !! n_ID n = None -> node_ok n ->
  existsb (fun o => String.eqb (n_Name o) (n_Name n)) (rows m) = false ->
  nodes_ok (<[n_ID n := n]> m).
Proof.
  intros [Hr Hu] Hn Hok Hex.
  assert (forall id o, m !! id = Some o -> n_Name o <> n_Name n) as Hne.
  { intros id o Ho E. apply not_true_iff_false in Hex. apply Hex, existsb_exists. exists o.
    rewrite E, str_eqb_refl. split; [|done]. apply list_elem_of_In, elem_of_rows. by exists id. }
  split.
  - intros id1 n1. rewrite lookup_insert. case_decide; [|apply Hr]. by intros [= <-].
  - intros id1 id2 n1 n2. rewrite !lookup_insert.
    repeat case_decide; intros; simplify_eq; try done; [|by eapply Hne|by eapply Hu].
    intros E. symmetry in E. by eapply Hne.
Qed.

Lemma nodes_ok_delete m id : nodes_ok m -> nodes_ok (base.delete id m).
Proof.
  intros [Hr Hu]. split.
  - intros id1 n1. rewrite lookup_delete_Some. intros [_ ?]. by apply Hr.
  - intros id1 id2 n1 n2. rewrite !lookup_delete_Some. intros [_ ?] [_ ?]. by apply Hu.
Qed.

(** The assignments never touch the key or the name. *)
Lemma apply_nset_key cs n :
  n_ID (fold_left (fun n c => apply_nset c n) cs n) = n_ID n /\
  n_Name (fold_left (fun n c => apply_nset c n) cs n) = n_Name n.
Proof.
  revert n. induction cs as [|c cs IH]; intros n; simpl; [done|].
  destruct (IH (apply_nset c n)) as [-> ->]. by destruct n, c.
Qed.

Section StoreLemmas.
Context `{Env}.

(** An UPDATE either writes the one row it matched or changes nothing. *)
Lemma update_node_cases id where_ sets w :
  (exists n n', w_nodes w !! id = Some n /\ where_ n = true /\
     n' = nset_updated (env_now (w_tick w)) (fold_left (fun n c => apply_nset c n) (sets n) n) /\
     in_int4 (n_TotalRAMMB n') = true /\ node_status_ok (n_Status n') = true /\
     update_node id where_ sets w = (Ok (Some n'), set_nodes (<[id := n']> (w_nodes w)) w)) \/
  ((w_nodes w !! id = None \/ exists n, w_nodes w !! id = Some n /\ where_ n = false) /\
   update_node id where_ sets w = (Ok None, w)) \/
  (exists e, update_node id where_ sets w = (Fail e, w)).
Proof.
  unfold update_node. destruct (w_nodes w !! id) as [n|] eqn:E; [|by right; left; eauto].
  destruct (where_ n) eqn:Ew; [|right; left; split; [right; by eauto|done]].
  set (n' := nset_updated _ _).
  destruct (in_int4 (n_TotalRAMMB n')) eqn:E1; simpl; [|right; right; eauto].
  destruct (in_int4 (n_AllocatedRAMMB n')) eqn:E2; simpl; [|right; right; eauto].
  destruct (node_status_ok (n_Status n')) eqn:E3; simpl; [|right; right; eauto].
  left. exists n, n'. split_and!; auto.
Qed.

Lemma update_node_ok id where_ sets w :
  nodes_ok (w_nodes w) ->
  (forall n, n_ID n = id -> node_ok n -> where_ n = true ->
     let n' := fold_left (fun n c => apply_nset c n) (sets n) n in
     0 <= n_AllocatedRAMMB n' <= n_TotalRAMMB n') ->
  let w' := (update_node id where_ sets w).2 in
  nodes_ok (w_nodes w') /\ exists m, w' = set_nodes m w.
Proof.
  intros Hok Hs. simpl.
  assert (w = set_nodes (w_nodes w) w) as Hw by by destruct w.
  destruct (update_node_cases id where_ sets w)
    as [(n&n'&Hn&Hwh&Hn'&Hi&Hst&->)|[[_ ->]|[e ->]]]; simpl; [|by eauto..].
  split; [|by eauto]. destruct Hok as [Hr Hu]. destruct (Hr _ _ Hn) as [Hid Hnode].
  pose proof (Hs n Hid Hnode Hwh) as Hram. destruct (apply_nset_key (sets n) n) as [Hk1 Hk2].
  destruct (fold_left (fun n0 c => apply_nset c n0) (sets n) n) as [??????????] eqn:Ef.
  simpl in *. subst n'. eapply nodes_ok_insert; [by split|done|done|done|].
  split_and!; simpl in *; try done; lia.
Qed.

Lemma insert_node_ok req w :
  nodes_ok (w_nodes w) -> 0 <= cn_TotalRAMMB req -> in_int4 (cn_TotalRAMMB req) = true ->
  let w' := (insert_node req w).2 in
  nodes_ok (w_nodes w') /\ exists m, w' = set_nodes m w.
Proof.
  intros Hok H1 H2. simpl. unfold insert_node.
  destruct (bool_decide _) eqn:Hb; simpl; [split; [done|]; exists (w_nodes w); by destruct w|].
  destruct (existsb _ _) eqn:He; simpl; [split; [done|]; exists (w_nodes w); by destruct w|].
  split; [|by eauto].
  apply (nodes_ok_add (w_nodes w) (mkNode (env_uuid (w_tick w)) _ _ _ _ _ _ _ _ _)); simpl; [done| | |done].
  - apply eq_None_not_Some. by apply bool_decide_eq_false in Hb.
  - split_and!; simpl; [lia|lia|done|done].
Qed.

Lemma reserve_ram_ok id ram w :
  nodes_ok (w_nodes w) -> 0 <= ram ->
  let w' := (reserve_ram id ram w).2 in
  nodes_ok (w_nodes w') /\ exists m, w' = set_nodes m w.
Proof.
  intros Hok Hram. simpl. unfold reserve_ram.
  assert (w = set_nodes (w_nodes w) w) as Hw by by destruct w.
  destruct (w_nodes w !! id) as [n|]; [|by eauto].
  destruct (negb _); [by eauto|]. apply update_node_ok; [done|].
  intros n0 _ (?&_&_) Hle%Z.leb_le. destruct n0. unfold free_ram in *. simpl in *. lia.
Qed.

Lemma release_ram_ok id ram w :
  nodes_ok (w_nodes w) -> 0 <= ram ->
  let w' := (release_ram id ram w).2 in
  nodes_ok (w_nodes w') /\ exists m, w' = set_nodes m w.
Proof.
  intros Hok Hram. simpl. unfold release_ram.
  assert (w = set_nodes (w_nodes w) w) as Hw by by destruct w.
  destruct (w_nodes w !! id) as [n|]; [|by eauto].
  destruct (negb _); [by eauto|]. apply update_node_ok; [done|].
  intros n0 _ (?&_&_) _. destruct n0. simpl in *. lia.
Qed.

Lemma update_request_ok id req w :
  nodes_ok (w_nodes w) -> 
  let w' := (update_node id (node_where req) (fun _ => node_sets req) w).2 in
  nodes_ok (w_nodes w') /\ exists m, w' = set_nodes m w.
Proof.
  intros Hok. apply update_node_ok; [done|]. intros n _ (?&_&_).
  unfold node_where, node_sets. destruct n, req as [[] [] [] []]; simpl in *; intros Hw; rewrite ?Z.leb_le in Hw; lia.
Qed.

Lemma delete_node_ok id w :
  nodes_ok (w_nodes w) ->
  let w' := (delete_node id w).2 in
  nodes_ok (w_nodes w') /\ exists m, w' = set_nodes m w.
Proof.
  intros Hok. simpl. unfold delete_node.
  assert (w = set_nodes (w_nodes w) w) as Hw by by destruct w.
  destruct (w_nodes w !! id); [|by eauto]. destruct (existsb _ _); [by eauto|].
  simpl. split; [by apply nodes_ok_delete|by eauto].
Qed.

End StoreLemmas.

(** ** The RAM account *)

Section Ram.
Context `{Env}.

Definition with_allocated (now : Z) (a : Z) (n : Node) : Node :=
  nset_updated now (apply_nset (NSetAllocated a) n).

Lemma reserve_ram_fits id ram w n :
  nodes_ok (w_nodes w) -> w_nodes w !! id = Some n -> 0 <= ram <= free_ram n ->
  let n' := with_allocated (env_now (w_tick w)) (n_AllocatedRAMMB n + ram) n in
  reserve_ram id ram w = (Ok (Some n'), set_nodes (<[id := n']> (w_nodes w)) w).
Proof.
  intros [Hr _] Hn Hram. destruct (Hr _ _ Hn) as [_ Hok].
  unfold reserve_ram, update_node. rewrite Hn. destruct (node_ok_free _ Hok) as [-> _].
  destruct Hok as (H1 & H2 & H3). simpl.
  destruct (Z.leb_spec ram (free_ram n)); [|lia].
  destruct n as [??????????]. unfold free_ram in *. simpl in *. rewrite H2, H3. simpl.
  replace (in_int4 _) with true; [done|]. symmetry. rewrite in_int4_true in *. lia.
Qed.

Lemma reserve_ram_full id ram w :
  nodes_ok (w_nodes w) -> (forall n, w_nodes w !! id = Some n -> free_ram n < ram) ->
  reserve_ram id ram w = (Ok None, w).
Proof.
  intros [Hr _] Hf. unfold reserve_ram, update_node. destruct (w_nodes w !! id) as [n|] eqn:E; [|done].
  destruct (node_ok_free _ (proj2 (Hr _ _ E))) as [-> _]. simpl.
  specialize (Hf _ eq_refl). destruct (Z.leb_spec ram (free_ram n)); [lia|done].
Qed.

Lemma release_ram_eq id ram w n :
  nodes_ok (w_nodes w) -> w_nodes w !! id = Some n -> 0 <= ram -> in_int4 ram = true ->
  let n' := with_allocated (env_now (w_tick w)) (Z.max (n_AllocatedRAMMB n - ram) 0) n in
  release_ram id ram w = (Ok (Some n'), set_nodes (<[id := n']> (w_nodes w)) w).
Proof.
  intros [Hr _] Hn Hram Hi. destruct (Hr _ _ Hn) as [_ (H1 & H2 & H3)].
  unfold release_ram, update_node. rewrite Hn.
  assert (in_int4 (n_AllocatedRAMMB n - ram) = true) as -> by (rewrite in_int4_true in *; lia).
  destruct n as [??????????]. simpl in *.
  rewrite H2, H3. simpl.
  replace (in_int4 _) with true; [done|]. symmetry. rewrite in_int4_true in *. lia.
Qed.

Lemma release_ram_missing id ram w : w_nodes w !! id = None -> release_ram id ram w = (Ok None, w).
Proof. unfold release_ram. by intros ->. Qed.

(** [ReserveRAM] is a compare-and-reserve on the RAM account: it succeeds
    exactly when the node exists and has the RAM free, and then allocates that
    RAM and nothing else changes; it answers [ErrInsufficientCapacity] exactly
    when the node is missing or too full; any other error is a failed
    statement. Every failure leaves all accounts as they were. *)
Theorem ReserveRAM_spec (nodeID : string) (ram : Z) (w : World)
  (Hok : nodes_ok (w_nodes w)) (Hram : 0 <= ram) (Hint : in_int4 ram = true) :
  wp (ReserveRAM nodeID ram) (fun r w' =>
    match r with
    | None => exists n now, w_nodes w !! nodeID = Some n /\ ram <= free_ram n /\
        w_nodes w' = <[nodeID := with_allocated now (n_AllocatedRAMMB n + ram) n]> (w_nodes w) /\
        nodes_ok (w_nodes w')
    | Some e => w_nodes w' = w_nodes w /\
        ((e = ErrInsufficientCapacity /\
          forall n, w_nodes w !! nodeID = Some n -> free_ram n < ram) \/
         env_fault (w_tick w) <> None)
    end) w.
Proof.
  unfold ReserveRAM. rewrite Hint. simpl. apply wp_bind, wp_stmt; intros.
  { apply wp_ret. split; [done|right; congruence]. }
  set (w1 := set_tick (S (w_tick w)) w).
  pose proof (reserve_ram_ok nodeID ram w1 Hok Hram) as [Hok' _].
  destruct (w_nodes w !! nodeID) as [n|] eqn:En; [destruct (decide (ram <= free_ram n))|].
  - rewrite (reserve_ram_fits nodeID ram w1 n) in * by (simpl; auto). apply wp_ret.
    exists n. eexists. split_and!; try done. 
  - rewrite reserve_ram_full; [|done|simpl; intros ? E; simplify_eq; lia].
    apply wp_ret. split; [done|]. left. split; [done|]. intros. simplify_eq. lia.
  - rewrite reserve_ram_full; [|done|simpl; intros ? E; simplify_eq; lia].
    apply wp_ret. split; [done|]. left. by split.
Qed.

(** Reserving and releasing is a round trip: on a database that answers,
    releasing what was just reserved puts the account back, so the pair can
    only move the row's [updated_at]. *)
Theorem reserve_release (nodeID : string) (ram : Z) (n : Node) (w : World)
  (Hok : nodes_ok (w_nodes w)) (Hn : w_nodes w !! nodeID = Some n)
  (Hram : 0 <= ram <= free_ram n)
  (Hup : env_fault (w_tick w) = None /\ env_fault (S (w_tick w)) = None) :
  wp (ReserveRAM nodeID ram) (fun r w1 => r = None /\
    wp (ReleaseRAM nodeID ram) (fun r' w2 => r' = None /\
      exists now, w_nodes w2 = <[nodeID := nset_updated now n]> (w_nodes w)) w1) w.
Proof.
  destruct Hup as [Hf1 Hf2]. destruct (proj1 Hok _ _ Hn) as [_ Hnode].
  assert (in_int4 ram = true) as Hi.
  { destruct (node_ok_free _ Hnode) as [Hi _]. rewrite in_int4_true in *. lia. }
  unfold ReserveRAM, ReleaseRAM. rewrite Hi. simpl. apply wp_bind, wp_stmt; [congruence|]. intros _.
  set (w1 := set_tick (S (w_tick w)) w).
  pose proof (reserve_ram_ok nodeID ram w1 Hok ltac:(lia)) as [Hok' _].
  rewrite (reserve_ram_fits nodeID ram w1 n) in * by (simpl; auto).
  set (n1 := with_allocated _ _ n) in *. set (w2 := (_, set_nodes _ w1).2) in *.
  apply wp_ret. split; [done|]. apply wp_bind, wp_stmt; [simpl; congruence|]. intros _.
  set (w3 := set_tick (S (w_tick w2)) w2).
  rewrite (release_ram_eq nodeID ram w3 n1); [|done|apply lookup_insert_eq|lia|done].
  apply wp_ret. split; [done|]. exists (env_now (w_tick w3)). simpl.
  rewrite insert_insert_eq. f_equal. destruct Hnode as [? _]. destruct n. simpl in *.
  unfold with_allocated. simpl. f_equal. lia.
Qed.

(** Placement: on a consistent table [GetLeastLoaded] never fails on an
    answering database; it returns an active node with the RAM free and more
    free RAM than any other active node, and reports none only when no active
    node fits the request. *)
Theorem GetLeastLoaded_best (ram : Z) (w : World)
  (Hok : nodes_ok (w_nodes w)) (Hint : in_int4 ram = true) :
  wp (GetLeastLoaded ram) (fun r w' => unchanged w w' /\
    match r with
    | Fail _ => env_fault (w_tick w) <> None
    | Ok None => forall id n, w_nodes w !! id = Some n -> n_Status n = "active" -> free_ram n < ram
    | Ok (Some m) => exists n, m = scan_node n /\ w_nodes w !! n_ID n = Some n /\
        n_Status n = "active" /\ ram <= free_ram n /\
        forall id o, w_nodes w !! id = Some o -> n_Status o = "active" -> free_ram o <= free_ram n
    end) w.
Proof.
  unfold GetLeastLoaded. rewrite Hint. simpl. apply wp_bind, wp_stmt; intros Hf.
  { intros ?. apply wp_ret. split; [done|congruence]. }
  set (w1 := set_tick (S (w_tick w)) w).
  assert (forallb (fun n => in_int4 (free_ram n))
            (select (fun n => String.eqb (n_Status n) "active") (w_nodes w1)) = true) as ->.
  { apply forallb_forall. intros n Hn. apply list_elem_of_In, elem_of_select in Hn as (_&id&Hn).
    by apply node_ok_free, (proj1 Hok id). }
  apply wp_ret. split; [done|]. simpl.
  assert (forall id o, w_nodes w !! id = Some o -> n_Status o = "active" -> ram <= free_ram o ->
     o ∈ select (suitable ram) (w_nodes w)) as Hin.
  { intros id o Ho Ha Hr. apply elem_of_select. split; [|by eauto].
    unfold suitable. rewrite Ha. simpl. by apply Z.leb_le. }
  destruct (first_by _ _) as [n|] eqn:E; simpl.
  - exists n. split; [done|]. pose proof (first_by_elem _ _ _ E) as Hn.
    apply elem_of_select in Hn as (Hs & id & Hn).
    unfold suitable in Hs. apply andb_prop in Hs as [Ha%String.eqb_eq Hr%Z.leb_le].
    destruct (proj1 Hok _ _ Hn) as [<- _]. split_and!; try done.
    intros id o Ho Hoa. destruct (decide (ram <= free_ram o)); [|lia].
    by apply (first_by_max free_ram _ n o E), (Hin id).
  - intros id o Ho Ha. destruct (decide (ram <= free_ram o)) as [Hr|]; [|lia].
    destruct (first_by_some (fun a b => free_ram b <? free_ram a) (select (suitable ram) (w_nodes w)))
      as [x Hx]; [|by rewrite E in Hx].
    intros E0. specialize (Hin id o Ho Ha Hr). rewrite E0 in Hin. by apply elem_of_nil in Hin.
Qed.

End Ram.

(** ** Witnesses *)

Definition demo_node (id : string) (total alloc : Z) : Node :=
  mkNode id ("node-" +:+ id) "100.64.0.1" "https://pve" "enc" total alloc "active" 1 1.

Definition demo_nodes : gmap string Node :=
  {["a" := demo_node "a" 4096 1024; "b" := demo_node "b" 8192 1536]}.

Definition demo_world : World := set_nodes demo_nodes empty_world.

Lemma demo_nodes_ok : nodes_ok demo_nodes.
Proof.
  unfold demo_nodes. split.
  - intros id n [(<-&<-)|(?&[<- <-]%lookup_singleton_Some)]%lookup_insert_Some; by vm_compute.
  - intros id1 id2 n1 n2
      [(<-&<-)|(?&[<- <-]%lookup_singleton_Some)]%lookup_insert_Some
      [(<-&<-)|(?&[<- <-]%lookup_singleton_Some)]%lookup_insert_Some; by vm_compute.
Qed.

Lemma ReserveRAM_spec_witness :
  let _ := calm in
  (run (ReserveRAM "b" 512) demo_world).1 = None /\
  exists n now, demo_nodes !! "b" = Some n /\ 512 <= free_ram n /\
    w_nodes (run (ReserveRAM "b" 512) demo_world).2 =
      <["b" := with_allocated now (n_AllocatedRAMMB n + 512) n]> demo_nodes /\
    nodes_ok (w_nodes (run (ReserveRAM "b" 512) demo_world).2).
Proof.
  intros E. split; [reflexivity|].
  exact (@ReserveRAM_spec calm "b" 512 demo_world demo_nodes_ok ltac:(lia) eq_refl).
Defined.

Lemma reserve_release_witness :
  let _ := calm in
  wp (ReserveRAM "a" 3072) (fun r w1 => r = None /\
    wp (ReleaseRAM "a" 3072) (fun r' w2 => r' = None /\
      exists now, w_nodes w2 = <["a" := nset_updated now (demo_node "a" 4096 1024)]> demo_nodes) w1)
    demo_world.
Proof.
  intros E. apply (@reserve_release calm "a" 3072 (demo_node "a" 4096 1024) demo_world demo_nodes_ok);
    [reflexivity|vm_compute; split; discriminate|split; reflexivity].
Defined.

Lemma GetLeastLoaded_best_witness :
  let _ := calm in
  (run (GetLeastLoaded 2048) demo_world).1 = Ok (Some (scan_node (demo_node "b" 8192 1536))) /\
  exists n, scan_node (demo_node "b" 8192 1536) = scan_node n /\ demo_nodes !! n_ID n = Some n /\
    n_Status n = "active" /\ 2048 <= free_ram n /\
    forall id o, demo_nodes !! id = Some o -> n_Status o = "active" -> free_ram o <= free_ram n.
Proof.
  intros E. split; [reflexivity|].
  exact (proj2 (@GetLeastLoaded_best calm 2048 demo_world demo_nodes_ok eq_refl)).
Defined.
