(* ===== verification/NodeHandler.v ===== *)
(** * internal/node/handler.go: the node endpoints

    [chi.URLParam] is an argument; the decoded request body is an argument too,
    [None] when [response.Decode] refuses it. *)

From stdpp Require Import gmap strings list fin_maps.
From Stdlib Require Import ZArith Lia Ascii.
From S2P Require Import Prelude GoStrings NetIP World Response Crypto Tables AuditStore NodeStore.

Open Scope Z_scope.

(** [node.Handler]: whether the audit store and the provisioner are set, and
    the encryption key. *)
Record Handler := mkHandler {
  h_auditStore : bool; h_encryptionKey : string; h_provisioner : bool }.

Definition alnum (c : ascii) : bool := is_lower c || is_digit c.
Definition name_char (c : ascii) : bool :=
  alnum c || Ascii.eqb c "." || Ascii.eqb c "_" || Ascii.eqb c "-".

(** [nameRegexp]: [^[a-z0-9][a-z0-9._-]*[a-z0-9]$]. *)
Fixpoint name_tail (s : string) : bool :=
  match s with
  | EmptyString => false
  | String c EmptyString => alnum c
  | String c s' => name_char c && name_tail s'
  end.

Definition nameRegexp (s : string) : bool :=
  match s with
  | EmptyString => false
  | String c s' => alnum c && name_tail s'
  end.

Section Handler.
Context `{Env}.

(** [url.Parse(s)] succeeds, the scheme is https and the host is not empty. *)
Definition valid_proxmox_url (s : string) : bool :=
  match env_url_parse s with
  | None => false
  | Some u => String.eqb (u_Scheme u) "https" && negb (is_empty (u_Host u))
  end.

Definition audit_log (h : Handler) (action entityType id : string)
    (details : option (list (string * string))) : P unit :=
  if h_auditStore h then AuditStore.Log action entityType id details else Ret tt.

Definition List (h : Handler) (q : string -> string) : P HTTPResponse :=
  let params := ParseListParams q in
  let? nodes := NodeStore.ListPaginated (lp_Limit params) (lp_Offset params)
  catch e => Ret (Error StatusInternalServerError "failed to list nodes") in
  Ret (JSON StatusOK (BNodes (listResult params nodes.1 nodes.2))).

Definition Get (h : Handler) (id : string) : P HTTPResponse :=
  if negb (ValidUUID id) then Ret (Error StatusBadRequest "invalid node ID format") else
  let? n := NodeStore.GetByID id
  catch e => Ret (Error StatusInternalServerError "failed to get node") in
  match n with
  | None => Ret (Error StatusNotFound "node not found")
  | Some n => Ret (JSON StatusOK (BNode n))
  end.

Definition Create (h : Handler) (body : option CreateNodeRequest) : P HTTPResponse :=
  match body with
  | None => Ret (Error StatusBadRequest "invalid request body")
  | Some req =>
      if is_empty (cn_Name req) || is_empty (cn_TailscaleIP req) || is_empty (cn_ProxmoxURL req) ||
         is_empty (cn_APIToken req) || (cn_TotalRAMMB req <=? 0) then
        Ret (Error StatusBadRequest "name, tailscale_ip, proxmox_url, api_token, and total_ram_mb are required")
      else if negb (nameRegexp (cn_Name req)) || (63 <? len (cn_Name req)) then
        Ret (Error StatusBadRequest "invalid name: must be lowercase alphanumeric with hyphens/dots/underscores, 2-63 chars")
      else if negb (is_ip (cn_TailscaleIP req)) then
        Ret (Error StatusBadRequest "invalid tailscale_ip: must be a valid IP address")
      else if negb (valid_proxmox_url (cn_ProxmoxURL req)) then
        Ret (Error StatusBadRequest "invalid proxmox_url: must be a valid HTTPS URL")
      else
        let? encrypted := Encrypt (cn_APIToken req) (h_encryptionKey h)
        catch e => Ret (Error StatusInternalServerError "failed to encrypt api token") in
        let? n := NodeStore.Create (mkCreateNode (cn_Name req) (cn_TailscaleIP req)
                                      (cn_ProxmoxURL req) encrypted (cn_TotalRAMMB req))
        catch e => (if is_pg_code e unique_violation
                    then Ret (Error StatusConflict "name already exists")
                    else Ret (Error StatusInternalServerError "failed to create node")) in
        audit_log h "create" "node" (n_ID n) (Some [("name", n_Name n)]) ;;;
        Ret (JSON StatusCreated (BNode n))
  end.

(** [provisioner.InvalidateClient]. *)
Definition InvalidateClient (nodeID : string) : P unit :=
  local (fun w => (tt, set_clients (base.delete nodeID (w_clients w)) w)).

(** The rest of [Update] once the token, if any, is encrypted. *)
Definition update_encrypted (h : Handler) (id : string) (req : UpdateNodeRequest) : P HTTPResponse :=
  let? n := NodeStore.Update id req
  catch e => (if errors_Is e NodeStore.ErrNoUpdate
              then Ret (Error StatusBadRequest "no fields to update")
              else if errors_Is e NodeStore.ErrRAMBelowAllocated
              then Ret (Error StatusConflict "total_ram_mb cannot be less than allocated_ram_mb")
              else Ret (Error StatusInternalServerError "failed to update node")) in
  match n with
  | None => Ret (Error StatusNotFound "node not found")
  | Some n =>
      (match un_APIToken req with
       | Some _ => if h_provisioner h then InvalidateClient id else Ret tt
       | None => Ret tt
       end) ;;;
      audit_log h "update" "node" (n_ID n) None ;;;
      Ret (JSON StatusOK (BNode n))
  end.

Definition Update (h : Handler) (id : string) (body : option UpdateNodeRequest) : P HTTPResponse :=
  if negb (ValidUUID id) then Ret (Error StatusBadRequest "invalid node ID format") else
  match body with
  | None => Ret (Error StatusBadRequest "invalid request body")
  | Some req =>
      if match un_Status req with Some s => negb (node_status_ok s) | None => false end then
        Ret (Error StatusBadRequest "invalid status: must be active, maintenance, or offline")
      else if match un_TotalRAMMB req with Some r => r <=? 0 | None => false end then
        Ret (Error StatusBadRequest "total_ram_mb must be positive")
      else if match un_ProxmoxURL req with Some u => negb (valid_proxmox_url u) | None => false end then
        Ret (Error StatusBadRequest "invalid proxmox_url: must be a valid HTTPS URL")
      else match un_APIToken req with
      | None => update_encrypted h id req
      | Some token =>
          let? encrypted := Encrypt token (h_encryptionKey h)
          catch e => Ret (Error StatusInternalServerError "failed to encrypt api token") in
          update_encrypted h id
            (mkUpdateNode (un_Status req) (un_TotalRAMMB req) (un_ProxmoxURL req) (Some encrypted))
      end
  end.

Definition Delete (h : Handler) (id : string) : P HTTPResponse :=
  if negb (ValidUUID id) then Ret (Error StatusBadRequest "invalid node ID format") else
  let? count := NodeStore.CountTenants id
  catch e => Ret (Error StatusInternalServerError "failed to check node dependencies") in
  if 0 <? count then Ret (Error StatusConflict "cannot delete node with active tenants") else
  if_err e := NodeStore.Delete id then
    (if errors_Is e NodeStore.ErrNoRows
     then Ret (Error StatusNotFound "node not found")
     else Ret (Error StatusInternalServerError "failed to delete node"))
  else
    (audit_log h "delete" "node" id None ;;;
     Ret (mkResponse StatusNoContent BEmpty [])).

End Handler.

(** ** What the endpoints guarantee *)

Section HandlerProofs.
Context `{Env}.

Lemma wp_audit_log h action etype eid details Q w :
  (forall w', AuditStore.same_but_audit w w' -> Q tt w') ->
  wp (audit_log h action etype eid details) Q w.
Proof.
  intros HQ. unfold audit_log. destruct (h_auditStore h).
  - apply wp_Log. auto.
  - apply wp_ret, HQ. by repeat split.
Qed.

(** Only values [Encrypt] produced are written to [api_token_encrypted]. *)
(** Registering a node: the endpoint answers 201 only for a body that
    passes every check, and then exactly one row is added, active and with no
    RAM allocated, whose stored token is the encryption of the posted one under
    the server's key; the response carries no token at all. Any other answer
    leaves the nodes table untouched. *)
Theorem Create_node_spec (h : Handler) (body : option CreateNodeRequest) (w : World) :
  wp (Create h body) (fun r w' =>
    (w_nodes w' = w_nodes w /\ r_Status r <> StatusCreated) \/
    exists req n key nonce now,
      body = Some req /\ nameRegexp (cn_Name req) = true /\ len (cn_Name req) <= 63 /\
      0 < cn_TotalRAMMB req /\ valid_proxmox_url (cn_ProxmoxURL req) = true /\
      r = JSON StatusCreated (BNode (scan_node n)) /\ n_APITokenEncrypted (scan_node n) = EmptyString /\
      decode_key (h_encryptionKey h) = Ok key /\
      n = mkNode (n_ID n) (cn_Name req) (cn_TailscaleIP req) (cn_ProxmoxURL req)
            (hex_encode (nonce +:+ env_seal key nonce (cn_APIToken req)))
            (cn_TotalRAMMB req) 0 "active" now now /\
      w_nodes w !! n_ID n = None /\ w_nodes w' = <[n_ID n := n]> (w_nodes w)) w.
Proof.
  unfold Create. destruct body as [req|]; [|by apply wp_ret; left].
  destruct (_ || _) eqn:E1; [by apply wp_ret; left|].
  destruct (negb (nameRegexp _) || _) eqn:E2; [by apply wp_ret; left|].
  destruct (negb (is_ip _)) eqn:E3; [by apply wp_ret; left|].
  destruct (negb (valid_proxmox_url _)) eqn:E4; [by apply wp_ret; left|].
  apply orb_false_elim in E1 as [_ E1%Z.leb_gt].
  apply orb_false_elim in E2 as [E2a%negb_false_iff E2b%Z.ltb_ge]. apply negb_false_iff in E4.
  apply wp_bind, wp_Encrypt_raw; [intros e w1 Hw1; apply wp_ret; left; split; [apply Hw1|done]|].
  intros key nonce w1 Hw1 Hkey _. destruct Hw1 as [(_&Hn1&_) _].
  assert (forall e w2, w_nodes w2 = w_nodes w ->
    wp (if is_pg_code e unique_violation then Ret (Error StatusConflict "name already exists")
        else Ret (Error StatusInternalServerError "failed to create node"))
      (fun r w' => w_nodes w' = w_nodes w /\ r_Status r <> StatusCreated) w2) as Hfail.
  { intros e w2 Hw2. destruct (is_pg_code _ _); by apply wp_ret. }
  apply wp_bind. unfold NodeStore.Create. cbn [cn_TotalRAMMB cn_Name cn_TailscaleIP cn_ProxmoxURL cn_APIToken].
  destruct (negb (in_int4 _)).
  { apply wp_ret. eapply wp_mono; [by apply Hfail|]. by left. }
  apply wp_bind, wp_stmt; intros _'.
  { intros _. apply wp_ret. eapply wp_mono; [by apply Hfail|]. by left. }
  set (w2 := set_tick (S (w_tick w1)) w1). unfold insert_node.
  cbn [cn_TotalRAMMB cn_Name cn_TailscaleIP cn_ProxmoxURL cn_APIToken].
  destruct (bool_decide _) eqn:Hb; simpl.
  { apply wp_ret. eapply wp_mono; [by apply Hfail|]. by left. }
  destruct (existsb _ _); simpl.
  { apply wp_ret. eapply wp_mono; [by apply Hfail|]. by left. }
  apply wp_ret, wp_bind, wp_audit_log. intros w3 (_&Hn3&_). apply wp_ret. right.
  exists req. eexists (mkNode (env_uuid (w_tick w2)) _ _ _ _ _ _ _ _ _), key, nonce, (env_now (w_tick w2)).
  split_and!; try done.
  - rewrite <- Hn1. apply eq_None_not_Some. by apply bool_decide_eq_false in Hb.
  - rewrite Hn3. simpl. by rewrite Hn1.
Qed.

(** Rotating a node's token takes effect: when the update that carries a
    token is answered 200, the Proxmox client cached under the old token is
    gone, so the next deployment builds one from the new row. *)
Theorem Update_drops_client (h : Handler) (id token : string) (req : UpdateNodeRequest) (w : World)
  (Htok : un_APIToken req = Some token) (Hprov : h_provisioner h = true) :
  wp (Update h id (Some req)) (fun r w' =>
    r_Status r = StatusOK -> w_clients w' !! id = None) w.
Proof.
  unfold Update. destruct (negb _); [by apply wp_ret|].
  destruct (match un_Status req with Some s => _ | None => _ end); [by apply wp_ret|].
  destruct (match un_TotalRAMMB req with Some s => _ | None => _ end); [by apply wp_ret|].
  destruct (match un_ProxmoxURL req with Some s => _ | None => _ end); [by apply wp_ret|].
  rewrite Htok. apply wp_bind, wp_Encrypt_raw; [intros; by apply wp_ret|]. intros key nonce w1 _ _ _.
  unfold update_encrypted. apply wp_bind.
  match goal with |- wp ?p ?Q ?w => apply (wp_mono p (fun _ _ => True)) end; [done|].
  intros [[n|]|e] w2 _; [|by apply wp_ret|].
  - cbn [un_APIToken]. rewrite Hprov. apply wp_bind, wp_atom. simpl.
    apply wp_bind, wp_audit_log. intros w3 (_&_&_&Hc&_). apply wp_ret. intros _.
    rewrite Hc. apply lookup_delete_eq.
  - destruct (errors_Is _ _); [by apply wp_ret|]. destruct (errors_Is _ _); by apply wp_ret.
Qed.

(** A node whose tenants are all deleted still cannot be deleted when one
    of their rows remains: the guard of the endpoint counts only non-deleted
    tenants, while the foreign key of the [tenants] table holds for every row,
    so the request passes the guard and fails with 500. Rows are never removed
    from [tenants], so the node stays for ever. *)
Theorem Delete_node_stuck (h : Handler) (id : string) (w : World)
  (Hid : ValidUUID id = true) (Hnode : is_Some (w_nodes w !! id))
  (Hdead : forall k t, w_tenants w !! k = Some t -> t_NodeID t = id -> t_Status t = deleted)
  (Href : exists k t, w_tenants w !! k = Some t /\ t_NodeID t = id)
  (Hup : env_fault (w_tick w) = None /\ env_fault (S (w_tick w)) = None) :
  wp (Delete h id) (fun r w' =>
    r = Error StatusInternalServerError "failed to delete node" /\ w_nodes w' = w_nodes w) w.
Proof.
  destruct Hup as [Hf1 Hf2]. unfold Delete. rewrite Hid. cbn [negb].
  apply wp_bind, wp_bind, wp_stmt; [congruence|]. intros _. apply wp_ret. cbn [fst snd].
  set (w1 := set_tick (S (w_tick w)) w).
  assert (select (fun t => references_node id t && live t) (w_tenants w1) = []) as ->.
  { destruct (select _ _) as [|t l] eqn:E; [done|]. exfalso.
    assert (t ∈ select (fun t => references_node id t && live t) (w_tenants w1)) as Ht
      by (rewrite E; apply elem_of_cons; by left).
    apply elem_of_select in Ht as (Hb & k & Ht). apply andb_prop in Hb as [Hn%String.eqb_eq Hl].
    pose proof (Hdead k t Ht Hn) as Hd. unfold live in Hl. by rewrite Hd in Hl. }
  simpl. apply wp_bind. unfold NodeStore.Delete. apply wp_bind, wp_stmt; [simpl; congruence|]. intros _.
  unfold delete_node. cbn [w_nodes w_tenants set_tick w1].
  destruct Hnode as [n ->].
  assert (existsb (references_node id) (rows (w_tenants w)) = true) as ->.
  { destruct Href as (k & t & Ht & Hn). apply existsb_exists. exists t. split.
    - apply list_elem_of_In, elem_of_rows. by exists k.
    - unfold references_node. by rewrite Hn, String.eqb_refl. }
  apply wp_ret. simpl. by apply wp_ret.
Qed.

End HandlerProofs.

(** ** Witnesses *)

Definition demo_handler : Handler := mkHandler true (hex_encode (repeat_string 32 "k")) true.

Definition demo_tenant (id node : string) (st : TenantStatus) : Tenant :=
  mkTenant id ("radio-" +:+ id) "p1" node (Some 101) (Some "10.10.10.2") ("radio-" +:+ id) st None None
    None None "free" None "unknown" None 5 5.

Lemma Update_drops_client_witness :
  let E := calm in
  let req := mkUpdateNode None (Some 8192) None (Some "new-token") in
  let w := set_clients {["a" := mkClient "a" "https://pve" "old"]} demo_world in
  (run (Update demo_handler "a" (Some req)) w).1 =
    JSON StatusOK (BNode (scan_node (nset_updated 2 (demo_node "a" 8192 1024)))) /\
  w_clients (run (Update demo_handler "a" (Some req)) w).2 !! "a" = None.
Proof.
  intros E req w.
  assert ((run (Update demo_handler "a" (Some req)) w).1 =
    JSON StatusOK (BNode (scan_node (nset_updated 2 (demo_node "a" 8192 1024))))) as Hr
    by (vm_compute; reflexivity).
  split; [exact Hr|].
  refine (@Update_drops_client calm demo_handler "a" "new-token" req w eq_refl eq_refl _).
  vm_compute. reflexivity.
Defined.

Lemma Delete_node_stuck_witness :
  let E := calm in
  let w := set_tenants {["t" := demo_tenant "t" "a" deleted]} demo_world in
  r_Status (run (Delete demo_handler "a") w).1 = StatusInternalServerError /\
  w_nodes (run (Delete demo_handler "a") w).2 = demo_nodes.
Proof.
  intros E w.
  assert (wp (Delete demo_handler "a") (fun r w' =>
    r = Error StatusInternalServerError "failed to delete node" /\ w_nodes w' = w_nodes w) w) as [H1 H2].
  { apply (@Delete_node_stuck calm demo_handler "a" w).
    - reflexivity.
    - vm_compute. eexists. reflexivity.
    - intros k t. unfold w, set_tenants, w_tenants. intros [<- <-]%lookup_singleton_Some. reflexivity.
    - exists "t", (demo_tenant "t" "a" deleted). split; reflexivity.
    - split; reflexivity. }
  split; [rewrite H1; reflexivity|exact H2].
Defined.
