(* ===== verification/WGStore.v ===== *)
(** * internal/wireguard/store.go: the peers table

    [wireguard_peers] with its constraints: the primary key, UNIQUE
    [public_key] and [wg_ip], the CHECK on [type], the foreign key to tenants
    (whose rows are never removed) and the [updated_at] trigger. *)

From stdpp Require Import gmap strings list fin_maps.
From Stdlib Require Import ZArith Lia.
From S2P Require Import Prelude GoStrings World Tables IPAlloc.
From S2P Require NodeStore.

Open Scope Z_scope.

Record CreatePeerRequest := mkCreatePeer {
  cp_Name : string; cp_Type : string; cp_Endpoint : string; cp_TenantID : string; cp_AllowedIPs : string }.

Record UpdatePeerRequest := mkUpdatePeer {
  up_Name : option string; up_Endpoint : option string; up_Enabled : option bool }.

Definition ValidPeerTypes (t : string) : bool :=
  String.eqb t "admin" || String.eqb t "node" || String.eqb t "user".

Definition ErrNoUpdate : error := EBase (Sentinel "wireguard: no fields to update").

(** The assignments of the UPDATE statements. *)
Inductive PeerSet := PSetName (v : string) | PSetEndpoint (v : string) | PSetEnabled (v : bool).

Definition apply_pset (c : PeerSet) (p : Peer) : Peer :=
  let '(mkPeer id name pub psk ip allowed ep typ ten en cr up) := p in
  match c with
  | PSetName v => mkPeer id v pub psk ip allowed ep typ ten en cr up
  | PSetEndpoint v => mkPeer id name pub psk ip allowed (Some v) typ ten en cr up
  | PSetEnabled v => mkPeer id name pub psk ip allowed ep typ ten v cr up
  end.

Definition pset_updated (now : Z) (p : Peer) : Peer :=
  let '(mkPeer id name pub psk ip allowed ep typ ten en cr _) := p in
  mkPeer id name pub psk ip allowed ep typ ten en cr now.

(** Two peers the unique indexes do not allow together. *)
Definition peer_clash (p o : Peer) : bool :=
  String.eqb (pe_PublicKey p) (pe_PublicKey o) || String.eqb (pe_WgIP p) (pe_WgIP o).

Section Store.
Context `{Env}.

Definition List : P (res (list Peer)) :=
  let? peers := query (fun w => order_desc pe_CreatedAt (rows (w_peers w)))
  catch e => Ret (Fail (EWrap "query wireguard_peers" e)) in
  Ret (Ok peers).

Definition ListByType (peerType : string) : P (res (list Peer)) :=
  let? peers := query (fun w =>
    order_desc pe_CreatedAt (select (fun p => String.eqb (pe_Type p) peerType) (w_peers w)))
  catch e => Ret (Fail (EWrap "query wireguard_peers by type" e)) in
  Ret (Ok peers).

Definition ListEnabled : P (res (list Peer)) :=
  let? peers := query (fun w => order_desc pe_CreatedAt (select pe_Enabled (w_peers w)))
  catch e => Ret (Fail (EWrap "query enabled peers" e)) in
  Ret (Ok peers).

Definition GetByID (id : string) : P (res (option Peer)) :=
  let? p := query (fun w => w_peers w !! id)
  catch e => Ret (Fail (EWrap "query peer" e)) in
  Ret (Ok p).

(** [LIMIT 1] without an order: some linked peer. *)
Definition GetByTenantID (tenantID : string) : P (res (option Peer)) :=
  let? p := query (fun w =>
    head (select (fun p => bool_decide (pe_TenantID p = Some tenantID)) (w_peers w)))
  catch e => Ret (Fail (EWrap "query peer by tenant" e)) in
  Ret (Ok p).

(** The INSERT, which takes the columns of [p] but not its key and times. *)
Definition insert_peer (p : Peer) (w : World) : res Peer * World :=
  let id := env_uuid (w_tick w) in
  let now := env_now (w_tick w) in
  let p' := mkPeer id (pe_Name p) (pe_PublicKey p) (pe_PresharedKeyEncrypted p) (pe_WgIP p)
              (pe_AllowedIPs p) (pe_Endpoint p) (pe_Type p) (pe_TenantID p) (pe_Enabled p) now now in
  if negb (ValidPeerTypes (pe_Type p)) then (Fail (EBase (PgError check_violation)), w)
  else if bool_decide (is_Some (w_peers w !! id)) || existsb (peer_clash p') (rows (w_peers w)) then
    (Fail (EBase (PgError unique_violation)), w)
  else if match pe_TenantID p with Some t => negb (bool_decide (is_Some (w_tenants w !! t))) | None => false end
  then (Fail (EBase (PgError fk_violation)), w)
  else (Ok p', set_peers (<[id := p']> (w_peers w)) w).

Definition Create (p : Peer) : P (res Peer) :=
  let? r := stmt (insert_peer p) catch e => Ret (Fail (EWrap "insert peer" e)) in
  Ret (Ok r).

(** [UPDATE wireguard_peers SET ... WHERE id = $k]; the row written, if any. *)
Definition update_peer (id : string) (sets : list PeerSet) (w : World) : res (option Peer) * World :=
  match w_peers w !! id with
  | None => (Ok None, w)
  | Some p =>
      let p' := pset_updated (env_now (w_tick w)) (fold_left (fun p c => apply_pset c p) sets p) in
      (Ok (Some p'), set_peers (<[id := p']> (w_peers w)) w)
  end.

(** The SET clauses, in the order the code appends them. *)
Definition peer_sets (req : UpdatePeerRequest) : list PeerSet :=
  match up_Name req with Some v => [PSetName v] | None => [] end ++
  match up_Endpoint req with Some v => [PSetEndpoint v] | None => [] end ++
  match up_Enabled req with Some v => [PSetEnabled v] | None => [] end.

Definition Update (id : string) (req : UpdatePeerRequest) : P (res (option Peer)) :=
  match peer_sets req with
  | [] => Ret (Fail ErrNoUpdate)
  | sets =>
      let? p := stmt (update_peer id sets) catch e => Ret (Fail (EWrap "update peer" e)) in
      Ret (Ok p)
  end.

Definition delete_peer (id : string) (w : World) : res bool * World :=
  (Ok (bool_decide (is_Some (w_peers w !! id))), set_peers (base.delete id (w_peers w)) w).

Definition Delete (id : string) : P (option error) :=
  let? affected := stmt (delete_peer id) catch e => Ret (Some (EWrap "delete peer" e)) in
  Ret (if (affected : bool) then None else Some NodeStore.ErrNoRows).

Definition SetEnabled (id : string) (enabled : bool) : P (option error) :=
  let? p := stmt (update_peer id [PSetEnabled enabled])
  catch e => Ret (Some (EWrap "set peer enabled" e)) in
  Ret (match p with Some _ => None | None => Some NodeStore.ErrNoRows end).

(** Every peer row holds an address. *)
Definition peer_ips : P (res (gset string)) :=
  let? r := query (fun w => CollectIPs (map pe_WgIP (rows (w_peers w))))
  catch e => Ret (Fail (EWrap "query existing IPs" e)) in
  Ret (Ok r).

Definition GetNextAvailableIP (subnet : string) : P (res string) := Allocate subnet peer_ips.

End Store.

(** ** The invariant of the table *)

(** Keys, unique public keys and addresses, and the CHECK on types. *)
Definition peers_ok (m : gmap string Peer) : Prop :=
  (forall id p, m !! id = Some p -> pe_ID p = id /\ ValidPeerTypes (pe_Type p) = true) /\
  (forall i j p q, m !! i = Some p -> m !! j = Some q ->
     pe_PublicKey p = pe_PublicKey q \/ pe_WgIP p = pe_WgIP q -> i = j).

(** What no statement on an existing row changes. *)
Definition peer_identity (p : Peer) : string * string * option string * string * string * string * option string * Z :=
  (pe_ID p, pe_PublicKey p, pe_PresharedKeyEncrypted p, pe_WgIP p, pe_AllowedIPs p, pe_Type p,
   pe_TenantID p, pe_CreatedAt p).

Lemma apply_pset_identity c p : peer_identity (apply_pset c p) = peer_identity p.
Proof. by destruct p, c. Qed.

Lemma update_peer_identity now sets p :
  peer_identity (pset_updated now (fold_left (fun p c => apply_pset c p) sets p)) = peer_identity p.
Proof.
  revert p. induction sets as [|c sets IH]; intros p; simpl; [by destruct p|].
  by rewrite IH, apply_pset_identity.
Qed.

Lemma peers_ok_empty : peers_ok ∅.
Proof. split; intros; by rewrite lookup_empty in *. Qed.

Lemma peers_ok_delete id m : peers_ok m -> peers_ok (base.delete id m).
Proof.
  intros [H1 H2]. split.
  - intros j p [_ Hj]%lookup_delete_Some. auto.
  - intros i j p q [_ Hi]%lookup_delete_Some [_ Hj]%lookup_delete_Some. by eapply H2.
Qed.

Lemma peers_ok_update id p p' m :
  peers_ok m -> m !! id = Some p -> peer_identity p' = peer_identity p -> peers_ok (<[id := p']> m).
Proof.
  intros [H1 H2] Hp E. injection E as E1 E2 E3 E4 E5 E6 E7 E8.
  assert (forall j q, <[id := p']> m !! j = Some q -> exists q0, m !! j = Some q0 /\
    pe_ID q = pe_ID q0 /\ pe_PublicKey q = pe_PublicKey q0 /\ pe_WgIP q = pe_WgIP q0 /\ pe_Type q = pe_Type q0)
    as Hsame.
  { intros j q [[<- <-]|[_ Hj]]%lookup_insert_Some; [by exists p|by exists q]. }
  split.
  - intros j q Hq. destruct (Hsame j q Hq) as (q0 & Hq0 & -> & _ & _ & ->). auto.
  - intros i j a b Ha Hb Hc. destruct (Hsame i a Ha) as (a0 & Ha0 & _ & Ea & Eb & _).
    destruct (Hsame j b Hb) as (b0 & Hb0 & _ & Fa & Fb & _). eapply H2; [done..|]. by rewrite <- Ea, <- Eb, <- Fa, <- Fb.
Qed.

Lemma peers_ok_insert id p m :
  peers_ok m -> pe_ID p = id -> ValidPeerTypes (pe_Type p) = true ->
  existsb (peer_clash p) (rows m) = false -> peers_ok (<[id := p]> m).
Proof.
  intros [H1 H2] Hid Ht Hc.
  assert (forall j q, m !! j = Some q -> ~ (pe_PublicKey p = pe_PublicKey q \/ pe_WgIP p = pe_WgIP q)) as Hn.
  { intros j q Hq Hor. assert (existsb (peer_clash p) (rows m) = true) as Ht'; [|congruence].
    apply existsb_exists. exists q. split; [apply list_elem_of_In, elem_of_rows; eauto|].
    unfold peer_clash. destruct Hor as [->| ->]; rewrite String.eqb_refl; [done|apply orb_true_r]. }
  split.
  - intros j q [[<- <-]|[_ Hj]]%lookup_insert_Some; auto.
  - intros i j a b [[<- <-]|[Hi Ha]]%lookup_insert_Some [[<- <-]|[Hj Hb]]%lookup_insert_Some Hor; [done| | |eauto].
    + destruct (Hn _ _ Hb Hor).
    + destruct (Hn _ _ Ha). destruct Hor; [left|right]; done.
Qed.

Section Keeps.
Context `{Env}.

Lemma insert_peer_ok p w : peers_ok (w_peers w) -> peers_ok (w_peers (insert_peer p w).2).
Proof.
  intros Hw. unfold insert_peer. destruct (negb _) eqn:Et; [done|].
  destruct (_ || _) eqn:Ec; [done|]. apply orb_false_elim in Ec as [_ Ec].
  case_match; [done|]. apply peers_ok_insert; [done|done| |done]. by apply negb_false_iff in Et.
Qed.

Lemma update_peer_ok id sets w : peers_ok (w_peers w) -> peers_ok (w_peers (update_peer id sets w).2).
Proof.
  intros Hw. unfold update_peer. destruct (w_peers w !! id) as [p|] eqn:Hp; [|done].
  simpl. eapply peers_ok_update; [done..|]. apply update_peer_identity.
Qed.

End Keeps.

#[global] Arguments insert_peer : simpl never.
#[global] Arguments update_peer : simpl never.
#[global] Arguments delete_peer : simpl never.
