(* ===== verification/WGService.v ===== *)
(** * internal/wireguard/service.go: the WireGuard hub

    Key generation, peer creation, client configurations and applying peers to
    the hub's interface with the [wg] command. The keys of wgtypes, the QR
    encoder and what [wg show] prints are parameters ([WgLib]); each run of
    [wg] is one remote call. The service's network is taken to be an IPv4
    prefix or malformed: no address can be allocated from an IPv6 one. *)

From stdpp Require Import gmap strings list fin_maps.
From Stdlib Require Import Ascii ZArith Lia.
From S2P Require Import Prelude GoStrings NetIP World Crypto WGValidate.
From S2P Require Import WGStore.

Open Scope Z_scope.

(** golang.zx2c4.com/wireguard/wgctrl/wgtypes (keys as their base64 text),
    go-qrcode, and the output of [wg show <iface> peers]. *)
Class WgLib := {
  wg_private_key : nat -> res string;
  wg_public_key : string -> string;
  wg_key : nat -> res string;
  qr_encode : string -> res string;
  wg_show_output : nat -> string }.

Definition defaultInterface : string := "wg0".
Definition defaultDNSAddr : string := "10.10.0.1".
Definition defaultKeepalive : Z := 25.
Definition defaultAddrBits : Z := 24.

Record Service := mkService {
  sv_encryptionKey : string; sv_hubPublicKey : string; sv_hubEndpoint : string;
  sv_networkCIDR : string; sv_iface : string; sv_dnsAddr : string; sv_keepalive : Z }.

Definition NewService (encryptionKey hubPublicKey hubEndpoint networkCIDR : string) : Service :=
  mkService encryptionKey hubPublicKey hubEndpoint
    (if is_empty networkCIDR then "10.10.0.0/24" else networkCIDR)
    defaultInterface defaultDNSAddr defaultKeepalive.

Definition WithInterface (name : string) (s : Service) : Service :=
  if is_empty name then s else
  mkService (sv_encryptionKey s) (sv_hubPublicKey s) (sv_hubEndpoint s) (sv_networkCIDR s) name
    (sv_dnsAddr s) (sv_keepalive s).

Definition WithDNSAddr (addr : string) (s : Service) : Service :=
  if is_empty addr then s else
  mkService (sv_encryptionKey s) (sv_hubPublicKey s) (sv_hubEndpoint s) (sv_networkCIDR s) (sv_iface s)
    addr (sv_keepalive s).

Definition WithKeepalive (seconds : Z) (s : Service) : Service :=
  if 0 <? seconds then
    mkService (sv_encryptionKey s) (sv_hubPublicKey s) (sv_hubEndpoint s) (sv_networkCIDR s) (sv_iface s)
      (sv_dnsAddr s) seconds
  else s.

(** [p != nil && *p != ""]. *)
Definition given (o : option string) : option string :=
  match o with Some v => if is_empty v then None else Some v | None => None end.

Definition nl : string := String "010" EmptyString.

Section Service.
Context `{Env} `{WgLib} (s : Service).

Definition GenerateKeypair : P (res (string * string)) :=
  let? key := sample wg_private_key catch e => Ret (Fail (EWrap "generate private key" e)) in
  Ret (Ok (key, wg_public_key key)).

Definition GeneratePresharedKey : P (res string) :=
  let? key := sample wg_key catch e => Ret (Fail (EWrap "generate preshared key" e)) in
  Ret (Ok key).

Definition EncryptPSK (psk : string) : P (res string) := Encrypt psk (sv_encryptionKey s).
Definition DecryptPSK (encrypted : string) : res string := Decrypt encrypted (sv_encryptionKey s).

(** The row to insert. *)
Definition new_peer (req : CreatePeerRequest) (publicKey encryptedPSK wgIP : string) : Peer :=
  mkPeer EmptyString (cp_Name req) publicKey (Some encryptedPSK) wgIP
    (if is_empty (cp_AllowedIPs req) then wgIP +:+ "/32" else cp_AllowedIPs req)
    (given (Some (cp_Endpoint req))) (cp_Type req) (given (Some (cp_TenantID req))) true 0 0.

Definition CreatePeer (req : CreatePeerRequest) : P (res (Peer * string)) :=
  let? keys := GenerateKeypair catch e => Ret (Fail (EWrap "generate keypair" e)) in
  let? psk := GeneratePresharedKey catch e => Ret (Fail (EWrap "generate psk" e)) in
  let? encryptedPSK := EncryptPSK psk catch e => Ret (Fail (EWrap "encrypt psk" e)) in
  let? wgIP := GetNextAvailableIP (sv_networkCIDR s) catch e => Ret (Fail (EWrap "allocate IP" e)) in
  let? created := Create (new_peer req keys.2 encryptedPSK wgIP)
  catch e => Ret (Fail (EWrap "create peer in DB" e)) in
  Ret (Ok (created, keys.1)).

(** What the network contributes to a client's file: DNS server, routes and
    interface mask. *)
Definition client_net : string * string * Z :=
  match ParsePrefix4 (sv_networkCIDR s) with
  | Some prefix =>
      (match AddrNext (Some (p_addr prefix)) with Some a => AddrString a | None => "invalid IP" end,
       PrefixString prefix, p_bits prefix)
  | None => (sv_dnsAddr s, sv_networkCIDR s, defaultAddrBits)
  end.

Definition line (key value : string) : string := key +:+ " = " +:+ value +:+ nl.

Definition BuildPeerConfig (peer : Peer) (privateKey : string) : string :=
  let '(dnsAddr, peerAllowedIPs, addrBits) := client_net in
  "[Interface]" +:+ nl +:+
  line "Address" (pe_WgIP peer +:+ "/" +:+ itoa addrBits) +:+
  line "PrivateKey" privateKey +:+
  line "DNS" dnsAddr +:+
  nl +:+
  "[Peer]" +:+ nl +:+
  line "PublicKey" (sv_hubPublicKey s) +:+
  match given (pe_PresharedKeyEncrypted peer) with
  | Some enc => match DecryptPSK enc with Ok psk => line "PresharedKey" psk | Fail _ => EmptyString end
  | None => EmptyString
  end +:+
  line "AllowedIPs" peerAllowedIPs +:+
  line "Endpoint" (sv_hubEndpoint s) +:+
  line "PersistentKeepalive" (itoa (sv_keepalive s)).

Definition GenerateQRCode (config : string) : res string := wrap_res "generate qr code" (qr_encode config).

(** The arguments after the key in [wg set <iface> peer <key> ...]. *)
Definition peer_args (peer : Peer) : list string :=
  ["allowed-ips"; pe_AllowedIPs peer] ++
  match given (pe_Endpoint peer) with Some e => ["endpoint"; e] | None => [] end.

Definition wg_set (publicKey : string) (args : list string) (stdin : option string) : P (option error) :=
  ext (EvWg (["set"; sv_iface s; "peer"; publicKey] ++ args) stdin).

Definition ApplyPeer (peer : Peer) : P (option error) :=
  match given (pe_PresharedKeyEncrypted peer) with
  | Some enc =>
      match DecryptPSK enc with
      | Fail e => Ret (Some (EWrap "decrypt psk for apply" e))
      | Ok psk =>
          if_err e := wg_set (pe_PublicKey peer) (peer_args peer ++ ["preshared-key"; "/dev/stdin"]) (Some psk)
          then Ret (Some (EWrap "wg set peer" e)) else Ret None
      end
  | None =>
      if_err e := wg_set (pe_PublicKey peer) (peer_args peer) None
      then Ret (Some (EWrap "wg set peer" e)) else Ret None
  end.

Definition RemovePeer (publicKey : string) : P (option error) :=
  if_err e := wg_set publicKey ["remove"] None
  then Ret (Some (EWrap "wg remove peer" e)) else Ret None.

(** The lines of the output that are base64. *)
Definition parse_peers (output : string) : list string :=
  List.filter (fun l => negb (is_empty l) && match base64_len l with Some _ => true | None => false end)
    (map trim_space (split "010" (trim_space output))).

Definition getWGPeers : P (res (list string)) :=
  if_err e := ext (EvWg ["show"; sv_iface s; "peers"] None)
  then Ret (Fail (EWrap "wg show peers" e)) else
  let! output := sample wg_show_output in
  Ret (Ok (parse_peers output)).

(** The two loops of [SyncPeers]; errors of single peers are logged. *)
Fixpoint apply_enabled (peers : list Peer) : P unit :=
  match peers with
  | [] => Ret tt
  | p :: ps => (if pe_Enabled p then let! _err := ApplyPeer p in Ret tt else Ret tt) ;;; apply_enabled ps
  end.

Fixpoint remove_others (enabledKeys : gset string) (keys : list string) : P unit :=
  match keys with
  | [] => Ret tt
  | k :: ks =>
      (if bool_decide (k ∈ enabledKeys) then Ret tt else let! _err := RemovePeer k in Ret tt) ;;;
      remove_others enabledKeys ks
  end.

Definition enabled_keys (peers : list Peer) : gset string :=
  list_to_set (map pe_PublicKey (List.filter pe_Enabled peers)).

Definition SyncPeers : P (option error) :=
  let? peers := List catch e => Ret (Some (EWrap "list peers for sync" e)) in
  let? currentPeers := getWGPeers catch e => Ret None in
  apply_enabled peers ;;;
  remove_others (enabled_keys peers) currentPeers ;;;
  Ret None.

End Service.
