(* ===== verification/WGHandler.v ===== *)
(** * internal/wireguard/handler.go: the peer endpoints *)

From stdpp Require Import gmap strings list fin_maps.
From Stdlib Require Import Ascii ZArith Lia.
From S2P Require Import Prelude GoStrings World Response WGValidate WGStore WGService.
From S2P Require NodeStore AuditStore.

Open Scope Z_scope.

Record Handler := mkHandler { wh_service : Service; wh_auditStore : bool }.

Section Handler.
Context `{Env} `{WgLib} (h : Handler).

Definition audit_log (action id : string) (details : option (list (string * string))) : P unit :=
  if wh_auditStore h then AuditStore.Log action "wireguard_peer" id details else Ret tt.

Definition ListPeers (filterType : string) : P HTTPResponse :=
  let? peers := (if negb (is_empty filterType) && ValidPeerTypes filterType
                 then ListByType filterType else List)
  catch e => Ret (Error StatusInternalServerError "failed to list peers") in
  Ret (JSON StatusOK (BPeers peers)).

(** The look-up every endpoint on one peer starts with. *)
Definition with_peer (id : string) (k : Peer -> P HTTPResponse) : P HTTPResponse :=
  if negb (ValidUUID id) then Ret (Error StatusBadRequest "invalid peer ID format") else
  let? peer := GetByID id catch e => Ret (Error StatusInternalServerError "failed to get peer") in
  match peer with
  | None => Ret (Error StatusNotFound "peer not found")
  | Some peer => k peer
  end.

Definition GetPeer (id : string) : P HTTPResponse := with_peer id (fun peer => Ret (JSON StatusOK (BPeer peer))).

Definition CreatePeer (body : option CreatePeerRequest) : P HTTPResponse :=
  match body with
  | None => Ret (Error StatusBadRequest "invalid request body")
  | Some req =>
      if is_empty (cp_Name req) || is_empty (cp_Type req) then
        Ret (Error StatusBadRequest "name and type are required")
      else if negb (ValidPeerTypes (cp_Type req)) then
        Ret (Error StatusBadRequest "invalid type: must be admin, node, or user")
      else
      match (if is_empty (cp_AllowedIPs req) then None else ValidateAllowedIPs (cp_AllowedIPs req)) with
      | Some e => Ret (Error StatusBadRequest ("invalid allowed_ips: " +:+ e))
      | None =>
      match (if is_empty (cp_Endpoint req) then None else ValidateEndpoint (cp_Endpoint req)) with
      | Some e => Ret (Error StatusBadRequest ("invalid endpoint: " +:+ e))
      | None =>
          let? created := WGService.CreatePeer (wh_service h) req
          catch e => (if is_pg_code e unique_violation
                      then Ret (Error StatusConflict "peer with this public key or IP already exists")
                      else Ret (Error StatusInternalServerError "failed to create peer")) in
          let '(peer, privateKey) := created in
          audit_log "create" (pe_ID peer) (Some [("name", cp_Name req); ("type", cp_Type req)]) ;;;
          Ret (JSON StatusCreated (BPeerCreated peer privateKey (BuildPeerConfig (wh_service h) peer privateKey)))
      end
      end
  end.

Definition UpdatePeer (id : string) (body : option UpdatePeerRequest) : P HTTPResponse :=
  if negb (ValidUUID id) then Ret (Error StatusBadRequest "invalid peer ID format") else
  match body with
  | None => Ret (Error StatusBadRequest "invalid request body")
  | Some req =>
      let? peer := Update id req
      catch e => (if errors_Is e ErrNoUpdate
                  then Ret (Error StatusBadRequest "no fields to update")
                  else Ret (Error StatusInternalServerError "failed to update peer")) in
      match peer with
      | None => Ret (Error StatusNotFound "peer not found")
      | Some peer =>
          audit_log "update" id None ;;;
          Ret (JSON StatusOK (BPeer peer))
      end
  end.

Definition status_body (v : string) : Body := BJson (JObject [("status", JString v)]).

(** The answer to an error of a write on the peer. *)
Definition write_failed (msg : string) (e : error) : P HTTPResponse :=
  if errors_Is e NodeStore.ErrNoRows then Ret (Error StatusNotFound "peer not found")
  else Ret (Error StatusInternalServerError msg).

Definition DeletePeer (id : string) : P HTTPResponse :=
  with_peer id (fun peer =>
    let! _err := RemovePeer (wh_service h) (pe_PublicKey peer) in
    if_err e := Delete id then write_failed "failed to delete peer" e else
    audit_log "delete" id (Some [("name", pe_Name peer)]) ;;;
    Ret (JSON StatusOK (status_body "deleted"))).

Definition EnablePeer (id : string) : P HTTPResponse :=
  if negb (ValidUUID id) then Ret (Error StatusBadRequest "invalid peer ID format") else
  if_err e := SetEnabled id true then write_failed "failed to enable peer" e else
  (let! peer := GetByID id in
   match peer with
   | Ok (Some peer) => let! _err := ApplyPeer (wh_service h) peer in Ret tt
   | _ => Ret tt
   end) ;;;
  audit_log "enable" id None ;;;
  Ret (JSON StatusOK (status_body "enabled")).

Definition DisablePeer (id : string) : P HTTPResponse :=
  with_peer id (fun peer =>
    if_err e := SetEnabled id false then write_failed "failed to disable peer" e else
    let! _err := RemovePeer (wh_service h) (pe_PublicKey peer) in
    audit_log "disable" id None ;;;
    Ret (JSON StatusOK (status_body "disabled"))).

(** The key was shown when the peer was created and is not stored. *)
Definition placeholder : string := "<PRIVATE_KEY>".

Definition GetPeerConfig (id : string) : P HTTPResponse :=
  with_peer id (fun peer =>
    Ret (JSON StatusOK (BJson (JObject
      [("config", JString (BuildPeerConfig (wh_service h) peer placeholder))])))).

Definition GetPeerQR (id : string) : P HTTPResponse :=
  with_peer id (fun peer =>
    match GenerateQRCode (BuildPeerConfig (wh_service h) peer placeholder) with
    | Fail _ => Ret (Error StatusInternalServerError "failed to generate QR code")
    | Ok png => Ret (JSON StatusOK (BJson (JObject [("qr_base64", JString (base64_encode png))])))
    end).

End Handler.
