(* ===== verification/WGSpec.v ===== *)
(** * The WireGuard hub: what creating, applying and disabling peers does

    The interface of the hub is a map from public keys to what the kernel keeps
    for a peer; [wg_effect] is what the manual of [wg] says the commands the
    service issues do to it. *)

From stdpp Require Import gmap strings list fin_maps sorting.
From Stdlib Require Import Ascii ZArith Lia.
From S2P Require Import Prelude GoStrings NetIP World IPAlloc Crypto Response Tables WGValidate WGStore WGService.
From S2P Require AuditStore WGHandler.

Open Scope Z_scope.

(** ** The interface *)

Record PeerConf := mkConf { cf_allowed : gset string; cf_endpoint : option string; cf_psk : option string }.

Section Interface.
(** The prefixes [wg] reads in a value of [allowed-ips], in the kernel's form. *)
Variable prefixes : string -> gset string.

Definition strip (ps : gset string) (c : PeerConf) : PeerConf :=
  mkConf (cf_allowed c ∖ ps) (cf_endpoint c) (cf_psk c).

(** A prefix belongs to one peer: giving it to [k] takes it from every other. *)
Definition set_allowed (k : string) (ps : gset string) (m : gmap string PeerConf) : gmap string PeerConf :=
  let c := default (mkConf ∅ None None) (m !! k) in
  <[k := mkConf ps (cf_endpoint c) (cf_psk c)]> (strip ps <$> m).

(** The settings of one [wg set ... peer k]: those that are given replace the
    peer's, the others stay. *)
Fixpoint set_args (k : string) (args : list string) (stdin : option string) (m : gmap string PeerConf) :
    gmap string PeerConf :=
  match args with
  | name :: v :: rest =>
      let c := default (mkConf ∅ None None) (m !! k) in
      set_args k rest stdin
        (if String.eqb name "allowed-ips" then set_allowed k (prefixes v) m
         else if String.eqb name "endpoint" then <[k := mkConf (cf_allowed c) (Some v) (cf_psk c)]> m
         else if String.eqb name "preshared-key" then <[k := mkConf (cf_allowed c) (cf_endpoint c) stdin]> m
         else m)
  | _ => m
  end.

Definition wg_effect (iface : string) (m : gmap string PeerConf) (ev : Event) : gmap string PeerConf :=
  match ev with
  | EvWg (c :: i :: p :: k :: rest) stdin =>
      if String.eqb c "set" && String.eqb i iface && String.eqb p "peer" then
        if bool_decide (rest = ["remove"]) then base.delete k m
        else set_args k rest stdin (<[k := default (mkConf ∅ None None) (m !! k)]> m)
      else m
  | _ => m
  end.

(** The interface after a run of commands, all of which succeeded. *)
Definition replay (iface : string) (evs : list Event) (m : gmap string PeerConf) : gmap string PeerConf :=
  fold_left (wg_effect iface) evs m.

Lemma replay_app iface a b m : replay iface (a ++ b) m = replay iface b (replay iface a m).
Proof. apply fold_left_app. Qed.

Section Service.
Context `{Env} `{WgLib} (s : Service).

(** The preshared key [ApplyPeer] hands to [wg], if any; [None] when the stored
    one cannot be decrypted and the peer is not applied. *)
Definition peer_psk (p : Peer) : option (option string) :=
  match given (pe_PresharedKeyEncrypted p) with
  | Some enc => match DecryptPSK s enc with Ok psk => Some (Some psk) | Fail _ => None end
  | None => Some None
  end.

(** [x], or else [y]. *)
Definition or_else {A} (x y : option A) : option A := match x with Some _ => x | None => y end.

(** What applying a peer makes of the interface. *)
Definition apply_conf (p : Peer) (psk : option string) (m : gmap string PeerConf) : gmap string PeerConf :=
  let ps := prefixes (pe_AllowedIPs p) in
  let c := default (mkConf ∅ None None) (m !! pe_PublicKey p) in
  <[pe_PublicKey p := mkConf ps (or_else (given (pe_Endpoint p)) (cf_endpoint c)) (or_else psk (cf_psk c))]>
    (strip ps <$> m).

Definition applied (m : gmap string PeerConf) (p : Peer) : gmap string PeerConf :=
  if pe_Enabled p then match peer_psk p with Some psk => apply_conf p psk m | None => m end else m.

Lemma set_args_step k name v rest stdin m :
  set_args k (name :: v :: rest) stdin m =
  set_args k rest stdin
    (let c := default (mkConf ∅ None None) (m !! k) in
     if String.eqb name "allowed-ips" then set_allowed k (prefixes v) m
     else if String.eqb name "endpoint" then <[k := mkConf (cf_allowed c) (Some v) (cf_psk c)]> m
     else if String.eqb name "preshared-key" then <[k := mkConf (cf_allowed c) (cf_endpoint c) stdin]> m
     else m).
Proof. done. Qed.

Lemma set_allowed_touched k ps m :
  set_allowed k ps (<[k := default (mkConf ∅ None None) (m !! k)]> m) =
  let c := default (mkConf ∅ None None) (m !! k) in
  <[k := mkConf ps (cf_endpoint c) (cf_psk c)]> (strip ps <$> m).
Proof. unfold set_allowed. by rewrite lookup_insert_eq, fmap_insert, insert_insert_eq. Qed.

Lemma wg_effect_apply p psk m :
  wg_effect (sv_iface s) m
    (EvWg (["set"; sv_iface s; "peer"; pe_PublicKey p] ++ peer_args p ++
       match psk with Some _ => ["preshared-key"; "/dev/stdin"] | None => [] end) psk) = apply_conf p psk m.
Proof.
  unfold peer_args, apply_conf. cbn [app wg_effect]. rewrite !String.eqb_refl. cbn [String.eqb Ascii.eqb Bool.eqb andb].
  rewrite bool_decide_eq_false_2 by done. rewrite set_args_step. cbn [String.eqb Ascii.eqb Bool.eqb].
  rewrite set_allowed_touched. cbv zeta.
  destruct (given (pe_Endpoint p)) as [e|], psk as [psk|]; cbn [app];
    rewrite ?set_args_step; cbn [String.eqb Ascii.eqb Bool.eqb set_args];
    cbv zeta; cbn [String.eqb Ascii.eqb Bool.eqb set_args];
    repeat first [rewrite lookup_insert_eq | rewrite insert_insert_eq];
    cbn [default from_option id cf_allowed cf_endpoint cf_psk or_else]; reflexivity.
Qed.

Lemma wg_effect_remove k m :
  wg_effect (sv_iface s) m (EvWg (["set"; sv_iface s; "peer"; k] ++ ["remove"]) None) = base.delete k m.
Proof. simpl. by rewrite String.eqb_refl. Qed.

(** What a piece of the service does: no table changes, and its commands have
    a given effect on the interface. *)
Definition commands {A} (f : gmap string PeerConf -> gmap string PeerConf) (w : World) (_ : A) (w' : World) : Prop :=
  same_db w w' /\ exists evs, w_trace w' = w_trace w ++ evs /\ forall m, replay (sv_iface s) evs m = f m.

Lemma commands_none {A} w (a : A) w' : unchanged w w' -> commands id w a w'.
Proof. intros (Hs & _ & Ht). split; [done|]. exists []. by rewrite app_nil_r. Qed.

Lemma commands_seq {A B} f g w w1 w2 (a : A) (b : B) :
  commands f w a w1 -> commands g w1 b w2 -> commands (fun m => g (f m)) w b w2.
Proof.
  intros [S1 (e1 & T1 & R1)] [S2 (e2 & T2 & R2)]. split; [by etrans|].
  exists (e1 ++ e2). rewrite T2, T1, app_assoc. split; [done|]. intros m. by rewrite replay_app, R1, R2.
Qed.

Lemma wp_wg_set k args stdin f w :
  (forall m, wg_effect (sv_iface s) m (EvWg (["set"; sv_iface s; "peer"; k] ++ args) stdin) = f m) ->
  wp (wg_set s k args stdin) (commands f w) w.
Proof.
  intros Hf. apply wp_ext. intros w' Hs _ Ht. split; [done|]. eexists. split; [exact Ht|].
  intros m. apply Hf.
Qed.

Lemma wp_ApplyPeer p w :
  wp (ApplyPeer s p) (commands (fun m => match peer_psk p with Some psk => apply_conf p psk m | None => m end) w) w.
Proof.
  unfold ApplyPeer, peer_psk. destruct (given (pe_PresharedKeyEncrypted p)) as [enc|].
  - destruct (DecryptPSK s enc) as [psk|e]; [|by apply wp_ret, commands_none].
    apply wp_bind. eapply wp_mono; [apply wp_wg_set; intros m; exact (wg_effect_apply p (Some psk) m)|].
    intros [e|] w' Hw'; by apply wp_ret.
  - apply wp_bind. eapply wp_mono; [apply wp_wg_set; intros m; rewrite <- (wg_effect_apply p None m), app_nil_r; reflexivity|].
    intros [e|] w' Hw'; by apply wp_ret.
Qed.

Lemma wp_RemovePeer k w : wp (RemovePeer s k) (commands (base.delete k) w) w.
Proof.
  apply wp_bind. eapply wp_mono; [apply wp_wg_set; intros m; apply wg_effect_remove|].
  intros [e|] w' Hw'; by apply wp_ret.
Qed.

Lemma wp_apply_enabled ps w :
  wp (apply_enabled s ps) (commands (fun m => fold_left applied ps m) w) w.
Proof.
  revert w. induction ps as [|p ps IH]; intros w; [by apply wp_ret, commands_none|].
  apply wp_bind. eapply (wp_mono _ (commands (fun m => applied m p) w)).
  - unfold applied. destruct (pe_Enabled p); [|by apply wp_ret, commands_none].
    apply wp_bind. eapply wp_mono; [apply wp_ApplyPeer|]. intros; by apply wp_ret.
  - intros a w' Hw'. eapply wp_mono; [apply IH|]. intros b w2 Hw2. exact (commands_seq (fun m => applied m p) (fun m => fold_left applied ps m) _ _ _ _ _ Hw' Hw2).
Qed.

Definition removed (enabledKeys : gset string) (m : gmap string PeerConf) (k : string) : gmap string PeerConf :=
  if bool_decide (k ∈ enabledKeys) then m else base.delete k m.

Lemma wp_remove_others en ks w :
  wp (remove_others s en ks) (commands (fun m => fold_left (removed en) ks m) w) w.
Proof.
  revert w. induction ks as [|k ks IH]; intros w; [by apply wp_ret, commands_none|].
  apply wp_bind. eapply (wp_mono _ (commands (fun m => removed en m k) w)).
  - unfold removed. case_bool_decide; [by apply wp_ret, commands_none|].
    apply wp_bind. eapply wp_mono; [apply wp_RemovePeer|]. intros; by apply wp_ret.
  - intros a w' Hw'. eapply wp_mono; [apply IH|]. intros b w2 Hw2. exact (commands_seq (fun m => removed en m k) (fun m => fold_left (removed en) ks m) _ _ _ _ _ Hw' Hw2).
Qed.

(** ** What the two loops leave on the interface *)

(** The prefixes a peer takes when it is applied. *)
Definition claimed (p : Peer) : gset string :=
  if pe_Enabled p then match peer_psk p with Some _ => prefixes (pe_AllowedIPs p) | None => ∅ end else ∅.
Definition claimed_by (ps : list Peer) : gset string := union_list (map claimed ps).

Lemma claimed_by_spec ps x : x ∈ claimed_by ps <-> exists p, p ∈ ps /\ x ∈ claimed p.
Proof.
  unfold claimed_by. rewrite elem_of_union_list. setoid_rewrite list_elem_of_In. setoid_rewrite in_map_iff. split.
  - intros (X & (p & <- & Hin) & Hx). eauto.
  - intros (p & Hin & Hx). eauto.
Qed.

Lemma strip_none c : strip ∅ c = c.
Proof. unfold strip. destruct c as [a ep psk]. cbn. f_equal. set_solver. Qed.

Lemma applied_other m p k : pe_PublicKey p <> k -> applied m p !! k = strip (claimed p) <$> (m !! k).
Proof.
  intros Hk. unfold applied, claimed, apply_conf. destruct (pe_Enabled p); [destruct (peer_psk p)|].
  - by rewrite lookup_insert_ne, lookup_fmap.
  - destruct (m !! k); [|done]. cbn. by rewrite strip_none.
  - destruct (m !! k); [|done]. cbn. by rewrite strip_none.
Qed.

Lemma applied_idle m p k : pe_Enabled p = false -> applied m p !! k = strip (claimed p) <$> (m !! k).
Proof. intros He. unfold applied, claimed. rewrite He. destruct (m !! k); [|done]. cbn. by rewrite strip_none. Qed.

Lemma strip_strip a b c : strip b (strip a c) = strip (a ∪ b) c.
Proof. unfold strip. destruct c as [al ep psk]. cbn. f_equal. set_solver. Qed.

Lemma apply_all_other ps m k :
  (forall p, p ∈ ps -> pe_Enabled p = true -> pe_PublicKey p <> k) ->
  fold_left applied ps m !! k = strip (claimed_by ps) <$> (m !! k).
Proof.
  revert m. induction ps as [|p ps IH]; intros m Hp; cbn [fold_left].
  { destruct (m !! k); [|done]. cbn. by rewrite strip_none. }
  rewrite IH by set_solver.
  assert (applied m p !! k = strip (claimed p) <$> (m !! k)) as ->.
  { destruct (pe_Enabled p) eqn:Ee; [apply applied_other, Hp; set_solver|by apply applied_idle]. }
  destruct (m !! k); [|done]. cbn. by rewrite strip_strip.
Qed.

(** An enabled peer that is applied: its own prefixes but for those a later peer
    takes, and its endpoint and preshared key where the row has them. *)
Lemma apply_all_enabled l1 l2 m p psk :
  NoDup (map pe_PublicKey (l1 ++ p :: l2)) -> pe_Enabled p = true -> peer_psk p = Some psk ->
  let c := default (mkConf ∅ None None) (m !! pe_PublicKey p) in
  fold_left applied (l1 ++ p :: l2) m !! pe_PublicKey p =
    Some (mkConf (prefixes (pe_AllowedIPs p) ∖ claimed_by l2)
      (or_else (given (pe_Endpoint p)) (cf_endpoint c)) (or_else psk (cf_psk c))).
Proof.
  intros Hnd He Hp. cbv zeta. rewrite map_app in Hnd. cbn [map] in Hnd.
  apply NoDup_app in Hnd as (_ & Hn1 & [Hn2 _]%NoDup_cons).
  assert (forall q, q ∈ l1 -> pe_PublicKey q <> pe_PublicKey p) as H1.
  { intros q Hq E. apply (Hn1 (pe_PublicKey q)); [apply list_elem_of_In, in_map, list_elem_of_In, Hq|].
    rewrite E. apply elem_of_cons. by left. }
  assert (forall q, q ∈ l2 -> pe_PublicKey q <> pe_PublicKey p) as H2.
  { intros q Hq E. apply Hn2. rewrite <- E. apply list_elem_of_In, in_map, list_elem_of_In, Hq. }
  rewrite fold_left_app. cbn [fold_left]. rewrite apply_all_other by auto.
  unfold applied at 1. rewrite He, Hp. unfold apply_conf. rewrite lookup_insert_eq, apply_all_other by auto.
  by destruct (m !! pe_PublicKey p).
Qed.

Lemma remove_all_lookup en ks m k :
  fold_left (removed en) ks m !! k = if decide (k ∈ ks /\ k ∉ en) then None else m !! k.
Proof.
  revert m. induction ks as [|j ks IH]; intros m; cbn [fold_left].
  { rewrite decide_False; [done|]. by intros [?%elem_of_nil _]. }
  rewrite IH. unfold removed. destruct (decide (k ∈ ks /\ k ∉ en)) as [Hd|Hd].
  { rewrite decide_True; [done|]. split; [by apply elem_of_cons; right; apply Hd|apply Hd]. }
  case_bool_decide as Hj.
  - rewrite decide_False; [done|]. intros [[->|Hin]%elem_of_cons Hn]; [done|]. by apply Hd.
  - destruct (decide (j = k)) as [->|Hne].
    + rewrite lookup_delete_eq, decide_True; [done|]. split; [by apply elem_of_cons; left|done].
    + rewrite lookup_delete_ne, decide_False; [done| |done].
      intros [[->|Hin]%elem_of_cons Hn]; [done|]. by apply Hd.
Qed.

Lemma elem_enabled_keys ps k :
  k ∈ enabled_keys ps <-> exists p, p ∈ ps /\ pe_Enabled p = true /\ pe_PublicKey p = k.
Proof.
  unfold enabled_keys. rewrite elem_of_list_to_set, list_elem_of_In, in_map_iff. split.
  - intros (p & <- & [Hin He]%filter_In). exists p. by rewrite list_elem_of_In.
  - intros (p & Hin & He & <-). exists p. by rewrite filter_In, <- list_elem_of_In.
Qed.

Lemma rows_nodup (m : gmap string Peer) :
  peers_ok m -> NoDup (map pe_PublicKey (order_desc pe_CreatedAt (rows m))).
Proof.
  intros [_ Hu]. unfold order_desc. change (map pe_PublicKey) with (fmap (M:=list) pe_PublicKey).
  rewrite (merge_sort_Permutation (key_ge pe_CreatedAt) (rows m)).
  unfold rows. rewrite <- list_fmap_compose. apply NoDup_fmap_2_strong; [|apply NoDup_map_to_list].
  intros [i p] [j q] Hi%elem_of_map_to_list Hj%elem_of_map_to_list Heq. simpl in Heq.
  assert (i = j) as <- by (eapply Hu; eauto). by simplify_eq.
Qed.

(** An enabled peer after all have been applied. *)
Lemma sync_enabled ps (rws : gmap string Peer) m id0 p :
  NoDup (map pe_PublicKey ps) -> (forall q, q ∈ ps <-> exists i, rws !! i = Some q) -> peers_ok rws ->
  rws !! id0 = Some p -> pe_Enabled p = true ->
  let m' := fold_left applied ps m in
  let before := default (mkConf ∅ None None) (m !! pe_PublicKey p) in
  match peer_psk p with
  | Some psk => exists c, m' !! pe_PublicKey p = Some c /\
      cf_endpoint c = or_else (given (pe_Endpoint p)) (cf_endpoint before) /\
      cf_psk c = or_else psk (cf_psk before) /\ cf_allowed c ⊆ prefixes (pe_AllowedIPs p) /\
      forall x, x ∈ prefixes (pe_AllowedIPs p) ->
        (forall j q, rws !! j = Some q -> j <> id0 -> x ∉ claimed q) -> x ∈ cf_allowed c
  | None =>
      match m !! pe_PublicKey p with
      | None => m' !! pe_PublicKey p = None
      | Some c => exists c', m' !! pe_PublicKey p = Some c' /\
          cf_endpoint c' = cf_endpoint c /\ cf_psk c' = cf_psk c /\ cf_allowed c' ⊆ cf_allowed c
      end
  end.
Proof.
  intros Hnd Hps Hok Hp He. cbv zeta.
  assert (p ∈ ps) as (l1 & l2 & ->)%list_elem_of_split by (apply Hps; eauto).
  pose proof Hnd as Hnd'. rewrite map_app in Hnd'. cbn [map] in Hnd'.
  apply NoDup_app in Hnd' as (_ & Hn1 & [Hn2 _]%NoDup_cons).
  assert (forall q, q ∈ l1 \/ q ∈ l2 -> pe_PublicKey q <> pe_PublicKey p) as Hother.
  { intros q [Hq|Hq] E.
    - apply (Hn1 (pe_PublicKey q)); [apply list_elem_of_In, in_map, list_elem_of_In, Hq|].
      rewrite E. apply elem_of_cons. by left.
    - apply Hn2. rewrite <- E. apply list_elem_of_In, in_map, list_elem_of_In, Hq. }
  destruct (peer_psk p) as [psk|] eqn:Epsk.
  - rewrite (apply_all_enabled l1 l2 m p psk Hnd He Epsk). eexists. split_and!; [done..|cbn; set_solver|].
    intros x Hx Hfree. cbn [cf_allowed]. apply elem_of_difference. split; [done|].
    intros (q & Hq & Hc)%claimed_by_spec.
    assert (exists j, rws !! j = Some q) as [j Hj] by (apply Hps; rewrite elem_of_app, elem_of_cons; auto).
    apply (Hfree j q Hj); [|done]. intros ->. assert (q = p) as -> by congruence. by destruct (Hother p (or_intror Hq)).
  - assert (fold_left applied (l1 ++ p :: l2) m !! pe_PublicKey p = strip (claimed_by (l1 ++ l2)) <$> (m !! pe_PublicKey p)) as ->.
    { rewrite fold_left_app. cbn [fold_left]. rewrite apply_all_other by auto.
      unfold applied at 1. rewrite He, Epsk. rewrite apply_all_other by auto.
      destruct (m !! pe_PublicKey p); [|done]. cbn. rewrite strip_strip. do 2 f_equal.
      unfold claimed_by. by rewrite map_app, union_list_app_L. }
    destruct (m !! pe_PublicKey p) as [c|]; [|done]. eexists. split; [done|]. cbn. set_solver.
Qed.

(** C35. Synchronisation makes the interface what the table says. On a database
    that answers and with [wg] commands that succeed, of which [show] lists the
    peers that are there, whatever was on the interface before, no table changes, and afterwards:
    an enabled peer whose preshared key, if it has one, can be decrypted is on
    the interface, with the endpoint and the preshared key of its row (one the
    row lacks stays as it was there), with no prefix that is not its own, and
    with every prefix of its own that no other enabled peer claims;
    an enabled peer whose preshared key cannot be decrypted is there if it was
    before, with the endpoint and the key it had;
    and no key of a disabled or deleted peer, nor any foreign key, is left. *)
Theorem SyncPeers_refines (w : World) (m : gmap string PeerConf)
  (Hpeers : peers_ok (w_peers w)) (Hup : forall t, env_fault t = None)
  (Hwg : forall t args stdin, env_ext t (EvWg args stdin) = None)
  (Hshow : forall t k, k ∈ parse_peers (wg_show_output t) <-> is_Some (m !! k)) :
  wp (SyncPeers s) (fun r w' => r = None /\ same_db w w' /\
    exists evs, w_trace w' = w_trace w ++ evs /\
      let m' := replay (sv_iface s) evs m in
      (forall id p, w_peers w !! id = Some p -> pe_Enabled p = true ->
         let before := default (mkConf ∅ None None) (m !! pe_PublicKey p) in
         match peer_psk p with
         | Some psk => exists c, m' !! pe_PublicKey p = Some c /\
             cf_endpoint c = or_else (given (pe_Endpoint p)) (cf_endpoint before) /\
             cf_psk c = or_else psk (cf_psk before) /\ cf_allowed c ⊆ prefixes (pe_AllowedIPs p) /\
             forall x, x ∈ prefixes (pe_AllowedIPs p) ->
               (forall j q, w_peers w !! j = Some q -> j <> id -> x ∉ claimed q) -> x ∈ cf_allowed c
         | None =>
             match m !! pe_PublicKey p with
             | None => m' !! pe_PublicKey p = None
             | Some c => exists c', m' !! pe_PublicKey p = Some c' /\
                 cf_endpoint c' = cf_endpoint c /\ cf_psk c' = cf_psk c /\ cf_allowed c' ⊆ cf_allowed c
             end
         end) /\
      forall k, (forall id p, w_peers w !! id = Some p -> pe_PublicKey p = k -> pe_Enabled p = false) ->
        m' !! k = None) w.
Proof.
  unfold SyncPeers, WGStore.List, getWGPeers. apply wp_bind, wp_bind, wp_query.
  { intros e w1 _ Hf. by rewrite Hup in Hf. }
  intros w1 H1 _. apply wp_ret. apply wp_bind, wp_bind, wp_ext. intros w2 S2 _ T2. rewrite Hwg.
  apply wp_bind, wp_sample. intros w3 H3. apply wp_ret.
  set (ps := order_desc pe_CreatedAt (rows (w_peers w1))). set (ks := parse_peers _).
  assert (commands id w ks w3) as C3.
  { split; [etrans; [apply H1|]; etrans; [exact S2|apply H3]|]. eexists. split.
    - destruct H1 as (_ & _ & E1), H3 as (_ & _ & E3). by rewrite E3, T2, E1.
    - done. }
  assert (w_peers w1 = w_peers w) as Ep by apply H1.
  apply wp_bind. eapply wp_mono; [apply wp_apply_enabled|]. intros a w4 C4.
  apply wp_bind. eapply wp_mono; [apply wp_remove_others|]. intros b w5 C5. apply wp_ret.
  pose proof (commands_seq _ _ _ _ _ _ _ (commands_seq _ _ _ _ _ _ _ C3 C4) C5) as [HS (evs & HT & HR)].
  split; [done|]. split; [done|]. exists evs. split; [done|]. cbv zeta. rewrite HR.
  change (id m) with m.
  assert (forall p, p ∈ ps <-> exists i, w_peers w !! i = Some p) as Hps.
  { intros p. unfold ps. by rewrite elem_of_order_desc, elem_of_rows, Ep. }
  assert (NoDup (map pe_PublicKey ps)) as Hnd by (unfold ps; rewrite Ep; by apply rows_nodup).
  split; [intros i p Hp He|intros k Hd].
  - assert (fold_left (removed (enabled_keys ps)) ks (fold_left applied ps m) !! pe_PublicKey p =
      fold_left applied ps m !! pe_PublicKey p) as ->.
    { rewrite remove_all_lookup, decide_False; [done|].
      intros [_ Hn]. apply Hn, elem_enabled_keys. exists p. rewrite Hps. eauto. }
    by apply (sync_enabled ps (w_peers w) m i p).
  - rewrite remove_all_lookup. assert (forall p, p ∈ ps -> pe_Enabled p = true -> pe_PublicKey p <> k) as Hno.
    { intros p [i Hi]%Hps He Heq. specialize (Hd i p Hi Heq). congruence. }
    destruct (decide _) as [|Hn]; [done|]. rewrite apply_all_other by done.
    destruct (m !! k) eqn:Ek; [|done]. destruct Hn. split; [apply Hshow; eauto|].
    intros (q & Hin & He & Hk)%elem_enabled_keys. by destruct (Hno q Hin He).
Qed.

End Service.
End Interface.

(** ** Creating a peer *)

Section Handlers.
Context `{Env} `{WgLib} (h : WGHandler.Handler).

(** The row a creation adds, and the private key that goes with it. *)
Record added (req : CreatePeerRequest) (w w' : World) (p : Peer) (privateKey : string) : Prop := {
  ad_row : w_peers w' = <[pe_ID p := p]> (w_peers w);
  ad_new : w_peers w !! pe_ID p = None;
  ad_req : pe_Name p = cp_Name req /\ pe_Type p = cp_Type req /\ pe_Enabled p = true;
  ad_key : pe_PublicKey p = wg_public_key privateKey;
  ad_unique : forall id q, w_peers w !! id = Some q -> pe_PublicKey q <> pe_PublicKey p /\ pe_WgIP q <> pe_WgIP p;
  ad_host : exists net a, ParsePrefix4 (sv_networkCIDR (WGHandler.wh_service h)) = Some net /\
              host_range net a /\ pe_WgIP p = AddrString a;
  ad_allowed : pe_AllowedIPs p = pe_WgIP p +:+ "/32" \/
               pe_AllowedIPs p = cp_AllowedIPs req /\ ValidateAllowedIPs (cp_AllowedIPs req) = None;
  ad_psk : exists enc t psk, pe_PresharedKeyEncrypted p = Some enc /\ wg_key t = Ok psk /\
             (CryptoLaws -> DecryptPSK (WGHandler.wh_service h) enc = Ok psk) }.

Lemma peer_ips_spec w0 (K : res (gset string) -> World -> Prop) :
  (forall e w', unchanged w0 w' -> K (Fail e) w') ->
  (forall w', unchanged w0 w' -> K (Ok (CollectIPs (map pe_WgIP (rows (w_peers w0))))) w') ->
  wp peer_ips K w0.
Proof.
  intros HF HO. apply wp_bind, wp_query; [intros; by apply wp_ret, HF|]. intros w1 H1 _. apply wp_ret.
  assert (w_peers w1 = w_peers w0) as -> by apply H1. by apply HO.
Qed.

(** The rows an insertion adds. *)
Lemma wp_peer_Create p Q w :
  (forall e w', same_db w w' -> w_trace w' = w_trace w -> Q (Fail e) w') ->
  (forall id now w', w_peers w !! id = None ->
     let p' := mkPeer id (pe_Name p) (pe_PublicKey p) (pe_PresharedKeyEncrypted p) (pe_WgIP p)
                 (pe_AllowedIPs p) (pe_Endpoint p) (pe_Type p) (pe_TenantID p) (pe_Enabled p) now now in
     (forall i q, w_peers w !! i = Some q -> pe_PublicKey q <> pe_PublicKey p /\ pe_WgIP q <> pe_WgIP p) ->
     w_peers w' = <[id := p']> (w_peers w) -> same_db w (set_peers (w_peers w) w') ->
     w_trace w' = w_trace w -> Q (Ok p') w') ->
  wp (WGStore.Create p) Q w.
Proof.
  intros HF HO. apply wp_bind, wp_stmt; intros; [by apply wp_ret, HF|].
  unfold insert_peer. destruct (negb _); [by apply wp_ret, HF|].
  destruct (_ || _) eqn:Ec; [by apply wp_ret, HF|].
  apply orb_false_elim in Ec as [Eid Ec]. apply bool_decide_eq_false in Eid. rewrite <- eq_None_not_Some in Eid.
  destruct (match pe_TenantID p with Some _ => _ | None => _ end); [by apply wp_ret, HF|].
  apply wp_ret, HO; try done. intros i q Hq.
  assert (peer_clash (mkPeer (env_uuid (S (w_tick w))) (pe_Name p) (pe_PublicKey p) (pe_PresharedKeyEncrypted p)
    (pe_WgIP p) (pe_AllowedIPs p) (pe_Endpoint p) (pe_Type p) (pe_TenantID p) (pe_Enabled p)
    (env_now (S (w_tick w))) (env_now (S (w_tick w)))) q = false) as Hc.
  { apply not_true_iff_false. intros Hc. rewrite <- not_true_iff_false in Ec. apply Ec, existsb_exists.
    exists q. split; [|done]. apply list_elem_of_In, elem_of_rows. eauto. }
  unfold peer_clash in Hc. simpl in Hc. apply orb_false_elim in Hc as [Hk%String.eqb_neq Hi%String.eqb_neq].
  split; congruence.
Qed.

Lemma wp_service_CreatePeer req w :
  (is_empty (cp_AllowedIPs req) = false -> ValidateAllowedIPs (cp_AllowedIPs req) = None) ->
  wp (WGService.CreatePeer (WGHandler.wh_service h) req) (fun r w' =>
    match r with
    | Fail _ => same_db w w' /\ w_trace w' = w_trace w
    | Ok (p, priv) => added req w w' p priv /\ same_db w (set_peers (w_peers w) w') /\ w_trace w' = w_trace w
    end) w.
Proof.
  intros Hval. unfold WGService.CreatePeer, GenerateKeypair, GeneratePresharedKey, EncryptPSK.
  assert (forall w', unchanged w w' -> same_db w w' /\ w_trace w' = w_trace w) as Hun
    by (intros w' (? & _ & ?); done).
  apply wp_bind, wp_bind, wp_sample. intros w1 H1. destruct (wg_private_key _) as [priv|e];
    apply wp_ret; [|by apply wp_ret, Hun].
  apply wp_bind, wp_bind, wp_sample. intros w2 H2. assert (unchanged w w2) as H02 by by etrans.
  destruct (wg_key (w_tick w1)) as [psk|e] eqn:Ek; apply wp_ret; [|by apply wp_ret, Hun].
  apply wp_bind, wp_Encrypt; [intros e w3 H3; apply wp_ret, Hun; by etrans|]. intros enc w3 H3 Hdec.
  assert (unchanged w w3) as H03 by by etrans.
  apply wp_bind, (wp_Allocate _ _ (fun w => CollectIPs (map pe_WgIP (rows (w_peers w))))).
  { intros wa wb (Hs & _). by assert (w_peers wb = w_peers wa) as -> by apply Hs. }
  { intros; by apply peer_ips_spec. }
  { intros e w4 H4. apply wp_ret, Hun. by etrans. }
  intros net a w4 H4 Hnet Ha Hfree. assert (unchanged w w4) as H04 by by etrans.
  destruct (Hun w4 H04) as [S4 T4]. assert (w_peers w4 = w_peers w) as P4 by apply S4.
  apply wp_bind, wp_peer_Create.
  - intros e w5 S5 T5. apply wp_ret. split; [by etrans|congruence].
  - intros id now w5 Hid p' Hu Hp S5 T5. apply wp_ret. rewrite P4 in *. split; [|split; [|congruence]].
    + split; try done; simpl.
      * by exists net, a.
      * destruct (is_empty (cp_AllowedIPs req)) eqn:Ea; [by left|right; auto].
      * exists enc, (w_tick w1), psk. auto.
    + by etrans.
Qed.


(** ** Disabling a peer *)

(** Disabling through an update leaves the peer connected. On a database
    that answers, [DisablePeer] marks the row disabled and has the key removed
    from the interface; an update with [enabled: false] also marks the row
    disabled and answers 200, but issues no command at all, so the peer keeps
    its access until the next synchronisation. *)
Theorem update_leaves_peer_connected (id : string) (p : Peer) (w : World)
  (Hup : forall t, env_fault t = None) (Hid : env_uuid_valid id = true) (Hp : w_peers w !! id = Some p) :
  let disabled w' := exists p', w_peers w' !! id = Some p' /\ pe_Enabled p' = false /\
                       peer_identity p' = peer_identity p in
  wp (WGHandler.DisablePeer h id) (fun r w' => r_Status r = StatusOK /\ disabled w' /\
    w_trace w' = w_trace w ++ [EvWg ["set"; sv_iface (WGHandler.wh_service h); "peer"; pe_PublicKey p; "remove"] None]) w /\
  wp (WGHandler.UpdatePeer h id (Some (mkUpdatePeer None None (Some false)))) (fun r w' =>
    r_Status r = StatusOK /\ disabled w' /\ w_trace w' = w_trace w) w.
Proof.
  intros disabled.
  assert (forall w1 (Q : unit -> World -> Prop) a i d, (forall w2, AuditStore.same_but_audit w1 w2 -> Q tt w2) ->
    wp (WGHandler.audit_log h a i d) Q w1) as Hlog.
  { intros w1 Q a i d HQ. unfold WGHandler.audit_log. destruct (WGHandler.wh_auditStore h).
    - apply AuditStore.wp_Log. auto.
    - apply wp_ret, HQ. by repeat split. }
  assert (forall w1 sets, w_peers w1 = w_peers w -> exists p', update_peer id sets w1 =
    (Ok (Some p'), set_peers (<[id := p']> (w_peers w1)) w1) /\
    p' = pset_updated (env_now (w_tick w1)) (fold_left (fun p c => apply_pset c p) sets p)) as Hupd.
  { intros w1 sets E. unfold update_peer. rewrite E, Hp. eauto. }
  assert (forall now, pe_Enabled (pset_updated now (fold_left (fun p c => apply_pset c p) [PSetEnabled false] p)) = false)
    as Hdis by (intros; by destruct p).
  split.
  - unfold WGHandler.DisablePeer, WGHandler.with_peer. unfold ValidUUID. rewrite Hid. simpl.
    apply wp_bind, wp_bind, wp_query; [intros e w1 _ Hf; by rewrite Hup in Hf|]. intros w1 H1 _. apply wp_ret.
    assert (w_peers w1 = w_peers w) as P1 by apply H1. rewrite P1, Hp.
    apply wp_bind, wp_bind, wp_stmt; [intros e Hf; by rewrite Hup in Hf|]. intros _.
    destruct (Hupd (set_tick (S (w_tick w1)) w1) [PSetEnabled false] P1) as (p' & -> & Ep'). simpl.
    apply wp_ret. apply wp_bind, wp_bind, wp_ext. intros w2 S2 _ T2.
    assert (forall w3, AuditStore.same_but_audit w2 w3 -> wp (Ret (JSON StatusOK (WGHandler.status_body "disabled")))
      (fun r w' => r_Status r = StatusOK /\ disabled w' /\ w_trace w' = w_trace w ++
        [EvWg ["set"; sv_iface (WGHandler.wh_service h); "peer"; pe_PublicKey p; "remove"] None]) w3) as Hend.
    { intros w3 (_&_&_&_&_&Ht&_&Hpe&_). apply wp_ret. split; [done|]. split.
      - exists p'. split_and!; [|by rewrite Ep'|by rewrite Ep'; apply update_peer_identity].
        rewrite Hpe. destruct S2 as (_&_&_&_&_&->&_). simpl. apply lookup_insert_eq.
      - rewrite Ht, T2. simpl. by destruct H1 as (_ & _ & ->). }
    destruct (env_ext _ _); apply wp_ret, wp_bind, Hlog; intros w3 H3; by apply Hend.
  - unfold WGHandler.UpdatePeer, ValidUUID. rewrite Hid. simpl.
    apply wp_bind, wp_bind, wp_stmt; [intros e Hf; by rewrite Hup in Hf|]. intros _.
    destruct (Hupd (set_tick (S (w_tick w)) w) [PSetEnabled false] eq_refl) as (p' & -> & Ep'). simpl.
    apply wp_ret. apply wp_bind, Hlog. intros w2 (_&_&_&_&_&Ht&_&Hpe&_). apply wp_ret. split; [done|]. split; [|done].
    exists p'. rewrite Hpe. simpl. rewrite lookup_insert_eq, Ep'.
    split_and!; [done|by apply Hdis|apply update_peer_identity].
Qed.

(** The DNS server of a client's file comes from the network when that parses,
    so the configured override has no effect on it. *)
Lemma dns_override_ignored (s : Service) (addr : string) (net : Prefix) (p : Peer) (privateKey : string) :
  ParsePrefix4 (sv_networkCIDR s) = Some net ->
  BuildPeerConfig (WithDNSAddr addr s) p privateKey = BuildPeerConfig s p privateKey.
Proof.
  intros Hn. unfold WithDNSAddr. destruct (is_empty addr); [done|].
  unfold BuildPeerConfig, client_net, DecryptPSK. simpl. by rewrite Hn.
Qed.

End Handlers.

(** ** Examples *)

Definition demo_lib : WgLib := {|
  wg_private_key := fun t => Ok ("private-" +:+ itoa (Z.of_nat t));
  wg_public_key := fun k => "public of " +:+ k;
  wg_key := fun t => Ok ("psk-" +:+ itoa (Z.of_nat t));
  qr_encode := fun c => Ok c;
  wg_show_output := fun _ => "b2xk" +:+ nl |}.

Definition demo_service : Service :=
  WithInterface "wg1" (NewService (hex_encode (repeat_string 32 "k")) "hub" "203.0.113.1:51820" EmptyString).

Definition demo_wg_handler : WGHandler.Handler := WGHandler.mkHandler demo_service true.

Definition peer_on : Peer :=
  mkPeer "w1" "laptop" "bmV3" None "10.10.0.2" "10.10.0.2/32" None "user" None true 0 0.
Definition peer_off : Peer :=
  mkPeer "w2" "old" "b2xk" None "10.10.0.3" "10.10.0.3/32" None "user" None false 0 0.

Definition wg_world : World := set_peers (<["w1" := peer_on]> (<["w2" := peer_off]> ∅)) empty_world.

Lemma wg_world_ok : peers_ok (w_peers wg_world).
Proof. by repeat (apply peers_ok_insert; [|done..]); apply peers_ok_empty. Qed.

Lemma demo_show (m : gmap string PeerConf) c t k :
  m = {["b2xk" := c]} -> k ∈ parse_peers (@wg_show_output demo_lib t) <-> is_Some (m !! k).
Proof.
  intros ->. change (parse_peers _) with ["b2xk"]. rewrite list_elem_of_singleton, lookup_singleton_is_Some.
  by split; intros ->.
Qed.

(** The prefixes as they are written, one or several behind commas. *)
Definition demo_prefixes (v : string) : gset string := list_to_set (map trim_space (split "," v)).

Lemma SyncPeers_refines_witness :
  let old : gmap string PeerConf := {["b2xk" := mkConf {["10.10.0.3/32"]} None None]} in
  exists evs, w_trace (run (@SyncPeers calm demo_lib demo_service) wg_world).2 = evs /\
    (exists c, replay demo_prefixes "wg1" evs old !! "bmV3" = Some c /\ cf_allowed c = {["10.10.0.2/32"]}) /\
    replay demo_prefixes "wg1" evs old !! "b2xk" = None.
Proof.
  intros old.
  destruct (@SyncPeers_refines demo_prefixes calm demo_lib demo_service wg_world old wg_world_ok (fun _ => eq_refl)
    (fun _ _ _ => eq_refl) (fun t k => demo_show old _ t k eq_refl)) as (_ & _ & evs & Ht & Hk & Hno).
  exists evs. split; [exact Ht|]. split.
  - destruct (Hk "w1" peer_on eq_refl eq_refl) as (c & Hc & _ & _ & Hsub & Hall). exists c. split; [exact Hc|].
    assert (demo_prefixes (pe_AllowedIPs peer_on) = {["10.10.0.2/32"]}) as E by (vm_compute; reflexivity).
    rewrite E in Hsub, Hall. apply set_eq. intros x. split; [apply Hsub|]. intros Hx. apply Hall; [exact Hx|].
    intros j q Hq Hj. unfold wg_world in Hq. cbn [w_peers set_peers] in Hq.
    apply lookup_insert_Some in Hq as [[<- _]|[_ Hq]]; [by destruct Hj|].
    apply lookup_insert_Some in Hq as [[_ <-]|[_ Hq]]; [apply not_elem_of_empty|]. by rewrite lookup_empty in Hq.
  - apply (Hno "b2xk"). intros id p Hp Hkey. unfold wg_world in Hp. cbn [w_peers set_peers] in Hp.
    apply lookup_insert_Some in Hp as [[_ <-]|[_ Hp]]; [discriminate Hkey|].
    apply lookup_insert_Some in Hp as [[_ <-]|[_ Hp]]; [reflexivity|]. by rewrite lookup_empty in Hp.
Defined.

Lemma update_leaves_peer_connected_witness :
  w_trace (run (@WGHandler.UpdatePeer calm demo_wg_handler "w1" (Some (mkUpdatePeer None None (Some false)))) wg_world).2
    = [] /\
  w_trace (run (@WGHandler.DisablePeer calm demo_wg_handler "w1") wg_world).2
    = [EvWg ["set"; "wg1"; "peer"; "bmV3"; "remove"] None].
Proof.
  destruct (@update_leaves_peer_connected calm demo_wg_handler "w1" peer_on wg_world (fun _ => eq_refl)
    eq_refl eq_refl) as [(_ & _ & H1) (_ & _ & H2)]. split; [exact H2|exact H1].
Defined.
