(* ===== verification/AuthStore.v ===== *)
(** * internal/user/store.go, internal/auth/token_store.go and the login limiter

    The users, refresh_tokens and revoked_tokens tables with the constraints of
    migrations 000005 to 000010, and the in-memory limiter of auth/handler.go,
    whose methods run under its mutex. Times are counted in seconds. *)

From stdpp Require Import gmap strings list fin_maps.
From Stdlib Require Import ZArith Lia Ascii.
From S2P Require Import Prelude GoStrings World Tables.
From S2P Require NodeStore.

Open Scope Z_scope.

(** ** The login limiter *)

Definition accessTokenExpiration : Z := 15 * 60.
Definition refreshTokenExpiry : Z := 30 * 24 * 60 * 60.
Definition minPasswordLen : Z := 12.
Definition maxLoginAttempts : Z := 5.
Definition loginLimitWindow : Z := 15 * 60.
Definition maxLimiterEntries : Z := 10000.

Definition expired (now : Z) (e : limitEntry) : bool := loginLimitWindow <? now - li_lastFail e.

(** [loginLimiter.check] at time [now]. *)
Definition check (now : Z) (email : string) (m : gmap string limitEntry) : bool * gmap string limitEntry :=
  match m !! email with
  | None => (true, m)
  | Some e =>
      if expired now e then (true, base.delete email m)
      else (li_failures e <? maxLoginAttempts, m)
  end.

(** [sweepLocked]: what is left. *)
Definition sweep (now : Z) (m : gmap string limitEntry) : gmap string limitEntry :=
  filter (fun kv => expired now kv.2 = false) m.

Definition entries_count (m : gmap string limitEntry) : Z := Z.of_nat (size m).

(** The search for the least recently failed entry, in the iteration order [l]
    of the map: Go leaves it open. *)
Definition oldest (l : list (string * limitEntry)) : string :=
  fst (fold_left (fun acc kv =>
    if is_empty (fst acc) || (li_lastFail kv.2 <? snd acc) then (kv.1, li_lastFail kv.2) else acc)
    l (EmptyString, 0)).

(** [makeRoomLocked]. *)
Definition makeRoom (now : Z) (m : gmap string limitEntry) : gmap string limitEntry :=
  if entries_count m <? maxLimiterEntries then m else
  let m := sweep now m in
  if entries_count m <? maxLimiterEntries then m else
  base.delete (oldest (map_to_list m)) m.

(** [recordFailure]. *)
Definition recordFailure (now : Z) (email : string) (m : gmap string limitEntry) : gmap string limitEntry :=
  match m !! email with
  | Some e => <[email := mkLimit (li_failures e + 1) now]> m
  | None => <[email := mkLimit 1 now]> (makeRoom now m)
  end.

Definition reset (email : string) (m : gmap string limitEntry) : gmap string limitEntry :=
  base.delete email m.

(** ** Users *)

Definition with_users (m : gmap string User) (a : Auth) : Auth :=
  mkAuth m (au_refresh a) (au_revoked a) (au_limiter a).
Definition with_refresh (m : gmap string RefreshRow) (a : Auth) : Auth :=
  mkAuth (au_users a) m (au_revoked a) (au_limiter a).
Definition with_revoked (m : gmap string RevokedRow) (a : Auth) : Auth :=
  mkAuth (au_users a) (au_refresh a) m (au_limiter a).
Definition with_limiter (m : gmap string limitEntry) (a : Auth) : Auth :=
  mkAuth (au_users a) (au_refresh a) (au_revoked a) m.

Definition users (w : World) : gmap string User := au_users (w_auth w).
Definition refresh_tokens (w : World) : gmap string RefreshRow := au_refresh (w_auth w).
Definition revoked_tokens (w : World) : gmap string RevokedRow := au_revoked (w_auth w).
Definition limiter (w : World) : gmap string limitEntry := au_limiter (w_auth w).

(** [ORDER BY created_at, email LIMIT 1]. *)
Definition earlier_user (a b : User) : bool :=
  (us_CreatedAt a <? us_CreatedAt b) ||
  ((us_CreatedAt a =? us_CreatedAt b) && String.ltb (us_Email a) (us_Email b)).

Section Store.
Context `{Env}.

Definition NormalizeEmail (email : string) : string := env_to_lower (trim_space email).

(** A limiter method: one critical section that reads the clock. *)
Definition limited {A} (f : Z -> gmap string limitEntry -> A * gmap string limitEntry) : P A :=
  atom (fun w =>
    let r := f (env_now (w_tick w)) (limiter w) in
    (r.1, set_tick (S (w_tick w)) (set_auth (with_limiter r.2 (w_auth w)) w))).

Definition limiter_check (email : string) : P bool := limited (fun now => check now email).
Definition limiter_recordFailure (email : string) : P unit :=
  limited (fun now m => (tt, recordFailure now email m)).
Definition limiter_reset (email : string) : P unit := limited (fun _ m => (tt, reset email m)).
Definition limiter_sweep : P unit := limited (fun now m => (tt, sweep now m)).

Definition GetByID (id : string) : P (res (option User)) :=
  let? u := query (fun w => users w !! id)
  catch e => Ret (Fail (EWrap "query user by id" e)) in
  Ret (Ok u).

Definition GetByEmail (email : string) : P (res (option User)) :=
  let? u := query (fun w =>
    first_by earlier_user (select (fun u => String.eqb (env_lower (us_Email u)) (env_lower email)) (users w)))
  catch e => Ret (Fail (EWrap "query user by email" e)) in
  Ret (Ok u).

Definition UpdatePassword (id passwordHash : string) : P (option error) :=
  let? _tag := stmt (fun w =>
    match users w !! id with
    | Some u =>
        (Ok tt, set_auth (with_users (<[id := mkUser (us_ID u) (us_Email u) passwordHash (us_DisplayName u)
           (us_CreatedAt u) (env_now (w_tick w))]> (users w)) (w_auth w)) w)
    | None => (Ok tt, w)
    end)
  catch e => Ret (Some (EWrap "update password" e)) in
  Ret None.

(** The INSERT of [Create], under the primary key and UNIQUE (email). *)
Definition insert_user (email passwordHash displayName : string) (w : World) : res User * World :=
  let id := env_uuid (w_tick w) in
  let now := env_now (w_tick w) in
  let u := mkUser id email passwordHash displayName now now in
  if bool_decide (is_Some (users w !! id)) ||
     existsb (fun o => String.eqb (us_Email o) email) (rows (users w)) then
    (Fail (EBase (PgError unique_violation)), w)
  else (Ok u, set_auth (with_users (<[id := u]> (users w)) (w_auth w)) w).

Definition Create (email passwordHash displayName : string) : P (res User) :=
  let? u := stmt (insert_user email passwordHash displayName)
  catch e => Ret (Fail (EWrap "insert user" e)) in
  Ret (Ok u).

(** ** Tokens *)

(** [INSERT INTO revoked_tokens ... ON CONFLICT DO NOTHING]. *)
Definition insert_revoked (jti userID : string) (expiresAt : Z) (w : World) : res unit * World :=
  if bool_decide (is_Some (revoked_tokens w !! jti)) then (Ok tt, w)
  else if negb (bool_decide (is_Some (users w !! userID))) then (Fail (EBase (PgError fk_violation)), w)
  else (Ok tt, set_auth (with_revoked (<[jti := mkRevoked userID expiresAt (env_now (w_tick w))]>
                 (revoked_tokens w)) (w_auth w)) w).

Definition Revoke (jti userID : string) (expiresAt : Z) : P (option error) :=
  let? _tag := stmt (insert_revoked jti userID expiresAt) catch e => Ret (Some e) in Ret None.

Definition IsRevoked (jti : string) : P (res bool) :=
  query (fun w => bool_decide (is_Some (revoked_tokens w !! jti))).

(** The two DELETEs of [Cleanup]. *)
Definition delete_revoked (w : World) : res unit * World :=
  (Ok tt, set_auth (with_revoked (filter (fun kv => (rv_ExpiresAt kv.2 <? env_now (w_tick w)) = false)
     (revoked_tokens w)) (w_auth w)) w).
Definition delete_refresh (w : World) : res unit * World :=
  (Ok tt, set_auth (with_refresh (filter (fun kv => (rt_ExpiresAt kv.2 <? env_now (w_tick w)) = false)
     (refresh_tokens w)) (w_auth w)) w).

Definition Cleanup : P (option error) :=
  let? _tag := stmt delete_revoked catch e => Ret (Some e) in
  let? _tag := stmt delete_refresh catch e => Ret (Some e) in
  Ret None.

Definition GenerateRefreshToken : P (res string) :=
  let? b := sample (fun t => env_rand t 32) catch e => Ret (Fail e) in
  Ret (Ok (hex_encode b)).

(** UNIQUE (token_hash) and the foreign key to users. *)
Definition insert_refresh (userID tokenHash : string) (expiresAt : Z) (w : World) : res unit * World :=
  let id := env_uuid (w_tick w) in
  if bool_decide (is_Some (refresh_tokens w !! id)) ||
     existsb (fun r => String.eqb (rt_TokenHash r) tokenHash) (rows (refresh_tokens w)) then
    (Fail (EBase (PgError unique_violation)), w)
  else if negb (bool_decide (is_Some (users w !! userID))) then (Fail (EBase (PgError fk_violation)), w)
  else (Ok tt, set_auth (with_refresh (<[id := mkRefresh id userID tokenHash expiresAt
                 (env_now (w_tick w)) None]> (refresh_tokens w)) (w_auth w)) w).

Definition CreateRefreshToken (userID tokenHash : string) (expiresAt : Z) : P (option error) :=
  let? _tag := stmt (insert_refresh userID tokenHash expiresAt) catch e => Ret (Some e) in Ret None.

(** [token_hash = $1 AND expires_at > now() AND revoked_at IS NULL]. *)
Definition usable (now : Z) (tokenHash : string) (r : RefreshRow) : bool :=
  String.eqb (rt_TokenHash r) tokenHash && (now <? rt_ExpiresAt r) &&
  match rt_RevokedAt r with None => true | Some _ => false end.

Definition ValidateRefreshToken (tokenHash : string) : P (res string) :=
  stmt (fun w =>
    match select (usable (env_now (w_tick w)) tokenHash) (refresh_tokens w) with
    | r :: _ => (Ok (rt_UserID r), w)
    | [] => (Fail NodeStore.ErrNoRows, w)
    end).

(** [SET revoked_at = now() WHERE cond AND revoked_at IS NULL]. *)
Definition revoke_row (now : Z) (cond : RefreshRow -> bool) (r : RefreshRow) : RefreshRow :=
  match rt_RevokedAt r with
  | None => if cond r then mkRefresh (rt_ID r) (rt_UserID r) (rt_TokenHash r) (rt_ExpiresAt r)
                             (rt_CreatedAt r) (Some now) else r
  | Some _ => r
  end.

Definition revoke_where (cond : RefreshRow -> bool) (w : World) : res unit * World :=
  (Ok tt, set_auth (with_refresh (revoke_row (env_now (w_tick w)) cond <$> refresh_tokens w) (w_auth w)) w).

Definition RevokeRefreshToken (tokenHash : string) : P (option error) :=
  let? _tag := stmt (revoke_where (fun r => String.eqb (rt_TokenHash r) tokenHash))
  catch e => Ret (Some e) in Ret None.

Definition RevokeAllUserRefreshTokens (userID : string) : P (option error) :=
  let? _tag := stmt (revoke_where (fun r => String.eqb (rt_UserID r) userID))
  catch e => Ret (Some e) in Ret None.

End Store.

(** ** Lemmas on the limiter *)

Lemma oldest_elem (l : list (string * limitEntry)) : l <> [] -> oldest l ∈ l.*1.
Proof.
  unfold oldest. set (f := fun acc kv => _).
  assert (forall l acc, (fold_left f l acc).1 = acc.1 \/ (fold_left f l acc).1 ∈ l.*1) as Hgen.
  { clear. induction l as [|kv l IH]; intros acc; simpl; [by left|].
    destruct (IH (f acc kv)) as [->|Hin]; [|right; apply elem_of_cons; by right].
    unfold f. destruct (_ || _); [right; apply elem_of_cons; by left|by left]. }
  destruct l as [|kv l]; [done|]. intros _. simpl.
  destruct (Hgen l (f (EmptyString, 0) kv)) as [->|Hin]; [|apply elem_of_cons; by right].
  unfold f. simpl. apply elem_of_cons. by left.
Qed.

Lemma makeRoom_room now m :
  entries_count m <= maxLimiterEntries -> entries_count (makeRoom now m) < maxLimiterEntries.
Proof.
  intros Hm. unfold makeRoom. destruct (Z.ltb_spec (entries_count m) maxLimiterEntries) as [|Hfull]; [done|].
  cbv zeta. destruct (Z.ltb_spec (entries_count (sweep now m)) maxLimiterEntries) as [|Hfull2]; [done|].
  assert (entries_count (sweep now m) <= entries_count m) as Hle.
  { unfold entries_count, sweep. apply Nat2Z.inj_le. apply map_size_filter. }
  set (m2 := sweep now m) in *.
  assert (map_to_list m2 <> []) as Hne.
  { intros E. unfold entries_count in Hfull2. rewrite <- length_map_to_list, E in Hfull2. simpl in Hfull2.
    unfold maxLimiterEntries in Hfull2. lia. }
  apply oldest_elem in Hne. apply list_elem_of_fmap in Hne as ([k e] & Ek & Hin).
  apply elem_of_map_to_list in Hin. simpl in Ek. rewrite Ek.
  unfold entries_count in *. rewrite map_size_delete_Some by eauto.
  assert (size m2 <> 0)%nat by (intros Hz; apply map_size_empty_inv in Hz; rewrite Hz, lookup_empty in Hin; done).
  lia.
Qed.

Lemma recordFailure_bounded now email m :
  entries_count m <= maxLimiterEntries -> entries_count (recordFailure now email m) <= maxLimiterEntries.
Proof.
  intros Hm. unfold recordFailure. destruct (m !! email) as [e|] eqn:E.
  - unfold entries_count in *. rewrite map_size_insert_Some by eauto. lia.
  - pose proof (makeRoom_room now m Hm). unfold entries_count in *.
    destruct (makeRoom now m !! email) eqn:E2.
    + rewrite map_size_insert_Some by eauto. lia.
    + rewrite map_size_insert_None by done. lia.
Qed.

Lemma makeRoom_lookup_None now m email : m !! email = None -> makeRoom now m !! email = None.
Proof.
  intros E. unfold makeRoom. destruct (_ <? _); [done|]. cbv zeta.
  assert (sweep now m !! email = None) as E2 by (unfold sweep; apply map_lookup_filter_None; by left).
  destruct (_ <? _); [done|]. rewrite lookup_delete. by case_decide.
Qed.

Lemma sweep_bounded now m : entries_count m <= maxLimiterEntries -> entries_count (sweep now m) <= maxLimiterEntries.
Proof.
  intros Hm. etrans; [|exact Hm]. unfold entries_count, sweep. apply Nat2Z.inj_le, map_size_filter.
Qed.

Lemma delete_bounded email (m : gmap string limitEntry) :
  entries_count m <= maxLimiterEntries -> entries_count (base.delete email m) <= maxLimiterEntries.
Proof.
  intros Hm. etrans; [|exact Hm]. unfold entries_count. rewrite map_size_delete. destruct (m !! email); simpl; lia.
Qed.

(** ** The invariant of what authentication keeps

    Keys, one account per address, one row per token hash, the foreign keys to
    users (whose rows are never removed), and the bound on the limiter. *)

Record auth_ok (a : Auth) : Prop := {
  ak_users : forall id u, au_users a !! id = Some u -> us_ID u = id;
  ak_emails : forall i j u v, au_users a !! i = Some u -> au_users a !! j = Some v ->
    us_Email u = us_Email v -> i = j;
  ak_hashes : forall i j r s, au_refresh a !! i = Some r -> au_refresh a !! j = Some s ->
    rt_TokenHash r = rt_TokenHash s -> i = j;
  ak_refresh : forall id r, au_refresh a !! id = Some r -> is_Some (au_users a !! rt_UserID r);
  ak_revoked : forall jti r, au_revoked a !! jti = Some r -> is_Some (au_users a !! rv_UserID r);
  ak_limiter : entries_count (au_limiter a) <= maxLimiterEntries }.

Lemma auth_ok_empty : auth_ok empty_auth.
Proof. split; simpl; try (intros; by rewrite lookup_empty in *). done. Qed.

Lemma auth_ok_limiter m a : auth_ok a -> entries_count m <= maxLimiterEntries -> auth_ok (with_limiter m a).
Proof. intros [] Hm. by split. Qed.

(** Writing over rows of [refresh_tokens] without changing hash or owner. *)
Lemma auth_ok_refresh m a :
  auth_ok a -> (forall id r, m !! id = Some r -> exists r0, au_refresh a !! id = Some r0 /\
    rt_TokenHash r = rt_TokenHash r0 /\ rt_UserID r = rt_UserID r0) -> auth_ok (with_refresh m a).
Proof.
  intros [] Hm. split; try done; simpl.
  - intros i j r s Hr Hs Heq. destruct (Hm _ _ Hr) as (r0 & Hr0 & E1 & _), (Hm _ _ Hs) as (s0 & Hs0 & E2 & _).
    eapply ak_hashes0; [done..|congruence].
  - intros id r Hr. destruct (Hm _ _ Hr) as (r0 & Hr0 & _ & ->). by eapply ak_refresh0.
Qed.

Section AuthOk.
Context `{Env}.

Lemma revoke_where_ok cond w : auth_ok (w_auth w) -> auth_ok (w_auth (revoke_where cond w).2).
Proof.
  intros Hw. apply auth_ok_refresh; [done|]. intros id r Hr. unfold refresh_tokens in Hr.
  rewrite lookup_fmap, fmap_Some in Hr. destruct Hr as (r0 & Hr0 & ->). exists r0. split; [done|].
  unfold revoke_row. destruct (rt_RevokedAt r0); [done|]. by destruct (cond r0).
Qed.

Lemma delete_refresh_ok w : auth_ok (w_auth w) -> auth_ok (w_auth (delete_refresh w).2).
Proof.
  intros Hw. apply auth_ok_refresh; [done|]. intros id r [Hr _]%map_lookup_filter_Some. by exists r.
Qed.

Lemma delete_revoked_ok w : auth_ok (w_auth w) -> auth_ok (w_auth (delete_revoked w).2).
Proof. intros []. split; try done. simpl. intros jti r [Hr _]%map_lookup_filter_Some. eauto. Qed.

Lemma insert_revoked_ok jti uid exp w : auth_ok (w_auth w) -> auth_ok (w_auth (insert_revoked jti uid exp w).2).
Proof.
  intros Hw. unfold insert_revoked. destruct (bool_decide _); [done|].
  destruct (negb _) eqn:Eu; [done|]. apply negb_false_iff, bool_decide_eq_true in Eu.
  destruct Hw. split; try done. simpl. intros j r [[<- <-]|[_ Hr]]%lookup_insert_Some; [done|by eapply ak_revoked0].
Qed.

(** No row of the table has the value an insertion was checked for. *)
Lemma no_match {T} (f : T -> string) (v : string) (m : gmap string T) :
  existsb (fun x => String.eqb (f x) v) (rows m) = false -> forall k x, m !! k = Some x -> f x <> v.
Proof.
  intros Hex k x Hx Heq. apply not_true_iff_false in Hex. apply Hex, existsb_exists. exists x.
  split; [apply list_elem_of_In, elem_of_rows; eauto|]. by apply String.eqb_eq.
Qed.

Lemma insert_refresh_ok uid hash exp w : auth_ok (w_auth w) -> auth_ok (w_auth (insert_refresh uid hash exp w).2).
Proof.
  intros Hw. unfold insert_refresh. destruct (_ || _) eqn:Ec; [done|]. apply orb_false_elim in Ec as [_ Ec].
  destruct (negb _) eqn:Eu; [done|]. apply negb_false_iff, bool_decide_eq_true in Eu.
  pose proof (no_match rt_TokenHash hash _ Ec) as Hno. destruct Hw. split; try done; simpl.
  - intros i j r s [[<- <-]|[_ Hr]]%lookup_insert_Some [[<- <-]|[_ Hs]]%lookup_insert_Some Heq; simpl in *;
      [done|by destruct (Hno _ _ Hs)|by destruct (Hno _ _ Hr)|by eapply ak_hashes0].
  - intros i r [[<- <-]|[_ Hr]]%lookup_insert_Some; [done|by eapply ak_refresh0].
Qed.

(** Adding or rewriting a user row. *)
Lemma auth_ok_user id u a :
  auth_ok a -> us_ID u = id ->
  (forall j v, au_users a !! j = Some v -> j <> id -> us_Email v <> us_Email u) ->
  auth_ok (with_users (<[id := u]> (au_users a)) a).
Proof.
  intros [] Hid Hne. split; try done; simpl.
  - intros i v [[<- <-]|[_ Hv]]%lookup_insert_Some; eauto.
  - intros i j v x [[<- <-]|[Hi Hv]]%lookup_insert_Some [[<- <-]|[Hj Hx]]%lookup_insert_Some Heq;
      [done|by destruct (Hne _ _ Hx (not_eq_sym Hj) (eq_sym Heq))|by destruct (Hne _ _ Hv (not_eq_sym Hi) Heq)|by eapply ak_emails0].
  - intros i r Hr. rewrite lookup_insert. case_decide; eauto.
  - intros i r Hr. rewrite lookup_insert. case_decide; eauto.
Qed.

Lemma insert_user_ok email hash name w : auth_ok (w_auth w) -> auth_ok (w_auth (insert_user email hash name w).2).
Proof.
  intros Hw. unfold insert_user. cbv zeta. destruct (_ || _) eqn:Ec; [done|].
  apply orb_false_elim in Ec as [_ Ec]. apply auth_ok_user; [done|done|].
  intros j v Hv _. exact (no_match us_Email email _ Ec j v Hv).
Qed.

Lemma update_password_ok id u hash now a :
  auth_ok a -> au_users a !! id = Some u ->
  auth_ok (with_users (<[id := mkUser (us_ID u) (us_Email u) hash (us_DisplayName u) (us_CreatedAt u) now]> (au_users a)) a).
Proof.
  intros Ha Hu. apply auth_ok_user; [done|exact (ak_users _ Ha _ _ Hu)|]. simpl.
  intros j v Hv Hne Heq. apply Hne. by eapply (ak_emails _ Ha).
Qed.

End AuthOk.

