(* ===== verification/WebAuthnStore.v ===== *)
(** * internal/admin/webauthn_store.go: the administrator's passkeys

    The table webauthn_credentials under its constraints (migration 000003:
    the primary key, UNIQUE (credential_id), sign_count INTEGER). *)

From stdpp Require Import gmap strings list fin_maps.
From Stdlib Require Import ZArith Lia.
From S2P Require Import Prelude GoStrings World Response Tables.
From S2P Require NodeStore.

Open Scope Z_scope.

Definition credentials (w : World) : gmap string CredentialRow := pk_credentials (w_keys w).
Definition sessions (w : World) : gmap string sessionEntry := pk_sessions (w_keys w).

Definition set_credentials (m : gmap string CredentialRow) (w : World) : World :=
  set_keys (mkPasskeys m (sessions w)) w.
Definition set_sessions (m : gmap string sessionEntry) (w : World) : World :=
  set_keys (mkPasskeys (credentials w) m) w.

(** [ORDER BY created_at]. *)
Definition oldest_first (l : list CredentialRow) : list CredentialRow := order_desc (fun r => - cd_CreatedAt r) l.

(** The row read back: sign_count becomes a uint32. *)
Definition read_credential (r : CredentialRow) : Credential :=
  let c := cd_Credential r in
  mkCredential (wc_ID c) (wc_PublicKey c) (wc_AttestationType c) (wc_Transport c) (wc_AAGUID c)
    (wc_SignCount c mod 2 ^ 32).

Definition credential_info (r : CredentialRow) : CredentialInfo :=
  mkCredentialInfo (cd_ID r) (cd_CreatedAt r) (wc_SignCount (cd_Credential r)).

Definition with_sign_count (n : Z) (r : CredentialRow) : CredentialRow :=
  let c := cd_Credential r in
  mkCredentialRow (cd_ID r)
    (mkCredential (wc_ID c) (wc_PublicKey c) (wc_AttestationType c) (wc_Transport c) (wc_AAGUID c) n)
    (cd_CreatedAt r).

(** [webauthn_credentials_credential_id_key]. *)
Definition credential_clash (c : Credential) (o : CredentialRow) : bool :=
  String.eqb (wc_ID (cd_Credential o)) (wc_ID c).

Section Store.
Context `{Env}.

Definition ListCredentials : P (res (list Credential)) :=
  query (fun w => map read_credential (oldest_first (rows (credentials w)))).

(** The INSERT of [AddCredential]. *)
Definition insert_credential (c : Credential) (w : World) : res unit * World :=
  let id := env_uuid (w_tick w) in
  if bool_decide (is_Some (credentials w !! id)) || existsb (credential_clash c) (rows (credentials w)) then
    (Fail (EBase (PgError unique_violation)), w)
  else (Ok tt, set_credentials (<[id := mkCredentialRow id c (env_now (w_tick w))]> (credentials w)) w).

(** A sign count beyond INTEGER is refused before it is sent. *)
Definition AddCredential (c : Credential) : P (option error) :=
  if negb (in_int4 (wc_SignCount c)) then Ret (Some NodeStore.errEncode) else
  let? _tag := stmt (insert_credential c) catch e => Ret (Some e) in
  Ret None.

(** At most one row has the id. *)
Definition update_sign_count (credentialID : string) (n : Z) (w : World) : res unit * World :=
  (Ok tt, set_credentials
    ((fun r => if String.eqb (wc_ID (cd_Credential r)) credentialID then with_sign_count n r else r)
       <$> credentials w) w).

Definition UpdateSignCount (credentialID : string) (signCount : Z) : P (option error) :=
  if negb (in_int4 signCount) then Ret (Some NodeStore.errEncode) else
  let? _tag := stmt (update_sign_count credentialID signCount) catch e => Ret (Some e) in
  Ret None.

Definition HasCredentials : P (res bool) :=
  query (fun w => bool_decide (credentials w <> ∅)).

Definition ListCredentialInfos : P (res (list CredentialInfo)) :=
  query (fun w => map credential_info (oldest_first (rows (credentials w)))).

Definition DeleteCredential (id : string) : P (option error) :=
  let? _tag := stmt (fun w => (Ok tt, set_credentials (base.delete id (credentials w)) w))
  catch e => Ret (Some e) in
  Ret None.

End Store.

(** ** The table's invariant *)

(** Rows under their own id, and no two with one credential. *)
Definition keys_ok (w : World) : Prop :=
  (forall id r, credentials w !! id = Some r -> cd_ID r = id) /\
  (forall i j a b, credentials w !! i = Some a -> credentials w !! j = Some b ->
     wc_ID (cd_Credential a) = wc_ID (cd_Credential b) -> i = j).

Lemma keys_ok_credentials w m :
  keys_ok (set_credentials m w) <->
  (forall id r, m !! id = Some r -> cd_ID r = id) /\
  (forall i j a b, m !! i = Some a -> m !! j = Some b ->
     wc_ID (cd_Credential a) = wc_ID (cd_Credential b) -> i = j).
Proof. done. Qed.

Lemma keys_ok_sessions w m : keys_ok (set_sessions m w) <-> keys_ok w.
Proof. done. Qed.

Lemma no_credential_clash c w id r :
  existsb (credential_clash c) (rows (credentials w)) = false -> credentials w !! id = Some r ->
  wc_ID (cd_Credential r) <> wc_ID c.
Proof.
  intros Hex Hr Heq. apply not_true_iff_false in Hex. apply Hex, existsb_exists. exists r.
  split; [apply list_elem_of_In, elem_of_rows; by exists id|]. unfold credential_clash. by rewrite Heq, String.eqb_refl.
Qed.

Lemma insert_credential_ok `{Env} c w : keys_ok w -> keys_ok (insert_credential c w).2.
Proof.
  intros Hw. unfold insert_credential. destruct (_ || _) eqn:E; [done|].
  apply orb_false_iff in E as [E1%bool_decide_eq_false E2].
  assert (credentials w !! env_uuid (w_tick w) = None) as Hn by by apply eq_None_not_Some.
  destruct Hw as [Hid Hu]. apply keys_ok_credentials. split.
  - intros id r. rewrite lookup_insert. case_decide; [by intros [= <-]|apply Hid].
  - intros i j a b. rewrite !lookup_insert.
    case_decide as Hi; case_decide as Hj; subst; try done.
    + intros [= <-] Hb Heq. by destruct (no_credential_clash c w j b E2 Hb).
    + intros Ha [= <-] Heq. by destruct (no_credential_clash c w i a E2 Ha).
    + apply Hu.
Qed.

Lemma update_sign_count_ok cid n w : keys_ok w -> keys_ok (update_sign_count cid n w).2.
Proof.
  intros [Hid Hu]. apply keys_ok_credentials. split.
  - intros id r. rewrite lookup_fmap. intros (r0 & Hr & ->)%fmap_Some.
    destruct (String.eqb _ _); by apply Hid in Hr.
  - intros i j a b. rewrite !lookup_fmap. intros (a0 & Ha & ->)%fmap_Some (b0 & Hb & ->)%fmap_Some Heq.
    apply (Hu i j a0 b0 Ha Hb). by destruct (String.eqb _ _), (String.eqb _ _).
Qed.

Lemma delete_credential_ok id w : keys_ok w -> keys_ok (set_credentials (base.delete id (credentials w)) w).
Proof.
  intros [Hid Hu]. apply keys_ok_credentials. split.
  - intros k r [_ Hr]%lookup_delete_Some. by apply Hid.
  - intros i j a b [_ Ha]%lookup_delete_Some [_ Hb]%lookup_delete_Some. by apply Hu.
Qed.

Lemma keys_ok_frame w w' : w_keys w' = w_keys w -> keys_ok w -> keys_ok w'.
Proof. unfold keys_ok, credentials. by intros ->. Qed.
