(* ===== verification/AdminAuth.v ===== *)
(** * internal/admin/auth.go and webauthn.go: signing in with a passkey

    The session cookie, the challenges kept between a begin and a finish call,
    and the endpoints for registering a passkey and signing in with one. The
    WebAuthn library is the class [WebAuthnLib]. *)

From stdpp Require Import gmap strings list fin_maps.
From Stdlib Require Import Ascii ZArith Lia.
From S2P Require Import Prelude GoStrings GoTime World Response GoJson GoJsonText Crypto WebAuthnStore.

Open Scope Z_scope.

(** [AdminUser]. *)
Record AdminUser := mkAdminUser { aw_id : string; aw_credentials : list Credential }.

(** github.com/go-webauthn/webauthn as the handlers call it. The [nat] is the
    operation of the call: it draws a challenge and reads the clock. Begin calls
    give the options for the browser and the data to keep. A passkey login is
    parsed, then the user is looked up by the caller, then verified. *)
Class WebAuthnLib := {
  wa_begin_registration : nat -> AdminUser -> res (Json * SessionData);
  wa_finish_registration : nat -> AdminUser -> SessionData -> string -> res Credential;
  wa_begin_login : nat -> res (Json * SessionData);
  wa_parse_login : nat -> SessionData -> string -> res (string * string);
  wa_verify_login : nat -> AdminUser -> SessionData -> string -> res Credential }.

(** The library's contract: a login is verified against a credential of the
    user it is given. *)
Class WebAuthnLaws (L : WebAuthnLib) : Prop := {
  law_verify_login : forall t u s body c,
    wa_verify_login t u s body = Ok c -> exists c0, c0 ∈ aw_credentials u /\ wc_ID c0 = wc_ID c }.

(** What the administration interface reads of a request besides its form: the
    cookie of the session, two headers (each empty when it is absent), the body
    of a WebAuthn call, and whether nosurf finds its token. *)
Record AdminHeaders := mkAdminHeaders {
  ah_Session : string; ah_SetupToken : string; ah_SessionToken : string; ah_Body : string; ah_CSRF : bool }.

(** ** auth.go *)

Definition sessionCookieName : string := "admin_session".
Definition sessionMaxAge : Z := 8 * 3600.

(** [ExpiresAt] is in nanoseconds; the zero time is in year 1. *)
Record sessionPayload := mkSession { sp_UserID : string; sp_ExpiresAt : Z }.

Definition zero_session : sessionPayload := mkSession EmptyString (- 10 ^ 9 * 86400 * unix_epoch).

Definition quote (s : string) : string := String "034" (s +:+ String "034" EmptyString).

(** [json.Marshal] of a session that ends on a whole second and whose user
    needs no escapes. *)
Definition marshal_session (s : sessionPayload) : option string :=
  match FormatRFC3339 (sp_ExpiresAt s / 10 ^ 9) with
  | None => None
  | Some exp => Some ("{" +:+ quote "uid" +:+ ":" +:+ quote (sp_UserID s) +:+ "," +:+ quote "exp" +:+ ":" +:+ quote exp +:+ "}")
  end.

Definition session_fields : list (Field sessionPayload) :=
  [field "uid" sp_UserID (fun v s => mkSession v (sp_ExpiresAt s)) d_string;
   field "exp" sp_ExpiresAt (fun v s => mkSession (sp_UserID s) v) d_time].

Definition unmarshal_session : string -> option sessionPayload := Unmarshal zero_session (d_struct session_fields).

Definition session_cookie (value : string) (maxAge : Z) : Cookie :=
  mkCookie sessionCookieName value "/admin" true true true maxAge.

Definition clearSessionCookie : Cookie := session_cookie EmptyString (-1).

(** [http.Redirect] with 303; the link it writes for a GET is left out. *)
Definition redirect (url : string) (cs : list Cookie) : HTTPResponse :=
  mkHTTPResponse 303 BEmpty cs [("Location", url)].

Definition loginURL : string := "/admin/login".

Section Auth.
Context `{Env} (encryptionKey : string).

(** The session in the cookie, decrypted and decoded. *)
Definition read_session (value : string) : option sessionPayload :=
  match Decrypt value encryptionKey with
  | Fail _ => None
  | Ok plaintext => unmarshal_session plaintext
  end.

Definition requireAuth (hd : AdminHeaders) (next : P HTTPResponse) : P HTTPResponse :=
  if is_empty (ah_Session hd) then Ret (redirect loginURL []) else
  match read_session (ah_Session hd) with
  | None => Ret (redirect loginURL [clearSessionCookie])
  | Some sess =>
      let! now := sample env_now in
      if sp_ExpiresAt sess <? 10 ^ 9 * now then Ret (redirect loginURL [clearSessionCookie]) else next
  end.

(** The cookie, or why it could not be made. *)
Definition setSessionCookie : P (res Cookie) :=
  let! now := sample env_now in
  match marshal_session (mkSession "admin" (10 ^ 9 * (now + sessionMaxAge))) with
  | None => Ret (Fail (errorString "Time.MarshalJSON: year outside of range [0,9999]"))
  | Some data =>
      let? encrypted := Encrypt data encryptionKey catch e => Ret (Fail e) in
      Ret (Ok (session_cookie encrypted sessionMaxAge))
  end.

Definition isAuthenticated (hd : AdminHeaders) : P bool :=
  if is_empty (ah_Session hd) then Ret false else
  match read_session (ah_Session hd) with
  | None => Ret false
  | Some sess => let! now := sample env_now in Ret (10 ^ 9 * now <? sp_ExpiresAt sess)
  end.

End Auth.

(** ** The challenges between a begin and a finish call *)

Definition challengeTTL : Z := 5 * 60.

Definition expired (now : Z) (e : sessionEntry) : bool := sd_Expires (se_data e) <? now.

Section Sessions.
Context `{Env}.

Definition generateToken : P (res string) :=
  let? b := sample (fun t => env_rand t 32) catch e => Ret (Fail e) in
  Ret (Ok (b64url_encode b)).

(** [webauthnSessions.Set]: drops the expired entries, then adds the new one. *)
Definition put_session (token flowType : string) (data : SessionData) (w : World) : unit * World :=
  let live := filter (fun kv => expired (env_now (w_tick w)) kv.2 = false) (sessions w) in
  (tt, set_tick (S (w_tick w)) (set_sessions (<[token := mkSessionEntry data flowType]> live) w)).

Definition Sessions_Set (flowType : string) (data : SessionData) : P (res string) :=
  let? token := generateToken catch e => Ret (Fail e) in
  local (put_session token flowType data) ;;;
  Ret (Ok token).

(** [webauthnSessions.Get]: an entry is removed whether or not it fits. *)
Definition take_session (token expectedFlow : string) (w : World) : option SessionData * World :=
  let w1 := set_tick (S (w_tick w)) w in
  match sessions w !! token with
  | None => (None, w1)
  | Some entry =>
      let w2 := set_sessions (base.delete token (sessions w)) w1 in
      if negb (String.eqb (se_flowType entry) expectedFlow) then (None, w2)
      else if expired (env_now (w_tick w)) entry then (None, w2)
      else (Some (se_data entry), w2)
  end.

Definition Sessions_Get (token expectedFlow : string) : P (option SessionData) :=
  local (take_session token expectedFlow).

End Sessions.

(** ** webauthn.go *)

(** [hex.DecodeString] up to the first character it refuses. *)
Fixpoint hex_decode_prefix (s : string) : string :=
  match s with
  | String a (String b s') =>
      match from_hex_char a, from_hex_char b with
      | Some x, Some y => String (ascii_of_N (Z.to_N (16 * x + y))) (hex_decode_prefix s')
      | _, _ => EmptyString
      end
  | _ => EmptyString
  end.

Definition NewAdminUser `{Env} (encryptionKey : string) (credentials : list Credential) : AdminUser :=
  mkAdminUser (env_hmac (hex_decode_prefix encryptionKey) "webauthn-admin") credentials.

Definition jsonError (msg : string) (status : Z) : HTTPResponse := Error status msg.
Definition httpError (msg : string) (status : Z) : HTTPResponse := mkResponse status (BText msg) [].

Section Handlers.
Context `{Env} `{WebAuthnLib} (encryptionKey setupToken : string).

Definition loginPage (hd : AdminHeaders) : P HTTPResponse :=
  let! auth := isAuthenticated encryptionKey hd in
  if (auth : bool) then Ret (redirect "/admin/" []) else
  let? has := HasCredentials catch e => Ret (httpError "internal error" 500) in
  Ret (mkResponse 200 (BPage None (PLogin has)) []).

Definition challenge_body (options : Json) (token : string) : Body :=
  BJson (JObject [("publicKey", options); ("sessionToken", JString token)]).

(** [session.Expires = time.Now().Add(challengeTTL)], then [Set]. *)
Definition send_challenge (flowType : string) (begun : Json * SessionData) : P HTTPResponse :=
  let! now := sample env_now in
  let? token := Sessions_Set flowType (mkSessionData (sd_content begun.2) (now + challengeTTL))
  catch e => Ret (jsonError "internal error" 500) in
  Ret (JSON 200 (challenge_body begun.1 token)).

(** The first passkey takes the setup token, if one is configured at all. *)
Definition setup_allowed (hd : AdminHeaders) : option HTTPResponse :=
  if is_empty setupToken then Some (jsonError "setup token required for first registration" 403)
  else if negb (String.eqb (ah_SetupToken hd) setupToken) then Some (jsonError "invalid setup token" 403)
  else None.

(** The rest of [registerBegin] once the caller may register. *)
Definition begin_registration : P HTTPResponse :=
  let? creds := ListCredentials catch e => Ret (jsonError "internal error" 500) in
  let? begun := sample (fun t => wa_begin_registration t (NewAdminUser encryptionKey creds))
  catch e => Ret (jsonError "failed to begin registration" 500) in
  send_challenge "register" begun.

Definition registerBegin (hd : AdminHeaders) : P HTTPResponse :=
  let? has := HasCredentials catch e => Ret (jsonError "internal error" 500) in
  let! forbidden := (if (has : bool) then let! auth := isAuthenticated encryptionKey hd in Ret (negb auth)
                     else Ret false) in
  if (forbidden : bool) then Ret (jsonError "forbidden" 403) else
  match (if has then None else setup_allowed hd) with
  | Some refusal => Ret refusal
  | None => begin_registration
  end.

(** The answer once a passkey is accepted. *)
Definition sign_in (failure : string) : P HTTPResponse :=
  let? cookie := setSessionCookie encryptionKey catch e => Ret (jsonError failure 500) in
  Ret (mkResponse 200 (BJson (JObject [("ok", JBool true)])) [cookie]).

Definition registerFinish (hd : AdminHeaders) : P HTTPResponse :=
  let? has := HasCredentials catch e => Ret (jsonError "internal error" 500) in
  let! forbidden := (if (has : bool) then let! auth := isAuthenticated encryptionKey hd in Ret (negb auth)
                     else Ret false) in
  if (forbidden : bool) then Ret (jsonError "forbidden" 403) else
  if is_empty (ah_SessionToken hd) then Ret (jsonError "missing session token" 400) else
  let! session := Sessions_Get (ah_SessionToken hd) "register" in
  match session with
  | None => Ret (jsonError "no pending registration" 400)
  | Some session =>
      let? creds := ListCredentials catch e => Ret (jsonError "internal error" 500) in
      let? credential := sample (fun t =>
        wa_finish_registration t (NewAdminUser encryptionKey creds) session (ah_Body hd))
      catch e => Ret (jsonError "registration failed" 400) in
      if_err e := AddCredential credential then Ret (jsonError "failed to store credential" 500) else
      sign_in "registered but failed to create session"
  end.

Definition loginBegin : P HTTPResponse :=
  let? begun := sample wa_begin_login catch e => Ret (jsonError "failed to begin login" 500) in
  send_challenge "login" begun.

(** [FinishPasskeyLogin] with the callback that loads the administrator. *)
Definition finish_login (session : SessionData) (body : string) : P (res Credential) :=
  let? parsed := sample (fun t => wa_parse_login t session body) catch e => Ret (Fail e) in
  let? creds := ListCredentials catch e => Ret (Fail e) in
  sample (fun t => wa_verify_login t (NewAdminUser encryptionKey creds) session body).

Definition loginFinish (hd : AdminHeaders) : P HTTPResponse :=
  if is_empty (ah_SessionToken hd) then Ret (jsonError "no pending login" 400) else
  let! session := Sessions_Get (ah_SessionToken hd) "login" in
  match session with
  | None => Ret (jsonError "no pending login" 400)
  | Some session =>
      let? credential := finish_login session (ah_Body hd) catch e => Ret (jsonError "login failed" 401) in
      let! _e := UpdateSignCount (wc_ID credential) (wc_SignCount credential) in
      sign_in "authenticated but failed to create session"
  end.

Definition logout : P HTTPResponse := Ret (redirect loginURL [clearSessionCookie]).

End Handlers.
