(* ===== verification/Config.v ===== *)
(** * internal/config/config.go: the configuration from the environment

    [Load] over the environment variables, given as a function ([os.Getenv],
    empty for a variable that is not set). Durations are in nanoseconds. *)

From stdpp Require Import gmap strings list fin_maps.
From Stdlib Require Import Ascii ZArith Lia.
From S2P Require Import Prelude GoStrings GoDuration WGValidate.

Open Scope Z_scope.

Record Config := mkConfig {
  c_DatabaseURL : string; c_ListenAddr : string; c_LogLevel : string; c_APIToken : string;
  c_EncryptionKey : string; c_WebAuthnRPID : string; c_WebAuthnOrigin : string; c_SetupToken : string;
  c_JWTSecret : string; c_RegistrationToken : string; c_CookieSecure : bool; c_CORSOrigins : list string;
  c_WGHubPublicKey : string; c_WGHubEndpoint : string; c_WGNetworkCIDR : string;
  c_CaddyAdminURL : string; c_CaddyServerName : string; c_CaddyDomain : string;
  c_PollerInterval : Z; c_JanitorInterval : Z; c_SSHKeyPath : string;
  c_LXCBridge : string; c_TenantMountRoot : string; c_TenantAppDir : string; c_CaddyUpstreamPort : string;
  c_SSHUser : string; c_SSHPort : string; c_WGInterface : string; c_WGDNSAddr : string; c_WGKeepalive : Z;
  c_FreeRadioRepoURL : string; c_FreeRadioRepoBranch : string; c_SSODomain : string; c_SSOScheme : string;
  c_StripeSecretKey : string; c_StripeWebhookSecret : string; c_StripePrices : gmap string string }.

Definition second : Z := 1000000000.

Section Load.
Context (env : string -> string).

Definition requireEnv (key : string) : res string :=
  let v := env key in
  if is_empty v then Fail (errorString ("required environment variable " +:+ key +:+ " is not set")) else Ok v.

Definition getEnv (key fallback : string) : string := if is_empty (env key) then fallback else env key.

Definition parseCORSOrigins (raw : string) : list string :=
  if is_empty raw then ["http://localhost:5173"; "http://localhost:5174"]
  else List.filter (fun o => negb (is_empty o)) (map trim_space (split "," raw)).

(** A Go duration, else a plain number of seconds, whose product wraps. *)
Definition parseDuration (key : string) (fallback : Z) : Z :=
  let v := env key in
  if is_empty v then fallback else
  match (match ParseDuration v with Some d => if 0 <? d then Some d else None | None => None end) with
  | Some d => d
  | None =>
      match atoi v with
      | Some sec => if 0 <? sec then wrap64 (sec * second) else fallback
      | None => fallback
      end
  end.

(** [strings.ToLower] makes none of these words out of other letters. *)
Definition parseBool (key : string) (fallback : bool) : bool :=
  if is_empty (env key) then fallback else
  let v := to_lower (trim_space (env key)) in
  if existsb (String.eqb v) ["true"; "1"; "yes"] then true
  else if existsb (String.eqb v) ["false"; "0"; "no"] then false
  else fallback.

Definition stripe_tiers : list (string * string) :=
  [("starter", "STRIPE_PRICE_STARTER"); ("pro", "STRIPE_PRICE_PRO"); ("studio", "STRIPE_PRICE_STUDIO")].

Definition parseStripePrices : gmap string string :=
  foldr (fun kv prices => if is_empty (env kv.2) then prices else <[kv.1 := env kv.2]> prices) ∅ stripe_tiers.

Definition parseInt (key : string) (fallback : Z) : Z :=
  if is_empty (env key) then fallback else
  match atoi (env key) with Some n => if 0 <? n then n else fallback | None => fallback end.

(** The configuration once the required variables are read. *)
Definition load_optional (dbURL apiToken encKey jwtSecret : string) : Config := {|
  c_DatabaseURL := dbURL;
  c_ListenAddr := getEnv "LISTEN_ADDR" "127.0.0.1:8080";
  c_LogLevel := getEnv "LOG_LEVEL" "info";
  c_APIToken := apiToken;
  c_EncryptionKey := encKey;
  c_WebAuthnRPID := env "WEBAUTHN_RPID";
  c_WebAuthnOrigin := env "WEBAUTHN_ORIGIN";
  c_SetupToken := env "SETUP_TOKEN";
  c_JWTSecret := jwtSecret;
  c_CORSOrigins := parseCORSOrigins (env "CORS_ORIGINS");
  c_RegistrationToken := env "REGISTRATION_TOKEN";
  c_CookieSecure := parseBool "COOKIE_SECURE" true;
  c_WGHubPublicKey := env "WG_HUB_PUBLIC_KEY";
  c_WGHubEndpoint := env "WG_HUB_ENDPOINT";
  c_WGNetworkCIDR := getEnv "WG_NETWORK_CIDR" "10.10.0.0/24";
  c_CaddyAdminURL := env "CADDY_ADMIN_URL";
  c_CaddyServerName := getEnv "CADDY_SERVER_NAME" "srv1";
  c_CaddyDomain := getEnv "CADDY_DOMAIN" "example.com";
  c_PollerInterval := parseDuration "POLLER_INTERVAL" (10 * second);
  c_JanitorInterval := parseDuration "AUTH_JANITOR_INTERVAL" (3600 * second);
  c_SSHKeyPath := getEnv "SSH_KEY_PATH" "/root/.ssh/id_ed25519";
  c_LXCBridge := getEnv "LXC_BRIDGE" "vmbr0";
  c_TenantMountRoot := getEnv "TENANT_MOUNT_ROOT" "/mnt/tenants";
  c_TenantAppDir := getEnv "TENANT_APP_DIR" "/root/freeRadio";
  c_CaddyUpstreamPort := getEnv "CADDY_UPSTREAM_PORT" "80";
  c_SSHUser := getEnv "SSH_USER" "root";
  c_SSHPort := getEnv "SSH_PORT" "22";
  c_WGInterface := getEnv "WG_INTERFACE" "wg0";
  c_WGDNSAddr := getEnv "WG_DNS_ADDR" "10.10.0.1";
  c_WGKeepalive := parseInt "WG_KEEPALIVE_SECONDS" 25;
  c_FreeRadioRepoURL := env "FREERADIO_REPO_URL";
  c_FreeRadioRepoBranch := getEnv "FREERADIO_REPO_BRANCH" "dev";
  c_SSODomain := getEnv "SSO_DOMAIN" "example.com";
  c_SSOScheme := getEnv "SSO_SCHEME" "https";
  c_StripeSecretKey := env "STRIPE_SECRET_KEY";
  c_StripeWebhookSecret := env "STRIPE_WEBHOOK_SECRET";
  c_StripePrices := parseStripePrices |}.

Definition Load : res Config :=
  match requireEnv "DATABASE_URL" with
  | Fail e => Fail e
  | Ok dbURL =>
      match requireEnv "API_TOKEN" with
      | Fail e => Fail e
      | Ok apiToken =>
          match requireEnv "ENCRYPTION_KEY" with
          | Fail e => Fail e
          | Ok encKey =>
              match requireEnv "JWT_SECRET" with
              | Fail e => Fail e
              | Ok jwtSecret => Ok (load_optional dbURL apiToken encKey jwtSecret)
              end
          end
      end
  end.

(** ** What a loaded configuration is like *)

(** A duration field: positive, unless the variable is a plain number of seconds
    too large for the type. *)
Definition duration_ok (key : string) (d : Z) : Prop :=
  0 < d < 2 ^ 63 \/ exists sec, atoi (env key) = Some sec /\ 2 ^ 63 <= sec * second.

Definition trimmed (s : string) : Prop := s <> EmptyString /\ exists raw, s = trim_space raw.

Lemma getEnv_nonempty key d : d <> EmptyString -> getEnv key d <> EmptyString.
Proof. intros Hd. unfold getEnv. destruct (is_empty _) eqn:E; [done|by apply is_empty_false]. Qed.

Lemma parseDuration_ok key d : 0 < d < 2 ^ 63 -> duration_ok key (parseDuration key d).
Proof.
  intros Hd. unfold parseDuration. destruct (is_empty _); [by left|].
  assert (duration_ok key (match atoi (env key) with
    | Some sec => if 0 <? sec then wrap64 (sec * second) else d | None => d end)) as Hplain.
  { destruct (atoi (env key)) as [sec|] eqn:Ea; [|by left]. destruct (Z.ltb_spec 0 sec); [|by left].
    destruct (Z.lt_ge_cases (sec * second) (2 ^ 63)) as [Hlt|]; [|right; by exists sec].
    left. rewrite wrap64_id; unfold second in *; [lia|].
    unfold in_int64. change min_int64 with (- 2 ^ 63). change max_int64 with (2 ^ 63 - 1).
    apply andb_true_iff. split; apply Z.leb_le; lia. }
  destruct (ParseDuration _) as [p|] eqn:Ep; [|done]. destruct (Z.ltb_spec 0 p); [|done].
  left. split; [done|by eapply ParseDuration_le].
Qed.

Lemma parseInt_pos key d : 0 < d -> 0 < parseInt key d.
Proof.
  intros Hd. unfold parseInt. destruct (is_empty _); [done|]. destruct (atoi _); [|done].
  by destruct (Z.ltb_spec 0 z).
Qed.

Lemma parseStripePrices_lookup tier price :
  parseStripePrices !! tier = Some price ->
  tier ∈ ["starter"; "pro"; "studio"] /\ price <> EmptyString.
Proof.
  unfold parseStripePrices. cbn [stripe_tiers foldr fst snd].
  assert (forall k v (m : gmap string string), (if is_empty v then m else <[k := v]> m) !! tier = Some price ->
    (tier = k /\ price <> EmptyString) \/ m !! tier = Some price) as Hstep.
  { intros k v m. destruct (is_empty v) eqn:Ev; [by right|]. rewrite lookup_insert.
    case_decide; [|by right]. intros [= <-]. left. split; [done|by apply is_empty_false]. }
  intros [[-> ?]|H1]%Hstep; [by split; [set_solver|]|].
  apply Hstep in H1 as [[-> ?]|H2]; [by split; [set_solver|]|].
  apply Hstep in H2 as [[-> ?]|H3]; [by split; [set_solver|]|]. by rewrite lookup_empty in H3.
Qed.

Lemma parseCORSOrigins_trimmed raw : Forall trimmed (parseCORSOrigins raw).
Proof.
  unfold parseCORSOrigins. destruct (is_empty raw).
  - apply Forall_cons; split; [split; [done|by exists "http://localhost:5173"]|].
    apply Forall_cons; split; [split; [done|by exists "http://localhost:5174"]|apply Forall_nil; done].
  - apply Forall_forall. intros o [Hin He%negb_true_iff]%list_elem_of_In%filter_In.
    apply in_map_iff in Hin as (x & <- & _). split; [by apply is_empty_false|by eexists].
Qed.

(** The required variables, in the order they are asked for. *)
Definition required : list string := ["DATABASE_URL"; "API_TOKEN"; "ENCRYPTION_KEY"; "JWT_SECRET"].

(** C34. A configuration that loads is well formed. [Load] fails exactly when one
    of the four required variables is empty or unset, naming the first such one;
    otherwise the secrets are the variables' values and not empty, every field
    with a default is not empty, the keep-alive is positive, every CORS origin is
    non-empty text without surrounding space, a price belongs to a paid tier and
    is not empty, and the intervals of the poller and the janitor are positive
    64-bit durations, except that a plain number of seconds whose nanoseconds
    exceed 64 bits is let through, wrapped. *)
Theorem Load_well_formed :
  match Load with
  | Fail e => exists pre key post, required = pre ++ key :: post /\ env key = EmptyString /\
      Forall (fun k => env k <> EmptyString) pre /\
      e = errorString ("required environment variable " +:+ key +:+ " is not set")
  | Ok c =>
      Forall (fun k => env k <> EmptyString) required /\
      [c_DatabaseURL c; c_APIToken c; c_EncryptionKey c; c_JWTSecret c] = map env required /\
      Forall (fun v => v <> EmptyString)
        [c_ListenAddr c; c_LogLevel c; c_WGNetworkCIDR c; c_CaddyServerName c; c_CaddyDomain c; c_SSHKeyPath c;
         c_LXCBridge c; c_TenantMountRoot c; c_TenantAppDir c; c_CaddyUpstreamPort c; c_SSHUser c; c_SSHPort c;
         c_WGInterface c; c_WGDNSAddr c; c_FreeRadioRepoBranch c; c_SSODomain c; c_SSOScheme c] /\
      0 < c_WGKeepalive c /\ Forall trimmed (c_CORSOrigins c) /\
      (forall tier price, c_StripePrices c !! tier = Some price ->
         tier ∈ ["starter"; "pro"; "studio"] /\ price <> EmptyString) /\
      duration_ok "POLLER_INTERVAL" (c_PollerInterval c) /\
      duration_ok "AUTH_JANITOR_INTERVAL" (c_JanitorInterval c)
  end.
Proof.
  unfold Load, requireEnv.
  destruct (is_empty (env "DATABASE_URL")) eqn:E1.
  { exists [], "DATABASE_URL", ["API_TOKEN"; "ENCRYPTION_KEY"; "JWT_SECRET"]. by apply is_empty_true in E1. }
  destruct (is_empty (env "API_TOKEN")) eqn:E2.
  { exists ["DATABASE_URL"], "API_TOKEN", ["ENCRYPTION_KEY"; "JWT_SECRET"].
    apply is_empty_true in E2. apply is_empty_false in E1. by repeat constructor. }
  destruct (is_empty (env "ENCRYPTION_KEY")) eqn:E3.
  { exists ["DATABASE_URL"; "API_TOKEN"], "ENCRYPTION_KEY", ["JWT_SECRET"].
    apply is_empty_true in E3. apply is_empty_false in E1, E2. by repeat constructor. }
  destruct (is_empty (env "JWT_SECRET")) eqn:E4.
  { exists ["DATABASE_URL"; "API_TOKEN"; "ENCRYPTION_KEY"], "JWT_SECRET", [].
    apply is_empty_true in E4. apply is_empty_false in E1, E2, E3. by repeat constructor. }
  apply is_empty_false in E1, E2, E3, E4. split_and!.
  - by repeat constructor.
  - done.
  - cbn. repeat constructor; by apply getEnv_nonempty.
  - by apply parseInt_pos.
  - apply parseCORSOrigins_trimmed.
  - apply parseStripePrices_lookup.
  - apply parseDuration_ok. by vm_compute.
  - apply parseDuration_ok. by vm_compute.
Qed.

End Load.

(** Ten billion seconds: not refused, not replaced by the fallback, but wrapped. *)
Lemma poller_interval_wrapped (env : string -> string) (c : Config) :
  env "POLLER_INTERVAL" = "10000000000" -> Load env = Ok c ->
  c_PollerInterval c = 10000000000 * second - 2 ^ 64 /\ c_PollerInterval c < 0.
Proof.
  intros Henv Hload. assert (c_PollerInterval c = parseDuration env "POLLER_INTERVAL" (10 * second)) as ->.
  { revert Hload. unfold Load, requireEnv. repeat (destruct (is_empty _); [done|]). by intros [= <-]. }
  unfold parseDuration. rewrite Henv. by vm_compute.
Qed.

(** An environment with the required variables and an interval. *)
Definition demo_env (interval key : string) : string :=
  if String.eqb key "POLLER_INTERVAL" then interval
  else if existsb (String.eqb key) required then "secret" else EmptyString.
