(* ===== verification/Database.v ===== *)
(** * internal/database: connecting and migrating

    The pool, golang-migrate and its source of embedded files are libraries:
    the class [DatabaseLib] says what each call answers. What the program adds
    is the order, the errors and the scheme golang-migrate wants. *)

From stdpp Require Import strings list.
From Stdlib Require Import Ascii.
From S2P Require Import Prelude GoStrings.

(** What the libraries answer for a database URL. *)
Class DatabaseLib := {
  pgx_ParseConfig : string -> option error;
  pgx_NewWithConfig : string -> option error;
  pgx_Ping : string -> option error;
  iofs_New : option error;
  migrate_New : string -> option error;
  migrate_Up : string -> option error }.

Definition ErrNoChange : error := EBase (Sentinel "migrate.ErrNoChange").

(** [strings.Replace(s, old, new, 1)]. *)
Fixpoint replace_first (old new s : string) : string :=
  match trim_prefix_opt old s with
  | Some rest => new +:+ rest
  | None =>
      match s with
      | EmptyString => EmptyString
      | String c s' => String c (replace_first old new s')
      end
  end.

(** The URL for golang-migrate. *)
Definition migrateURL (databaseURL : string) : string :=
  replace_first "postgres://" "pgx5://" (replace_first "postgresql://" "pgx5://" databaseURL).

Section Pool.
Context `{DatabaseLib}.

(** [None] is a pool that answered a ping. *)
Definition Connect (databaseURL : string) : option error :=
  match pgx_ParseConfig databaseURL with
  | Some e => Some (EWrap "parse database url" e)
  | None =>
      match pgx_NewWithConfig databaseURL with
      | Some e => Some (EWrap "create pool" e)
      | None =>
          match pgx_Ping databaseURL with
          | Some e => Some (EWrap "ping database" e)
          | None => None
          end
      end
  end.

Definition Migrate (databaseURL : string) : option error :=
  match iofs_New with
  | Some e => Some (EWrap "create migration source" e)
  | None =>
      match migrate_New (migrateURL databaseURL) with
      | Some e => Some (EWrap "create migrate instance" e)
      | None =>
          match migrate_Up (migrateURL databaseURL) with
          | Some e => if bool_decide (e = ErrNoChange) then None else Some (EWrap "run migrations" e)
          | None => None
          end
      end
  end.

End Pool.

(** ** The scheme *)

Lemma replace_first_none old new s : old <> EmptyString -> contains old s = false -> replace_first old new s = s.
Proof.
  intros Hne. induction s as [|c s IH]; intros Hc.
  - by destruct old.
  - cbn [contains] in Hc. apply orb_false_elim in Hc as [Hp Hc]. cbn [replace_first].
    destruct (trim_prefix_opt old (String c s)) as [r|] eqn:Et; [|by rewrite IH].
    apply trim_prefix_opt_iff in Et. rewrite Et in Hp.
    assert (has_prefix old (old +:+ r) = true) as Hyes by (apply has_prefix_iff; by exists r). congruence.
Qed.

Lemma trim_prefix_opt_app old rest : trim_prefix_opt old (old +:+ rest) = Some rest.
Proof. by apply trim_prefix_opt_iff. Qed.

(** Either scheme becomes pgx5, the rest of the URL as it was, unless the rest
    names a scheme itself. *)
Lemma migrateURL_scheme rest :
  contains "postgres://" rest = false -> contains "postgresql://" rest = false ->
  migrateURL ("postgres://" +:+ rest) = "pgx5://" +:+ rest /\
  migrateURL ("postgresql://" +:+ rest) = "pgx5://" +:+ rest.
Proof.
  intros H1 H2. unfold migrateURL.
  (* no occurrence begins within the scheme *)
  assert (contains "postgresql://" ("postgres://" +:+ rest) = contains "postgresql://" rest) as E2 by done.
  assert (contains "postgres://" ("pgx5://" +:+ rest) = contains "postgres://" rest) as E1 by done.
  assert (replace_first "postgresql://" "pgx5://" ("postgres://" +:+ rest) = "postgres://" +:+ rest) as ->
    by by apply replace_first_none; [|by rewrite E2].
  assert (replace_first "postgresql://" "pgx5://" ("postgresql://" +:+ rest) = "pgx5://" +:+ rest) as -> by done.
  split; [done|]. apply replace_first_none; [done|by rewrite E1].
Qed.
