(* ===== verification/StationStore.v ===== *)
(** * internal/station/store.go, creator.go: the stations table

    [stations] with its constraints: the primary key, UNIQUE [slug], the
    foreign keys to users and tenants (whose rows are never removed) and the
    [updated_at] trigger. Searching is SQL's ILIKE, written out over the
    database's own lower-casing and collation ([env_lower], [env_text_le]). *)

From stdpp Require Import gmap strings list fin_maps sorting.
From Stdlib Require Import Ascii ZArith Lia.
From S2P Require Import Prelude GoStrings World Tables Response.
From S2P Require NodeStore.

Open Scope Z_scope.

Record ListPublicParams := mkListPublic {
  pp_Query : string; pp_Genre : string; pp_Sort : string; pp_Limit : Z; pp_Offset : Z }.

Record CreateStationRequest := mkCreateStation {
  cs_Name : string; cs_Slug : string; cs_Genre : string; cs_Description : string;
  cs_ArtworkURL : string; cs_StreamURL : string; cs_OwnerID : option string;
  cs_TenantID : option string; cs_IsPublic : bool }.

Record UpdateStationRequest := mkUpdateStation {
  us_Name : option string; us_Slug : option string; us_Genre : option string;
  us_Description : option string; us_ArtworkURL : option string; us_StreamURL : option string;
  us_IsPublic : option bool; us_IsOnline : option bool }.

Definition ErrNoUpdate : error := EBase (Sentinel "no fields to update").

Definition stations (w : World) : gmap string StationRow := ra_stations (w_radio w).
Definition set_stations (m : gmap string StationRow) (w : World) : World :=
  set_radio (mkRadio m (ra_cache (w_radio w))) w.

(** A scanned row has no live data yet. *)
Definition scanStation (r : StationRow) : Station := mkStation r 0 EmptyString "0".

(** ** Searching *)

Definition is_meta (c : ascii) : bool := Ascii.eqb c "\" || Ascii.eqb c "%" || Ascii.eqb c "_".

(** [likeEscaper.Replace]. *)
Fixpoint likeEscape (s : string) : string :=
  match s with
  | EmptyString => EmptyString
  | String c s' => if is_meta c then String "\" (String c (likeEscape s')) else String c (likeEscape s')
  end.

Definition likePattern (q : string) : string := "%" +:+ likeEscape q +:+ "%".

(** Text is UTF-8: a character is a byte and the continuation bytes after it. *)
Definition is_cont (c : ascii) : bool := (128 <=? byte_of c) && (byte_of c <? 192).

Definition at_char (s : string) : bool := match s with String c _ => negb (is_cont c) | _ => true end.

Fixpoint drop_cont (s : string) : string :=
  match s with String c s' => if is_cont c then drop_cont s' else s | EmptyString => EmptyString end.

(** [like p s]: SQL's [s LIKE p ESCAPE '\']. A percent sign stands for any
    characters, an underscore for one, and a backslash makes the next byte
    stand for itself. (A pattern that ends in a lone escape character is an
    error in SQL; [likePattern] never makes one.) *)
Fixpoint like (p : string) : string -> bool :=
  match p with
  | EmptyString => is_empty
  | String c p' =>
      if Ascii.eqb c "\" then
        match p' with
        | EmptyString => fun _ => false
        | String d p'' => fun s => match s with String e s' => Ascii.eqb d e && like p'' s' | _ => false end
        end
      else if Ascii.eqb c "%" then
        fix any (s : string) : bool :=
          (at_char s && like p' s) || match s with String _ s' => any s' | EmptyString => false end
      else if Ascii.eqb c "_" then
        fun s => match s with String _ s' => like p' (drop_cont s') | _ => false end
      else fun s => match s with String e s' => Ascii.eqb c e && like p' s' | _ => false end
  end.

Section Store.
Context `{Env}.

Definition ilike (p s : string) : bool := like (env_lower p) (env_lower s).

(** The WHERE clause of [buildListPublicQuery]. *)
Definition where_public (p : ListPublicParams) (r : StationRow) : bool :=
  sr_IsPublic r &&
  (is_empty (pp_Query p) ||
   (let pat := likePattern (pp_Query p) in
    ilike pat (sr_Name r) || ilike pat (sr_Genre r) || ilike pat (sr_Description r))) &&
  (is_empty (pp_Genre p) || String.eqb (sr_Genre r) (pp_Genre p)).

(** Its ORDER BY clause, as the comparison of the sort. *)
Definition order_public (p : ListPublicParams) (a b : StationRow) : bool :=
  if String.eqb (pp_Sort p) "newest" then sr_CreatedAt b <=? sr_CreatedAt a
  else if String.eqb (pp_Sort p) "online_first" then
    if Bool.eqb (sr_IsOnline a) (sr_IsOnline b) then env_text_le (sr_Name a) (sr_Name b) else sr_IsOnline a
  else env_text_le (sr_Name a) (sr_Name b).

Definition sort_rows {T} (le : T -> T -> bool) (l : list T) : list T :=
  merge_sort (fun a b => Is_true (le a b)) l.

(** The rows matching, in order, before LIMIT and OFFSET. *)
Definition matching (p : ListPublicParams) (w : World) : list StationRow :=
  sort_rows (order_public p) (select (where_public p) (stations w)).

Definition ListPublic (p : ListPublicParams) : P (res (list Station * Z)) :=
  let? total := query (fun w => Z.of_nat (length (select (where_public p) (stations w))))
  catch e => Ret (Fail (EWrap "count public stations" e)) in
  let? l := query (fun w => map scanStation (page (pp_Limit p) (pp_Offset p) (matching p w)))
  catch e => Ret (Fail (EWrap "query public stations" e)) in
  Ret (Ok (l, total)).

(** SELECT DISTINCT genre ... ORDER BY genre. *)
Definition ListGenres : P (res (list string)) :=
  let? gs := query (fun w =>
    sort_rows env_text_le (remove_dups (map sr_Genre
      (select (fun r => sr_IsPublic r && negb (is_empty (sr_Genre r))) (stations w)))))
  catch e => Ret (Fail (EWrap "query genres" e)) in
  Ret (Ok gs).

Definition by_slug (slug : string) (r : StationRow) : bool := String.eqb (sr_Slug r) slug.
Definition of_tenant (tenantID : string) (r : StationRow) : bool := bool_decide (sr_TenantID r = Some tenantID).

Definition GetBySlug (slug : string) : P (res (option Station)) :=
  let? r := query (fun w => option_map scanStation (head (select (by_slug slug) (stations w))))
  catch e => Ret (Fail (EWrap "query station by slug" e)) in
  Ret (Ok r).

Definition GetByID (id : string) : P (res (option Station)) :=
  let? r := query (fun w => option_map scanStation (stations w !! id))
  catch e => Ret (Fail (EWrap "query station" e)) in
  Ret (Ok r).

(** Without an order: some station of the tenant. *)
Definition GetByTenantID (tenantID : string) : P (res (option Station)) :=
  let? r := query (fun w => option_map scanStation (head (select (of_tenant tenantID) (stations w))))
  catch e => Ret (Fail (EWrap "query station by tenant" e)) in
  Ret (Ok r).

(** Another row holds the slug. *)
Definition slug_taken (m : gmap string StationRow) (id slug : string) : bool :=
  existsb (fun o => negb (String.eqb (sr_ID o) id) && String.eqb (sr_Slug o) slug) (rows m).

Definition refers {T} (m : gmap string T) (k : option string) : bool :=
  match k with Some k => bool_decide (is_Some (m !! k)) | None => true end.

Definition insert_station (req : CreateStationRequest) (w : World) : res StationRow * World :=
  let id := env_uuid (w_tick w) in
  let now := env_now (w_tick w) in
  let r := mkStationRow id (cs_Name req) (cs_Slug req) (cs_Genre req) (cs_Description req)
             (cs_ArtworkURL req) (cs_StreamURL req) (cs_OwnerID req) (cs_TenantID req)
             (cs_IsPublic req) false now now in
  if bool_decide (is_Some (stations w !! id)) || slug_taken (stations w) id (cs_Slug req) then
    (Fail (EBase (PgError unique_violation)), w)
  else if negb (refers (au_users (w_auth w)) (cs_OwnerID req) && refers (w_tenants w) (cs_TenantID req)) then
    (Fail (EBase (PgError fk_violation)), w)
  else (Ok r, set_stations (<[id := r]> (stations w)) w).

Definition Create (req : CreateStationRequest) : P (res Station) :=
  let? r := stmt (insert_station req) catch e => Ret (Fail (EWrap "insert station" e)) in
  Ret (Ok (scanStation r)).

(** The assignments of the UPDATE statements. *)
Inductive StationSet :=
| SSetName (v : string) | SSetSlug (v : string) | SSetGenre (v : string) | SSetDescription (v : string)
| SSetArtworkURL (v : string) | SSetStreamURL (v : string) | SSetIsPublic (v : bool) | SSetIsOnline (v : bool).

Definition apply_sset (c : StationSet) (r : StationRow) : StationRow :=
  let '(mkStationRow id name slug genre desc art url own ten pub on cr up) := r in
  match c with
  | SSetName v => mkStationRow id v slug genre desc art url own ten pub on cr up
  | SSetSlug v => mkStationRow id name v genre desc art url own ten pub on cr up
  | SSetGenre v => mkStationRow id name slug v desc art url own ten pub on cr up
  | SSetDescription v => mkStationRow id name slug genre v art url own ten pub on cr up
  | SSetArtworkURL v => mkStationRow id name slug genre desc v url own ten pub on cr up
  | SSetStreamURL v => mkStationRow id name slug genre desc art v own ten pub on cr up
  | SSetIsPublic v => mkStationRow id name slug genre desc art url own ten v on cr up
  | SSetIsOnline v => mkStationRow id name slug genre desc art url own ten pub v cr up
  end.

(** The assignments, then the trigger. *)
Definition apply_ssets (now : Z) (cs : list StationSet) (r : StationRow) : StationRow :=
  let '(mkStationRow id name slug genre desc art url own ten pub on cr _) :=
    fold_left (fun r c => apply_sset c r) cs r in
  mkStationRow id name slug genre desc art url own ten pub on cr now.

(** The SET clauses, in the order the code appends them. *)
Definition station_sets (req : UpdateStationRequest) : list StationSet :=
  let opt {A} (f : A -> StationSet) (v : option A) := match v with Some x => [f x] | None => [] end in
  opt SSetName (us_Name req) ++ opt SSetSlug (us_Slug req) ++ opt SSetGenre (us_Genre req) ++
  opt SSetDescription (us_Description req) ++ opt SSetArtworkURL (us_ArtworkURL req) ++
  opt SSetStreamURL (us_StreamURL req) ++ opt SSetIsPublic (us_IsPublic req) ++
  opt SSetIsOnline (us_IsOnline req).

Definition update_station (id : string) (sets : list StationSet) (w : World) : res (option StationRow) * World :=
  match stations w !! id with
  | None => (Ok None, w)
  | Some r =>
      let r' := apply_ssets (env_now (w_tick w)) sets r in
      if slug_taken (stations w) id (sr_Slug r') then (Fail (EBase (PgError unique_violation)), w)
      else (Ok (Some r'), set_stations (<[id := r']> (stations w)) w)
  end.

Definition Update (id : string) (req : UpdateStationRequest) : P (res (option Station)) :=
  match station_sets req with
  | [] => Ret (Fail ErrNoUpdate)
  | sets =>
      let? r := stmt (update_station id sets) catch e => Ret (Fail (EWrap "update station" e)) in
      Ret (Ok (option_map scanStation r))
  end.

(** UPDATE stations SET is_online = $2 WHERE tenant_id = $1. *)
Definition set_online (tenantID : string) (online : bool) (w : World) : res unit * World :=
  (Ok tt, set_stations ((fun r =>
     if of_tenant tenantID r then apply_ssets (env_now (w_tick w)) [SSetIsOnline online] r else r)
     <$> stations w) w).

Definition SetOnline (tenantID : string) (online : bool) : P (option error) :=
  let? _r := stmt (set_online tenantID online) catch e => Ret (Some (EWrap "set station online" e)) in
  Ret None.

Definition count_of (tenantID : string) (w : World) : Z :=
  Z.of_nat (length (select (of_tenant tenantID) (stations w))).

Definition CountByTenantID (tenantID : string) : P (res Z) :=
  let? n := query (count_of tenantID) catch e => Ret (Fail (EWrap "count stations by tenant" e)) in
  Ret (Ok n).

Definition delete_station (id : string) (w : World) : res bool * World :=
  (Ok (bool_decide (is_Some (stations w !! id))), set_stations (base.delete id (stations w)) w).

Definition Delete (id : string) : P (option error) :=
  let? affected := stmt (delete_station id) catch e => Ret (Some (EWrap "delete station" e)) in
  Ret (if (affected : bool) then None else Some NodeStore.ErrNoRows).

(** ** internal/station/creator.go *)

(** [Creator.AutoCreateStation]: a station for a new tenant, unless it has one.
    An empty owner is none. *)
Definition AutoCreateStation (tenantID name subdomain ownerID caddyDomain : string) : P (option error) :=
  let? existing := GetByTenantID tenantID catch e => Ret (Some (EWrap "check existing station" e)) in
  match existing with
  | Some _ => Ret None
  | None =>
      let streamURL := "https://" +:+ subdomain +:+ "." +:+ caddyDomain in
      let ownerPtr := if is_empty ownerID then None else Some ownerID in
      let? _st := Create (mkCreateStation name subdomain EmptyString EmptyString EmptyString streamURL
                            ownerPtr (Some tenantID) true)
      catch e => Ret (Some (EWrap "create station" e)) in
      Ret None
  end.

End Store.

(** ** The invariant of the table *)

(** Keys, unique slugs, and the reference to the tenants table [ts]. *)
Definition stations_ok {T} (ts : gmap string T) (m : gmap string StationRow) : Prop :=
  (forall id r, m !! id = Some r -> sr_ID r = id /\ refers ts (sr_TenantID r) = true) /\
  (forall i j a b, m !! i = Some a -> m !! j = Some b -> sr_Slug a = sr_Slug b -> i = j).

(** What no statement on an existing row changes. *)
Definition station_identity (r : StationRow) : string * option string * option string * Z :=
  (sr_ID r, sr_OwnerID r, sr_TenantID r, sr_CreatedAt r).

Lemma apply_ssets_identity now cs r : station_identity (apply_ssets now cs r) = station_identity r.
Proof.
  unfold apply_ssets. assert (station_identity (fold_left (fun r c => apply_sset c r) cs r) = station_identity r) as E.
  { revert r. induction cs as [|c cs IH]; intros r; [done|]. simpl. rewrite IH. by destruct r, c. }
  destruct (fold_left _ cs r), r. unfold station_identity in *. simpl in *. congruence.
Qed.

Lemma refers_mono {S T} (m : gmap string S) (m' : gmap string T) k :
  (forall i, is_Some (m !! i) -> is_Some (m' !! i)) -> refers m k = true -> refers m' k = true.
Proof. destruct k; [|done]. intros Hm Hk%bool_decide_eq_true. by apply bool_decide_eq_true, Hm. Qed.

Lemma stations_ok_mono {S T} (ts : gmap string S) (ts' : gmap string T) m :
  (forall i, is_Some (ts !! i) -> is_Some (ts' !! i)) -> stations_ok ts m -> stations_ok ts' m.
Proof.
  intros Hm [H1 H2]. split; [|done]. intros id r Hr. destruct (H1 _ _ Hr) as [? ?].
  split; [done|by eapply refers_mono].
Qed.

Lemma stations_ok_empty {T} (ts : gmap string T) : stations_ok ts ∅.
Proof. split; intros; by rewrite lookup_empty in *. Qed.

Lemma slug_taken_false {T} (ts : gmap string T) m id slug :
  stations_ok ts m -> slug_taken m id slug = false ->
  forall j o, m !! j = Some o -> sr_Slug o = slug -> j = id.
Proof.
  intros [H1 _] Hc j o Ho Hs. destruct (decide (j = id)) as [|Hne]; [done|].
  assert (slug_taken m id slug = true) as Ht; [|congruence].
  apply existsb_exists. exists o. split; [apply list_elem_of_In, elem_of_rows; eauto|].
  destruct (H1 _ _ Ho) as [E _]. rewrite E. apply andb_true_iff. split; [|by apply String.eqb_eq].
  by apply negb_true_iff, String.eqb_neq.
Qed.

Lemma stations_ok_write {T} (ts : gmap string T) m id r :
  stations_ok ts m -> sr_ID r = id -> refers ts (sr_TenantID r) = true ->
  slug_taken m id (sr_Slug r) = false -> stations_ok ts (<[id := r]> m).
Proof.
  intros Hok Hid Hr Hs. pose proof (slug_taken_false ts m id _ Hok Hs) as Hu. destruct Hok as [H1 H2]. split.
  - intros j q [[<- <-]|[_ Hj]]%lookup_insert_Some; auto.
  - intros i j a b [[<- <-]|[Hi Ha]]%lookup_insert_Some [[<- <-]|[Hj Hb]]%lookup_insert_Some E; [done| | |eauto].
    + by rewrite (Hu _ _ Hb).
    + by rewrite (Hu _ _ Ha).
Qed.

Lemma stations_ok_delete {T} (ts : gmap string T) m id : stations_ok ts m -> stations_ok ts (base.delete id m).
Proof.
  intros [H1 H2]. split.
  - intros j q [_ Hj]%lookup_delete_Some. auto.
  - intros i j a b [_ Hi]%lookup_delete_Some [_ Hj]%lookup_delete_Some. by eapply H2.
Qed.

Section Keeps.
Context `{Env}.

(** The statements write the stations table and nothing else. *)
Definition radio_only (w w' : World) : Prop := w' = set_radio (w_radio w') w.

Lemma radio_only_refl w : radio_only w w.
Proof. by destruct w. Qed.

Lemma insert_station_frame req w : radio_only w (insert_station req w).2.
Proof.
  unfold insert_station. destruct (_ || _); [apply radio_only_refl|].
  destruct (negb _); [apply radio_only_refl|done].
Qed.

Lemma update_station_frame id sets w : radio_only w (update_station id sets w).2.
Proof.
  unfold update_station. destruct (stations w !! id); [|apply radio_only_refl].
  destruct (slug_taken _ _ _); [apply radio_only_refl|done].
Qed.

Definition radio_ok (w : World) : Prop := stations_ok (w_tenants w) (stations w).

Lemma radio_ok_frame w w' :
  w_tenants w' = w_tenants w -> w_radio w' = w_radio w -> radio_ok w -> radio_ok w'.
Proof. unfold radio_ok, stations. by intros -> ->. Qed.

Lemma insert_station_ok req w : radio_ok w -> radio_ok (insert_station req w).2.
Proof.
  intros Hw. unfold insert_station. destruct (_ || _) eqn:E1; [done|]. destruct (negb _) eqn:E2; [done|].
  apply orb_false_elim in E1 as [_ E1]. apply negb_false_iff, andb_prop in E2 as [_ E2].
  by apply stations_ok_write.
Qed.

Lemma update_station_ok id sets w : radio_ok w -> radio_ok (update_station id sets w).2.
Proof.
  intros Hw. unfold update_station. destruct (stations w !! id) as [r|] eqn:Er; [|done].
  destruct (slug_taken _ _ _) eqn:Es; [done|]. destruct (proj1 Hw _ _ Er) as [Hid Href].
  pose proof (apply_ssets_identity (env_now (w_tick w)) sets r) as E. injection E as E1 E2 E3 E4.
  apply stations_ok_write; [done|congruence|by rewrite E3|done].
Qed.

Lemma set_online_ok tid b w : radio_ok w -> radio_ok (set_online tid b w).2.
Proof.
  intros [H1 H2]. set (f := fun r => if of_tenant tid r
    then apply_ssets (env_now (w_tick w)) [SSetIsOnline b] r else r).
  change (stations_ok (w_tenants w) (f <$> stations w)).
  assert (forall r, station_identity (f r) = station_identity r /\ sr_Slug (f r) = sr_Slug r) as Hf.
  { intros r. unfold f. destruct (of_tenant tid r); [|done]. by destruct r. }
  split.
  - intros id r. rewrite lookup_fmap. destruct (stations w !! id) as [r0|] eqn:E; [|done]. intros [= <-].
    destruct (Hf r0) as [Ei _]. injection Ei as -> _ -> _. by apply H1.
  - intros i j a b'. rewrite !lookup_fmap. destruct (stations w !! i) as [a0|] eqn:Ea; [|done].
    destruct (stations w !! j) as [b0|] eqn:Eb; [|done]. intros [= <-] [= <-].
    rewrite (proj2 (Hf a0)), (proj2 (Hf b0)). by eapply H2.
Qed.

(** Tenants' rows are written, never removed. *)
Lemma radio_ok_tenants id t w : radio_ok w -> radio_ok (set_tenants (<[id := t]> (w_tenants w)) w).
Proof.
  apply stations_ok_mono. intros i Hi. simpl. destruct (decide (i = id)) as [->|];
    [rewrite lookup_insert_eq; eauto|by rewrite lookup_insert_ne].
Qed.

Lemma delete_station_ok id w : radio_ok w -> radio_ok (delete_station id w).2.
Proof. intros Hw. by apply stations_ok_delete. Qed.

End Keeps.
