(* ===== verification/ProjectStore.v ===== *)
(** * internal/project/store.go: the projects table *)

From stdpp Require Import gmap strings list fin_maps.
From Stdlib Require Import ZArith Lia.
From S2P Require Import Prelude GoStrings World Response Tables.
From S2P Require NodeStore.

Open Scope Z_scope.

Definition ErrNoUpdate : error := EBase (Sentinel "project.ErrNoUpdate").
Definition ErrNoRows : error := NodeStore.ErrNoRows.
Definition errEncode : error := NodeStore.errEncode.

(** [cp_Ports] is [None] for a nil slice. *)
Record CreateProjectRequest := mkCreateProject {
  cp_Name : string; cp_TemplateID : Z; cp_Ports : option (list Z);
  cp_StripePriceID : option string; cp_HealthPath : string; cp_RAMMB : Z;
  cp_NetworkCIDR : string; cp_Gateway : string }.

(** [up_Ports] is the [*[]int]: a nil slice behind a non-nil pointer cannot be
    decoded from JSON. *)
Record UpdateProjectRequest := mkUpdateProject {
  up_Name : option string; up_TemplateID : option Z; up_Ports : option (list Z);
  up_StripePriceID : option string; up_HealthPath : option string; up_RAMMB : option Z;
  up_NetworkCIDR : option string; up_Gateway : option string }.

Inductive ProjectSet :=
| PSetName (v : string)
| PSetTemplateID (v : Z)
| PSetPorts (v : list Z)
| PSetStripePriceID (v : string)
| PSetHealthPath (v : string)
| PSetRAMMB (v : Z)
| PSetNetworkCIDR (v : string)
| PSetGateway (v : string).

Definition apply_pset (c : ProjectSet) (p : Project) : Project :=
  let '(mkProject id name tpl ports price hp ram cidr gw cr up) := p in
  match c with
  | PSetName v => mkProject id v tpl ports price hp ram cidr gw cr up
  | PSetTemplateID v => mkProject id name v ports price hp ram cidr gw cr up
  | PSetPorts v => mkProject id name tpl v price hp ram cidr gw cr up
  | PSetStripePriceID v => mkProject id name tpl ports (Some v) hp ram cidr gw cr up
  | PSetHealthPath v => mkProject id name tpl ports price v ram cidr gw cr up
  | PSetRAMMB v => mkProject id name tpl ports price hp v cidr gw cr up
  | PSetNetworkCIDR v => mkProject id name tpl ports price hp ram v gw cr up
  | PSetGateway v => mkProject id name tpl ports price hp ram cidr v cr up
  end.

Definition pset_updated (now : Z) (p : Project) : Project :=
  let '(mkProject id name tpl ports price hp ram cidr gw cr _) := p in
  mkProject id name tpl ports price hp ram cidr gw cr now.

(** An assignment whose parameter fits the INTEGER columns. *)
Definition pset_encodable (c : ProjectSet) : bool :=
  match c with
  | PSetTemplateID v | PSetRAMMB v => in_int4 v
  | PSetPorts l => forallb in_int4 l
  | _ => true
  end.

(** [name TEXT NOT NULL UNIQUE]. *)
Definition name_taken (m : gmap string Project) (p : Project) : bool :=
  existsb (fun o => negb (String.eqb (p_ID o) (p_ID p)) && String.eqb (p_Name o) (p_Name p)) (rows m).

Section Store.
Context `{Env}.

Definition List : P (res (list Project)) :=
  let? projects := query (fun w => order_desc p_CreatedAt (rows (w_projects w)))
  catch e => Ret (Fail (EWrap "query projects" e)) in
  Ret (Ok projects).

Definition ListPaginated (limit offset : Z) : P (res (list Project * Z)) :=
  let? projects := query (fun w => paginated limit offset (order_desc p_CreatedAt (rows (w_projects w))))
  catch e => Ret (Fail (EWrap "query projects" e)) in
  Ret (Ok projects).

Definition GetByID (id : string) : P (res (option Project)) :=
  let? p := query (fun w => w_projects w !! id)
  catch e => Ret (Fail (EWrap "query project" e)) in
  Ret (Ok p).

(** [ORDER BY created_at ASC LIMIT 1]. *)
Definition GetDefault : P (res (option Project)) :=
  let? p := query (fun w => first_by (fun a b => p_CreatedAt a <? p_CreatedAt b) (rows (w_projects w)))
  catch e => Ret (Fail (EWrap "query default project" e)) in
  Ret (Ok p).

Definition default_string (d s : string) : string := if is_empty s then d else s.

(** The defaults [Create] fills in before the INSERT. *)
Definition with_defaults (req : CreateProjectRequest) : CreateProjectRequest :=
  mkCreateProject (cp_Name req) (cp_TemplateID req)
    (Some (match cp_Ports req with Some l => l | None => [] end))
    (cp_StripePriceID req) (default_string "/api/health" (cp_HealthPath req))
    (if cp_RAMMB req =? 0 then 1536 else cp_RAMMB req)
    (default_string "10.10.10.0/24" (cp_NetworkCIDR req))
    (default_string "10.10.10.1" (cp_Gateway req)).

Definition req_ports (req : CreateProjectRequest) : list Z :=
  match cp_Ports req with Some l => l | None => [] end.

Definition insert_project (req : CreateProjectRequest) (w : World) : res Project * World :=
  let now := env_now (w_tick w) in
  let id := env_uuid (w_tick w) in
  let p := mkProject id (cp_Name req) (cp_TemplateID req) (req_ports req) (cp_StripePriceID req)
             (cp_HealthPath req) (cp_RAMMB req) (cp_NetworkCIDR req) (cp_Gateway req) now now in
  if bool_decide (is_Some (w_projects w !! id)) || name_taken (w_projects w) p then
    (Fail (EBase (PgError unique_violation)), w)
  else (Ok p, set_projects (<[id := p]> (w_projects w)) w).

Definition Create (req : CreateProjectRequest) : P (res Project) :=
  let req := with_defaults req in
  if negb (in_int4 (cp_TemplateID req) && forallb in_int4 (req_ports req) && in_int4 (cp_RAMMB req)) then
    Ret (Fail (EWrap "insert project" errEncode))
  else
    let? p := stmt (insert_project req)
    catch e => Ret (Fail (EWrap "insert project" e)) in
    Ret (Ok p).

Definition opt_set {A} (f : A -> ProjectSet) (o : option A) : list ProjectSet :=
  match o with Some v => [f v] | None => [] end.

(** The SET clauses, in the order the code appends them. *)
Definition project_sets (req : UpdateProjectRequest) : list ProjectSet :=
  opt_set PSetName (up_Name req) ++ opt_set PSetTemplateID (up_TemplateID req) ++
  opt_set PSetPorts (up_Ports req) ++ opt_set PSetStripePriceID (up_StripePriceID req) ++
  opt_set PSetHealthPath (up_HealthPath req) ++ opt_set PSetRAMMB (up_RAMMB req) ++
  opt_set PSetNetworkCIDR (up_NetworkCIDR req) ++ opt_set PSetGateway (up_Gateway req).

(** [UPDATE projects SET sets WHERE id = id RETURNING ...]. *)
Definition update_project (id : string) (sets : list ProjectSet) (w : World) :
    res (option Project) * World :=
  match w_projects w !! id with
  | None => (Ok None, w)
  | Some p =>
      let p' := pset_updated (env_now (w_tick w)) (fold_left (fun p c => apply_pset c p) sets p) in
      if name_taken (w_projects w) p' then (Fail (EBase (PgError unique_violation)), w)
      else (Ok (Some p'), set_projects (<[id := p']> (w_projects w)) w)
  end.

Definition Update (id : string) (req : UpdateProjectRequest) : P (res (option Project)) :=
  match project_sets req with
  | [] => Ret (Fail ErrNoUpdate)
  | sets =>
      if negb (forallb pset_encodable sets) then Ret (Fail (EWrap "update project" errEncode)) else
      let? p := stmt (update_project id sets)
      catch e => Ret (Fail (EWrap "update project" e)) in
      Ret (Ok p)
  end.

(** [DELETE FROM projects]: refused while any tenant row references it. *)
Definition delete_project (id : string) (w : World) : res Z * World :=
  match w_projects w !! id with
  | None => (Ok 0, w)
  | Some _ =>
      if existsb (references_project id) (rows (w_tenants w)) then
        (Fail (EBase (PgError fk_violation)), w)
      else (Ok 1, set_projects (base.delete id (w_projects w)) w)
  end.

Definition Delete (id : string) : P (option error) :=
  let? affected := stmt (delete_project id)
  catch e => Ret (Some (EWrap "delete project" e)) in
  if affected =? 0 then Ret (Some ErrNoRows) else Ret None.

Definition CountTenants (projectID : string) : P (res Z) :=
  let? count := query (fun w =>
    Z.of_nat (length (select (fun t => references_project projectID t && live t) (w_tenants w))))
  catch e => Ret (Fail (EWrap "count tenants for project" e)) in
  Ret (Ok count).

End Store.

(** ** Lemmas *)

Definition same_but_projects (w w' : World) : Prop :=
  exists m, w' = set_projects m w.

Lemma delete_project_frame id w : same_but_projects w (delete_project id w).2.
Proof.
  unfold delete_project. assert (w = set_projects (w_projects w) w) as Hw by by destruct w.
  destruct (w_projects w !! id); [|by eexists]. by destruct (existsb _ _); eexists.
Qed.

Lemma update_project_frame `{Env} id sets w : same_but_projects w (update_project id sets w).2.
Proof.
  unfold update_project. assert (w = set_projects (w_projects w) w) as Hw by by destruct w.
  destruct (w_projects w !! id); [|by eexists]. by destruct (name_taken _ _); eexists.
Qed.

Lemma insert_project_frame `{Env} req w : same_but_projects w (insert_project req w).2.
Proof.
  unfold insert_project. assert (w = set_projects (w_projects w) w) as Hw by by destruct w.
  by destruct (_ || _); eexists.
Qed.
