(* ===== verification/ProjectHandler.v ===== *)
(** * internal/project/handler.go: the project endpoints *)

From stdpp Require Import gmap strings list fin_maps.
From Stdlib Require Import ZArith Lia.
From S2P Require Import Prelude GoStrings World Response Tables AuditStore ProjectStore.
From S2P Require NodeStore.

Open Scope Z_scope.

Section Handler.
Context `{Env}.
(** Whether the handler was given an audit store. *)
Context (auditStore : bool).

Definition audit_log (action entityType id : string) (details : option (list (string * string))) : P unit :=
  if auditStore then AuditStore.Log action entityType id details else Ret tt.

Definition List (q : string -> string) : P HTTPResponse :=
  let params := ParseListParams q in
  let? projects := ProjectStore.ListPaginated (lp_Limit params) (lp_Offset params)
  catch e => Ret (Error StatusInternalServerError "failed to list projects") in
  Ret (JSON StatusOK (BProjects (listResult params projects.1 projects.2))).

Definition Get (id : string) : P HTTPResponse :=
  if negb (ValidUUID id) then Ret (Error StatusBadRequest "invalid project ID format") else
  let? p := ProjectStore.GetByID id
  catch e => Ret (Error StatusInternalServerError "failed to get project") in
  match p with
  | None => Ret (Error StatusNotFound "project not found")
  | Some p => Ret (JSON StatusOK (BProject p))
  end.

Definition Create (body : option CreateProjectRequest) : P HTTPResponse :=
  match body with
  | None => Ret (Error StatusBadRequest "invalid request body")
  | Some req =>
      if is_empty (cp_Name req) || (cp_TemplateID req <=? 0) then
        Ret (Error StatusBadRequest "name and template_id are required")
      else
        let? p := ProjectStore.Create req
        catch e => (if is_pg_code e unique_violation
                    then Ret (Error StatusConflict "name already exists")
                    else Ret (Error StatusInternalServerError "failed to create project")) in
        audit_log "create" "project" (p_ID p) (Some [("name", p_Name p)]) ;;;
        Ret (JSON StatusCreated (BProject p))
  end.

Definition Update (id : string) (body : option UpdateProjectRequest) : P HTTPResponse :=
  if negb (ValidUUID id) then Ret (Error StatusBadRequest "invalid project ID format") else
  match body with
  | None => Ret (Error StatusBadRequest "invalid request body")
  | Some req =>
      let? p := ProjectStore.Update id req
      catch e => (if errors_Is e ProjectStore.ErrNoUpdate
                  then Ret (Error StatusBadRequest "no fields to update")
                  else if is_pg_code e unique_violation
                  then Ret (Error StatusConflict "name already exists")
                  else Ret (Error StatusInternalServerError "failed to update project")) in
      match p with
      | None => Ret (Error StatusNotFound "project not found")
      | Some p =>
          audit_log "update" "project" (p_ID p) None ;;;
          Ret (JSON StatusOK (BProject p))
      end
  end.

Definition Delete (id : string) : P HTTPResponse :=
  if negb (ValidUUID id) then Ret (Error StatusBadRequest "invalid project ID format") else
  let? count := ProjectStore.CountTenants id
  catch e => Ret (Error StatusInternalServerError "failed to check project dependencies") in
  if 0 <? count then Ret (Error StatusConflict "cannot delete project with active tenants") else
  if_err e := ProjectStore.Delete id then
    (if errors_Is e ProjectStore.ErrNoRows
     then Ret (Error StatusNotFound "project not found")
     else Ret (Error StatusInternalServerError "failed to delete project"))
  else
    (audit_log "delete" "project" id None ;;;
     Ret (mkResponse StatusNoContent BEmpty [])).

End Handler.
