(* ===== verification/TenantStore.v ===== *)
(** * internal/tenant/store.go: the tenants table

    Every status change is one guarded UPDATE, a compare-and-swap on the
    current status whose failure is [ErrStateConflict]. *)

From stdpp Require Import gmap strings list fin_maps.
From Stdlib Require Import ZArith Lia.
From S2P Require Import Prelude GoStrings NetIP World IPAlloc Response Tables.
From S2P Require NodeStore.

Open Scope Z_scope.

Record CreateTenantRequest := mkCreateTenant {
  ct_Name : string; ct_ProjectID : string; ct_NodeID : string; ct_Subdomain : string }.

Record UpdateTenantRequest := mkUpdateTenant {
  ut_Name : option string; ut_StripeSubscriptionID : option string;
  ut_StripeCustomerID : option string }.

Definition ErrNoUpdate : error := EBase (Sentinel "tenant.ErrNoUpdate").
Definition ErrStateConflict : error := EBase (Sentinel "tenant.ErrStateConflict").
Definition ErrNoRows : error := NodeStore.ErrNoRows.

Record ActiveTenant := mkActive { at_Subdomain : string; at_LXCIP : string }.
Record activeWithIP := mkActiveWithIP { aw_ID : string; aw_Subdomain : string; aw_LXCIP : string }.
Record PollableTenant := mkPollable { pt_ID : string; pt_LXCIP : string }.

Record BillingTenant := mkBilling {
  bt_ID : string; bt_Name : string; bt_Tier : string; bt_StripeCustomerID : option string;
  bt_StripeSubscriptionID : option string; bt_OwnerID : option string }.

Definition owned_by (ownerID : string) (t : Tenant) : bool :=
  match t_OwnerID t with Some o => String.eqb o ownerID | None => false end.

Section Store.
Context `{Env}.

Definition List : P (res (list Tenant)) :=
  let? ts := query (fun w => order_desc t_CreatedAt (rows (w_tenants w)))
  catch e => Ret (Fail (EWrap "query tenants" e)) in
  Ret (Ok ts).

(** Each non-empty filter adds a conjunct. *)
Definition tenant_where (status nodeID projectID : string) (t : Tenant) : bool :=
  (is_empty status || String.eqb (status_string (t_Status t)) status) &&
  (is_empty nodeID || String.eqb (t_NodeID t) nodeID) &&
  (is_empty projectID || String.eqb (t_ProjectID t) projectID).

(** An id the database takes: a filter that is not a UUID fails the query. *)
Definition id_filter_ok (id : string) : bool := is_empty id || ValidUUID id.

Definition ListPaginated (limit offset : Z) (status nodeID projectID : string) :
    P (res (list Tenant * Z)) :=
  let? ts := (if id_filter_ok nodeID && id_filter_ok projectID then
                query (fun w => paginated limit offset
                  (order_desc t_CreatedAt (select (tenant_where status nodeID projectID) (w_tenants w))))
              else bad_text)
  catch e => Ret (Fail (EWrap "query tenants" e)) in
  Ret (Ok ts).

Definition GetByID (id : string) : P (res (option Tenant)) :=
  let? t := query (fun w => w_tenants w !! id)
  catch e => Ret (Fail (EWrap "query tenant" e)) in
  Ret (Ok t).

Definition Create (req : CreateTenantRequest) : P (res Tenant) :=
  let? t := stmt (insert_tenant (ct_Name req) (ct_ProjectID req) (ct_NodeID req) (ct_Subdomain req) None)
  catch e => Ret (Fail (EWrap "insert tenant" e)) in
  Ret (Ok t).

Definition CreateWithOwner (req : CreateTenantRequest) (ownerID : string) : P (res Tenant) :=
  let? t := stmt (insert_tenant (ct_Name req) (ct_ProjectID req) (ct_NodeID req) (ct_Subdomain req)
                    (Some ownerID))
  catch e => Ret (Fail (EWrap "insert tenant" e)) in
  Ret (Ok t).

Definition Count : P (res Z) :=
  let? count := query (fun w => Z.of_nat (length (rows (w_tenants w))))
  catch e => Ret (Fail (EWrap "count tenants" e)) in
  Ret (Ok count).

Definition CountByOwnerID (ownerID : string) : P (res Z) :=
  let? count := query (fun w =>
    Z.of_nat (length (select (fun t => owned_by ownerID t && live t) (w_tenants w))))
  catch e => Ret (Fail (EWrap "count tenants by owner" e)) in
  Ret (Ok count).

Definition ListByOwnerID (ownerID : string) : P (res (list Tenant)) :=
  let? ts := query (fun w =>
    order_desc t_CreatedAt (select (fun t => owned_by ownerID t && live t) (w_tenants w)))
  catch e => Ret (Fail (EWrap "query tenants by owner" e)) in
  Ret (Ok ts).

(** The SET clauses, in the order the code appends them. *)
Definition tenant_sets (req : UpdateTenantRequest) : list TenantSet :=
  match ut_Name req with Some v => [SetName v] | None => [] end ++
  match ut_StripeSubscriptionID req with Some v => [SetStripeSubscriptionID v] | None => [] end ++
  match ut_StripeCustomerID req with Some v => [SetStripeCustomerID v] | None => [] end.

Definition Update (id : string) (req : UpdateTenantRequest) : P (res (option Tenant)) :=
  match tenant_sets req with
  | [] => Ret (Fail ErrNoUpdate)
  | sets =>
      let? t := stmt (update_tenant id (fun _ => true) sets)
      catch e => Ret (Fail (EWrap "update tenant" e)) in
      Ret (Ok t)
  end.

(** The shape the status setters share: Exec, then RowsAffected. *)
Definition exec_tenant (msg : string) (none : error) (id : string) (where_ : Tenant -> bool)
    (sets : list TenantSet) : P (option error) :=
  let? tag := stmt (update_tenant id where_ sets)
  catch e => Ret (Some (EWrap msg e)) in
  match tag with
  | None => Ret (Some none)
  | Some _ => Ret None
  end.

Definition status_in (l : list TenantStatus) (t : Tenant) : bool := existsb (status_eqb (t_Status t)) l.

Definition SetSuspended (id : string) : P (option error) :=
  exec_tenant "set tenant suspended" ErrStateConflict id (status_in [active]) [SetStatus suspended].

Definition SetResumed (id : string) : P (option error) :=
  exec_tenant "set tenant resumed" ErrStateConflict id (status_in [suspended]) [SetStatus active].

Definition SetActive (id : string) (lxcID : Z) : P (option error) :=
  if negb (in_int4 lxcID) then Ret (Some (EWrap "set tenant active" NodeStore.errEncode)) else
  exec_tenant "set tenant active" ErrStateConflict id (status_in [provisioning])
    [SetStatus active; SetLXCID lxcID; SetErrorMessage None].

Definition SetError (id errMsg : string) : P (option error) :=
  exec_tenant "set tenant error" ErrStateConflict id (status_in [provisioning; deleting])
    [SetStatus errored; SetErrorMessage (Some errMsg)].

Definition SetDeleting (id : string) : P (option error) :=
  exec_tenant "set tenant deleting" ErrStateConflict id (status_in [active; errored; suspended])
    [SetStatus deleting].

Definition SetDeleted (id : string) : P (option error) :=
  exec_tenant "set tenant deleted" ErrStateConflict id (status_in [deleting]) [SetStatus deleted].

Definition SetLXCIP (id ip : string) : P (option error) :=
  exec_tenant "set tenant lxc_ip" ErrNoRows id (fun _ => true) [SetLXCIP ip].

Definition reachable (t : Tenant) : bool :=
  status_eqb (t_Status t) active &&
  match t_LXCIP t with Some ip => negb (is_empty ip) | None => false end.

Definition row_with_ip (t : Tenant) : activeWithIP :=
  mkActiveWithIP (t_ID t) (t_Subdomain t) (match t_LXCIP t with Some ip => ip | None => EmptyString end).

Definition listActiveWithIP : P (res (list activeWithIP)) :=
  let? ts := query (fun w => map row_with_ip (select reachable (w_tenants w)))
  catch e => Ret (Fail (EWrap "query active tenants with ip" e)) in
  Ret (Ok ts).

Definition toActiveTenants (rows : list activeWithIP) : list ActiveTenant :=
  map (fun r => mkActive (aw_Subdomain r) (aw_LXCIP r)) rows.

Definition ListActiveWithIP : P (res (list ActiveTenant)) :=
  let? rows := listActiveWithIP catch e => Ret (Fail e) in
  Ret (Ok (toActiveTenants rows)).

(** internal/tenant/tenant_pollable.go *)
Definition toPollableTenants (rows : list activeWithIP) : list PollableTenant :=
  map (fun r => mkPollable (aw_ID r) (aw_LXCIP r)) rows.

Definition ListPollable : P (res (list PollableTenant)) :=
  let? rows := listActiveWithIP catch e => Ret (Fail (EWrap "list pollable tenants" e)) in
  Ret (Ok (toPollableTenants rows)).

(** The rows the used-addresses query returns. *)
Definition holds_ip (t : Tenant) : bool :=
  match t_LXCIP t with Some ip => negb (is_empty ip) | None => false end && live t.

Definition used_ips (w : World) : list string :=
  map (fun t => match t_LXCIP t with Some ip => ip | None => EmptyString end)
    (select holds_ip (w_tenants w)).

Definition GetNextAvailableIP (cidr : string) : P (res string) :=
  IPAlloc.Allocate cidr
    (let? ips := query used_ips catch e => Ret (Fail (EWrap "query used ips" e)) in
     Ret (Ok (CollectIPs ips))).

Definition SetHealthStatus (id status : string) : P (option error) :=
  let? tag := stmt (fun w =>
    update_tenant id (fun _ => true) [Tables.SetHealthStatus status (env_now (w_tick w))] w)
  catch e => Ret (Some (EWrap "set health status" e)) in
  Ret None.

Definition SetDashboardToken (id token : string) : P (option error) :=
  exec_tenant "set dashboard token" ErrNoRows id (fun _ => true) [Tables.SetDashboardToken token].

Definition UpdateBilling (tenantID stripeCustomerID stripeSubscriptionID tier : string) : P (option error) :=
  exec_tenant "update billing" ErrNoRows tenantID (fun _ => true)
    [SetStripeCustomerID stripeCustomerID; SetStripeSubscriptionID stripeSubscriptionID; SetTier tier].

Definition to_billing (t : Tenant) : BillingTenant :=
  mkBilling (t_ID t) (t_Name t) (t_Tier t) (t_StripeCustomerID t) (t_StripeSubscriptionID t) (t_OwnerID t).

Definition has_customer (customerID : string) (t : Tenant) : bool :=
  match t_StripeCustomerID t with Some c => String.eqb c customerID | None => false end.

Definition GetByStripeCustomerID (customerID : string) : P (res (option BillingTenant)) :=
  let? t := query (fun w =>
    option_map to_billing (head (select (fun t => has_customer customerID t && live t) (w_tenants w))))
  catch e => Ret (Fail (EWrap "query tenant by stripe customer" e)) in
  Ret (Ok t).

Definition GetBillingByOwnerID (ownerID : string) : P (res (list BillingTenant)) :=
  let? ts := query (fun w =>
    map to_billing
      (order_desc t_CreatedAt (select (fun t => owned_by ownerID t && live t) (w_tenants w))))
  catch e => Ret (Fail (EWrap "query billing tenants by owner" e)) in
  Ret (Ok ts).

End Store.
