(* ===== verification/StationPoller.v ===== *)
(** * internal/station/poller.go: the live status of stations

    [poll] asks the dashboard of every active tenant for its status, keeps the
    answers in the cache the endpoints read and writes [is_online]. Before a
    request it checks that the address is in the tenants' network. *)

From stdpp Require Import gmap strings list fin_maps.
From Stdlib Require Import ZArith Lia.
From S2P Require Import Prelude GoStrings NetIP World Tables.
From S2P Require TenantStore StationStore.

Open Scope Z_scope.

Import TenantStore(PollableTenant, pt_ID, pt_LXCIP).

(** [station.Poller]; the check is switched off by tests only. *)
Record Poller := mkPoller { po_skipIPCheck : bool }.

Definition private10 : Prefix := mkPrefix (10 * 2 ^ 24) 8.

Definition isAllowedIP (ipStr : string) : bool :=
  let host := match SplitHostPort ipStr with Some (h, _) => h | None => ipStr end in
  match ParseIP host with
  | None => false
  | Some ip =>
      if IsLoopback ip || IsLinkLocalUnicast ip || IsUnspecified ip then false
      else NetContains private10 ip
  end.

Definition statusURL (lxcIP : string) : string := "http://" +:+ lxcIP +:+ ":80/api/status".

Definition cache (w : World) : gmap string StationStatus := ra_cache (w_radio w).
Definition set_cache (m : gmap string StationStatus) (w : World) : World :=
  set_radio (mkRadio (StationStore.stations w) m) w.

Section Poller.
Context `{Env}.

Definition GetStatus (tenantID : string) : P (option StationStatus) :=
  local (fun w => (cache w !! tenantID, w)).

Definition store_status (tenantID : string) (s : StationStatus) : P unit :=
  local (fun w => (tt, set_cache (<[tenantID := s]> (cache w)) w)).

(** [httpClient.Do]: the answer, when there is one. *)
Definition status_get (url : string) : P (res StatusAnswer) :=
  atom (fun w =>
    let w' := set_trace (w_trace w ++ [EvStatusGet url]) (set_tick (S (w_tick w)) w) in
    match env_ext (w_tick w) (EvStatusGet url) with
    | Some e => (Fail e, w')
    | None => (Ok (env_dashboard (w_tick w) url), w')
    end).

(** The zero status, with the time it was taken. *)
Definition offline : P StationStatus :=
  let! now := sample env_now in Ret (mkStationStatus false 0 EmptyString "0" now).

Definition fetchStatus (t : PollableTenant) : P StationStatus :=
  let url := statusURL (pt_LXCIP t) in
  match env_url_parse url with
  | None => offline
  | Some _ =>
      let? resp := status_get url catch _e => offline in
      if negb (sa_StatusCode resp =? 200) then offline else
      match sa_Data resp with
      | None => offline
      | Some data =>
          let! now := sample env_now in
          Ret (mkStationStatus (String.eqb (ds_StreamMode_Mode data) "live") (ds_Icecast_Listeners data)
                 (ds_Audio_Title data) (ds_BPM_Current data) now)
      end
  end.

(** One tenant of the cycle; a failure to write [is_online] is only logged. *)
Definition poll_one (p : Poller) (t : PollableTenant) : P unit :=
  if negb (po_skipIPCheck p) && negb (isAllowedIP (pt_LXCIP t)) then Ret tt else
  let! status := fetchStatus t in
  store_status (pt_ID t) status ;;;
  let! _e := StationStore.SetOnline (pt_ID t) (ss_IsOnline status) in
  Ret tt.

(** The loop ends early when the context is cancelled. *)
Fixpoint poll_tenants (p : Poller) (ts : list PollableTenant) : P unit :=
  match ts with
  | [] => Ret tt
  | t :: ts =>
      let! done := sample env_ctx_done in
      if (done : bool) then Ret tt else
      poll_one p t ;;; poll_tenants p ts
  end.

Definition poll (p : Poller) : P unit :=
  let? tenants := TenantStore.ListPollable catch _e => Ret tt in
  poll_tenants p tenants.

(** [Run] until the context is cancelled after [ticks] ticks of the timer. *)
Fixpoint Run (p : Poller) (ticks : nat) : P unit :=
  poll p ;;; match ticks with O => Ret tt | S n => Run p n end.

End Poller.
