(* ===== verification/ProxmoxSpec.v ===== *)
(** * The Proxmox client: waiting for tasks, and what requests carry

    [Wait] returns by its deadline and its verdict is the host's ([ContextLaws]:
    what net/http documents about a request's context); a host that answers and
    finishes the task in time is heard. The form of a clone is read back by a
    server as the options it was made from, whatever their characters. *)

From stdpp Require Import gmap strings list fin_maps.
From Stdlib Require Import Ascii ZArith Lia.
From S2P Require Import Prelude GoStrings GoContext NetURL World Response GoJson ProxmoxClient.

Open Scope Z_scope.

(** A request takes no negative time, ends when its context does, and fails
    when that is already over. *)
Class ContextLaws `{ProxmoxServer} := {
  do_monotone : forall ctx rq now p, now <= (pve_do ctx rq now p).1.2;
  do_deadline : forall ctx rq now p t,
    ctx_Done ctx = Some t -> (pve_do ctx rq now p).1.2 <= Z.max now t;
  do_expired : forall ctx rq now p,
    ctx_expired ctx now = true -> exists e, (pve_do ctx rq now p).1.1 = Fail e }.

(** ** Requests *)

Section Requests.
Context `{HE : Env} `{HS : ProxmoxServer} (c : Client).

Definition get_request (path : string) : HTTPRequest :=
  mkHTTPRequest GET (apiURL c path) (pc_apiToken c) None None.

(** The world after a request. *)
Definition sent (ctx : Context) (rq : HTTPRequest) (s : Conn) : Conn :=
  let '(_, t, p) := pve_do ctx rq (cn_now s) (cn_pve s) in mkConn _ (cn_node s) t p.
Definition answer (ctx : Context) (rq : HTTPRequest) (s : Conn) : res HTTPResp :=
  (pve_do ctx rq (cn_now s) (cn_pve s)).1.1.

Lemma run_do_request ctx rq s :
  env_url_parse (rq_URL rq) <> None ->
  run (do_request ctx rq) s = (wrap_res "execute request" (answer ctx rq s), sent ctx rq s).
Proof.
  intros Hu. unfold do_request. destruct (env_url_parse _); [|done].
  rewrite run_bind, run_atom. unfold answer, sent.
  by destruct (pve_do _ _ _ _) as [[[resp|e] t] p].
Qed.

Lemma wp_do_request ctx rq (Q : res HTTPResp -> Conn -> Prop) s :
  (forall e, Q (Fail e) s) ->
  Q (wrap_res "execute request" (answer ctx rq s)) (sent ctx rq s) ->
  wp (do_request ctx rq) Q s.
Proof.
  intros H1 H2. destruct (env_url_parse (rq_URL rq)) eqn:E.
  - unfold wp. by rewrite run_do_request by congruence.
  - unfold do_request. rewrite E. by apply wp_ret.
Qed.

(** What [get] and [post] make of the answer. *)
Lemma run_get {A} ctx path (d : Decoder A) zero s :
  env_url_parse (apiURL c path) <> None ->
  run (get c ctx path d zero) s =
  (match answer ctx (get_request path) s with
   | Ok resp => decodeResponse d zero resp
   | Fail e => Fail (EWrap "execute request" e)
   end, sent ctx (get_request path) s).
Proof.
  intros Hu. unfold get. rewrite run_bind. fold (get_request path). rewrite run_do_request by done.
  by destruct (answer _ _ _).
Qed.

Definition post_request (path : string) (params : Values) : HTTPRequest :=
  mkHTTPRequest POST (apiURL c path) (pc_apiToken c) (form params).1 (form params).2.

Lemma run_post ctx path params s :
  env_url_parse (apiURL c path) <> None ->
  run (post c ctx path params) s =
  (match answer ctx (post_request path params) s with
   | Ok resp => decodeResponse d_string EmptyString resp
   | Fail e => Fail (EWrap "execute request" e)
   end, sent ctx (post_request path params) s).
Proof.
  intros Hu. unfold post. destruct (form params) as [ctype body] eqn:Ef. rewrite run_bind.
  replace (mkHTTPRequest POST (apiURL c path) (pc_apiToken c) ctype body) with (post_request path params)
    by (unfold post_request; by rewrite Ef).
  rewrite run_do_request by done. by destruct (answer _ _ _).
Qed.

Lemma run_resolveNode_known ctx s :
  cn_node s <> EmptyString -> run (resolveNode c ctx) s = (Ok (cn_node s), s).
Proof.
  intros Hn. unfold resolveNode. rewrite run_bind. unfold read_node. rewrite run_atom.
  by rewrite (proj2 (is_empty_false _) Hn).
Qed.

(** ** Cloning *)

Definition entry_opt (k v : string) : list (string * string) := if is_empty v then [] else [(k, v)].

(** The parameters of the clone call in Proxmox's API. *)
Definition clone_entries (opts : CloneOptions) : list (string * string) :=
  entry_opt "pool" (co_Pool opts) ++ entry_opt "storage" (co_Storage opts) ++
  (if co_Full opts then [("full", "1")] else []) ++ entry_opt "description" (co_Description opts) ++
  entry_opt "hostname" (co_Hostname opts) ++ [("newid", itoa (co_NewID opts))].

Lemma Set_nonempty_entries k v (m : Values) :
  m !! k = None -> map_to_list (Set_nonempty k v m) ≡ₚ entry_opt k v ++ map_to_list m.
Proof.
  intros Hk. unfold Set_nonempty, entry_opt. destruct (is_empty v); [done|]. by apply map_to_list_insert.
Qed.

Lemma Set_nonempty_lookup k k' v (m : Values) :
  k <> k' -> m !! k' = None -> Set_nonempty k v m !! k' = None.
Proof. intros Hk Hm. unfold Set_nonempty. case_match; [done|]. by rewrite lookup_insert_ne. Qed.

Lemma full_lookup (b : bool) k' (m : Values) :
  "full" <> k' -> m !! k' = None -> (if b then insert "full" "1" else id) m !! k' = None.
Proof. intros Hk Hm. destruct b; [by rewrite lookup_insert_ne|done]. Qed.

Lemma full_entries (b : bool) (m : Values) :
  m !! "full" = None ->
  map_to_list ((if b then insert "full" "1" else id) m) ≡ₚ (if b then [("full", "1")] else []) ++ map_to_list m.
Proof. intros Hm. destruct b; [by apply map_to_list_insert|done]. Qed.

Lemma clone_params_entries opts : map_to_list (clone_params opts) ≡ₚ clone_entries opts.
Proof.
  unfold clone_params, clone_entries.
  do 2 (rewrite Set_nonempty_entries by
    (repeat first [apply Set_nonempty_lookup; [done|]|apply full_lookup; [done|]]; by rewrite lookup_insert_ne);
    f_equiv).
  rewrite full_entries by (repeat (apply Set_nonempty_lookup; [done|]); by rewrite lookup_insert_ne). f_equiv.
  do 2 (rewrite Set_nonempty_entries by
    (repeat (apply Set_nonempty_lookup; [done|]); by rewrite lookup_insert_ne); f_equiv).
  by rewrite map_to_list_insert, map_to_list_empty.
Qed.

Lemma clone_params_nonempty opts : clone_params opts <> ∅.
Proof.
  intros E. pose proof (clone_params_entries opts) as H. rewrite E, map_to_list_empty in H.
  apply Permutation_nil in H. unfold clone_entries in H.
  repeat apply app_eq_nil in H as [_ H]. done.
Qed.

Definition clone_outcome (node : string) (a : res HTTPResp) : res Task :=
  match a with
  | Fail e => Fail (EWrap "clone container" (EWrap "execute request" e))
  | Ok resp =>
      match decodeResponse d_string EmptyString resp with
      | Fail e => Fail (EWrap "clone container" e)
      | Ok upid => Ok (mkTask upid node)
      end
  end.

(** Once the node is known, a clone is one POST to the template's clone
    path, and the form it sends is read back as exactly the options given,
    whatever characters a hostname or a description holds; the task returned is
    the one the host answered. A container id below 100 is refused unsent. *)
Theorem Clone_request ctx templateID opts s :
  let path := lxc_path (cn_node s) templateID +:+ "/clone" in
  cn_node s <> EmptyString -> env_url_parse (apiURL c path) <> None ->
  (co_NewID opts < 100 ->
     exists e, run (CloneContainer c ctx templateID opts) s = (Fail e, s)) /\
  (100 <= co_NewID opts -> exists body l,
     let rq := mkHTTPRequest POST (apiURL c path) (pc_apiToken c)
                 (Some "application/x-www-form-urlencoded") (Some body) in
     run (CloneContainer c ctx templateID opts) s = (clone_outcome (cn_node s) (answer ctx rq s), sent ctx rq s) /\
     ParseQuery body = Some l /\ l ≡ₚ clone_entries opts).
Proof.
  cbv zeta. intros Hn Hu. unfold CloneContainer. split; intros Hid.
  - rewrite (proj2 (Z.ltb_lt _ _) Hid). by eexists.
  - rewrite (proj2 (Z.ltb_ge _ _) Hid). exists (Encode (clone_params opts)), (sorted_entries (clone_params opts)).
    rewrite run_bind, run_resolveNode_known, run_bind, run_post by done.
    unfold post_request, form. rewrite bool_decide_eq_false_2 by apply clone_params_nonempty. cbn [fst snd].
    split_and!; [|apply ParseQuery_Encode|by rewrite sorted_entries_Permutation, clone_params_entries].
    unfold clone_outcome. destruct (answer _ _ _) as [resp|e]; [|done]. by destruct (decodeResponse _ _ _).
Qed.

(** ** Waiting *)

Section Timed.
Context `{HL : !ContextLaws}.

(** Time passes, but not beyond the context's end. *)
Definition timely (ctx : Context) (s s' : Conn) : Prop :=
  cn_now s <= cn_now s' /\ (forall t, ctx_Done ctx = Some t -> cn_now s' <= Z.max (cn_now s) t).

Lemma timely_refl ctx s : timely ctx s s.
Proof. split; [lia|intros; lia]. Qed.

Lemma timely_sent ctx rq s : timely ctx s (sent ctx rq s).
Proof.
  unfold sent, timely. pose proof (do_monotone ctx rq (cn_now s) (cn_pve s)) as H1.
  pose proof (do_deadline ctx rq (cn_now s) (cn_pve s)) as H2.
  destruct (pve_do _ _ _ _) as [[r t] p]. cbn in *. auto.
Qed.

(** The host answered a status request of the task with this. *)
Definition reported (t : Task) (st : TaskStatus) : Prop :=
  exists ctx s resp, answer ctx (get_request (status_path t)) s = Ok resp /\
    decodeResponse d_TaskStatus zeroTaskStatus resp = Ok st.

Lemma wp_getStatus ctx t s :
  wp (getStatus c ctx t) (fun r s' => timely ctx s s' /\
    match r with
    | Ok st => reported t st /\ ctx_expired ctx (cn_now s) = false
    | Fail _ => True
    end) s.
Proof.
  unfold getStatus, get. apply wp_bind, wp_bind, wp_do_request.
  - intros e. repeat apply wp_ret. split; [apply timely_refl|done].
  - fold (get_request (status_path t)). pose proof (timely_sent ctx (get_request (status_path t)) s) as Ht.
    destruct (answer _ _ _) as [resp|e] eqn:Ea; cbn [wrap_res]; repeat apply wp_ret; [|done].
    destruct (decodeResponse _ _ _) as [st|] eqn:Ed; apply wp_ret; [|done].
    split; [done|]. split; [by exists ctx, s, resp|].
    destruct (ctx_expired ctx (cn_now s)) eqn:Ex; [|done].
    apply (do_expired ctx (get_request (status_path t)) _ (cn_pve s)) in Ex as [e' Ex].
    unfold answer in Ea. congruence.
Qed.

(** The verdict on a task whose last report is [st]. *)
Definition verdict (t : Task) (st : TaskStatus) : option error :=
  if String.eqb (ts_ExitStatus st) "OK" then None
  else Some (EBase (TaskError (tk_UPID t) (ts_ExitStatus st) (ts_Type st))).

(** What an outcome of [Wait] is backed by. *)
Definition outcome_ok (t : Task) (r : wait_result) : Prop :=
  match r with
  | Returned None =>
      exists st, reported t st /\ ts_Status st = "stopped" /\ ts_ExitStatus st = "OK"
  | Returned (Some (EBase (TaskError u x y))) =>
      u = tk_UPID t /\ x <> "OK" /\ exists st, reported t st /\ ts_Status st = "stopped" /\
        ts_ExitStatus st = x /\ ts_Type st = y
  | Returned (Some _) => True
  | Panicked | OutOfFuel => False
  end.

Lemma outcome_verdict t st :
  reported t st -> ts_Status st = "stopped" -> outcome_ok t (Returned (verdict t st)).
Proof.
  intros Hr Hs. unfold verdict. destruct (String.eqb_spec (ts_ExitStatus st) "OK") as [E|E]; cbn; eauto 10.
Qed.

(** Ticks left before the deadline [D], when the last was received at [last]. *)
Definition ticks_left (D start interval last now : Z) : Z :=
  if D <=? now then 0 else (D - start) / interval - (last - start) / interval + 1.

Lemma next_tick_after start interval last :
  0 < interval -> start <= last -> last < next_tick start interval last <= last + interval.
Proof.
  intros Hi Hl. unfold next_tick. pose proof (Z.div_mod (last - start) interval).
  pose proof (Z.mod_pos_bound (last - start) interval). nia.
Qed.

Lemma next_tick_round start interval last :
  0 < interval -> (next_tick start interval last - start) / interval = (last - start) / interval + 1.
Proof.
  intros Hi. unfold next_tick.
  replace (start + ((last - start) / interval + 1) * interval - start)
    with (((last - start) / interval + 1) * interval) by lia.
  apply Z.div_mul. lia.
Qed.

Lemma ticks_left_positive D start interval last now :
  0 < interval -> last <= now -> now < D -> 0 < ticks_left D start interval last now.
Proof.
  intros Hi H1 H2. unfold ticks_left. destruct (Z.leb_spec D now); [lia|].
  assert ((last - start) / interval <= (D - start) / interval) by (apply Z.div_le_mono; lia). lia.
Qed.

Lemma ticks_left_decreases D start interval last now tick :
  0 < interval -> last <= now -> now < D -> next_tick start interval last <= tick ->
  ticks_left D start interval tick tick < ticks_left D start interval last now.
Proof.
  intros Hi H1 H2 H3. pose proof (ticks_left_positive D start interval last now Hi H1 H2) as Hp.
  unfold ticks_left in *. destruct (Z.leb_spec D tick), (Z.leb_spec D now); [lia..|].
  assert ((next_tick start interval last - start) / interval <= (tick - start) / interval) as Hm
    by (apply Z.div_le_mono; lia).
  rewrite next_tick_round in Hm by done. lia.
Qed.

Lemma wp_select_tick ctx D tick s :
  ctx_Done ctx = Some D -> cn_now s <= D ->
  wp (select_tick ctx tick) (fun r s' => cn_now s <= cn_now s' <= D /\
    match r with Some now => now = cn_now s' /\ tick <= now | None => True end) s.
Proof.
  intros HD Hs. unfold select_tick. apply wp_atom. rewrite HD.
  destruct (_ || _) eqn:E; cbn; [lia|].
  apply orb_false_iff in E as [E%Z.ltb_ge _]. lia.
Qed.

Lemma wait_loop_ends fuel t ctx D start interval last s :
  0 < interval -> ctx_Done ctx = Some D -> start <= last <= cn_now s ->
  ticks_left D start interval last (cn_now s) < Z.of_nat fuel ->
  wp (wait_loop c fuel t ctx start interval last)
     (fun r s' => outcome_ok t r /\ cn_now s <= cn_now s' <= Z.max (cn_now s) D) s.
Proof.
  intros Hi HD. revert last s. induction fuel as [|fuel IH]; intros last s Hl Hf.
  { unfold ticks_left in Hf. destruct (Z.leb_spec D (cn_now s)); [lia|].
    assert ((last - start) / interval <= (D - start) / interval) by (apply Z.div_le_mono; lia). lia. }
  cbn [wait_loop]. apply wp_bind. eapply wp_mono; [apply wp_getStatus|]. cbv beta.
  intros [st|e] s1 [[H1 H2] H3]; specialize (H2 D HD); [|apply wp_ret; cbn; split; [done|lia]].
  destruct H3 as [Hr Hx]. unfold ctx_expired in Hx. rewrite HD in Hx. apply Z.leb_gt in Hx.
  destruct (String.eqb_spec (ts_Status st) "stopped") as [Hst|Hst].
  { pose proof (outcome_verdict t st Hr Hst) as Ho. unfold verdict in Ho.
    destruct (String.eqb _ _); apply wp_ret; (split; [done|lia]). }
  apply wp_bind. eapply wp_mono; [apply (wp_select_tick ctx D); [done|lia]|]. cbv beta.
  intros [now|] s2 [H4 H5]; [|apply wp_ret; cbn; split; [done|lia]]. destruct H5 as [-> H5].
  pose proof (next_tick_after start interval last Hi).
  eapply wp_mono; [apply IH|].
  - lia.
  - pose proof (ticks_left_decreases D start interval last (cn_now s) (cn_now s2)). lia.
  - cbv beta. intros r s3 [? ?]. split; [done|lia].
Qed.

Definition deadline (ctx : Context) (now timeout : Z) : Z :=
  match ctx_Done ctx with Some t => Z.min t (now + timeout) | None => now + timeout end.

Lemma ctx_WithTimeout_Done ctx now d :
  ctx_Done (ctx_WithTimeout ctx now d) = Some (deadline ctx now d).
Proof.
  unfold ctx_WithTimeout, deadline. destruct (ctx_Done ctx) as [t|] eqn:E; [|done].
  destruct (Z.ltb_spec t (now + d)); cbn; rewrite ?E; f_equal; lia.
Qed.

Lemma wait_fuel_enough ctx now cfg :
  0 < wc_pollInterval cfg ->
  ticks_left (deadline ctx now (wc_timeout cfg)) now (wc_pollInterval cfg) now now < Z.of_nat (wait_fuel cfg).
Proof.
  intros Hi. unfold ticks_left, wait_fuel. rewrite Z.sub_diag, Z.div_0_l by lia.
  assert (0 <= Z.max 0 (wc_timeout cfg) / wc_pollInterval cfg) by (apply Z.div_pos; lia).
  destruct (Z.leb_spec (deadline ctx now (wc_timeout cfg)) now); [lia|].
  assert (deadline ctx now (wc_timeout cfg) <= now + wc_timeout cfg) by (unfold deadline; destruct (ctx_Done ctx); lia).
  assert ((deadline ctx now (wc_timeout cfg) - now) / wc_pollInterval cfg
          <= Z.max 0 (wc_timeout cfg) / wc_pollInterval cfg) by (apply Z.div_le_mono; lia). lia.
Qed.

Lemma run_Wait t ctx opts s :
  0 < wc_pollInterval (wait_config opts) ->
  run (Wait c t ctx opts) s =
  run (wait_loop c (wait_fuel (wait_config opts)) t
         (ctx_WithTimeout ctx (cn_now s) (wc_timeout (wait_config opts))) (cn_now s)
         (wc_pollInterval (wait_config opts)) (cn_now s)) s.
Proof.
  intros Hi. unfold Wait. rewrite run_bind. unfold read_clock. rewrite run_atom. cbv zeta.
  by rewrite (proj2 (Z.leb_gt _ _) Hi).
Qed.

(** C37. [Task.Wait] returns, by the deadline of its timeout and of the caller's
    context, whatever the host answers and however slowly; it reports success
    only after the host reported that very task stopped with exit status OK,
    and a task error only with the exit status and type the host reported. *)
Theorem Wait_ends t ctx opts s :
  0 < wc_pollInterval (wait_config opts) ->
  wp (Wait c t ctx opts)
     (fun r s' => outcome_ok t r /\
        cn_now s <= cn_now s' <= Z.max (cn_now s) (deadline ctx (cn_now s) (wc_timeout (wait_config opts)))) s.
Proof.
  intros Hi. unfold wp. rewrite run_Wait by done.
  apply wait_loop_ends; [done|apply ctx_WithTimeout_Done|lia|by apply wait_fuel_enough].
Qed.

(** ** A host that answers *)

Section Responsive.
Context (t : Task) (T0 d : Z) (exitStatus typ : string).

Definition finished (st : TaskStatus) : Prop :=
  ts_Status st = "stopped" /\ ts_ExitStatus st = exitStatus /\ ts_Type st = typ.

(** Every status request with [d] milliseconds left is answered within [d]; the
    report is the final one from [T0] on, and before that it may be. *)
Definition responsive : Prop :=
  forall ctx now p, (forall D, ctx_Done ctx = Some D -> now + d < D) ->
    exists resp st, (pve_do ctx (get_request (status_path t)) now p).1.1 = Ok resp /\
      (pve_do ctx (get_request (status_path t)) now p).1.2 <= now + d /\
      decodeResponse d_TaskStatus zeroTaskStatus resp = Ok st /\
      (T0 <= now \/ ts_Status st = "stopped" -> finished st).

Context (Hurl : env_url_parse (apiURL c (status_path t)) <> None) (Hresp : responsive).

Lemma run_getStatus_responsive ctx s :
  (forall D, ctx_Done ctx = Some D -> cn_now s + d < D) ->
  exists st, (run (getStatus c ctx t) s).1 = Ok st /\
    cn_now s <= cn_now (run (getStatus c ctx t) s).2 <= cn_now s + d /\
    (T0 <= cn_now s \/ ts_Status st = "stopped" -> finished st).
Proof.
  intros Hd. destruct (Hresp ctx (cn_now s) (cn_pve s) Hd) as (resp & st & H1 & H2 & H3 & H4).
  exists st. unfold getStatus. rewrite run_bind, run_get by done. unfold answer. rewrite H1, H3. cbn [run fst snd].
  split_and!; [done| | |done].
  - apply timely_sent.
  - unfold sent. by destruct (pve_do _ _ _ _) as [[r t'] p'].
Qed.

Lemma finished_verdict st : finished st ->
  verdict t st = if String.eqb exitStatus "OK" then None else Some (EBase (TaskError (tk_UPID t) exitStatus typ)).
Proof. intros (_ & H1 & H2). unfold verdict. by rewrite H1, H2. Qed.

Lemma run_select_tick ctx D tick s :
  ctx_Done ctx = Some D -> cn_now s < D -> tick < D ->
  run (select_tick ctx tick) s =
  (Some (Z.max (cn_now s) tick), sleep_until (Z.max (cn_now s) tick) s).
Proof.
  intros HD H1 H2. unfold select_tick. rewrite run_atom, HD.
  destruct (Z.ltb_spec (Z.max (cn_now s) D) (Z.max (cn_now s) tick)); [lia|].
  destruct (Z.eqb_spec (Z.max (cn_now s) D) (Z.max (cn_now s) tick)); [lia|]. done.
Qed.

Lemma wait_loop_hears fuel ctx D start interval last s :
  0 < interval -> 0 <= d -> ctx_Done ctx = Some D -> start <= last <= cn_now s ->
  cn_now s <= T0 + interval + d -> T0 + interval + 2 * d < D ->
  wp (wait_loop c fuel t ctx start interval last)
     (fun r s' => r = OutOfFuel \/
        r = Returned (if String.eqb exitStatus "OK" then None
                      else Some (EBase (TaskError (tk_UPID t) exitStatus typ))) /\
        cn_now s' <= T0 + interval + 2 * d) s.
Proof.
  intros Hi Hd HD. revert last s. induction fuel as [|fuel IH]; intros last s Hl Hs HT; [by left|].
  cbn [wait_loop]. apply wp_bind. unfold wp at 1.
  destruct (run_getStatus_responsive ctx s) as (st & -> & Hnow & Hfin).
  { intros D'. rewrite HD. intros [= <-]. lia. }
  set (s1 := (run (getStatus c ctx t) s).2) in *.
  destruct (String.eqb_spec (ts_Status st) "stopped") as [Hst|Hst].
  { rewrite <- (finished_verdict st) by auto. unfold verdict.
    destruct (String.eqb (ts_ExitStatus st) "OK"); apply wp_ret; right; (split; [done|lia]). }
  assert (cn_now s < T0) as Hlt.
  { destruct (Z.lt_ge_cases (cn_now s) T0); [done|]. destruct Hst. by destruct Hfin; [by left|]. }
  pose proof (next_tick_after start interval last Hi).
  apply wp_bind. unfold wp at 1. rewrite (run_select_tick ctx D) by (done || lia). cbn [fst snd].
  apply IH; cbn; lia.
Qed.

(** C38. A finished task is noticed. When every poll is answered within [d] and
    from time [T0] on the answer is that the task stopped, [Wait] returns the
    verdict of its exit status, one interval and two answers after [T0] at the
    latest, provided this lies before the deadlines. *)
Theorem Wait_reports ctx opts s :
  let interval := wc_pollInterval (wait_config opts) in
  0 < interval -> 0 <= d -> cn_now s <= T0 ->
  T0 + interval + 2 * d < deadline ctx (cn_now s) (wc_timeout (wait_config opts)) ->
  wp (Wait c t ctx opts)
     (fun r s' => r = Returned (if String.eqb exitStatus "OK" then None
                                else Some (EBase (TaskError (tk_UPID t) exitStatus typ))) /\
        cn_now s' <= T0 + interval + 2 * d) s.
Proof.
  cbv zeta. intros Hi Hd HT HD. unfold wp. rewrite run_Wait by done.
  pose proof (wait_loop_ends (wait_fuel (wait_config opts)) t _ _ _ _ _ s Hi
    (ctx_WithTimeout_Done ctx (cn_now s) (wc_timeout (wait_config opts))) (conj (Z.le_refl _) (Z.le_refl _))
    (wait_fuel_enough ctx (cn_now s) _ Hi)) as [Hok _].
  destruct (wait_loop_hears (wait_fuel (wait_config opts))
    (ctx_WithTimeout ctx (cn_now s) (wc_timeout (wait_config opts))) _ (cn_now s) _ (cn_now s) s Hi Hd
    (ctx_WithTimeout_Done _ _ _)) as [E|E]; [lia..| |exact E].
  by rewrite E in Hok.
Qed.

End Responsive.
End Timed.
End Requests.

(** ** The node's name under concurrency *)

(** The client's methods, as the threads that share it call them. *)
Inductive ClientCall :=
| CallNodeName | CallNodeStatus | CallNextID | CallList
| CallStatus (vmid : Z) | CallClone (templateID : Z) (opts : CloneOptions)
| CallStart (vmid : Z) | CallStop (vmid : Z) | CallShutdown (vmid timeout : Z)
| CallNetwork (vmid : Z) (net0 : string) | CallMounts (vmid : Z) (mounts : gmap string string)
| CallDelete (vmid : Z) (force : bool)
| CallWait (t : Task) (opts : list WaitOption).

Section Shared.
Context `{HE : Env} `{HS : ProxmoxServer} (c : Client).

Definition client_call (ctx : Context) (call : ClientCall) : Prog Conn unit :=
  match call with
  | CallNodeName => let! _r := NodeName c ctx in Ret tt
  | CallNodeStatus => let! _r := GetNodeStatus c ctx in Ret tt
  | CallNextID => let! _r := GetNextID c ctx in Ret tt
  | CallList => let! _r := ListContainers c ctx in Ret tt
  | CallStatus vmid => let! _r := GetContainerStatus c ctx vmid in Ret tt
  | CallClone templateID opts => let! _r := CloneContainer c ctx templateID opts in Ret tt
  | CallStart vmid => let! _r := StartContainer c ctx vmid in Ret tt
  | CallStop vmid => let! _r := StopContainer c ctx vmid in Ret tt
  | CallShutdown vmid timeout => let! _r := ShutdownContainer c ctx vmid timeout in Ret tt
  | CallNetwork vmid net0 => let! _r := ConfigureNetwork c ctx vmid net0 in Ret tt
  | CallMounts vmid mounts => let! _r := ConfigureMountPoints c ctx vmid mounts in Ret tt
  | CallDelete vmid force => let! _r := DeleteContainer c ctx vmid force in Ret tt
  | CallWait t opts => let! _r := Wait c t ctx opts in Ret tt
  end.

(** A name once known stays. *)
Definition same_node (s s' : Conn) : Prop := cn_node s <> EmptyString -> cn_node s' = cn_node s.

#[local] Instance same_node_refl : Reflexive same_node.
Proof. done. Qed.
#[local] Instance same_node_trans : Transitive same_node.
Proof. intros a b d H1 H2 Hn. rewrite <- (H1 Hn). apply H2. by rewrite H1. Qed.

Abbreviation settled := (safe (fun _ => True) same_node any).

Lemma settled_atom {A} (op : Conn -> A * Conn) :
  (forall s, cn_node (op s).2 = cn_node s) -> settled (atom op).
Proof. intros Hop. apply safe_atom. intros s _. split_and!; [done|by intros _|done]. Qed.

Lemma settled_do_request ctx rq : settled (do_request ctx rq).
Proof.
  unfold do_request. destruct (env_url_parse _); [|apply safe_any].
  apply safe_bind_any; [|intros []; apply safe_any]. apply settled_atom. intros s.
  by destruct (pve_do _ _ _ _) as [[r t] p].
Qed.

Lemma settled_discover ctx : forall s : Conn, cn_node (run (discoverNodeName c ctx) s).2 = cn_node s.
Proof.
  intros s. change (wp (discoverNodeName c ctx) (fun _ s' => cn_node s' = cn_node s) s).
  unfold discoverNodeName, get. apply wp_bind, wp_bind, wp_do_request.
  - intros e. by repeat apply wp_ret.
  - assert (cn_node (sent ctx (mkHTTPRequest GET (apiURL c "nodes") (pc_apiToken c) None None) s) = cn_node s)
      by (unfold sent; by destruct (pve_do _ _ _ _) as [[r t] p]).
    destruct (answer _ _ _); apply wp_ret; [|by apply wp_ret].
    destruct (decodeResponse _ _ _) as [[]|]; by apply wp_ret.
Qed.

(** The second look-up under the lock is what keeps a name found meanwhile. *)
Lemma settled_resolveNode ctx : settled (resolveNode c ctx).
Proof.
  unfold resolveNode. apply safe_bind_any; [by apply settled_atom|].
  intros name. destruct (negb _); [apply safe_any|].
  apply safe_atom. intros s _. split_and!; [done| |done]. intros Hn.
  unfold discover_locked. rewrite run_bind. unfold read_node. rewrite run_atom.
  by rewrite (proj2 (is_empty_false _) Hn).
Qed.

Lemma settled_get {A} ctx path (d : Decoder A) zero : settled (get c ctx path d zero).
Proof. apply safe_bind_any; [apply settled_do_request|intros []; apply safe_any]. Qed.

Lemma settled_post ctx path params : settled (post c ctx path params).
Proof.
  unfold post. destruct (form params). apply safe_bind_any; [apply settled_do_request|intros []; apply safe_any].
Qed.

Lemma settled_put ctx path params : settled (put c ctx path params).
Proof.
  unfold put. destruct (form params). apply safe_bind_any; [apply settled_do_request|intros []; apply safe_any].
Qed.

Lemma settled_delete ctx path params : settled (delete c ctx path params).
Proof. apply safe_bind_any; [apply settled_do_request|intros []; apply safe_any]. Qed.

Lemma settled_wait_loop fuel t ctx start interval last : settled (wait_loop c fuel t ctx start interval last).
Proof.
  revert last. induction fuel as [|fuel IH]; intros last; cbn [wait_loop]; [apply safe_any|].
  apply safe_bind_any.
  { apply safe_bind_any; [apply settled_get|intros []; apply safe_any]. }
  intros [st|e]; [|apply safe_any]. repeat (case_match; try apply safe_any).
  apply safe_bind_any.
  { apply settled_atom. intros s. cbv zeta. destruct (ctx_Done ctx) as [D|]; [|done]. by destruct (orb _ _). }
  intros [now|]; [apply IH|apply safe_any].
Qed.

Create HintDb settled.
#[local] Hint Resolve settled_resolveNode settled_get settled_post settled_put settled_delete
  settled_wait_loop settled_atom safe_any : settled.

Ltac settle :=
  repeat first
    [ solve [eauto 2 with settled]
    | apply safe_bind_any
    | match goal with
      | |- safe _ _ _ (match ?x with _ => _ end) => destruct x
      | |- forall _, _ => intros ?
      end ].

Lemma settled_call ctx call : settled (client_call ctx call).
Proof.
  destruct call; cbn [client_call];
    unfold NodeName, GetNodeStatus, GetNextID, ListContainers, GetContainerStatus, CloneContainer,
      StartContainer, StopContainer, ShutdownContainer, ConfigureNetwork, ConfigureMountPoints,
      DeleteContainer, Wait, read_clock; cbv zeta; settle.
Qed.

Definition no_spawn (_ : Conn) (_ : Prog Conn unit) (_ : Conn) : Prop := False.

(** However the calls that share a client interleave, the node's name is
    settled once: after one call has found it, no other changes it. *)
Theorem node_name_settles calls s ts s1 ts' s2 :
  rtc (pool_step no_spawn) (map (fun '(ctx, call) => client_call ctx call) calls, s) (ts, s1) ->
  rtc (pool_step no_spawn) (ts, s1) (ts', s2) ->
  cn_node s1 <> EmptyString -> cn_node s2 = cn_node s1.
Proof.
  intros H1 H2 Hn.
  assert (forall w p w', no_spawn w p w' -> True -> True /\ same_node w w' /\ settled p) as Hsp by done.
  destruct (safe_pool no_spawn (fun _ => True) same_node _ _ Hsp H1 I) as (_ & _ & Hts).
  { apply Forall_map, Forall_true. intros [ctx call]. apply settled_call. }
  destruct (safe_pool no_spawn (fun _ => True) same_node _ _ Hsp H2 I Hts) as (_ & HG & _). cbn in HG.
  clear -HG Hn. revert Hn. induction HG as [x|x y z Hxy _ IH]; intros Hn; [done|].
  rewrite IH; [by apply Hxy|by rewrite Hxy].
Qed.

End Shared.

(** ** A concrete host

    It answers every request in 100 ms and keeps what it was sent; a status
    request is told "running" until five seconds after the epoch. *)

Definition demo_body (rq : HTTPRequest) (now : Z) : Json :=
  match rq_Method rq with
  | POST => JObject [("data", JString "UPID:pve:0001:vzclone")]
  | _ => JObject [("data", JObject
           (if 5000 <=? now
            then [("status", JString "stopped"); ("exitstatus", JString "OK"); ("type", JString "vzclone")]
            else [("status", JString "running")]))]
  end.

#[local] Instance demo_host : ProxmoxServer := {
  pve_state := list HTTPRequest;
  pve_do ctx rq now p :=
    if ctx_expired ctx now then (Fail (ctx_Err ctx), now, p)
    else if ctx_expired ctx (now + 100) then (Fail (ctx_Err ctx), default now (ctx_Done ctx), p)
    else (Ok (mkHTTPResp 200 "200 OK" (Ok (Some (demo_body rq now)))), now + 100, p ++ [rq]);
  pve_pick _ _ := false }.

#[local] Instance demo_laws : ContextLaws.
Proof.
  split; intros ctx rq now p; cbn -[ctx_expired].
  - unfold ctx_expired. destruct (ctx_Done ctx) as [t|]; cbn; [|lia].
    destruct (Z.leb_spec t now); cbn; [lia|]. destruct (Z.leb_spec t (now + 100)); cbn; lia.
  - intros t Ht. unfold ctx_expired. rewrite Ht. cbn. destruct (Z.leb_spec t now); cbn; [lia|].
    destruct (Z.leb_spec t (now + 100)); cbn; lia.
  - intros ->. by eexists.
Qed.

Definition demo_client : Client := NewClient "https://host:8006/" "PVEAPIToken=t".
Definition demo_conn (now : Z) : Conn := mkConn _ "pve" now [].
Definition demo_task : Task := mkTask "UPID:pve:0001:vzclone" "pve".
Definition ctx_background : Context := mkContext None DeadlineExceeded.

Example demo_wait :
  let r := run (@Wait calm _ demo_client demo_task ctx_background []) (demo_conn 0) in
  r.1 = Returned None /\ cn_now r.2 = 6100 /\ length (cn_pve r.2) = 4%nat.
Proof. vm_compute. split_and!; reflexivity. Qed.

Lemma Wait_ends_witness :
  0 < wc_pollInterval (wait_config []) /\
  wp (@Wait calm _ demo_client demo_task ctx_background [])
     (fun r s' => outcome_ok demo_client demo_task r /\ 0 <= cn_now s' <= 300000) (demo_conn 0).
Proof.
  split; [vm_compute; reflexivity|].
  apply (Wait_ends (HE := calm) demo_client demo_task ctx_background [] (demo_conn 0)). vm_compute. reflexivity.
Defined.

Lemma demo_responsive : responsive demo_client demo_task 5000 100 "OK" "vzclone".
Proof.
  intros ctx now p Hd. unfold pve_do, demo_host. cbn.
  assert (ctx_expired ctx now = false /\ ctx_expired ctx (now + 100) = false) as [-> ->].
  { unfold ctx_expired. destruct (ctx_Done ctx) as [t|]; [|done]. specialize (Hd t eq_refl).
    rewrite !Z.leb_gt. lia. }
  unfold demo_body. cbn [rq_Method get_request]. destruct (Z.leb_spec 5000 now).
  - eexists _, _. split; [reflexivity|]. split; [done|]. split; [reflexivity|]. by intros _.
  - eexists _, _. split; [reflexivity|]. split; [done|]. split; [reflexivity|]. intros [?|?]; [lia|done].
Qed.

Lemma Wait_reports_witness :
  0 < wc_pollInterval (wait_config []) /\
  wp (@Wait calm _ demo_client demo_task ctx_background [])
     (fun r s' => r = Returned None /\ cn_now s' <= 7200) (demo_conn 0).
Proof.
  split; [vm_compute; reflexivity|].
  apply (Wait_reports (HE := calm) demo_client demo_task 5000 100 "OK" "vzclone"
    ltac:(vm_compute; discriminate) demo_responsive ctx_background [] (demo_conn 0)); vm_compute; congruence.
Defined.

(** A hostname made of separators stays a hostname. *)
Definition demo_options : CloneOptions := mkCloneOptions 105 "a&full=1" "" false "" "".

Lemma Clone_request_witness :
  exists body l,
    run (@CloneContainer calm _ demo_client ctx_background 100 demo_options) (demo_conn 0) =
      (Ok demo_task, mkConn _ "pve" 100 [mkHTTPRequest POST "https://host:8006/api2/json/nodes/pve/lxc/100/clone"
         "PVEAPIToken=t" (Some "application/x-www-form-urlencoded") (Some body)]) /\
    ParseQuery body = Some l /\ l ≡ₚ [("hostname", "a&full=1"); ("newid", "105")].
Proof.
  destruct (Clone_request (HE := calm) demo_client ctx_background 100 demo_options (demo_conn 0)) as [_ Hc];
    [discriminate|vm_compute; discriminate|].
  destruct Hc as (body & l & Hrun & Hp & Hl); [vm_compute; discriminate|].
  exists body, l. split; [exact Hrun|]. split; [exact Hp|exact Hl].
Defined.

Lemma node_name_settles_witness : exists s : Conn,
  rtc (pool_step no_spawn)
    (map (fun '(ctx, call) => @client_call calm _ demo_client ctx call) [(ctx_background, CallNodeName)], demo_conn 0)
    ([], s) /\ cn_node s = "pve".
Proof.
  exists (run (@client_call calm _ demo_client ctx_background CallNodeName) (demo_conn 0)).2.
  split; [apply (pool_run no_spawn)|].
  apply (node_name_settles (HE := calm) demo_client [(ctx_background, CallNodeName)] (demo_conn 0)
    _ _ _ _ (rtc_refl _ _) (pool_run no_spawn _ _ _)). discriminate.
Defined.
