(* ===== verification/CaddyClient.v ===== *)
(** * internal/caddy: routes in Caddy

    The client of Caddy's admin API (client.go) and the reconciliation of its
    routes with the tenants table at start-up (reconciler.go). Caddy itself is
    a parameter: a state, and what a request answers and does to it
    ([CaddyServer]), with the documented behaviour of its configuration API as
    laws ([CaddyLaws]). Bodies are already decoded; error texts leave out the
    subdomain they quote. *)

From stdpp Require Import gmap strings list fin_maps.
From Stdlib Require Import Ascii ZArith Lia.
From S2P Require Import Prelude GoStrings World.
From S2P Require TenantStore.

Open Scope Z_scope.

Definition routeIDPrefix : string := "tenant_".
Definition maxBodySnippet : nat := 200.

(** [caddy.Route]. *)
Record Route := mkRoute { ro_Subdomain : string; ro_TargetIP : string }.

(** [caddyRoute] and its parts: the hosts of each match, and each handler with
    the dial addresses of its upstreams. *)
Record caddyHandler := mkCaddyHandler { ch_Handler : string; ch_Upstreams : list string }.
Record caddyRoute := mkCaddyRoute {
  cr_ID : string; cr_Match : list (list string); cr_Handle : list caddyHandler; cr_Terminal : bool }.

(** [caddy.Client]. *)
Record Client := mkCaddyClient {
  cc_baseURL : string; cc_serverName : string; cc_upstreamPort : string; cc_domain : string }.

Definition defaultUpstreamPort : string := "80".

Definition NewClient (baseURL serverName domain : string) : Client :=
  mkCaddyClient (trim_slashes baseURL) (if is_empty serverName then "srv1" else serverName)
    defaultUpstreamPort (if is_empty domain then "example.com" else domain).

Definition WithUpstreamPort (c : Client) (port : string) : Client :=
  if is_empty port then c else mkCaddyClient (cc_baseURL c) (cc_serverName c) port (cc_domain c).

Definition routeID (subdomain : string) : string := routeIDPrefix +:+ subdomain.

Definition buildRouteJSON (c : Client) (subdomain targetIP : string) : caddyRoute :=
  mkCaddyRoute (routeID subdomain) [[subdomain +:+ "." +:+ cc_domain c]]
    [mkCaddyHandler "reverse_proxy" [targetIP +:+ ":" +:+ cc_upstreamPort c]] true.

(** ** HTTP *)

Inductive Method := GET | POST | DELETE.
Record HTTPRequest := mkHTTPRequest { rq_Method : Method; rq_URL : string; rq_Body : option caddyRoute }.

(** A response: its status, its body as the list of routes when it decodes to
    one, and as text. *)
Record HTTPResp := mkHTTPResp { rs_Status : Z; rs_Routes : option (list caddyRoute); rs_Text : string }.

Definition routesURL (c : Client) : string :=
  cc_baseURL c +:+ "/config/apps/http/servers/" +:+ cc_serverName c +:+ "/routes".
Definition idURL (c : Client) (id : string) : string := cc_baseURL c +:+ "/id/" +:+ id.

(** Caddy: its state, and a round trip of [http.Client.Do], which fails when no
    response arrives. *)
Class CaddyServer := {
  caddy_state : Type;
  caddy_do : HTTPRequest -> caddy_state -> res HTTPResp * caddy_state }.

Definition ok_status (r : HTTPResp) : bool := (200 <=? rs_Status r) && (rs_Status r <? 300).

Definition readErrorBody (r : HTTPResp) : string :=
  let snippet := trim_space (String.substring 0 maxBodySnippet (rs_Text r)) in
  if is_empty snippet then "status " +:+ itoa (rs_Status r)
  else "status " +:+ itoa (rs_Status r) +:+ ": " +:+ snippet.

Section Client.
Context `{Env} `{CaddyServer} (c : Client).

(** [http.NewRequestWithContext], then [Do]. *)
Definition request (create sent : string) (rq : HTTPRequest) : Prog caddy_state (res HTTPResp) :=
  match env_url_parse (rq_URL rq) with
  | None => Ret (Fail (errorString create))
  | Some _ =>
      let? resp := atom (caddy_do rq) catch e => Ret (Fail (EWrap sent e)) in
      Ret (Ok resp)
  end.

Definition AddRoute (subdomain targetIP : string) : Prog caddy_state (option error) :=
  let? resp := request "caddy: create request" "caddy: add route"
                 (mkHTTPRequest POST (routesURL c) (Some (buildRouteJSON c subdomain targetIP)))
  catch e => Ret (Some e) in
  if negb (ok_status resp) then Ret (Some (errorString ("caddy: add route: " +:+ readErrorBody resp)))
  else Ret None.

(** A route that is not there counts as removed. *)
Definition RemoveRoute (subdomain : string) : Prog caddy_state (option error) :=
  let? resp := request "caddy: create request" "caddy: remove route"
                 (mkHTTPRequest DELETE (idURL c (routeID subdomain)) None)
  catch e => Ret (Some e) in
  if rs_Status resp =? 404 then Ret None
  else if negb (ok_status resp) then Ret (Some (errorString ("caddy: remove route: " +:+ readErrorBody resp)))
  else Ret None.

(** A tenant's route as [ListRoutes] reads it back; others are skipped. *)
Definition read_route (r : caddyRoute) : option Route :=
  match trim_prefix_opt routeIDPrefix (cr_ID r) with
  | None => None
  | Some subdomain =>
      let targetIP :=
        match cr_Handle r with
        | hd :: _ =>
            match ch_Upstreams hd with
            | dial :: _ =>
                match cut_last ":" dial with
                | Some (ip, _) => if is_empty ip then dial else ip
                | None => dial
                end
            | [] => EmptyString
            end
        | [] => EmptyString
        end in
      Some (mkRoute subdomain targetIP)
  end.

Definition read_routes (l : list caddyRoute) : list Route := omap read_route l.

Definition ListRoutes : Prog caddy_state (res (list Route)) :=
  let? resp := request "caddy: create request" "caddy: list routes" (mkHTTPRequest GET (routesURL c) None)
  catch e => Ret (Fail e) in
  if negb (ok_status resp) then Ret (Fail (errorString ("caddy: list routes: " +:+ readErrorBody resp)))
  else match rs_Routes resp with
       | None => Ret (Fail (errorString "caddy: decode routes"))
       | Some l => Ret (Ok (read_routes l))
       end.

Definition UpsertRoute (subdomain targetIP : string) : Prog caddy_state (option error) :=
  if_err e := RemoveRoute subdomain then Ret (Some (EWrap "caddy: upsert route: delete failed" e)) else
  if_err e := AddRoute subdomain targetIP then Ret (Some (EWrap "caddy: upsert route: add failed" e)) else
  Ret None.

(** ** reconciler.go *)

Record TenantRoute := mkTenantRoute { tr_Subdomain : string; tr_LXCIP : string }.
Record ReconcileResult := mkReconcile { re_Success : Z; re_Failed : Z }.

(** The loop; a tenant that fails is counted and the next one is tried. *)
Fixpoint reconcile_each (ts : list TenantRoute) (r : ReconcileResult) : Prog caddy_state ReconcileResult :=
  match ts with
  | [] => Ret r
  | t :: ts =>
      if_err _e := UpsertRoute (tr_Subdomain t) (tr_LXCIP t)
      then reconcile_each ts (mkReconcile (re_Success r) (re_Failed r + 1))
      else reconcile_each ts (mkReconcile (re_Success r + 1) (re_Failed r))
  end.

(** [tenantStoreAdapter.ListActiveWithIP] of internal/server/server.go. *)
Definition ListActiveWithIP : P (res (list TenantRoute)) :=
  let? tenants := TenantStore.ListActiveWithIP catch e => Ret (Fail e) in
  Ret (Ok (map (fun t => mkTenantRoute (TenantStore.at_Subdomain t) (TenantStore.at_LXCIP t)) tenants)).

Definition Reconcile : Prog (World * caddy_state) (res ReconcileResult) :=
  let? tenants := on_fst ListActiveWithIP catch e => Ret (Fail (EWrap "caddy: list active tenants" e)) in
  match tenants with
  | [] => Ret (Ok (mkReconcile 0 0))
  | _ => let! r := on_snd (reconcile_each tenants (mkReconcile 0 0)) in Ret (Ok r)
  end.

End Client.

(** ** What Caddy promises *)

(** [removed id l l']: one route with this [@id] was taken out. *)
Definition removed (id : string) (l l' : list caddyRoute) : Prop :=
  exists l1 r l2, l = l1 ++ r :: l2 /\ cr_ID r = id /\ l' = l1 ++ l2.

(** A change of the configuration is applied as a whole or not at all: POST to
    a list appends, DELETE on an [@id] removes that object, an unknown [@id] is
    a 404, GET reads. A success status means it was applied, another status
    that it was not; without a response either is possible. *)
Class CaddyLaws `{CaddyServer} (c : Client) := {
  caddy_routes : caddy_state -> list caddyRoute;
  caddy_post : forall r s, let x := caddy_do (mkHTTPRequest POST (routesURL c) (Some r)) s in
    match x.1 with
    | Ok resp => caddy_routes x.2 = if ok_status resp then caddy_routes s ++ [r] else caddy_routes s
    | Fail _ => caddy_routes x.2 = caddy_routes s \/ caddy_routes x.2 = caddy_routes s ++ [r]
    end;
  caddy_delete : forall id s, let x := caddy_do (mkHTTPRequest DELETE (idURL c id) None) s in
    match x.1 with
    | Ok resp =>
        if ok_status resp then removed id (caddy_routes s) (caddy_routes x.2)
        else caddy_routes x.2 = caddy_routes s /\
             (rs_Status resp = 404 -> forall r, r ∈ caddy_routes s -> cr_ID r <> id)
    | Fail _ => caddy_routes x.2 = caddy_routes s \/ removed id (caddy_routes s) (caddy_routes x.2)
    end;
  caddy_get : forall s, let x := caddy_do (mkHTTPRequest GET (routesURL c) None) s in
    caddy_routes x.2 = caddy_routes s /\
    match x.1 with
    | Ok resp => ok_status resp = true -> rs_Routes resp = Some (caddy_routes s) \/ rs_Routes resp = None
    | Fail _ => True
    end }.
