(* ===== verification/CaddySpec.v ===== *)
(** * Routes in Caddy: the client implements a map

    The abstract state of the tenants' routes is a map from subdomain to
    address. Adding, removing and listing implement its operations, and the
    reconciliation brings it to the tenants table, one tenant at a time,
    whatever fails in between. *)

From stdpp Require Import gmap strings list fin_maps.
From Stdlib Require Import Ascii ZArith Lia.
From S2P Require Import Prelude GoStrings World Tables CaddyClient.
From S2P Require TenantStore.

Open Scope Z_scope.

(** ** The abstraction *)

Definition entry (r : Route) : string * string := (ro_Subdomain r, ro_TargetIP r).

Definition route_map (l : list Route) : gmap string string := list_to_map (map entry l).

(** The map the configured routes stand for. *)
Definition tenant_map (l : list caddyRoute) : gmap string string := route_map (read_routes l).

(** No two tenant routes share an [@id], which Caddy requires of every object. *)
Definition ids_ok (l : list caddyRoute) : Prop := NoDup (map ro_Subdomain (read_routes l)).

(** The routes that are not a tenant's. *)
Definition others (l : list caddyRoute) : list caddyRoute :=
  List.filter (fun r => match read_route r with Some _ => false | None => true end) l.

(** A port without a colon and a present address, so that the dial address can
    be taken apart again. *)
Definition port_ok (c : Client) : Prop := str_forallb (fun x => negb (Ascii.eqb x ":")) (cc_upstreamPort c) = true.

Lemma read_built c sub ip :
  port_ok c -> ip <> EmptyString -> read_route (buildRouteJSON c sub ip) = Some (mkRoute sub ip).
Proof.
  intros Hp Hip. unfold read_route, buildRouteJSON, routeID. cbn [cr_ID cr_Handle ch_Upstreams].
  rewrite (proj2 (trim_prefix_opt_iff _ _ sub) eq_refl).
  change (ip +:+ ":" +:+ cc_upstreamPort c) with (ip +:+ String ":" (cc_upstreamPort c)).
  rewrite cut_last_app by by apply no_char_cut_last. by rewrite (proj2 (is_empty_false ip)).
Qed.

Lemma read_route_id r sub : cr_ID r = routeID sub <-> exists ip, read_route r = Some (mkRoute sub ip).
Proof.
  unfold read_route, routeID. split.
  - intros E. rewrite (proj2 (trim_prefix_opt_iff _ _ sub) E). by eexists.
  - intros [ip E]. destruct (trim_prefix_opt _ _) as [s|] eqn:Et; [|done].
    apply trim_prefix_opt_iff in Et. by injection E as -> _.
Qed.

Lemma read_routes_app l1 l2 : read_routes (l1 ++ l2) = read_routes l1 ++ read_routes l2.
Proof. apply omap_app. Qed.

Lemma others_app l1 l2 : others (l1 ++ l2) = others l1 ++ others l2.
Proof. apply List.filter_app. Qed.

Lemma route_map_lookup l k v :
  NoDup (map ro_Subdomain l) -> route_map l !! k = Some v <-> mkRoute k v ∈ l.
Proof.
  intros Hnd. unfold route_map. rewrite <- elem_of_list_to_map.
  - rewrite list_elem_of_fmap. split.
    + intros ([k' v'] & [= -> ->] & Hin). done.
    + intros Hin. by exists (mkRoute k v).
  - by rewrite map_map.
Qed.

Lemma route_map_none l k : route_map l !! k = None <-> k ∉ map ro_Subdomain l.
Proof. unfold route_map. rewrite <- not_elem_of_list_to_map. by rewrite map_map. Qed.

(** ** Removing and appending *)

Lemma removed_map sub l l' :
  ids_ok l -> removed (routeID sub) l l' ->
  ids_ok l' /\ others l' = others l /\ tenant_map l' = base.delete sub (tenant_map l) /\
  tenant_map l' !! sub = None.
Proof.
  intros Hok (l1 & r & l2 & -> & Hid & ->). apply read_route_id in Hid as [ip Hr].
  unfold ids_ok, tenant_map in *. rewrite !read_routes_app, !others_app in *.
  change (read_routes (r :: l2)) with (match read_route r with Some x => x :: read_routes l2 | None => read_routes l2 end) in *.
  unfold others at 4. cbn [List.filter]. rewrite Hr in *. fold (others l2).
  rewrite !map_app in Hok. cbn [map ro_Subdomain] in Hok.
  assert (sub ∉ map ro_Subdomain (read_routes l1 ++ read_routes l2)) as Hsub.
  { rewrite map_app. apply NoDup_app in Hok as (_ & H1 & [H2 _]%NoDup_cons).
    rewrite elem_of_app. intros [?|?]; [eapply H1; [done|apply list_elem_of_here]|done]. }
  assert (NoDup (map ro_Subdomain (read_routes l1 ++ read_routes l2))) as Hnd.
  { rewrite map_app. apply NoDup_app in Hok as (N1 & H1 & [H2 N2]%NoDup_cons). apply NoDup_app.
    split; [done|]. split; [|done]. intros x Hx Hx'. eapply H1; [done|by apply list_elem_of_further]. }
  split_and!; [done|done| |by apply route_map_none].
  apply map_eq. intros k. destruct (decide (k = sub)) as [->|Hne].
  - rewrite lookup_delete_eq. by apply route_map_none.
  - rewrite lookup_delete_ne by done. apply option_eq. intros v.
    rewrite !route_map_lookup by (try done; by rewrite map_app).
    rewrite !elem_of_app, elem_of_cons. split; [tauto|]. intros [?|[[= ? _]|?]]; [tauto|congruence|tauto].
Qed.

Lemma appended_map c sub ip l :
  port_ok c -> ip <> EmptyString -> ids_ok l -> tenant_map l !! sub = None ->
  let l' := l ++ [buildRouteJSON c sub ip] in
  ids_ok l' /\ others l' = others l /\ tenant_map l' = <[sub := ip]> (tenant_map l).
Proof.
  intros Hp Hip Hok Hnone. cbv zeta. pose proof (read_built c sub ip Hp Hip) as Hr.
  apply route_map_none in Hnone. unfold ids_ok, tenant_map in *. rewrite read_routes_app, others_app.
  change (read_routes [buildRouteJSON c sub ip]) with
    (match read_route (buildRouteJSON c sub ip) with Some x => [x] | None => [] end).
  unfold others at 2. cbn [List.filter]. rewrite Hr, app_nil_r.
  assert (NoDup (map ro_Subdomain (read_routes l ++ [mkRoute sub ip]))) as Hnd.
  { rewrite map_app. cbn [map ro_Subdomain]. apply NoDup_app. split; [done|]. split; [|apply NoDup_singleton].
    intros x Hx ->%list_elem_of_singleton. done. }
  split_and!; [done|done|]. apply map_eq. intros k. apply option_eq. intros v.
  rewrite route_map_lookup, elem_of_app, list_elem_of_singleton, lookup_insert_Some, route_map_lookup by done.
  split.
  - intros [Hin|[= -> ->]]; [|by left]. right. split; [|done]. intros <-. apply Hnone.
    apply list_elem_of_fmap. by exists (mkRoute sub v).
  - intros [[<- <-]|[_ Hin]]; [by right|by left].
Qed.

(** ** The client's operations *)

Section Client.
Context `{HE : Env} `{HC : CaddyServer} (c : Client) `{HL : !CaddyLaws c}.
Context (Hport : port_ok c).

Abbreviation routes := caddy_routes.

(** What no operation on a tenant's route touches. *)
Definition frame (s s' : caddy_state) : Prop :=
  ids_ok (routes s') /\ others (routes s') = others (routes s).

Lemma frame_refl s : ids_ok (routes s) -> frame s s.
Proof. done. Qed.

Lemma frame_eq s s' : routes s' = routes s -> ids_ok (routes s) -> frame s s'.
Proof. unfold frame. by intros ->. Qed.

Lemma frame_trans a b d : frame a b -> frame b d -> frame a d.
Proof. intros [_ E1] [H2 E2]. split; [done|congruence]. Qed.

Lemma wp_request create sent rq (Q : res HTTPResp -> caddy_state -> Prop) s :
  (forall e, Q (Fail e) s) ->
  (forall e, (caddy_do rq s).1 = Fail e -> Q (Fail (EWrap sent e)) (caddy_do rq s).2) ->
  (forall r, (caddy_do rq s).1 = Ok r -> Q (Ok r) (caddy_do rq s).2) ->
  wp (request create sent rq) Q s.
Proof.
  intros H1 H2 H3. unfold request. destruct (env_url_parse _); [|apply wp_ret, H1].
  apply wp_bind, wp_atom. destruct (caddy_do rq s).1 eqn:E; apply wp_ret; auto.
Qed.

Lemma wp_RemoveRoute sub s :
  ids_ok (routes s) ->
  wp (RemoveRoute c sub) (fun e s' => frame s s' /\
    match e with
    | None => tenant_map (routes s') = base.delete sub (tenant_map (routes s))
    | Some _ => tenant_map (routes s') = tenant_map (routes s) \/
                tenant_map (routes s') = base.delete sub (tenant_map (routes s))
    end) s.
Proof.
  intros Hok. pose proof (caddy_delete (routeID sub) s) as Hd. cbv zeta in Hd.
  unfold RemoveRoute. apply wp_bind, wp_request.
  - intros e. apply wp_ret. split; [done|by left].
  - intros e E. rewrite E in Hd. apply wp_ret. destruct Hd as [Hd|Hd].
    + split; [by apply frame_eq|]. rewrite Hd. by left.
    + destruct (removed_map _ _ _ Hok Hd) as (H1 & H2 & H3 & _). split; [done|by right].
  - intros r E. rewrite E in Hd. destruct (ok_status r) eqn:Es.
    + assert (rs_Status r =? 404 = false) as -> by (unfold ok_status in Es; lia). cbn [negb]. apply wp_ret.
      destruct (removed_map _ _ _ Hok Hd) as (H1 & H2 & H3 & _). done.
    + destruct Hd as [Hd H404]. destruct (Z.eqb_spec (rs_Status r) 404) as [E4|E4]; cbn [negb]; apply wp_ret.
      * split; [by apply frame_eq|]. rewrite Hd. symmetry. apply delete_id, route_map_none.
        intros ([sub' ip] & E' & Hin)%list_elem_of_fmap. simpl in E'. subst sub'.
        apply list_elem_of_omap in Hin as (x & Hx & Hr). apply (H404 E4 x Hx), read_route_id. by exists ip.
      * split; [by apply frame_eq|]. rewrite Hd. by left.
Qed.

Lemma wp_AddRoute sub ip s :
  ip <> EmptyString -> ids_ok (routes s) -> tenant_map (routes s) !! sub = None ->
  wp (AddRoute c sub ip) (fun e s' => frame s s' /\
    match e with
    | None => tenant_map (routes s') = <[sub := ip]> (tenant_map (routes s))
    | Some _ => tenant_map (routes s') = tenant_map (routes s) \/
                tenant_map (routes s') = <[sub := ip]> (tenant_map (routes s))
    end) s.
Proof.
  intros Hip Hok Hnone. pose proof (caddy_post (buildRouteJSON c sub ip) s) as Hd. cbv zeta in Hd.
  destruct (appended_map c sub ip (routes s) Hport Hip Hok Hnone) as (A1 & A2 & A3).
  unfold AddRoute. apply wp_bind, wp_request.
  - intros e. apply wp_ret. split; [done|by left].
  - intros e E. rewrite E in Hd. apply wp_ret. unfold frame. destruct Hd as [-> | ->]; auto.
  - intros r E. rewrite E in Hd. destruct (ok_status r); cbn [negb]; apply wp_ret; unfold frame; rewrite Hd; auto.
Qed.

Lemma wp_UpsertRoute sub ip s :
  ip <> EmptyString -> ids_ok (routes s) ->
  wp (UpsertRoute c sub ip) (fun e s' => frame s s' /\
    (forall k, k <> sub -> tenant_map (routes s') !! k = tenant_map (routes s) !! k) /\
    match e with
    | None => tenant_map (routes s') = <[sub := ip]> (tenant_map (routes s))
    | Some _ => tenant_map (routes s') !! sub = tenant_map (routes s) !! sub \/
                tenant_map (routes s') !! sub = None \/ tenant_map (routes s') !! sub = Some ip
    end) s.
Proof.
  intros Hip Hok. unfold UpsertRoute. apply wp_bind. eapply wp_mono; [by apply wp_RemoveRoute|].
  intros [e|] s1 [F1 M1].
  { apply wp_ret. split; [done|]. destruct M1 as [-> | ->]; [auto|]. rewrite lookup_delete_eq.
    split; [|auto]. intros k Hk. by rewrite lookup_delete_ne. }
  apply wp_bind. eapply wp_mono; [apply wp_AddRoute; [done|apply F1|by rewrite M1, lookup_delete_eq]|].
  intros [e|] s2 [F2 M2]; apply wp_ret; (split; [by eapply frame_trans|]).
  - rewrite M1 in M2. destruct M2 as [-> | ->].
    + rewrite lookup_delete_eq. split; [|auto]. intros k Hk. by rewrite lookup_delete_ne.
    + rewrite lookup_insert_eq. split; [|auto]. intros k Hk. by rewrite lookup_insert_ne, lookup_delete_ne.
  - rewrite M1, insert_delete_eq in M2. rewrite M2. split; [|done]. intros k Hk. by rewrite lookup_insert_ne.
Qed.

Lemma wp_ListRoutes s :
  wp (ListRoutes c) (fun r s' => routes s' = routes s /\
    match r with Ok l => l = read_routes (routes s) | Fail _ => True end) s.
Proof.
  pose proof (caddy_get s) as [Hg Hr]. unfold ListRoutes. apply wp_bind, wp_request.
  - intros e. by apply wp_ret.
  - intros e E. by apply wp_ret.
  - intros r E. rewrite E in Hr. destruct (ok_status r); cbn [negb]; [|by apply wp_ret].
    destruct (Hr eq_refl) as [-> | ->]; by apply wp_ret.
Qed.

(** What is put into Caddy comes back. If setting a tenant's route succeeds
    and the routes are then listed, the list is the one before with this
    subdomain now going to this address, each subdomain once; routes that are
    not a tenant's are not in it and have not changed. *)
Theorem Upsert_List_roundtrip (sub ip : string) (s : caddy_state)
  (Hip : ip <> EmptyString) (Hok : ids_ok (routes s)) :
  wp (let! e := UpsertRoute c sub ip in let! l := ListRoutes c in Ret (e, l)) (fun r s' =>
    others (routes s') = others (routes s) /\
    (r.1 = None -> forall l, r.2 = Ok l ->
       NoDup (map ro_Subdomain l) /\ route_map l = <[sub := ip]> (tenant_map (routes s)) /\ mkRoute sub ip ∈ l)) s.
Proof.
  apply wp_bind. eapply wp_mono; [by apply wp_UpsertRoute|]. intros e s1 ([H1 H2] & _ & H4).
  apply wp_bind. eapply wp_mono; [apply wp_ListRoutes|]. intros r s2 [E Hr]. apply wp_ret. cbn [fst snd].
  rewrite E. split; [done|]. intros -> l ->. rewrite Hr. unfold ids_ok, tenant_map in *.
  split_and!; [done|done|]. rewrite <- route_map_lookup by done. by rewrite H4, lookup_insert_eq.
Qed.

(** ** Reconciliation *)

(** The tenants [ok] of [ts] were set; the others have their old route, none, or
    the new one; no other subdomain changed. *)
Record reconciled (ts : list TenantRoute) (m m' : gmap string string) (ok : list TenantRoute) : Prop := {
  rc_sub : ok ⊆+ ts;
  rc_ok : forall t, t ∈ ok -> m' !! tr_Subdomain t = Some (tr_LXCIP t);
  rc_any : forall t, t ∈ ts -> m' !! tr_Subdomain t = Some (tr_LXCIP t) \/ m' !! tr_Subdomain t = None \/
             m' !! tr_Subdomain t = m !! tr_Subdomain t;
  rc_others : forall k, k ∉ map tr_Subdomain ts -> m' !! k = m !! k }.

Lemma reconciled_cons t ts m m1 m' ok (good : bool) :
  tr_Subdomain t ∉ map tr_Subdomain ts ->
  (forall k, k <> tr_Subdomain t -> m1 !! k = m !! k) ->
  (if good then m1 !! tr_Subdomain t = Some (tr_LXCIP t)
   else m1 !! tr_Subdomain t = m !! tr_Subdomain t \/ m1 !! tr_Subdomain t = None \/
        m1 !! tr_Subdomain t = Some (tr_LXCIP t)) ->
  reconciled ts m1 m' ok -> reconciled (t :: ts) m m' (if good then t :: ok else ok).
Proof.
  intros Hnew Hoth Ht [S1 S2 S3 S4]. pose proof (S4 _ Hnew) as Et. split.
  - destruct good; [by apply submseteq_skip|by apply submseteq_cons].
  - intros u. destruct good; [|apply S2]. intros [->|Hu]%elem_of_cons; [by rewrite Et, Ht|auto].
  - intros u [->|Hu]%elem_of_cons; [rewrite Et; destruct good; naive_solver|].
    destruct (S3 u Hu) as [?|[?|E]]; [auto..|]. right; right. rewrite E. apply Hoth.
    intros Heq. apply Hnew. rewrite <- Heq. by apply (list_elem_of_fmap_2 tr_Subdomain).
  - intros k Hk. cbn [map] in Hk. apply not_elem_of_cons in Hk as [Hk1 Hk2]. by rewrite S4, Hoth.
Qed.

Lemma wp_reconcile_each ts r s :
  NoDup (map tr_Subdomain ts) -> Forall (fun t => tr_LXCIP t <> EmptyString) ts -> ids_ok (routes s) ->
  wp (reconcile_each c ts r) (fun r' s' => frame s s' /\
    exists ok, reconciled ts (tenant_map (routes s)) (tenant_map (routes s')) ok /\
      re_Success r' = re_Success r + Z.of_nat (length ok) /\
      re_Failed r' = re_Failed r + Z.of_nat (length ts - length ok)) s.
Proof.
  revert r s. induction ts as [|t ts IH]; intros r s Hnd Hip Hok.
  { apply wp_ret. split; [done|]. exists []. split; [|simpl; lia].
    split; [done|by intros ? ?%elem_of_nil|by intros ? ?%elem_of_nil|done]. }
  cbn [map] in Hnd. apply NoDup_cons in Hnd as [Hnew Hnd]. apply Forall_cons in Hip as [Hip Hips].
  cbn [reconcile_each]. apply wp_bind. eapply wp_mono; [by apply wp_UpsertRoute|].
  intros e s1 (F1 & O1 & M1).
  assert (forall r1 (good : bool), (if good then tenant_map (routes s1) !! tr_Subdomain t = Some (tr_LXCIP t) else
      tenant_map (routes s1) !! tr_Subdomain t = tenant_map (routes s) !! tr_Subdomain t \/
      tenant_map (routes s1) !! tr_Subdomain t = None \/
      tenant_map (routes s1) !! tr_Subdomain t = Some (tr_LXCIP t)) ->
    re_Success r1 = re_Success r + (if good then 1 else 0) -> re_Failed r1 = re_Failed r + (if good then 0 else 1) ->
    wp (reconcile_each c ts r1) (fun r' s' => frame s s' /\
      exists ok, reconciled (t :: ts) (tenant_map (routes s)) (tenant_map (routes s')) ok /\
        re_Success r' = re_Success r + Z.of_nat (length ok) /\
        re_Failed r' = re_Failed r + Z.of_nat (length (t :: ts) - length ok)) s1) as Hrest.
  { intros r1 good Hg Hs1 Hf1. eapply wp_mono; [apply IH; [done..|apply F1]|].
    intros r' s' (F2 & ok & Hrec & Hs & Hf). split; [by eapply frame_trans|].
    exists (if good then t :: ok else ok). split; [by eapply reconciled_cons|].
    pose proof (submseteq_length _ _ (rc_sub _ _ _ _ Hrec)).
    destruct good; cbn [length] in *; lia. }
  destruct e as [e|].
  - by apply (Hrest _ false); [|simpl; lia|simpl; lia].
  - apply (Hrest _ true); [by rewrite M1, lookup_insert_eq|simpl; lia|simpl; lia].
Qed.

End Client.

(** ** The whole reconciliation *)

Section Reconciliation.
Context `{HE : Env} `{HC : CaddyServer} (c : Client) `{HL : !CaddyLaws c}.

(** The tenants that should have a route. *)
Definition wants (w : World) (sub ip : string) : Prop :=
  exists id t, w_tenants w !! id = Some t /\ t_Status t = active /\ t_LXCIP t = Some ip /\ ip <> EmptyString /\
    t_Subdomain t = sub.

Lemma elem_of_active w sub ip :
  mkTenantRoute sub ip ∈ map (fun t => mkTenantRoute (TenantStore.at_Subdomain t) (TenantStore.at_LXCIP t))
    (TenantStore.toActiveTenants (map TenantStore.row_with_ip (select TenantStore.reachable (w_tenants w)))) <->
  wants w sub ip.
Proof.
  unfold TenantStore.toActiveTenants. rewrite !map_map, list_elem_of_fmap. unfold wants, TenantStore.row_with_ip. split.
  - intros (t & E & (Hr & id & Hid)%elem_of_select). simpl in E. unfold TenantStore.reachable in Hr.
    apply andb_prop in Hr as [Hs Hi]. destruct (t_LXCIP t) as [x|] eqn:Ex; [|done].
    apply negb_true_iff, is_empty_false in Hi. apply bool_decide_eq_true in Hs. injection E as -> ->.
    exists id, t. by split_and!.
  - intros (id & t & Hid & Hs & Hi & Hne & <-). exists t. simpl. rewrite Hi. split; [done|].
    apply elem_of_select. split; [|eauto]. unfold TenantStore.reachable, status_eqb.
    rewrite bool_decide_eq_true_2, Hi by done. simpl. by apply negb_true_iff, is_empty_false.
Qed.

Lemma active_subdomains w :
  tenants_ok (w_tenants w) ->
  NoDup (map tr_Subdomain (map (fun t => mkTenantRoute (TenantStore.at_Subdomain t) (TenantStore.at_LXCIP t))
    (TenantStore.toActiveTenants (map TenantStore.row_with_ip (select TenantStore.reachable (w_tenants w)))))).
Proof.
  intros [Hk Hu]. unfold TenantStore.toActiveTenants. rewrite !map_map. unfold TenantStore.row_with_ip. simpl.
  assert (NoDup (rows (w_tenants w))) as Hr.
  { unfold rows. apply NoDup_fmap_2_strong; [|apply NoDup_map_to_list].
    intros [k t] [k' t'] H1%elem_of_map_to_list H2%elem_of_map_to_list. simpl. intros <-.
    by rewrite <- (Hk _ _ H1), <- (Hk _ _ H2). }
  apply NoDup_fmap_2_strong; [|by apply NoDup_ListNoDup, List.NoDup_filter, NoDup_ListNoDup].
  intros a b (Ha & i & Hi)%elem_of_select (Hb & j & Hj)%elem_of_select E.
  unfold TenantStore.reachable, status_eqb in Ha, Hb. apply andb_prop in Ha as [Ha%bool_decide_eq_true _], Hb as [Hb%bool_decide_eq_true _].
  destruct (decide (i = j)) as [->|Hne]; [congruence|].
  destruct (Hu i j a b Hi Hj Hne) as [_ Hs]; [unfold live, status_eqb; by rewrite ?Ha, ?Hb..|done].
Qed.

(** C39. Reconciliation brings Caddy to the tenants table. Whatever Caddy answers
    and whichever statements fail, it changes no table and no route that is not
    a tenant's; it counts every active tenant with an address once, as
    succeeded or failed; the tenants it counts as succeeded go to their
    address; one it counts as failed has its old route, none, or the right one;
    and the routes of all other subdomains stay as they were. When it reports
    no failures, every active tenant with an address is reachable there. *)
Theorem Reconcile_refines (w : World) (s : caddy_state)
  (Hport : port_ok c) (Hok : tenants_ok (w_tenants w)) (Hids : ids_ok (caddy_routes s)) :
  wp (Reconcile c) (fun r x => unchanged w x.1 /\ others (caddy_routes x.2) = others (caddy_routes s) /\
    let m := tenant_map (caddy_routes s) in let m' := tenant_map (caddy_routes x.2) in
    match r with
    | Fail _ => x.2 = s
    | Ok res => exists ts ok : list TenantRoute,
        (forall sub ip, mkTenantRoute sub ip ∈ ts <-> wants w sub ip) /\ NoDup (map tr_Subdomain ts) /\
        re_Success res = Z.of_nat (length ok) /\ re_Success res + re_Failed res = Z.of_nat (length ts) /\
        reconciled ts m m' ok /\
        (re_Failed res = 0 -> forall sub ip, wants w sub ip -> m' !! sub = Some ip)
    end) (w, s).
Proof.
  unfold Reconcile, ListActiveWithIP, TenantStore.ListActiveWithIP, TenantStore.listActiveWithIP.
  apply wp_bind, wp_on_fst, wp_bind, wp_bind, wp_bind, wp_query.
  { intros m w1 H1 _. by do 4 apply wp_ret. }
  intros w1 H1 _. assert (w_tenants w1 = w_tenants w) as T1 by apply H1.
  pose proof (elem_of_active w1) as Hin. pose proof (active_subdomains w1) as Hnd. rewrite T1 in Hnd. specialize (Hnd Hok).
  rewrite <- T1 in Hnd. do 3 apply wp_ret. set (ts := map _ (TenantStore.toActiveTenants _)) in *. clearbody ts.
  assert (forall sub ip, wants w1 sub ip <-> wants w sub ip) as Hw by (intros; unfold wants; by rewrite T1).
  assert (Forall (fun t => tr_LXCIP t <> EmptyString) ts) as Hip.
  { apply Forall_forall. intros [sub ip] Ht. apply Hin in Ht as (_ & _ & _ & _ & _ & Hne & _). done. }
  assert (wp (reconcile_each c ts (mkReconcile 0 0)) (fun r' s' => others (caddy_routes s') = others (caddy_routes s) /\
    exists ok, re_Success r' = Z.of_nat (length ok) /\ re_Success r' + re_Failed r' = Z.of_nat (length ts) /\
      reconciled ts (tenant_map (caddy_routes s)) (tenant_map (caddy_routes s')) ok /\
      (re_Failed r' = 0 -> forall sub ip, wants w sub ip -> tenant_map (caddy_routes s') !! sub = Some ip)) s) as Hloop.
  { eapply wp_mono; [by apply (wp_reconcile_each c Hport)|]. intros r' s' ([_ Ho] & ok & Hrec & Hs & Hf).
    split; [done|]. exists ok. simpl in Hs, Hf. pose proof (submseteq_length _ _ (rc_sub _ _ _ _ Hrec)) as Hlen.
    split_and!; [done|lia|done|]. intros Hf0 sub ip Hsi. apply Hw, Hin in Hsi.
    apply (rc_ok _ _ _ _ Hrec (mkTenantRoute sub ip)).
    assert (ok ≡ₚ ts) as ->; [|done]. apply submseteq_length_Permutation; [apply Hrec|lia]. }
  destruct ts as [|t0 ts].
  - apply wp_ret. cbn [fst snd]. split; [done|]. unfold wp in Hloop. simpl in Hloop.
    destruct Hloop as (_ & ok & H2 & H3 & H4 & H5). split; [done|]. exists [], ok. split_and!; try done.
    intros. by rewrite Hin, Hw.
  - apply wp_bind, wp_on_snd. eapply wp_mono; [exact Hloop|]. intros r' s' (Ho & ok & Hrest). apply wp_ret.
    cbn [fst snd]. split; [done|]. split; [done|]. exists (t0 :: ts), ok. split; [intros; by rewrite Hin, Hw|]. by split.
Qed.

End Reconciliation.

(** ** Example

    A Caddy that keeps a list of routes and refuses one subdomain. *)

Fixpoint take_out (id : string) (l : list caddyRoute) : option (list caddyRoute) :=
  match l with
  | [] => None
  | r :: l' => if String.eqb (cr_ID r) id then Some l' else option_map (cons r) (take_out id l')
  end.

Lemma take_out_removed id l l' : take_out id l = Some l' -> removed id l l'.
Proof.
  revert l'. induction l as [|r l IH]; intros l'; simpl; [done|].
  destruct (String.eqb_spec (cr_ID r) id) as [E|].
  - intros [= <-]. by exists [], r, l.
  - destruct (take_out id l) as [k|]; [|done]. intros [= <-].
    destruct (IH k eq_refl) as (l1 & x & l2 & -> & Hx & ->). by exists (r :: l1), x, l2.
Qed.

Lemma take_out_none id l : take_out id l = None -> forall r, r ∈ l -> cr_ID r <> id.
Proof.
  induction l as [|x l IH]; simpl; [by intros _ ? ?%elem_of_nil|].
  destruct (String.eqb_spec (cr_ID x) id) as [|Hne]; [done|]. destruct (take_out id l); [done|].
  intros _ r [->|Hr]%elem_of_cons; [done|by apply IH].
Qed.

Definition demo_client : Client := NewClient "http://caddy:2019/" EmptyString EmptyString.

#[export] Instance demo_caddy : CaddyServer := {|
  caddy_state := list caddyRoute;
  caddy_do := fun rq l =>
    match rq_Method rq, rq_Body rq with
    | POST, Some r => if String.eqb (cr_ID r) "tenant_refused" then (Ok (mkHTTPResp 500 None "no"), l)
                      else (Ok (mkHTTPResp 200 None EmptyString), l ++ [r])
    | DELETE, _ =>
        match trim_prefix_opt "http://caddy:2019/id/" (rq_URL rq) with
        | Some id => match take_out id l with
                     | Some l' => (Ok (mkHTTPResp 200 None EmptyString), l')
                     | None => (Ok (mkHTTPResp 404 None EmptyString), l)
                     end
        | None => (Ok (mkHTTPResp 400 None EmptyString), l)
        end
    | GET, _ => (Ok (mkHTTPResp 200 (Some l) EmptyString), l)
    | _, _ => (Ok (mkHTTPResp 400 None EmptyString), l)
    end |}.

#[export] Instance demo_caddy_laws : @CaddyLaws demo_caddy demo_client.
Proof.
  refine {| caddy_routes := (fun l : @caddy_state demo_caddy => l : list caddyRoute) |}; cbn -[trim_prefix_opt].
  - intros r s. by destruct (String.eqb (cr_ID r) "tenant_refused").
  - intros id s. assert (trim_prefix_opt "http://caddy:2019/id/" (idURL demo_client id) = Some id) as ->
      by by apply trim_prefix_opt_iff.
    destruct (take_out id s) eqn:E; simpl; [by apply take_out_removed|].
    split; [done|]. intros _. by apply take_out_none.
  - intros s. split; [done|]. by left.
Defined.

Definition caddy_tenant (id sub ip : string) : Tenant :=
  mkTenant id sub "p1" "n1" (Some 105) (Some ip) sub active None None None None "free" None "unknown" None 1 1.

Definition caddy_world : World :=
  set_tenants {["t1" := caddy_tenant "t1" "jazz" "10.10.10.7"; "t2" := caddy_tenant "t2" "refused" "10.10.10.8"]} empty_world.

(** A route of the site itself, a stale address, and a tenant that is gone. *)
Definition old_routes : list caddyRoute :=
  [mkCaddyRoute "site" [["example.com"]] [mkCaddyHandler "file_server" []] true;
   buildRouteJSON demo_client "jazz" "10.10.10.99"; buildRouteJSON demo_client "gone" "10.10.10.9"].

Lemma Upsert_List_roundtrip_witness :
  let E := calm in
  let x := run (let! e := UpsertRoute demo_client "jazz" "10.10.10.7" in
                let! l := ListRoutes demo_client in Ret (e, l)) old_routes in
  x.1 = (None, Ok [mkRoute "gone" "10.10.10.9"; mkRoute "jazz" "10.10.10.7"]) /\ others x.2 = take 1 old_routes.
Proof.
  intros E x. split; [vm_compute; reflexivity|].
  refine (proj1 (@Upsert_List_roundtrip calm demo_caddy demo_client demo_caddy_laws eq_refl "jazz" "10.10.10.7" old_routes _ _)).
  - discriminate.
  - vm_compute. repeat constructor; rewrite ?not_elem_of_cons; repeat split; try discriminate; apply not_elem_of_nil.
Defined.

Lemma caddy_world_ok : tenants_ok (w_tenants caddy_world).
Proof.
  split.
  - intros id t. simpl. by intros [[<- <-]|[_ [<- <-]%lookup_singleton_Some]]%lookup_insert_Some.
  - intros i j a b. simpl.
    intros [[<- <-]|[_ [<- <-]%lookup_singleton_Some]]%lookup_insert_Some
           [[<- <-]|[_ [<- <-]%lookup_singleton_Some]]%lookup_insert_Some; done.
Qed.

Lemma Reconcile_refines_witness :
  let E := calm in
  let x := run (Reconcile demo_client) (caddy_world, old_routes) in
  x.1 = Ok (mkReconcile 1 1) /\
  map entry (read_routes x.2.2) = [("gone", "10.10.10.9"); ("jazz", "10.10.10.7")] /\
  others x.2.2 = take 1 old_routes.
Proof.
  intros E x. split; [vm_compute; reflexivity|]. split; [vm_compute; reflexivity|].
  refine (proj1 (proj2 (@Reconcile_refines calm demo_caddy demo_client demo_caddy_laws caddy_world old_routes eq_refl caddy_world_ok _))).
  vm_compute. repeat constructor; rewrite ?not_elem_of_cons; repeat split; try discriminate; apply not_elem_of_nil.
Defined.
