(* ===== verification/TenantFSM.v ===== *)
(** * The life cycle of a tenant: abstract specification

    The state machine the status setters of internal/tenant/store.go implement,
    the invariant of the shared tables, and the proof that every statement of
    the tenant, node and project stores preserves the invariant and moves every
    tenant along an edge of the machine. Programs are sequences of such
    statements, so whole handlers and goroutines inherit both, interleaved in
    any way ([Prelude.safe_pool]). *)

From stdpp Require Import gmap strings list fin_maps relations.
From Stdlib Require Import ZArith Lia.
From S2P Require Import Prelude GoStrings World Response Tables NodeStore.
From S2P Require ProjectStore TenantStore AuditStore.
From S2P Require WGStore AuthStore StationStore WebAuthnStore.
Import WGStore(peers_ok) AuthStore(auth_ok) StationStore(radio_ok, radio_ok_tenants).

Open Scope Z_scope.

(** ** The machine *)

Inductive status_step : TenantStatus -> TenantStatus -> Prop :=
| step_activate : status_step provisioning active
| step_provision_failed : status_step provisioning errored
| step_suspend : status_step active suspended
| step_resume : status_step suspended active
| step_delete_active : status_step active deleting
| step_delete_suspended : status_step suspended deleting
| step_delete_errored : status_step errored deleting
| step_delete_failed : status_step deleting errored
| step_deleted : status_step deleting deleted.

(** What an edge may change. The identity of a tenant, its placement, its owner
    and its subdomain never change; its container is recorded exactly when
    provisioning succeeds. *)
Record evolves (t t' : Tenant) : Prop := {
  ev_ID : t_ID t' = t_ID t;
  ev_ProjectID : t_ProjectID t' = t_ProjectID t;
  ev_NodeID : t_NodeID t' = t_NodeID t;
  ev_Subdomain : t_Subdomain t' = t_Subdomain t;
  ev_OwnerID : t_OwnerID t' = t_OwnerID t;
  ev_CreatedAt : t_CreatedAt t' = t_CreatedAt t;
  ev_Status : t_Status t' = t_Status t \/ status_step (t_Status t) (t_Status t');
  ev_LXCID : t_LXCID t' = t_LXCID t \/
    (t_Status t = provisioning /\ t_Status t' = active /\ is_Some (t_LXCID t')) }.

(** A tenant that runs or can be resumed has a container. *)
Definition has_container (t : Tenant) : Prop :=
  t_Status t = active \/ t_Status t = suspended -> is_Some (t_LXCID t).

Definition fresh (t : Tenant) : Prop := t_Status t = provisioning /\ t_LXCID t = None.

(** ** The invariant and the guarantee *)

Record world_ok (w : World) : Prop := {
  ok_tenants : tenants_ok (w_tenants w);
  ok_containers : forall id t, w_tenants w !! id = Some t -> has_container t;
  ok_nodes : nodes_ok (w_nodes w);
  ok_projects : forall id p, w_projects w !! id = Some p -> p_ID p = id /\ 0 <= p_RAMMB p;
  ok_refs : forall id t, w_tenants w !! id = Some t ->
    is_Some (w_nodes w !! t_NodeID t) /\ is_Some (w_projects w !! t_ProjectID t);
  ok_jobs : forall j, j ∈ w_jobs w -> 0 <= j_RAMMB j;
  ok_peers : peers_ok (w_peers w);
  ok_auth : auth_ok (w_auth w);
  ok_stations : radio_ok w;
  ok_keys : WebAuthnStore.keys_ok w }.

Record world_step (w w' : World) : Prop := {
  st_tenants : forall id t, w_tenants w !! id = Some t ->
    exists t', w_tenants w' !! id = Some t' /\ evolves t t';
  st_new : forall id t, w_tenants w' !! id = Some t -> w_tenants w !! id = None -> fresh t;
  st_audit : exists l, w_audit w' = w_audit w ++ l;
  st_trace : exists l, w_trace w' = w_trace w ++ l }.

Lemma evolves_refl t : evolves t t.
Proof. by split; auto. Qed.

(** A step that leaves the tenants table, the log and the trace alone. *)
Lemma world_step_frame w w' :
  w_tenants w' = w_tenants w -> w_audit w' = w_audit w -> w_trace w' = w_trace w -> world_step w w'.
Proof.
  intros H1 H2 H3. split.
  - intros id t Ht. exists t. rewrite H1. auto using evolves_refl.
  - intros id t. rewrite H1. congruence.
  - exists []. by rewrite app_nil_r.
  - exists []. by rewrite app_nil_r.
Qed.

Lemma world_step_refl w : world_step w w.
Proof. by apply world_step_frame. Qed.

#[export] Instance quiet_world_step : Quiet world_ok world_step.
Proof.
  split.
  - intros w n []. split; [by split|by apply world_step_frame].
  - intros w ev n []. split; [by split|]. split; simpl.
    + intros id t Ht. exists t. auto using evolves_refl.
    + intros id t. congruence.
    + exists []. by rewrite app_nil_r.
    + by exists [ev].
Qed.

(** ** Statements on tenants *)

Lemma apply_set_static cs t :
  let t' := fold_left (fun t c => apply_set c t) cs t in
  t_ID t' = t_ID t /\ t_ProjectID t' = t_ProjectID t /\ t_NodeID t' = t_NodeID t /\
  t_Subdomain t' = t_Subdomain t /\ t_OwnerID t' = t_OwnerID t /\ t_CreatedAt t' = t_CreatedAt t.
Proof.
  revert t. induction cs as [|c cs IH]; intros t; simpl; [done|].
  destruct (IH (apply_set c t)) as (-> & -> & -> & -> & -> & ->). by destruct t, c.
Qed.

Lemma set_updated_same now t :
  t_ID (set_updated now t) = t_ID t /\ t_ProjectID (set_updated now t) = t_ProjectID t /\
  t_NodeID (set_updated now t) = t_NodeID t /\ t_Subdomain (set_updated now t) = t_Subdomain t /\
  t_OwnerID (set_updated now t) = t_OwnerID t /\ t_CreatedAt (set_updated now t) = t_CreatedAt t /\
  t_Status (set_updated now t) = t_Status t /\ t_LXCID (set_updated now t) = t_LXCID t.
Proof. by destruct t. Qed.

(** The assignments take a row matching the WHERE clause along an edge. *)
Definition sets_ok (where_ : Tenant -> bool) (sets : list TenantSet) : Prop :=
  forall t, where_ t = true ->
  let t' := fold_left (fun t c => apply_set c t) sets t in
  (t_Status t' = t_Status t \/ status_step (t_Status t) (t_Status t')) /\
  (t_LXCID t' = t_LXCID t \/
   (t_Status t = provisioning /\ t_Status t' = active /\ is_Some (t_LXCID t'))) /\
  (has_container t -> has_container t').

Section Statements.
Context `{Env}.

Lemma update_tenant_cases id where_ sets w :
  (exists t t', w_tenants w !! id = Some t /\ where_ t = true /\
     t' = apply_sets (env_now (w_tick w)) sets t /\ index_conflict (w_tenants w) t' = false /\
     update_tenant id where_ sets w = (Ok (Some t'), set_tenants (<[id := t']> (w_tenants w)) w)) \/
  ((w_tenants w !! id = None \/ exists t, w_tenants w !! id = Some t /\ where_ t = false) /\
   update_tenant id where_ sets w = (Ok None, w)) \/
  (exists t, w_tenants w !! id = Some t /\
     index_conflict (w_tenants w) (apply_sets (env_now (w_tick w)) sets t) = true /\
     update_tenant id where_ sets w = (Fail (EBase (PgError unique_violation)), w)).
Proof.
  unfold update_tenant. destruct (w_tenants w !! id) as [t|] eqn:E; [|right; left; eauto].
  destruct (where_ t) eqn:Ew; [|right; left; split; [right; by eauto|done]].
  destruct (index_conflict _ _) eqn:Ec; [right; right; by eauto|].
  left. exists t, (apply_sets (env_now (w_tick w)) sets t). split_and!; auto.
Qed.

(** Writing one row that evolves. *)
Lemma write_tenant_ok w id t t' :
  world_ok w -> w_tenants w !! id = Some t -> evolves t t' -> has_container t' ->
  index_conflict (w_tenants w) t' = false ->
  world_ok (set_tenants (<[id := t']> (w_tenants w)) w) /\
  world_step w (set_tenants (<[id := t']> (w_tenants w)) w).
Proof.
  intros [Ht Hc Hn Hp Hr Hj Hpe Hau Hst Hky] Hid Hev Hcont Hconf.
  assert (t_ID t' = id) as Hk by (rewrite (ev_ID _ _ Hev); by apply (proj1 Ht)).
  split; [split; simpl; try done|split; simpl].
  - rewrite <- Hk. by apply tenants_ok_insert.
  - intros id1 t1. rewrite lookup_insert. case_decide; [by intros [= <-]|apply Hc].
  - intros id1 t1. rewrite lookup_insert. case_decide; [|apply Hr].
    intros [= <-]. rewrite (ev_NodeID _ _ Hev), (ev_ProjectID _ _ Hev). by apply (Hr id).
  - by apply radio_ok_tenants.
  - intros id1 t1 H1. rewrite lookup_insert. case_decide; subst; [|eauto using evolves_refl].
    exists t'. by simplify_eq.
  - intros id1 t1. rewrite lookup_insert. case_decide; subst; congruence.
  - exists []. by rewrite app_nil_r.
  - exists []. by rewrite app_nil_r.
Qed.

Lemma update_tenant_ok id where_ sets w :
  sets_ok where_ sets -> world_ok w ->
  world_ok (update_tenant id where_ sets w).2 /\ world_step w (update_tenant id where_ sets w).2.
Proof.
  intros Hs Hw. destruct (update_tenant_cases id where_ sets w)
    as [(t&t'&Ht&Hwh&Ht'&Hc&->)|[[_ ->]|(t&_&_&->)]]; simpl; [|auto using world_step_refl..].
  destruct (Hs t Hwh) as (H1 & H2 & H3). unfold apply_sets in Ht'.
  destruct (apply_set_static sets t) as (E1&E2&E3&E4&E5&E6).
  destruct (set_updated_same (env_now (w_tick w)) (fold_left (fun t c => apply_set c t) sets t))
    as (F1&F2&F3&F4&F5&F6&F7&F8). rewrite <- Ht' in *.
  apply (write_tenant_ok w id t t'); [done|done| | |done].
  - split; try congruence; rewrite ?F7, ?F8; done.
  - unfold has_container. rewrite F7, F8. apply H3. by eapply ok_containers.
Qed.

Lemma insert_tenant_ok name pid nid sub own w :
  world_ok w ->
  world_ok (insert_tenant name pid nid sub own w).2 /\
  world_step w (insert_tenant name pid nid sub own w).2.
Proof.
  intros Hw. unfold insert_tenant. destruct (_ || _) eqn:E1; simpl; [auto using world_step_refl|].
  destruct (negb _) eqn:E2; simpl; [auto using world_step_refl|].
  apply orb_false_elim in E1 as [E1%bool_decide_eq_false Hc].
  apply negb_false_iff, andb_prop in E2 as [Ep%bool_decide_eq_true En%bool_decide_eq_true].
  assert (w_tenants w !! env_uuid (w_tick w) = None) as Hnone by by apply eq_None_not_Some.
  destruct Hw as [Ht Hcn Hn Hp Hr Hj Hpe Hau Hst Hky]. split; [split; simpl; try done|split; simpl].
  - by apply (tenants_ok_insert (w_tenants w) (mkTenant (env_uuid (w_tick w)) _ _ _ _ _ _ _ _ _ _ _ _ _ _ _ _ _)).
  - intros id1 t1. rewrite lookup_insert. case_decide; [|apply Hcn].
    intros [= <-]. unfold has_container. simpl. intros []; done.
  - intros id1 t1. rewrite lookup_insert. case_decide; [|apply Hr]. by intros [= <-].
  - by apply radio_ok_tenants.
  - intros id1 t1 H1. rewrite lookup_insert_ne by congruence. eauto using evolves_refl.
  - intros id1 t1. rewrite lookup_insert. case_decide; [|congruence]. by intros [= <-] _.
  - exists []. by rewrite app_nil_r.
  - exists []. by rewrite app_nil_r.
Qed.

(** ** Statements on nodes and projects *)

Lemma nodes_write_ok w m :
  world_ok w -> nodes_ok m ->
  (forall id, is_Some (w_nodes w !! id) -> is_Some (m !! id) \/
     forall k t, w_tenants w !! k = Some t -> t_NodeID t <> id) ->
  world_ok (set_nodes m w) /\ world_step w (set_nodes m w).
Proof.
  intros [Ht Hc Hn Hp Hr Hj Hpe Hau Hst Hky] Hm Hkeep. split; [|by apply world_step_frame].
  split; simpl; try done. intros id t Hid. destruct (Hr _ _ Hid) as [H1 H2]. split; [|done].
  destruct (Hkeep _ H1) as [|Hno]; [done|]. by destruct (Hno _ _ Hid).
Qed.

Lemma projects_write_ok w m :
  world_ok w -> (forall id p, m !! id = Some p -> p_ID p = id /\ 0 <= p_RAMMB p) ->
  (forall id, is_Some (w_projects w !! id) -> is_Some (m !! id) \/
     forall k t, w_tenants w !! k = Some t -> t_ProjectID t <> id) ->
  world_ok (set_projects m w) /\ world_step w (set_projects m w).
Proof.
  intros [Ht Hc Hn Hp Hr Hj Hpe Hau Hst Hky] Hm Hkeep. split; [|by apply world_step_frame].
  split; simpl; try done. intros id t Hid. destruct (Hr _ _ Hid) as [H1 H2]. split; [done|].
  destruct (Hkeep _ H2) as [|Hno]; [done|]. by destruct (Hno _ _ Hid).
Qed.

Lemma not_referenced (f : Tenant -> bool) w :
  existsb f (rows (w_tenants w)) = false -> forall k t, w_tenants w !! k = Some t -> f t = false.
Proof.
  intros Hex k t Ht. apply not_true_iff_false. intros Hf. apply not_true_iff_false in Hex.
  apply Hex, existsb_exists. exists t. split; [|done]. apply list_elem_of_In, elem_of_rows. eauto.
Qed.

Lemma nodes_stmt_ok w w' :
  world_ok w -> nodes_ok (w_nodes w') -> (exists m, w' = set_nodes m w) ->
  (forall id, is_Some (w_nodes w !! id) -> is_Some (w_nodes w' !! id) \/
     forall k t, w_tenants w !! k = Some t -> t_NodeID t <> id) ->
  world_ok w' /\ world_step w w'.
Proof. intros Hw Hn [m ->] Hk. by apply nodes_write_ok. Qed.

Lemma update_node_keeps id where_ sets w k :
  is_Some (w_nodes w !! k) -> is_Some (w_nodes (update_node id where_ sets w).2 !! k).
Proof.
  intros Hk. destruct (update_node_cases id where_ sets w)
    as [(n&n'&Hn&_&_&_&_&->)|[[_ ->]|[e ->]]]; simpl; [|done..].
  rewrite lookup_insert. case_decide; [by eexists|done].
Qed.

Lemma reserve_ram_world id ram w :
  0 <= ram -> world_ok w ->
  world_ok (reserve_ram id ram w).2 /\ world_step w (reserve_ram id ram w).2.
Proof.
  intros Hr Hw. destruct (reserve_ram_ok id ram w (ok_nodes _ Hw) Hr) as [H1 H2].
  apply nodes_stmt_ok; [done..|]. intros k Hk. left. unfold reserve_ram.
  destruct (w_nodes w !! id); [|done]. destruct (negb _); [done|by apply update_node_keeps].
Qed.

Lemma release_ram_world id ram w :
  0 <= ram -> world_ok w ->
  world_ok (release_ram id ram w).2 /\ world_step w (release_ram id ram w).2.
Proof.
  intros Hr Hw. destruct (release_ram_ok id ram w (ok_nodes _ Hw) Hr) as [H1 H2].
  apply nodes_stmt_ok; [done..|]. intros k Hk. left. unfold release_ram.
  destruct (w_nodes w !! id); [|done]. destruct (negb _); [done|by apply update_node_keeps].
Qed.

Lemma delete_node_world id w :
  world_ok w -> world_ok (delete_node id w).2 /\ world_step w (delete_node id w).2.
Proof.
  intros Hw. destruct (delete_node_ok id w (ok_nodes _ Hw)) as [H1 H2].
  apply nodes_stmt_ok; [done..|]. intros k Hk. unfold delete_node.
  destruct (w_nodes w !! id); [|by left]. destruct (existsb _ _) eqn:Ex; [by left|]. simpl.
  destruct (decide (k = id)) as [->|]; [|left; by rewrite lookup_delete_ne].
  right. intros j t Ht Heq. pose proof (not_referenced _ _ Ex _ _ Ht) as Hf.
  unfold references_node in Hf. by rewrite Heq, String.eqb_refl in Hf.
Qed.

Lemma insert_node_world req w :
  0 <= cn_TotalRAMMB req -> in_int4 (cn_TotalRAMMB req) = true -> world_ok w ->
  world_ok (insert_node req w).2 /\ world_step w (insert_node req w).2.
Proof.
  intros Hr Hi Hw. destruct (insert_node_ok req w (ok_nodes _ Hw) Hr Hi) as [H1 H2].
  apply nodes_stmt_ok; [done..|]. intros k Hk. left. unfold insert_node.
  destruct (_ || _); [done|]. simpl. rewrite lookup_insert. case_decide; [by eexists|done].
Qed.

Lemma update_node_world id req w :
  world_ok w ->
  world_ok (update_node id (node_where req) (fun _ => node_sets req) w).2 /\
  world_step w (update_node id (node_where req) (fun _ => node_sets req) w).2.
Proof.
  intros Hw. destruct (update_request_ok id req w (ok_nodes _ Hw)) as [H1 H2].
  apply nodes_stmt_ok; [done..|]. intros k Hk. left. by apply update_node_keeps.
Qed.

Lemma delete_project_world id w :
  world_ok w ->
  world_ok (ProjectStore.delete_project id w).2 /\ world_step w (ProjectStore.delete_project id w).2.
Proof.
  intros Hw. unfold ProjectStore.delete_project.
  destruct (w_projects w !! id); [|auto using world_step_refl].
  destruct (existsb _ _) eqn:Ex; [auto using world_step_refl|]. simpl.
  apply projects_write_ok; [done| |].
  - intros k q. rewrite lookup_delete_Some. intros [_ ?]. by apply (ok_projects _ Hw).
  - intros k Hk. destruct (decide (k = id)) as [->|]; [|left; by rewrite lookup_delete_ne].
    right. intros j t Ht Heq. pose proof (not_referenced _ _ Ex _ _ Ht) as Hf.
    unfold references_project in Hf. by rewrite Heq, String.eqb_refl in Hf.
Qed.

Lemma insert_project_world req w :
  0 <= ProjectStore.cp_RAMMB req -> world_ok w ->
  world_ok (ProjectStore.insert_project req w).2 /\ world_step w (ProjectStore.insert_project req w).2.
Proof.
  intros Hr Hw. unfold ProjectStore.insert_project. destruct (_ || _); [auto using world_step_refl|].
  simpl. apply projects_write_ok; [done| |].
  - intros k p. rewrite lookup_insert. case_decide; [|apply (ok_projects _ Hw)].
    by intros [= <-].
  - intros k Hk. left. rewrite lookup_insert. case_decide; [by eexists|done].
Qed.

(** An update that assigns no negative RAM. *)
Definition ram_sets_ok (sets : list ProjectStore.ProjectSet) : Prop :=
  forall v, ProjectStore.PSetRAMMB v ∈ sets -> 0 <= v.

Lemma apply_psets_ok sets p :
  ram_sets_ok sets -> 0 <= p_RAMMB p ->
  let p' := fold_left (fun p c => ProjectStore.apply_pset c p) sets p in
  p_ID p' = p_ID p /\ 0 <= p_RAMMB p'.
Proof.
  revert p. induction sets as [|c sets IH]; intros p Hs Hp; simpl; [done|].
  destruct (IH (ProjectStore.apply_pset c p)) as [-> ?].
  - intros v Hv. apply Hs, elem_of_cons. by right.
  - destruct c; destruct p; simpl in *; try done. apply Hs, elem_of_cons. by left.
  - split; [|done]. destruct c; by destruct p.
Qed.

Lemma update_project_world id sets w :
  ram_sets_ok sets -> world_ok w ->
  world_ok (ProjectStore.update_project id sets w).2 /\
  world_step w (ProjectStore.update_project id sets w).2.
Proof.
  intros Hs Hw. unfold ProjectStore.update_project.
  destruct (w_projects w !! id) as [p|] eqn:Ep; [|auto using world_step_refl].
  destruct (ProjectStore.name_taken _ _); [auto using world_step_refl|]. simpl.
  destruct (ok_projects _ Hw _ _ Ep) as [Hid Hram].
  destruct (apply_psets_ok sets p Hs Hram) as [Hid' Hram'].
  destruct (fold_left _ _ p) as [???????????]. simpl in *.
  apply projects_write_ok; [done| |].
  - intros k q. rewrite lookup_insert. case_decide; [|apply (ok_projects _ Hw)].
    intros [= <-]. simpl. split; [congruence|done].
  - intros k Hk. left. rewrite lookup_insert. case_decide; [by eexists|done].
Qed.

End Statements.
