(* ===== verification/StoreSafe.v ===== *)
(** * The stores implement the life cycle

    Each store operation, as a program, keeps the invariant of the tables and
    moves tenants along the machine of [TenantFSM]. The lemmas are hints: the
    client components prove the same of whole handlers with [safe_auto]. *)

From stdpp Require Import gmap strings list fin_maps relations.
From Stdlib Require Import ZArith Lia.
From S2P Require Import Prelude GoStrings NetIP World IPAlloc Response Tables TenantFSM.
From S2P Require NodeStore ProjectStore TenantStore AuditStore Crypto StationStore.
Import StationStore(radio_ok).

Open Scope Z_scope.

Abbreviation keeps Q p := (safe world_ok world_step Q p).

Lemma world_step_tick n w w' : world_step (set_tick n w) w' -> world_step w w'.
Proof. by intros []. Qed.

(** A query of a project finds one with a RAM that is not negative. *)
Definition ok_project (r : res (option Project)) : Prop :=
  match r with Ok (Some p) => 0 <= p_RAMMB p | _ => True end.

(** Requests whose RAM columns are not negative. *)
Definition create_project_ok (req : ProjectStore.CreateProjectRequest) : Prop :=
  0 <= ProjectStore.cp_RAMMB req.
Definition update_project_ok (req : ProjectStore.UpdateProjectRequest) : Prop :=
  forall v, ProjectStore.up_RAMMB req = Some v -> 0 <= v.

(** Decomposes a program whose answers do not matter to its safety. *)
Ltac safe_auto :=
  repeat first
    [ progress intros
    | match goal with
      | |- safe _ _ any (Ret _) => apply safe_any
      | |- safe _ _ any (bind _ _) => apply safe_bind_any; [solve [eauto with safe]|]
      | |- safe _ _ any (bind (bind _ _) _) => apply safe_bind_any
      | |- safe _ _ any (bind (match _ with _ => _ end) _) => apply safe_bind_any
      | |- safe _ _ any (match ?x with _ => _ end) => destruct x
      end
    | solve [eauto with safe] ].

Section StoreSafe.
Context `{Env}.

Lemma keeps_stmt {A} (Q : res A -> Prop) (f : World -> res A * World) :
  (forall e, Q (Fail e)) ->
  (forall w, world_ok w -> world_ok (f w).2 /\ world_step w (f w).2 /\ Q (f w).1) ->
  keeps Q (stmt f).
Proof.
  intros HQ Hf. apply (safe_stmt _ _); [done|]. intros w n Hw.
  assert (world_ok (set_tick n w)) as Hw' by by destruct Hw.
  destruct (Hf _ Hw') as (?&?&?). split_and!; [done|by eapply world_step_tick|done].
Qed.

Lemma keeps_stmt_any {A} (f : World -> res A * World) :
  (forall w, world_ok w -> world_ok (f w).2 /\ world_step w (f w).2) -> keeps any (stmt f).
Proof. intros Hf. apply keeps_stmt; [done|]. intros w Hw. destruct (Hf w Hw). done. Qed.

Lemma keeps_local {A} (f : World -> A * World) :
  (forall w, world_ok w -> world_ok (f w).2 /\ world_step w (f w).2) -> keeps any (local f).
Proof. intros Hf. apply safe_atom. intros w Hw. destruct (Hf w Hw). done. Qed.

(** ** tenant.Store *)

Lemma keeps_exec msg none id where_ sets :
  sets_ok where_ sets -> keeps any (TenantStore.exec_tenant msg none id where_ sets).
Proof.
  intros Hs. apply safe_bind_any; [|intros [[]|]; apply safe_any].
  apply keeps_stmt_any. intros. by apply update_tenant_ok.
Qed.

(** Assignments that touch neither the status nor the container. *)
Definition plain_set (c : TenantSet) : bool :=
  match c with SetStatus _ | SetLXCID _ => false | _ => true end.

Lemma plain_sets_ok where_ sets : forallb plain_set sets = true -> sets_ok where_ sets.
Proof.
  intros Hp t _.
  assert (forall t0, let t' := fold_left (fun t c => apply_set c t) sets t0 in
    t_Status t' = t_Status t0 /\ t_LXCID t' = t_LXCID t0) as Hsame.
  { revert Hp. clear. induction sets as [|c cs IH]; intros Hp t0; simpl; [done|].
    apply andb_prop in Hp as [Hc Hp]. destruct (IH Hp (apply_set c t0)) as [-> ->].
    destruct c; try done; by destruct t0. }
  destruct (Hsame t) as [E1 E2]. simpl. unfold has_container. rewrite E1, E2. auto.
Qed.

Lemma status_in_spec l t : TenantStore.status_in l t = true <-> t_Status t ∈ l.
Proof.
  unfold TenantStore.status_in. rewrite existsb_exists. split.
  - intros (s & Hin & Hs%bool_decide_eq_true). rewrite Hs. by apply list_elem_of_In.
  - intros Hin. exists (t_Status t). split; [by apply list_elem_of_In|by apply bool_decide_eq_true].
Qed.

(** One status assignment along edges that keep the container known. *)
Lemma status_sets_ok l s cs :
  (forall s0, s0 ∈ l -> status_step s0 s) ->
  (s = active \/ s = suspended -> forall s0, s0 ∈ l -> s0 = active \/ s0 = suspended) ->
  forallb plain_set cs = true ->
  sets_ok (TenantStore.status_in l) (SetStatus s :: cs).
Proof.
  intros Hl Hs Hcs t Hin%status_in_spec.
  destruct (plain_sets_ok (fun _ => true) cs Hcs (apply_set (SetStatus s) t) eq_refl) as (_&_&_).
  assert (forall t0, let t' := fold_left (fun t c => apply_set c t) cs t0 in
    t_Status t' = t_Status t0 /\ t_LXCID t' = t_LXCID t0) as Hsame.
  { revert Hcs. clear. induction cs as [|c cs IH]; intros Hp t0; simpl; [done|].
    apply andb_prop in Hp as [Hc Hp]. destruct (IH Hp (apply_set c t0)) as [-> ->].
    destruct c; try done; by destruct t0. }
  simpl. destruct (Hsame (apply_set (SetStatus s) t)) as [E1 E2].
  unfold has_container. rewrite E1, E2. destruct t. simpl in *. split_and!; auto.
Qed.

Lemma keeps_SetSuspended id : keeps any (TenantStore.SetSuspended id).
Proof.
  apply keeps_exec, status_sets_ok; [|intros _|done]; intros s ->%list_elem_of_singleton;
    [constructor|by left].
Qed.

Lemma keeps_SetResumed id : keeps any (TenantStore.SetResumed id).
Proof.
  apply keeps_exec, status_sets_ok; [|intros _|done]; intros s ->%list_elem_of_singleton;
    [constructor|by right].
Qed.

Lemma keeps_SetActive id lxc : keeps any (TenantStore.SetActive id lxc).
Proof.
  unfold TenantStore.SetActive. destruct (negb _); [apply safe_any|].
  apply keeps_exec. intros t Hs%status_in_spec. apply list_elem_of_singleton in Hs.
  destruct t. simpl in *. subst. split_and!; [right; constructor|right; by eauto|by eexists].
Qed.

Lemma keeps_SetError id msg : keeps any (TenantStore.SetError id msg).
Proof.
  apply keeps_exec, status_sets_ok; [|by intros []|done].
  intros s. rewrite !elem_of_cons. intros [->|[->|?%elem_of_nil]]; by try constructor.
Qed.

Lemma keeps_SetDeleting id : keeps any (TenantStore.SetDeleting id).
Proof.
  apply keeps_exec, status_sets_ok; [|by intros []|done].
  intros s. rewrite !elem_of_cons. intros [->|[->|[->|?%elem_of_nil]]]; by try constructor.
Qed.

Lemma keeps_SetDeleted id : keeps any (TenantStore.SetDeleted id).
Proof.
  apply keeps_exec, status_sets_ok; [|by intros []|done].
  intros s ->%list_elem_of_singleton. constructor.
Qed.

Lemma keeps_SetLXCIP id ip : keeps any (TenantStore.SetLXCIP id ip).
Proof. by apply keeps_exec, plain_sets_ok. Qed.

Lemma keeps_SetDashboardToken id tok : keeps any (TenantStore.SetDashboardToken id tok).
Proof. by apply keeps_exec, plain_sets_ok. Qed.

Lemma keeps_UpdateBilling id c s tier : keeps any (TenantStore.UpdateBilling id c s tier).
Proof. by apply keeps_exec, plain_sets_ok. Qed.

Lemma keeps_SetHealthStatus id s : keeps any (TenantStore.SetHealthStatus id s).
Proof.
  apply safe_bind_any; [|intros []; apply safe_any]. apply keeps_stmt_any. intros.
  by apply update_tenant_ok; [apply plain_sets_ok|].
Qed.

Lemma keeps_tenant_Update id req : keeps any (TenantStore.Update id req).
Proof.
  unfold TenantStore.Update. destruct (TenantStore.tenant_sets req) as [|c cs] eqn:E; [apply safe_any|].
  apply safe_bind_any; [|intros []; apply safe_any]. apply keeps_stmt_any. intros.
  apply update_tenant_ok; [|done]. apply plain_sets_ok. rewrite <- E. by destruct req as [[] [] []].
Qed.

Lemma keeps_insert name pid nid sub own : keeps any (stmt (insert_tenant name pid nid sub own)).
Proof. apply keeps_stmt_any. intros. by apply insert_tenant_ok. Qed.

Lemma keeps_tenant_Create req : keeps any (TenantStore.Create req).
Proof. apply safe_bind_any; [apply keeps_insert|]. intros []; apply safe_any. Qed.

Lemma keeps_CreateWithOwner req own : keeps any (TenantStore.CreateWithOwner req own).
Proof. apply safe_bind_any; [apply keeps_insert|]. intros []; apply safe_any. Qed.

Lemma keeps_read {A B} (f : World -> A) (k : res A -> P B) :
  (forall r, keeps any (k r)) -> keeps any (bind (query f) k).
Proof. intros Hk. by apply safe_bind_any; [apply (safe_query_any _ _)|]. Qed.

Lemma keeps_bad_text {A} (Q : res A -> Prop) : (forall e, Q (Fail e)) -> keeps Q bad_text.
Proof. intros HQ. apply keeps_stmt; [done|]. intros w Hw. split_and!; [done|apply world_step_refl|apply HQ]. Qed.

Lemma keeps_tenant_GetByID id : keeps any (TenantStore.GetByID id).
Proof. apply keeps_read. intros []; apply safe_any. Qed.

Lemma keeps_tenant_ListPaginated l o s n p : keeps any (TenantStore.ListPaginated l o s n p).
Proof.
  unfold TenantStore.ListPaginated. destruct (_ && _); [apply keeps_read; intros []; apply safe_any|].
  apply safe_bind_any; [by apply keeps_bad_text|]. intros []; apply safe_any.
Qed.

Lemma keeps_CountByOwnerID o : keeps any (TenantStore.CountByOwnerID o).
Proof. apply keeps_read. intros []; apply safe_any. Qed.

Lemma keeps_ListByOwnerID o : keeps any (TenantStore.ListByOwnerID o).
Proof. apply keeps_read. intros []; apply safe_any. Qed.

Lemma keeps_GetByStripeCustomerID c : keeps any (TenantStore.GetByStripeCustomerID c).
Proof. apply keeps_read. intros []; apply safe_any. Qed.

Lemma keeps_GetBillingByOwnerID c : keeps any (TenantStore.GetBillingByOwnerID c).
Proof. apply keeps_read. intros []; apply safe_any. Qed.

Lemma keeps_Allocate cidr used :
  keeps any used -> keeps any (IPAlloc.Allocate cidr used).
Proof.
  intros Hu. unfold IPAlloc.Allocate. destruct (ParsePrefix4 cidr); [|apply safe_any].
  apply keeps_read. intros []; [|apply safe_any]. apply keeps_read. intros []; [|apply safe_any].
  apply safe_bind_any; [done|]. intros [u|]; [|apply safe_any].
  destruct (Next cidr u); [|apply safe_any]. apply keeps_read. intros []; apply safe_any.
Qed.

Lemma keeps_GetNextAvailableIP cidr : keeps any (TenantStore.GetNextAvailableIP cidr).
Proof. apply keeps_Allocate, keeps_read. intros []; apply safe_any. Qed.

(** ** node.Store *)

Lemma keeps_ReserveRAM id ram : 0 <= ram -> keeps any (NodeStore.ReserveRAM id ram).
Proof.
  intros Hr. unfold NodeStore.ReserveRAM. destruct (negb _); [apply safe_any|].
  apply safe_bind_any; [|intros [[]|]; apply safe_any]. apply keeps_stmt_any. intros.
  by apply reserve_ram_world.
Qed.

Lemma keeps_ReleaseRAM id ram : 0 <= ram -> keeps any (NodeStore.ReleaseRAM id ram).
Proof.
  intros Hr. unfold NodeStore.ReleaseRAM. destruct (negb _); [apply safe_any|].
  apply safe_bind_any; [|intros []; apply safe_any]. apply keeps_stmt_any. intros.
  by apply release_ram_world.
Qed.

Lemma keeps_node_GetByID id : keeps any (NodeStore.GetByID id).
Proof. apply keeps_read. intros []; apply safe_any. Qed.

Lemma keeps_node_ListPaginated l o : keeps any (NodeStore.ListPaginated l o).
Proof. apply keeps_read. intros []; apply safe_any. Qed.

Lemma keeps_node_CountTenants id : keeps any (NodeStore.CountTenants id).
Proof. apply keeps_read. intros []; apply safe_any. Qed.

Lemma keeps_GetEncryptedTokenByID id : keeps any (NodeStore.GetEncryptedTokenByID id).
Proof. apply keeps_read. intros []; apply safe_any. Qed.

Lemma keeps_GetLeastLoaded ram : keeps any (NodeStore.GetLeastLoaded ram).
Proof.
  unfold NodeStore.GetLeastLoaded. destruct (negb _); [apply safe_any|].
  apply safe_bind_any; [|intros []; apply safe_any]. apply keeps_stmt_any. intros w Hw.
  destruct (forallb _ _); auto using world_step_refl.
Qed.

Lemma keeps_node_Create req :
  0 <= NodeStore.cn_TotalRAMMB req -> keeps any (NodeStore.Create req).
Proof.
  intros Hr. unfold NodeStore.Create. destruct (negb _) eqn:E; [apply safe_any|].
  apply negb_false_iff in E.
  apply safe_bind_any; [|intros []; apply safe_any]. apply keeps_stmt_any. intros.
  by apply insert_node_world.
Qed.

Lemma keeps_node_Update id req : keeps any (NodeStore.Update id req).
Proof.
  unfold NodeStore.Update. destruct (NodeStore.node_sets req) as [|c cs] eqn:E; [apply safe_any|].
  destruct (negb _); [apply safe_any|]. apply safe_bind_any.
  - apply keeps_stmt_any. intros. rewrite <- E. by apply update_node_world.
  - intros [[n|]|]; [apply safe_any| |apply safe_any].
    destruct (NodeStore.un_TotalRAMMB req); [|apply safe_any].
    apply safe_bind_any; [apply keeps_node_GetByID|]. intros [[]|]; apply safe_any.
Qed.

Lemma keeps_node_Delete id : keeps any (NodeStore.Delete id).
Proof.
  apply safe_bind_any.
  - apply keeps_stmt_any. intros. by apply delete_node_world.
  - intros [a|]; [destruct (a =? 0)|]; apply safe_any.
Qed.

(** ** project.Store *)

Lemma keeps_project_GetByID id : keeps ok_project (ProjectStore.GetByID id).
Proof.
  apply (safe_bind _ _ ok_project); [|intros [[]|] Hp; by apply safe_ret].
  apply (safe_query _ _); [done|]. intros w Hw. simpl.
  destruct (w_projects w !! id) eqn:E; [|done]. by apply (ok_projects _ Hw) in E as [_ ?].
Qed.

Lemma keeps_GetDefault : keeps ok_project ProjectStore.GetDefault.
Proof.
  apply (safe_bind _ _ ok_project); [|intros [[]|] Hp; by apply safe_ret].
  apply (safe_query _ _); [done|]. intros w Hw. simpl.
  destruct (first_by _ _) as [p|] eqn:E; [|done].
  apply first_by_elem, elem_of_rows in E as [id Hp]. by apply (ok_projects _ Hw) in Hp as [_ ?].
Qed.

Lemma keeps_project_GetByID_any id : keeps any (ProjectStore.GetByID id).
Proof. by eapply safe_mono; [apply keeps_project_GetByID|]. Qed.

Lemma keeps_project_ListPaginated l o : keeps any (ProjectStore.ListPaginated l o).
Proof. apply keeps_read. intros []; apply safe_any. Qed.

Lemma keeps_project_CountTenants id : keeps any (ProjectStore.CountTenants id).
Proof. apply keeps_read. intros []; apply safe_any. Qed.

Lemma keeps_project_Delete id : keeps any (ProjectStore.Delete id).
Proof.
  apply safe_bind_any.
  - apply keeps_stmt_any. intros. by apply delete_project_world.
  - intros [a|]; [destruct (a =? 0)|]; apply safe_any.
Qed.

Lemma keeps_project_Create req : create_project_ok req -> keeps any (ProjectStore.Create req).
Proof.
  intros Hr. unfold ProjectStore.Create. destruct (negb _); [apply safe_any|].
  apply safe_bind_any; [|intros []; apply safe_any]. apply keeps_stmt_any. intros.
  apply insert_project_world; [|done]. simpl. unfold create_project_ok in Hr.
  destruct (_ =? 0); lia.
Qed.

Lemma elem_of_opt_set {A} (f : A -> ProjectStore.ProjectSet) o c :
  c ∈ ProjectStore.opt_set f o <-> exists x, o = Some x /\ c = f x.
Proof.
  destruct o as [a|]; simpl.
  - rewrite list_elem_of_singleton. naive_solver.
  - split; [by intros ?%elem_of_nil|by intros (x & ? & _)].
Qed.

Lemma keeps_project_Update id req : update_project_ok req -> keeps any (ProjectStore.Update id req).
Proof.
  intros Hr. unfold ProjectStore.Update.
  destruct (ProjectStore.project_sets req) as [|c cs] eqn:E; [apply safe_any|].
  destruct (negb _); [apply safe_any|]. apply safe_bind_any; [|intros []; apply safe_any].
  apply keeps_stmt_any. intros. apply update_project_world; [|done]. rewrite <- E.
  intros v Hv. unfold ProjectStore.project_sets in Hv. apply Hr.
  rewrite !elem_of_app, !elem_of_opt_set in Hv. by destruct_or! Hv; destruct Hv as (x & Ho & [= ->]).
Qed.

Lemma keeps_ListPollable : keeps any TenantStore.ListPollable.
Proof.
  unfold TenantStore.ListPollable, TenantStore.listActiveWithIP.
  apply safe_bind_any; [apply keeps_read; intros []; apply safe_any|]. intros []; apply safe_any.
Qed.

(** ** audit.Store *)

Lemma keeps_Log a t id d : keeps any (AuditStore.Log a t id d).
Proof.
  apply safe_bind_any; [|intros []; apply safe_any]. apply keeps_stmt_any. intros w [].
  split; [by split|]. split; simpl.
  - intros k x Hk. exists x. auto using evolves_refl.
  - intros. congruence.
  - by eexists.
  - exists []. by rewrite app_nil_r.
Qed.

Lemma keeps_audit_log (b : bool) a t id d :
  keeps any (if b then AuditStore.Log a t id d else Ret tt).
Proof. destruct b; [apply keeps_Log|apply safe_any]. Qed.

(** ** station.Store *)

(** A write to the stations table or the poller's cache. *)
Lemma write_radio_ok w w' :
  StationStore.radio_only w w' -> radio_ok w' -> world_ok w -> world_ok w' /\ world_step w w'.
Proof. intros E Hr []. rewrite E in *. split; [by split|by apply world_step_frame]. Qed.

Lemma keeps_radio_stmt {A} (f : World -> res A * World) :
  (forall w, radio_ok w -> radio_ok (f w).2) -> (forall w, StationStore.radio_only w (f w).2) ->
  keeps any (stmt f).
Proof.
  intros Hok Hf. apply keeps_stmt_any. intros w Hw. apply write_radio_ok; [done| |done].
  by apply Hok, ok_stations.
Qed.

Lemma keeps_station_ListPublic p : keeps any (StationStore.ListPublic p).
Proof. apply keeps_read. intros []; [|apply safe_any]. apply keeps_read. intros []; apply safe_any. Qed.

Lemma keeps_ListGenres : keeps any StationStore.ListGenres.
Proof. apply keeps_read. intros []; apply safe_any. Qed.

Lemma keeps_station_GetBySlug slug : keeps any (StationStore.GetBySlug slug).
Proof. apply keeps_read. intros []; apply safe_any. Qed.

Lemma keeps_station_GetByID id : keeps any (StationStore.GetByID id).
Proof. apply keeps_read. intros []; apply safe_any. Qed.

Lemma keeps_station_GetByTenantID id : keeps any (StationStore.GetByTenantID id).
Proof. apply keeps_read. intros []; apply safe_any. Qed.

Lemma keeps_CountByTenantID id : keeps any (StationStore.CountByTenantID id).
Proof. apply keeps_read. intros []; apply safe_any. Qed.

Lemma keeps_station_Create req : keeps any (StationStore.Create req).
Proof.
  apply safe_bind_any; [|intros []; apply safe_any]. apply keeps_radio_stmt; intros w.
  - apply StationStore.insert_station_ok.
  - apply StationStore.insert_station_frame.
Qed.

Lemma keeps_station_Update id req : keeps any (StationStore.Update id req).
Proof.
  unfold StationStore.Update. destruct (StationStore.station_sets req); [apply safe_any|].
  apply safe_bind_any; [|intros []; apply safe_any]. apply keeps_radio_stmt; intros w.
  - apply StationStore.update_station_ok.
  - apply StationStore.update_station_frame.
Qed.

Lemma keeps_SetOnline id b : keeps any (StationStore.SetOnline id b).
Proof.
  apply safe_bind_any; [|intros []; apply safe_any]. apply keeps_radio_stmt; [|done].
  intros w. apply StationStore.set_online_ok.
Qed.

Lemma keeps_station_Delete id : keeps any (StationStore.Delete id).
Proof.
  apply safe_bind_any; [|intros []; apply safe_any]. apply keeps_radio_stmt; [|done].
  intros w. apply StationStore.delete_station_ok.
Qed.

Lemma keeps_AutoCreateStation id name sub own dom : keeps any (StationStore.AutoCreateStation id name sub own dom).
Proof.
  apply safe_bind_any; [apply keeps_station_GetByTenantID|]. intros [[]|]; [apply safe_any| |apply safe_any].
  apply safe_bind_any; [apply keeps_station_Create|]. intros []; apply safe_any.
Qed.

(** ** crypto, cached clients *)

Lemma keeps_Encrypt p k : keeps any (Crypto.Encrypt p k).
Proof.
  unfold Crypto.Encrypt. destruct (Crypto.decode_key k); [|apply safe_any].
  apply safe_bind_any; [apply (safe_sample _ _)|]. intros []; apply safe_any.
Qed.

Lemma keeps_set_clients {A} (f : World -> A) (g : World -> gmap string ProxmoxClient) :
  keeps any (local (fun w => (f w, set_clients (g w) w))).
Proof. apply keeps_local. intros w []. split; [by split|by apply world_step_frame]. Qed.

Lemma keeps_local_read {A} (f : World -> A) : keeps any (local (fun w => (f w, w))).
Proof. apply keeps_local. auto using world_step_refl. Qed.

Lemma keeps_ext ev : keeps any (ext ev).
Proof. apply (safe_ext _ _). Qed.

Lemma keeps_sample {A} (f : nat -> A) : keeps any (sample f).
Proof. apply (safe_sample _ _). Qed.

Lemma keeps_spawn j :
  0 <= j_RAMMB j -> keeps any (local (fun w => (tt, set_jobs (w_jobs w ++ [j]) w))).
Proof.
  intros Hj. apply keeps_local. intros w []. split; [|by apply world_step_frame].
  split; try done. simpl. intros j'. rewrite elem_of_app, list_elem_of_singleton. intros [Hin| ->]; auto.
Qed.

End StoreSafe.

#[export] Hint Resolve keeps_SetSuspended keeps_SetResumed keeps_SetActive keeps_SetError
  keeps_SetDeleting keeps_SetDeleted keeps_SetLXCIP keeps_SetDashboardToken keeps_UpdateBilling
  keeps_SetHealthStatus keeps_tenant_Update keeps_tenant_Create keeps_CreateWithOwner
  keeps_tenant_GetByID keeps_tenant_ListPaginated keeps_CountByOwnerID keeps_ListByOwnerID
  keeps_GetByStripeCustomerID keeps_GetBillingByOwnerID keeps_GetNextAvailableIP
  keeps_ReserveRAM keeps_ReleaseRAM keeps_node_GetByID keeps_node_ListPaginated
  keeps_node_CountTenants keeps_GetEncryptedTokenByID keeps_GetLeastLoaded keeps_node_Create
  keeps_node_Update keeps_node_Delete keeps_project_GetByID_any keeps_project_ListPaginated
  keeps_project_CountTenants keeps_project_Delete keeps_project_Create keeps_project_Update
  keeps_Log keeps_audit_log keeps_Encrypt keeps_set_clients keeps_local_read keeps_ext
  keeps_sample keeps_spawn
  keeps_station_ListPublic keeps_ListGenres keeps_station_GetBySlug keeps_station_GetByID
  keeps_station_GetByTenantID keeps_CountByTenantID keeps_station_Create keeps_station_Update
  keeps_SetOnline keeps_station_Delete keeps_AutoCreateStation : safe.
