(* ===== verification/Provisioner.v ===== *)
(** * internal/provisioner/provisioner.go: building and removing containers

    [Provision] runs as a goroutine ([Job], started by the pool); [Deprovision],
    [Suspend] and [Resume] run inside a request. The Proxmox client, the SSH
    client, the Caddy client and the station creator are reached through the
    interfaces the file declares: each call is one remote event.

    [getClient] does its second look-up, its two queries and the cache write
    while it holds the write lock. The lock excludes other [getClient] and
    [InvalidateClient] calls, not database writers; leaving it out here only
    adds interleavings. *)

From stdpp Require Import gmap strings list fin_maps.
From Stdlib Require Import ZArith Lia Ascii.
From S2P Require Import Prelude GoStrings World Crypto SSHExec ProxmoxErrors.
From S2P Require NodeStore ProjectStore TenantStore StationStore.

Open Scope Z_scope.

Definition defaultLXCBridge : string := "vmbr0".
Definition defaultMountRoot : string := "/mnt/tenants".
Definition defaultFreeRadioDir : string := "/root/freeRadio".
Definition defaultFreeRadioBranch : string := "dev".

(** The optional clients are booleans: whether they were set. Durations are
    milliseconds. *)
Record Provisioner := mkProvisioner {
  pv_encryptionKey : string;
  pv_caddyClient : bool;
  pv_stationCreator : bool;
  pv_caddyDomain : string;
  pv_sshClient : bool;
  pv_freeRadioRepoURL : string;
  pv_freeRadioRepoBranch : string;
  pv_lxcBridge : string;
  pv_mountRoot : string;
  pv_appDir : string;
  pv_healthTimeout : Z;
  pv_healthInterval : Z }.

Definition New (encryptionKey : string) : Provisioner :=
  mkProvisioner encryptionKey false false EmptyString false EmptyString EmptyString
    defaultLXCBridge defaultMountRoot defaultFreeRadioDir 60000 5000.

Definition WithCaddyClient (p : Provisioner) : Provisioner :=
  mkProvisioner (pv_encryptionKey p) true (pv_stationCreator p) (pv_caddyDomain p) (pv_sshClient p)
    (pv_freeRadioRepoURL p) (pv_freeRadioRepoBranch p) (pv_lxcBridge p) (pv_mountRoot p) (pv_appDir p)
    (pv_healthTimeout p) (pv_healthInterval p).

Definition WithStationCreator (caddyDomain : string) (p : Provisioner) : Provisioner :=
  mkProvisioner (pv_encryptionKey p) (pv_caddyClient p) true caddyDomain (pv_sshClient p)
    (pv_freeRadioRepoURL p) (pv_freeRadioRepoBranch p) (pv_lxcBridge p) (pv_mountRoot p) (pv_appDir p)
    (pv_healthTimeout p) (pv_healthInterval p).

Definition WithSSHClient (p : Provisioner) : Provisioner :=
  mkProvisioner (pv_encryptionKey p) (pv_caddyClient p) (pv_stationCreator p) (pv_caddyDomain p) true
    (pv_freeRadioRepoURL p) (pv_freeRadioRepoBranch p) (pv_lxcBridge p) (pv_mountRoot p) (pv_appDir p)
    (pv_healthTimeout p) (pv_healthInterval p).

Definition override (old new : string) : string := if is_empty new then old else new.

Definition WithTopology (bridge mountRoot appDir : string) (p : Provisioner) : Provisioner :=
  mkProvisioner (pv_encryptionKey p) (pv_caddyClient p) (pv_stationCreator p) (pv_caddyDomain p)
    (pv_sshClient p) (pv_freeRadioRepoURL p) (pv_freeRadioRepoBranch p)
    (override (pv_lxcBridge p) bridge) (override (pv_mountRoot p) mountRoot)
    (override (pv_appDir p) appDir) (pv_healthTimeout p) (pv_healthInterval p).

Definition AutoDeployEnabled (p : Provisioner) : bool := negb (is_empty (pv_freeRadioRepoURL p)).

Definition WithFreeRadioRepo (url branch : string) (p : Provisioner) : Provisioner :=
  mkProvisioner (pv_encryptionKey p) (pv_caddyClient p) (pv_stationCreator p) (pv_caddyDomain p)
    (pv_sshClient p) url branch (pv_lxcBridge p) (pv_mountRoot p) (pv_appDir p)
    (pv_healthTimeout p) (pv_healthInterval p).

(** [strings.SplitN(cidr, "/", 2)]: the part after the slash, or 24. *)
Definition prefixLen (cidr : string) : string :=
  match cut "/" cidr with Some (_, b) => b | None => "24" end.

Definition net0 (p : Provisioner) (lxcIP cidr gateway : string) : string :=
  "name=eth0,bridge=" +:+ pv_lxcBridge p +:+ ",ip=" +:+ lxcIP +:+ "/" +:+ prefixLen cidr +:+
  ",gw=" +:+ gateway +:+ ",firewall=1,type=veth".

Definition mkdirCmd (p : Provisioner) (newID : Z) : string :=
  let root := Quote (pv_mountRoot p) in
  "mkdir -p " +:+ root +:+ "/" +:+ itoa newID +:+ "/visuals " +:+ root +:+ "/" +:+ itoa newID +:+
  "/music && chmod 777 " +:+ root +:+ "/" +:+ itoa newID +:+ "/visuals " +:+ root +:+ "/" +:+
  itoa newID +:+ "/music".

Definition pctCmd (p : Provisioner) (newID : Z) : string :=
  let root := Quote (pv_mountRoot p) in
  let app := Quote (pv_appDir p) in
  "pct set " +:+ itoa newID +:+ " -mp0 " +:+ root +:+ "/" +:+ itoa newID +:+ "/visuals,mp=" +:+ app +:+
  "/content/visuals -mp1 " +:+ root +:+ "/" +:+ itoa newID +:+ "/music,mp=" +:+ app +:+ "/content/music".

Definition api_mounts (p : Provisioner) (newID : Z) : list (string * string) :=
  [("mp0", pv_mountRoot p +:+ "/" +:+ itoa newID +:+ "/visuals,mp=" +:+ pv_appDir p +:+ "/content/visuals");
   ("mp1", pv_mountRoot p +:+ "/" +:+ itoa newID +:+ "/music,mp=" +:+ pv_appDir p +:+ "/content/music")].

Definition newline : string := String "010" EmptyString.

Definition tokenCmd (p : Provisioner) (dashToken : string) : string :=
  let app := Quote (pv_appDir p) in
  "sed -i '/^DASHBOARD_TOKEN=/d' " +:+ app +:+ "/.env && echo 'DASHBOARD_TOKEN=" +:+ dashToken +:+
  "' >> " +:+ app +:+ "/.env".

Record deploySecrets := mkSecrets {
  ds_StreamKeys : string; ds_IcecastSource : string; ds_IcecastAdmin : string;
  ds_IcecastListen : string; ds_IcecastRelay : string }.

Definition fetchCmd (p : Provisioner) (branch : string) : string :=
  let app := Quote (pv_appDir p) in
  let repo := Quote (pv_freeRadioRepoURL p) in
  let br := Quote branch in
  "mkdir -p " +:+ app +:+ " && cd " +:+ app +:+ " && git init -q && " +:+
  "(git remote add origin " +:+ repo +:+ " 2>/dev/null || git remote set-url origin " +:+ repo +:+ ") && " +:+
  "git fetch --depth 1 origin " +:+ br +:+ " && git checkout -f -B " +:+ br +:+ " FETCH_HEAD".

Definition envContent (tenantID dashboardToken : string) (s : deploySecrets) : string :=
  "TENANT_ID=" +:+ tenantID +:+ newline +:+
  "DASHBOARD_TOKEN=" +:+ dashboardToken +:+ newline +:+
  "STREAM_KEYS_SECRET=" +:+ ds_StreamKeys s +:+ newline +:+
  "ICECAST_SOURCE_PASSWORD=" +:+ ds_IcecastSource s +:+ newline +:+
  "ICECAST_ADMIN_PASSWORD=" +:+ ds_IcecastAdmin s +:+ newline +:+
  "ICECAST_PASSWORD=" +:+ ds_IcecastListen s +:+ newline +:+
  "ICECAST_RELAY_PASSWORD=" +:+ ds_IcecastRelay s +:+ newline +:+
  "S3_ENABLED=false" +:+ newline +:+
  "NODE_ENV=production" +:+ newline.

Definition writeEnvCmd (p : Provisioner) (content : string) : string :=
  "cat > " +:+ Quote (pv_appDir p) +:+ "/.env << 'ENVEOF'" +:+ newline +:+ content +:+ "ENVEOF".

Definition certsCmd (p : Provisioner) : string :=
  "cd " +:+ Quote (pv_appDir p) +:+ " && chmod +x scripts/bootstrap-certs.sh && scripts/bootstrap-certs.sh".

Definition composeCmd (p : Provisioner) : string :=
  "cd " +:+ Quote (pv_appDir p) +:+ " && docker compose up -d".

Definition installDockerCmd : string := "which docker || (curl -fsSL https://get.docker.com | sh)".
Definition healthCmd : string :=
  "for i in $(seq 1 12); do curl -fsS http://127.0.0.1/api/health && exit 0; sleep 5; done; exit 1".

Section Provisioner.
Context `{Env}.

(** ** The remote interfaces *)

Definition GetNextID (c : ProxmoxClient) : P (res Z) :=
  atom (fun w =>
    let w' := set_trace (w_trace w ++ [EvGetNextID (c_NodeID c)]) (set_tick (S (w_tick w)) w) in
    match env_ext (w_tick w) (EvGetNextID (c_NodeID c)) with
    | Some e => (Fail e, w')
    | None => (Ok (env_next_id (w_tick w)), w')
    end).

(** A task is the pair of the call that started it and its container. *)
Definition Wait (c : ProxmoxClient) (t : Task) (vmid : Z) : P (option error) :=
  ext (EvWait (c_NodeID c) t vmid).
Definition CloneContainer (c : ProxmoxClient) (templateID newID : Z) (hostname : string) : P (option error) :=
  ext (EvCloneContainer (c_NodeID c) templateID newID hostname).
Definition StartContainer (c : ProxmoxClient) (vmid : Z) : P (option error) := ext (EvStartContainer (c_NodeID c) vmid).
Definition StopContainer (c : ProxmoxClient) (vmid : Z) : P (option error) := ext (EvStopContainer (c_NodeID c) vmid).
Definition DeleteContainer (c : ProxmoxClient) (vmid : Z) : P (option error) := ext (EvDeleteContainer (c_NodeID c) vmid).
Definition ConfigureNetwork (c : ProxmoxClient) (vmid : Z) (v : string) : P (option error) :=
  ext (EvConfigureNetwork (c_NodeID c) vmid v).
Definition ConfigureMountPoints (c : ProxmoxClient) (vmid : Z) (m : list (string * string)) : P (option error) :=
  ext (EvConfigureMountPoints (c_NodeID c) vmid m).

(** [client.Get(url)]: the status code, when there is a response. *)
Definition http_get (url : string) : P (res Z) :=
  atom (fun w =>
    let w' := set_trace (w_trace w ++ [EvHealthGet url]) (set_tick (S (w_tick w)) w) in
    match env_ext (w_tick w) (EvHealthGet url) with
    | Some e => (Fail e, w')
    | None => (Ok (env_http_status (w_tick w)), w')
    end).

(** ** Clients *)

Definition InvalidateClient (nodeID : string) : P unit :=
  local (fun w => (tt, set_clients (base.delete nodeID (w_clients w)) w)).

Definition lookup_client (nodeID : string) : P (option ProxmoxClient) :=
  local (fun w => (w_clients w !! nodeID, w)).

Definition getClient (p : Provisioner) (nodeID : string) : P (res ProxmoxClient) :=
  let! c := lookup_client nodeID in
  match c with
  | Some c => Ret (Ok c)
  | None =>
      let! c := lookup_client nodeID in
      match c with
      | Some c => Ret (Ok c)
      | None =>
          let? n := NodeStore.GetByID nodeID catch e => Ret (Fail (EWrap "get node" e)) in
          match n with
          | None => Ret (Fail (errorString "node not found"))
          | Some n =>
              let? encToken := NodeStore.GetEncryptedTokenByID nodeID
              catch e => Ret (Fail (EWrap "get encrypted token" e)) in
              if is_empty encToken then Ret (Fail (errorString "node has no api token")) else
              match Decrypt encToken (pv_encryptionKey p) with
              | Fail e => Ret (Fail (EWrap "decrypt token" e))
              | Ok token =>
                  let client := mkClient nodeID (n_ProxmoxURL n) token in
                  let! _u := local (fun w => (tt, set_clients (<[nodeID := client]> (w_clients w)) w)) in
                  Ret (Ok client)
              end
          end
      end
  end.

(** ** Failure paths *)

(** Marks the tenant errored and gives the reserved RAM back; both are
    attempted whatever the other does. *)
Definition setError (tenantID nodeID : string) (ramMB : Z) (errMsg : string) : P unit :=
  let! _e := TenantStore.SetError tenantID errMsg in
  if 0 <? ramMB then
    let! _e := NodeStore.ReleaseRAM nodeID ramMB in Ret tt
  else Ret tt.

Definition cleanupAndError (client : ProxmoxClient) (tenantID nodeID : string) (ramMB lxcID : Z)
    (errMsg : string) : P unit :=
  let! err := DeleteContainer client lxcID in
  (match err with
   | Some _ => Ret tt
   | None => let! _e := Wait client TDelete lxcID in Ret tt
   end) ;;;
  setError tenantID nodeID ramMB errMsg.

(** ** Tokens and the auto-deploy *)

Definition generateToken : P (res string) :=
  let? b := sample (fun t => env_rand t 32) catch e => Ret (Fail (EWrap "crypto/rand" e)) in
  Ret (Ok (hex_encode b)).

Definition generateDeploySecrets : P (res deploySecrets) :=
  let? streamKeys := generateToken catch e => Ret (Fail e) in
  let? source := generateToken catch e => Ret (Fail e) in
  let? admin := generateToken catch e => Ret (Fail e) in
  let? listen := generateToken catch e => Ret (Fail e) in
  let? relay := generateToken catch e => Ret (Fail e) in
  Ret (Ok (mkSecrets streamKeys source admin listen relay)).

Definition deployFreeRadio (p : Provisioner) (sshHost : string) (lxcID : Z)
    (tenantID dashboardToken : string) : P (option error) :=
  let branch := if is_empty (pv_freeRadioRepoBranch p) then defaultFreeRadioBranch
                else pv_freeRadioRepoBranch p in
  if_err e := ExecInContainer sshHost lxcID installDockerCmd then Ret (Some (EWrap "install docker" e)) else
  if_err e := ExecInContainer sshHost lxcID (fetchCmd p branch) then Ret (Some (EWrap "fetch repo" e)) else
  let? secrets := generateDeploySecrets catch e => Ret (Some (EWrap "generate deploy secrets" e)) in
  if_err e := ExecInContainer sshHost lxcID (writeEnvCmd p (envContent tenantID dashboardToken secrets))
  then Ret (Some (EWrap "write .env" e)) else
  if_err e := ExecInContainer sshHost lxcID (certsCmd p) then Ret (Some (EWrap "bootstrap certs" e)) else
  if_err e := ExecInContainer sshHost lxcID (composeCmd p) then Ret (Some (EWrap "docker compose up" e)) else
  if_err e := ExecInContainer sshHost lxcID healthCmd then Ret (Some (EWrap "health check" e)) else
  Ret None.

(** ** The health check *)

(** [time.Now()] is the environment's clock plus the time slept so far: the
    sleep [time.After(healthInterval)] adds an interval to every later reading.
    [None] is fuel exhaustion, which [health_fuel] rules out. *)
Fixpoint health_loop (fuel : nat) (p : Provisioner) (url : string) (deadline slept : Z) : P (option bool) :=
  match fuel with
  | O => Ret None
  | S fuel' =>
      let! now := sample env_elapsed in
      if now + slept <? deadline then
        let! resp := http_get url in
        let poll_again :=
          let! done := sample env_ctx_done in
          if (done : bool) then Ret (Some false)
          else health_loop fuel' p url deadline (slept + pv_healthInterval p) in
        match resp with
        | Ok code => if code =? 200 then Ret (Some true) else poll_again
        | Fail _ => poll_again
        end
      else Ret (Some false)
  end.

Definition health_fuel (p : Provisioner) : nat :=
  Z.to_nat (pv_healthTimeout p / pv_healthInterval p + 2).

Definition waitForHealth (p : Provisioner) (url : string) : P (option bool) :=
  let! start := sample env_elapsed in
  health_loop (health_fuel p) p url (start + pv_healthTimeout p) 0.

(** ** Provisioning *)

(** The network step. [None]: it failed and the failure has been handled. *)
Definition configure_network (p : Provisioner) (client : ProxmoxClient) (proj : Project)
    (tenantID nodeID : string) (ramMB newID : Z) : P (option string) :=
  if is_empty (p_NetworkCIDR proj) then Ret (Some EmptyString) else
  let? lxcIP := TenantStore.GetNextAvailableIP (p_NetworkCIDR proj)
  catch e => (cleanupAndError client tenantID nodeID ramMB newID "provisioning failed: IP allocation error" ;;;
              Ret None) in
  if_err e := ConfigureNetwork client newID (net0 p lxcIP (p_NetworkCIDR proj) (p_Gateway proj)) then
    (cleanupAndError client tenantID nodeID ramMB newID "provisioning failed: network config error" ;;;
     Ret None)
  else
    let! _e := TenantStore.SetLXCIP tenantID lxcIP in
    Ret (Some lxcIP).

(** The mount points: over SSH when there is a client, over the API otherwise.
    [false]: it failed and the failure has been handled. *)
Definition configure_mounts (p : Provisioner) (client : ProxmoxClient) (nodeInfo : Node)
    (tenantID nodeID : string) (ramMB newID : Z) : P bool :=
  let failed :=
    cleanupAndError client tenantID nodeID ramMB newID "provisioning failed: mount point config error" ;;;
    Ret false in
  if pv_sshClient p then
    match ExtractHost (n_ProxmoxURL nodeInfo) with
    | Fail e => failed
    | Ok sshHost =>
        if_err e := ExecOnHost sshHost (mkdirCmd p newID) then failed else
        if_err e := ExecOnHost sshHost (pctCmd p newID) then failed else
        Ret true
    end
  else
    if_err e := ConfigureMountPoints client newID (api_mounts p newID) then failed else
    Ret true.

Definition start_container (p : Provisioner) (client : ProxmoxClient)
    (tenantID nodeID : string) (ramMB newID : Z) : P bool :=
  if_err e := StartContainer client newID then
    (cleanupAndError client tenantID nodeID ramMB newID "provisioning failed: start error" ;;; Ret false)
  else
  if_err e := Wait client TStart newID then
    (cleanupAndError client tenantID nodeID ramMB newID "provisioning failed: start did not complete" ;;;
     Ret false)
  else Ret true.

(** The dashboard token, written into the container on the legacy path and
    saved; best effort. The empty string stands for no token. *)
Definition dashboard_token (p : Provisioner) (nodeInfo : Node) (tenantID : string) (newID : Z) : P string :=
  let! tok := generateToken in
  let dashToken := match tok with Ok t => t | Fail _ => EmptyString end in
  (if pv_sshClient p && negb (is_empty dashToken) && negb (AutoDeployEnabled p) then
     match ExtractHost (n_ProxmoxURL nodeInfo) with
     | Fail _ => Ret tt
     | Ok sshHost => let! _e := ExecInContainer sshHost newID (tokenCmd p dashToken) in Ret tt
     end
   else Ret tt) ;;;
  (if negb (is_empty dashToken) then
     let! _e := TenantStore.SetDashboardToken tenantID dashToken in Ret tt
   else Ret tt) ;;;
  Ret dashToken.

(** What follows once the tenant is active; no failure here matters. *)
Definition after_active (p : Provisioner) (proj : Project) (nodeInfo : Node)
    (tenantID subdomain lxcIP dashToken : string) (newID : Z) : P unit :=
  (if pv_sshClient p && AutoDeployEnabled p then
     match ExtractHost (n_ProxmoxURL nodeInfo) with
     | Fail _ => Ret tt
     | Ok sshHost => let! _e := deployFreeRadio p sshHost newID tenantID dashToken in Ret tt
     end
   else Ret tt) ;;;
  (if pv_stationCreator p then
     let! t := TenantStore.GetByID tenantID in
     match t with
     | Ok (Some t) =>
         let ownerID := match t_OwnerID t with Some o => o | None => EmptyString end in
         let! _e := StationStore.AutoCreateStation tenantID (t_Name t) subdomain ownerID (pv_caddyDomain p) in
         Ret tt
     | _ => Ret tt
     end
   else Ret tt) ;;;
  (if pv_caddyClient p && negb (is_empty lxcIP) then
     let! _e := ext (EvAddRoute subdomain lxcIP) in Ret tt
   else Ret tt) ;;;
  (match p_Ports proj with
   | port :: _ =>
       if negb (is_empty lxcIP) && negb (is_empty (p_HealthPath proj)) then
         let! healthy := waitForHealth p ("http://" +:+ lxcIP +:+ ":" +:+ itoa port +:+ p_HealthPath proj) in
         let status := match healthy with Some true => "healthy" | _ => "unhealthy" end in
         let! _e := TenantStore.SetHealthStatus tenantID status in Ret tt
       else Ret tt
   | [] => Ret tt
   end).

(** From the cloned container to the end. *)
Definition finish_provision (p : Provisioner) (client : ProxmoxClient) (proj : Project) (nodeInfo : Node)
    (tenantID nodeID subdomain : string) (ramMB newID : Z) : P unit :=
  let! net := configure_network p client proj tenantID nodeID ramMB newID in
  match net with
  | None => Ret tt
  | Some lxcIP =>
      let! mounted := configure_mounts p client nodeInfo tenantID nodeID ramMB newID in
      if negb mounted then Ret tt else
      let! started := start_container p client tenantID nodeID ramMB newID in
      if negb started then Ret tt else
      let! dashToken := dashboard_token p nodeInfo tenantID newID in
      if_err e := TenantStore.SetActive tenantID newID then
        cleanupAndError client tenantID nodeID ramMB newID "provisioning failed: could not update status"
      else after_active p proj nodeInfo tenantID subdomain lxcIP dashToken newID
  end.

Definition doProvision (p : Provisioner) (tenantID nodeID projectID subdomain : string) (ramMB : Z) : P unit :=
  let? proj := ProjectStore.GetByID projectID
  catch e => setError tenantID nodeID ramMB "provisioning failed: project lookup error" in
  match proj with
  | None => setError tenantID nodeID ramMB "provisioning failed: project not found"
  | Some proj =>
      let? nodeInfo := NodeStore.GetByID nodeID
      catch e => setError tenantID nodeID ramMB "provisioning failed: node lookup error" in
      match nodeInfo with
      | None => setError tenantID nodeID ramMB "provisioning failed: node not found"
      | Some nodeInfo =>
          let? client := getClient p nodeID
          catch e => setError tenantID nodeID ramMB "provisioning failed: node connection error" in
          let? newID := GetNextID client
          catch e => setError tenantID nodeID ramMB "provisioning failed: could not allocate container ID" in
          if_err e := CloneContainer client (p_TemplateID proj) newID subdomain then
            setError tenantID nodeID ramMB "provisioning failed: clone error"
          else
          if_err e := Wait client TClone newID then
            setError tenantID nodeID ramMB "provisioning failed: clone did not complete"
          else
            finish_provision p client proj nodeInfo tenantID nodeID subdomain ramMB newID
      end
  end.

(** [Provision] only starts the goroutine. *)
Definition Provision (tenantID nodeID projectID subdomain : string) (ramMB : Z) : P unit :=
  local (fun w => (tt, set_jobs (w_jobs w ++ [mkJob tenantID nodeID projectID subdomain ramMB]) w)).

(** The goroutine. *)
Definition run_job (p : Provisioner) (j : Job) : P unit :=
  doProvision p (j_TenantID j) (j_NodeID j) (j_ProjectID j) (j_Subdomain j) (j_RAMMB j).

(** ** Deprovisioning *)

(** Removes the container; [Some e] when it is still there as far as the answer
    tells, in which case the tenant is marked errored. *)
Definition remove_container (client : ProxmoxClient) (tenantID : string) (lxcID : Z) : P (option error) :=
  let! err := DeleteContainer client lxcID in
  match err with
  | Some e =>
      if IsContainerNotFound (Some e) then Ret None else
      let! _e := TenantStore.SetError tenantID "deprovision failed: container delete error" in
      Ret (Some (EWrap "delete container" e))
  | None =>
      if_err e := Wait client TDelete lxcID then
        (if IsContainerNotFound (Some e) then Ret None else
         let! _e := TenantStore.SetError tenantID "deprovision failed: container delete did not complete" in
         Ret (Some (EWrap "delete task failed" e)))
      else Ret None
  end.

Definition Deprovision (p : Provisioner) (tenantID nodeID subdomain : string) (lxcID ramMB : Z) :
    P (option error) :=
  if_err e := TenantStore.SetDeleting tenantID then
    Ret (Some (if errors_Is e TenantStore.ErrStateConflict then TenantStore.ErrStateConflict
               else EWrap "set deleting" e))
  else
  let? client := getClient p nodeID
  catch e => (let! _e := TenantStore.SetError tenantID "deprovision failed: node connection error" in
              Ret (Some (EWrap "get proxmox client" e))) in
  let! stopped := StopContainer client lxcID in
  (match stopped with
   | Some _ => Ret tt
   | None => let! _e := Wait client TStop lxcID in Ret tt
   end) ;;;
  if_err e := remove_container client tenantID lxcID then Ret (Some e) else
  (if 0 <? ramMB then let! _e := NodeStore.ReleaseRAM nodeID ramMB in Ret tt else Ret tt) ;;;
  (if pv_caddyClient p && negb (is_empty subdomain) then
     let! _e := ext (EvRemoveRoute subdomain) in Ret tt
   else Ret tt) ;;;
  if_err e := TenantStore.SetDeleted tenantID then Ret (Some (EWrap "set deleted" e)) else
  Ret None.

Definition Suspend (p : Provisioner) (tenantID nodeID : string) (lxcID : Z) : P (option error) :=
  let? client := getClient p nodeID catch e => Ret (Some (EWrap "get proxmox client" e)) in
  if_err e := StopContainer client lxcID then Ret (Some (EWrap "stop container" e)) else
  if_err e := Wait client TStop lxcID then Ret (Some (EWrap "stop task failed" e)) else
  Ret None.

Definition Resume (p : Provisioner) (tenantID nodeID : string) (lxcID : Z) : P (option error) :=
  let? client := getClient p nodeID catch e => Ret (Some (EWrap "get proxmox client" e)) in
  if_err e := StartContainer client lxcID then Ret (Some (EWrap "start container" e)) else
  if_err e := Wait client TStart lxcID then Ret (Some (EWrap "start task failed" e)) else
  Ret None.

End Provisioner.
