(* ===== verification/ProvisionerSafe.v ===== *)
(** * The provisioner keeps the invariant

    Every program of [Provisioner.v] is safe for the invariant and the
    guarantee of [TenantFSM], so goroutines and requests that run it, in any
    interleaving, move tenants only along the state machine. *)

From stdpp Require Import gmap strings list fin_maps relations.
From Stdlib Require Import ZArith Lia.
From S2P Require Import Prelude GoStrings World Tables TenantFSM StoreSafe SSHExec Provisioner.
From S2P Require Crypto NodeStore ProjectStore TenantStore.

Open Scope Z_scope.

(** Splits programs whose calls are all safe by hints, ignoring their answers. *)
Ltac keeps_auto :=
  repeat match goal with
  | |- safe _ _ any (let _ := _ in _) => cbv zeta
  | |- safe _ _ any (Ret _) => apply safe_any
  | |- safe _ _ any (bind _ _) =>
      apply safe_bind_any; [solve [eauto with safe]|]
  | |- safe _ _ any (bind _ _) => apply safe_bind_any
  | |- safe _ _ any (match ?x with _ => _ end) => destruct x
  | |- forall _, _ => intros ?
  | |- safe _ _ any _ => solve [eauto with safe]
  end.

Section Safe.
Context `{Env}.

Lemma keeps_ext_value {A} (f : World -> A) ev :
  keeps any (atom (fun w => (f w, set_trace (w_trace w ++ [ev]) (set_tick (S (w_tick w)) w)))).
Proof.
  apply safe_atom. intros w Hw. simpl.
  by destruct (quiet_trace (I := world_ok) (G := world_step) w ev (S (w_tick w)) Hw).
Qed.

Lemma keeps_GetNextID c : keeps any (GetNextID c).
Proof.
  apply safe_atom. intros w Hw.
  destruct (quiet_trace (I := world_ok) (G := world_step) w (EvGetNextID (c_NodeID c)) (S (w_tick w)) Hw).
  by destruct (env_ext _ _).
Qed.

Lemma keeps_http_get u : keeps any (http_get u).
Proof.
  apply safe_atom. intros w Hw.
  destruct (quiet_trace (I := world_ok) (G := world_step) w (EvHealthGet u) (S (w_tick w)) Hw).
  by destruct (env_ext _ _).
Qed.

Lemma keeps_Wait c t v : keeps any (Wait c t v).
Proof. apply keeps_ext. Qed.
Lemma keeps_CloneContainer c t n h : keeps any (CloneContainer c t n h).
Proof. apply keeps_ext. Qed.
Lemma keeps_StartContainer c v : keeps any (StartContainer c v).
Proof. apply keeps_ext. Qed.
Lemma keeps_StopContainer c v : keeps any (StopContainer c v).
Proof. apply keeps_ext. Qed.
Lemma keeps_DeleteContainer c v : keeps any (DeleteContainer c v).
Proof. apply keeps_ext. Qed.
Lemma keeps_ConfigureNetwork c v n : keeps any (ConfigureNetwork c v n).
Proof. apply keeps_ext. Qed.
Lemma keeps_ConfigureMountPoints c v m : keeps any (ConfigureMountPoints c v m).
Proof. apply keeps_ext. Qed.
Lemma keeps_ExecOnHost h c : keeps any (ExecOnHost h c).
Proof. apply keeps_ext. Qed.

Hint Resolve keeps_GetNextID keeps_http_get keeps_Wait keeps_CloneContainer keeps_StartContainer
  keeps_StopContainer keeps_DeleteContainer keeps_ConfigureNetwork keeps_ConfigureMountPoints
  keeps_ExecOnHost : safe.

Lemma keeps_ExecInContainer h v c : keeps any (ExecInContainer h v c).
Proof. unfold ExecInContainer, execCommand. keeps_auto. Qed.

Lemma keeps_lookup_client id : keeps any (lookup_client id).
Proof. apply keeps_local_read. Qed.

Hint Resolve keeps_ExecInContainer keeps_lookup_client : safe.

Lemma keeps_getClient p id : keeps any (getClient p id).
Proof.
  unfold getClient. keeps_auto; apply keeps_set_clients.
Qed.

Lemma keeps_setError tid nid ram msg : keeps any (setError tid nid ram msg).
Proof.
  unfold setError. apply safe_bind_any; [eauto with safe|]. intros _.
  destruct (Z.ltb_spec 0 ram); [|apply safe_any].
  apply safe_bind_any; [apply keeps_ReleaseRAM; lia|]. intros; apply safe_any.
Qed.
Hint Resolve keeps_getClient keeps_setError : safe.

Lemma keeps_cleanupAndError c tid nid ram id msg : keeps any (cleanupAndError c tid nid ram id msg).
Proof. unfold cleanupAndError. keeps_auto. Qed.

Lemma keeps_generateToken : keeps any generateToken.
Proof. unfold generateToken. keeps_auto. Qed.
Hint Resolve keeps_cleanupAndError keeps_generateToken : safe.

Lemma keeps_generateDeploySecrets : keeps any generateDeploySecrets.
Proof. unfold generateDeploySecrets. keeps_auto. Qed.
Hint Resolve keeps_generateDeploySecrets : safe.

Lemma keeps_deployFreeRadio p h id tid tok : keeps any (deployFreeRadio p h id tid tok).
Proof. unfold deployFreeRadio. keeps_auto. Qed.

Lemma keeps_health_loop fuel p u d s : keeps any (health_loop fuel p u d s).
Proof. revert s. induction fuel as [|n IH]; intros s; cbn [health_loop]; keeps_auto. Qed.
Hint Resolve keeps_deployFreeRadio keeps_health_loop : safe.

Lemma keeps_waitForHealth p u : keeps any (waitForHealth p u).
Proof. unfold waitForHealth. keeps_auto. Qed.
Hint Resolve keeps_waitForHealth : safe.

Lemma keeps_configure_network p c proj tid nid ram id :
  keeps any (configure_network p c proj tid nid ram id).
Proof. unfold configure_network. keeps_auto. Qed.

Lemma keeps_configure_mounts p c n tid nid ram id :
  keeps any (configure_mounts p c n tid nid ram id).
Proof. unfold configure_mounts. keeps_auto. Qed.

Lemma keeps_start_container p c tid nid ram id : keeps any (start_container p c tid nid ram id).
Proof. unfold start_container. keeps_auto. Qed.

Lemma keeps_dashboard_token p n tid id : keeps any (dashboard_token p n tid id).
Proof. unfold dashboard_token. keeps_auto. Qed.

Lemma keeps_after_active p proj n tid sub ip tok id :
  keeps any (after_active p proj n tid sub ip tok id).
Proof. unfold after_active. keeps_auto. Qed.
Hint Resolve keeps_configure_network keeps_configure_mounts keeps_start_container
  keeps_dashboard_token keeps_after_active : safe.

Lemma keeps_finish_provision p c proj n tid nid sub ram id :
  keeps any (finish_provision p c proj n tid nid sub ram id).
Proof. unfold finish_provision. keeps_auto. Qed.
Hint Resolve keeps_finish_provision : safe.

Lemma keeps_doProvision p tid nid pid sub ram : keeps any (doProvision p tid nid pid sub ram).
Proof. unfold doProvision. keeps_auto. Qed.

Lemma keeps_run_job p j : keeps any (run_job p j).
Proof. apply keeps_doProvision. Qed.

Lemma keeps_Provision tid nid pid sub ram : 0 <= ram -> keeps any (Provision tid nid pid sub ram).
Proof. intros. by apply keeps_spawn. Qed.

Lemma keeps_remove_container c tid id : keeps any (remove_container c tid id).
Proof. unfold remove_container. keeps_auto. Qed.
Hint Resolve keeps_remove_container : safe.

Lemma keeps_Deprovision p tid nid sub id ram : keeps any (Deprovision p tid nid sub id ram).
Proof.
  unfold Deprovision.
  assert (keeps any (if 0 <? ram then let! _e := NodeStore.ReleaseRAM nid ram in Ret tt else Ret tt)).
  { destruct (Z.ltb_spec 0 ram); [|apply safe_any].
    apply safe_bind_any; [apply keeps_ReleaseRAM; lia|]. intros; apply safe_any. }
  keeps_auto.
Qed.

Lemma keeps_Suspend p tid nid id : keeps any (Suspend p tid nid id).
Proof. unfold Suspend. keeps_auto. Qed.

Lemma keeps_Resume p tid nid id : keeps any (Resume p tid nid id).
Proof. unfold Resume. keeps_auto. Qed.

End Safe.

#[export] Hint Resolve keeps_run_job keeps_Provision keeps_Deprovision keeps_Suspend keeps_Resume
  keeps_getClient : safe.
