(* ===== verification/ProvisionerSpec.v ===== *)
(** * What provisioning and deprovisioning achieve

    Outcomes of [Provisioner.v] run alone, with the remote systems and the
    statements of the database free to fail at any call: a provisioning settles
    the tenant and the RAM account, a deprovisioning returns success only when
    the tenant is deleted, and the health check terminates. What a failing
    statement can spoil is said in disjuncts guarded by [faulty]. *)

From stdpp Require Import gmap strings list fin_maps relations.
From Stdlib Require Import ZArith Lia.
From S2P Require Import Prelude GoStrings NetIP World IPAlloc Tables NodeStore TenantFSM StoreSafe SSHExec Provisioner.
From S2P Require Crypto ProjectStore TenantStore ProxmoxErrors StationStore.

Open Scope Z_scope.

Definition anyway (_ _ : World) : Prop := True.

(** An assertion about the tables of tenants and nodes only. *)
Class TablesOnly (I : World -> Prop) : Prop :=
  tables_only : forall w w', w_tenants w' = w_tenants w -> w_nodes w' = w_nodes w -> I w -> I w'.

(** What tolerates every operation that leaves the tenants, the nodes and the
    pending goroutines alone. *)
Class Untouched (I : World -> Prop) (G : World -> World -> Prop) : Prop :=
  untouched : forall w w', w_tenants w' = w_tenants w -> w_nodes w' = w_nodes w -> w_jobs w' = w_jobs w ->
    I w -> I w' /\ G w w'.

#[export] Instance untouched_tables I `{!TablesOnly I} : Untouched I anyway.
Proof. intros w w' H1 H2 _ Hw. split; [|done]. by apply (tables_only w). Qed.

#[export] Instance quiet_untouched I G `{!Untouched I G} : Quiet I G.
Proof. split; intros; by apply (untouched w). Qed.

(** The tenant's row is in status [st], and the node accounts are [N]. *)
Definition in_phase (tid : string) (st : TenantStatus) (lxc : option Z) (N : gmap string Node) (w : World) : Prop :=
  w_nodes w = N /\ tenants_ok (w_tenants w) /\
  exists t, w_tenants w !! tid = Some t /\ t_Status t = st /\ t_LXCID t = lxc.

#[export] Instance in_phase_tables tid st lxc N : TablesOnly (in_phase tid st lxc N).
Proof. intros w w' H1 H2 (?&?&?). unfold in_phase. by rewrite H1, H2. Qed.

Section Phase.
Context `{Env} (I : World -> Prop) (G : World -> World -> Prop) `{!Untouched I G}.

Abbreviation stays p := (safe I G any p).

Lemma stays_query {A} (f : World -> A) : stays (query f).
Proof. apply (safe_query_any _ _). Qed.
Lemma stays_ext ev : stays (ext ev).
Proof. apply (safe_ext _ _). Qed.
Lemma stays_sample {A} (f : nat -> A) : stays (sample f).
Proof. apply (safe_sample _ _). Qed.
Lemma stays_clients {A} (f : World -> A) g : stays (local (fun w => (f w, set_clients (g w) w))).
Proof. apply safe_atom. intros w Hw. by destruct (untouched w (set_clients (g w) w) eq_refl eq_refl eq_refl Hw). Qed.
Lemma stays_local_read {A} (f : World -> A) : stays (local (fun w => (f w, w))).
Proof. apply safe_atom. intros w Hw. by destruct (untouched w w eq_refl eq_refl eq_refl Hw). Qed.

Lemma stays_event (w : World) ev :
  I w -> let w' := set_trace (w_trace w ++ [ev]) (set_tick (S (w_tick w)) w) in I w' /\ G w w'.
Proof. intros Hw. by apply (untouched w). Qed.

Lemma stays_traced {A} (g : World -> A) ev :
  stays (atom (fun w => (g w, set_trace (w_trace w ++ [ev]) (set_tick (S (w_tick w)) w)))).
Proof. apply safe_atom. intros w Hw. by destruct (stays_event w ev Hw). Qed.

Lemma stays_GetNextID c : stays (GetNextID c).
Proof.
  apply safe_atom. intros w Hw. destruct (stays_event w (EvGetNextID (c_NodeID c)) Hw). by destruct (env_ext _ _).
Qed.

Lemma stays_http_get u : stays (http_get u).
Proof.
  apply safe_atom. intros w Hw. destruct (stays_event w (EvHealthGet u) Hw). by destruct (env_ext _ _).
Qed.

End Phase.

#[export] Hint Resolve stays_query stays_ext stays_sample stays_clients stays_local_read
  stays_GetNextID stays_http_get : safe.

Ltac stays_auto :=
  repeat match goal with
  | |- safe _ _ any (let _ := _ in _) => cbv zeta
  | |- safe _ _ any (Ret _) => apply safe_any
  | |- safe _ _ any (bind _ _) =>
      apply safe_bind_any; [solve [eauto with safe typeclass_instances]|]
  | |- safe _ _ any (bind _ _) => apply safe_bind_any
  | |- safe _ _ any (match ?x with _ => _ end) => destruct x
  | |- forall _, _ => intros ?
  | |- safe _ _ any _ => solve [eauto with safe typeclass_instances]
  end.

Section Programs.
Context `{Env} (I : World -> Prop) (G : World -> World -> Prop) `{!Untouched I G}.

Lemma stays_project_GetByID id : safe I G any (ProjectStore.GetByID id).
Proof. unfold ProjectStore.GetByID. stays_auto. Qed.
Lemma stays_node_GetByID id : safe I G any (NodeStore.GetByID id).
Proof. unfold NodeStore.GetByID. stays_auto. Qed.
Lemma stays_tenant_GetByID id : safe I G any (TenantStore.GetByID id).
Proof. unfold TenantStore.GetByID. stays_auto. Qed.
Lemma stays_GetEncryptedTokenByID id : safe I G any (NodeStore.GetEncryptedTokenByID id).
Proof. unfold NodeStore.GetEncryptedTokenByID. stays_auto. Qed.
Lemma stays_GetNextAvailableIP cidr : safe I G any (TenantStore.GetNextAvailableIP cidr).
Proof. unfold TenantStore.GetNextAvailableIP, IPAlloc.Allocate. stays_auto. Qed.

Lemma stays_AutoCreateStation id name sub own dom :
  safe I G any (StationStore.AutoCreateStation id name sub own dom).
Proof.
  unfold StationStore.AutoCreateStation, StationStore.GetByTenantID, StationStore.Create. stays_auto.
  apply (safe_stmt _ _); [done|]. intros w n Hw. rewrite StationStore.insert_station_frame.
  match goal with |- I ?w' /\ _ => by destruct (untouched w w' eq_refl eq_refl eq_refl Hw) end.
Qed.

Hint Resolve stays_project_GetByID stays_node_GetByID stays_tenant_GetByID
  stays_GetEncryptedTokenByID stays_GetNextAvailableIP stays_AutoCreateStation : safe.

Lemma stays_getClient p id : safe I G any (getClient p id).
Proof. unfold getClient, lookup_client. stays_auto. Qed.
Lemma stays_ExecInContainer h v c : safe I G any (ExecInContainer h v c).
Proof. unfold ExecInContainer, execCommand. stays_auto. Qed.
Lemma stays_generateToken : safe I G any generateToken.
Proof. unfold generateToken. stays_auto. Qed.
Hint Resolve stays_getClient stays_ExecInContainer stays_generateToken : safe.
Lemma stays_deployFreeRadio p h id tid tok : safe I G any (deployFreeRadio p h id tid tok).
Proof. unfold deployFreeRadio, generateDeploySecrets. stays_auto. Qed.
Lemma stays_health_loop fuel p u d s : safe I G any (health_loop fuel p u d s).
Proof. revert s. induction fuel as [|n IH]; intros s; cbn [health_loop]; stays_auto. Qed.
Hint Resolve stays_health_loop : safe.
Lemma stays_waitForHealth p u : safe I G any (waitForHealth p u).
Proof. unfold waitForHealth. stays_auto. Qed.

End Programs.

#[export] Hint Resolve stays_project_GetByID stays_node_GetByID stays_tenant_GetByID
  stays_GetEncryptedTokenByID stays_GetNextAvailableIP stays_getClient stays_ExecInContainer
  stays_generateToken stays_deployFreeRadio stays_health_loop stays_waitForHealth
  stays_AutoCreateStation : safe.

Lemma wp_safe {W A} (I : W -> Prop) G (Q : A -> Prop) (p : Prog W A) (R : A -> W -> Prop) w :
  safe I G Q p -> I w -> (forall a w', Q a -> I w' -> R a w') -> wp p R w.
Proof. intros Hp Hw HR. destruct (safe_run I G Q p w Hp Hw) as (?&_&?). unfold wp. auto. Qed.

(** ** Row updates in a phase *)

Lemma plain_apply cs t :
  forallb plain_set cs = true ->
  let t' := fold_left (fun t c => apply_set c t) cs t in
  t_Status t' = t_Status t /\ t_LXCID t' = t_LXCID t.
Proof.
  revert t. induction cs as [|c cs IH]; intros t Hp; simpl; [done|].
  apply andb_prop in Hp as [Hc Hp]. destruct (IH (apply_set c t) Hp) as [-> ->].
  destruct c; try done; by destruct t.
Qed.

Lemma apply_sets_fields now cs t :
  t_Status (apply_sets now cs t) = t_Status (fold_left (fun t c => apply_set c t) cs t) /\
  t_LXCID (apply_sets now cs t) = t_LXCID (fold_left (fun t c => apply_set c t) cs t) /\
  t_ErrorMessage (apply_sets now cs t) = t_ErrorMessage (fold_left (fun t c => apply_set c t) cs t).
Proof. unfold apply_sets. by destruct (fold_left _ cs t). Qed.

Lemma apply_sets_key now cs t : t_ID (apply_sets now cs t) = t_ID t.
Proof.
  unfold apply_sets. destruct (apply_set_static cs t) as (E&_).
  by destruct (set_updated_same now (fold_left (fun t c => apply_set c t) cs t)) as (->&_).
Qed.

Section Updates.
Context `{Env}.

Lemma write_keeps_ok w id t cs now :
  tenants_ok (w_tenants w) -> w_tenants w !! id = Some t ->
  index_conflict (w_tenants w) (apply_sets now cs t) = false ->
  tenants_ok (<[id := apply_sets now cs t]> (w_tenants w)).
Proof.
  intros Hok Ht Hc. pose proof (proj1 Hok _ _ Ht) as Hid.
  rewrite <- Hid at 1. rewrite <- (apply_sets_key now cs t). by apply tenants_ok_insert.
Qed.

(** A plain update, of any row, stays in the phase. *)
Lemma stays_plain msg none tid st lxc N sets :
  forallb plain_set sets = true ->
  safe (in_phase tid st lxc N) anyway any (TenantStore.exec_tenant msg none tid (fun _ => true) sets).
Proof.
  intros Hp. apply safe_bind_any; [|intros [[]|]; apply safe_any].
  apply (safe_stmt _ _); [done|]. intros w n Hw. pose proof Hw as (HN & Hok & t & Ht & Hst & Hl).
  destruct (update_tenant_cases tid (fun _ => true) sets (set_tick n w))
    as [(t0&t'&Ht0&_&Ht'&Hc&->)|[[_ ->]|(?&_&_&->)]]; simpl in *;
    (split; [|done]); [|by apply (tables_only w)..].
  assert (t0 = t) as -> by congruence. subst t'. destruct (plain_apply sets t Hp) as [E1 E2].
  destruct (apply_sets_fields (env_now n) sets t) as (F1&F2&_). split_and!; [done| |].
  - by apply (write_keeps_ok (set_tick n w)).
  - eexists. simpl. rewrite lookup_insert_eq. split; [done|]. split; congruence.
Qed.

Lemma stays_SetLXCIP tid st lxc N ip : safe (in_phase tid st lxc N) anyway any (TenantStore.SetLXCIP tid ip).
Proof. by apply stays_plain. Qed.
Lemma stays_SetDashboardToken tid st lxc N tok :
  safe (in_phase tid st lxc N) anyway any (TenantStore.SetDashboardToken tid tok).
Proof. by apply stays_plain. Qed.

Lemma stays_SetHealthStatus tid st lxc N s :
  safe (in_phase tid st lxc N) anyway any (TenantStore.SetHealthStatus tid s).
Proof.
  apply safe_bind_any; [|intros []; apply safe_any].
  apply (safe_stmt _ _); [done|]. intros w n Hw. pose proof Hw as (HN & Hok & t & Ht & Hst & Hl).
  set (sets := [SetHealthStatus s (env_now (w_tick (set_tick n w)))]).
  destruct (update_tenant_cases tid (fun _ => true) sets (set_tick n w))
    as [(t0&t'&Ht0&_&Ht'&Hc&->)|[[_ ->]|(?&_&_&->)]]; simpl in *;
    (split; [|done]); [|by apply (tables_only w)..].
  assert (t0 = t) as -> by congruence. subst t'. destruct (plain_apply sets t eq_refl) as [E1 E2].
  destruct (apply_sets_fields (env_now n) sets t) as (F1&F2&_). split_and!; [done| |].
  - by apply (write_keeps_ok (set_tick n w)).
  - eexists. simpl. rewrite lookup_insert_eq. split; [done|]. split; congruence.
Qed.

(** A status CAS from the status the row is in takes effect. *)
Lemma update_live tid st lxc N where_ sets w t :
  in_phase tid st lxc N w -> w_tenants w !! tid = Some t -> where_ t = true ->
  (forall c, c ∈ sets -> match c with SetName _ => False | _ => True end) ->
  t_Status t <> deleted ->
  let t' := apply_sets (env_now (w_tick w)) sets t in
  update_tenant tid where_ sets w = (Ok (Some t'), set_tenants (<[tid := t']> (w_tenants w)) w) /\
  tenants_ok (<[tid := t']> (w_tenants w)).
Proof.
  intros (HN & Hok & _) Ht Hwh Hnm Hlive. simpl.
  assert (index_conflict (w_tenants w) (apply_sets (env_now (w_tick w)) sets t) = false) as Hc.
  { eapply no_conflict_same_key; [done|done|apply apply_sets_key| | |].
    - unfold apply_sets. transitivity (t_Name (fold_left (fun t c => apply_set c t) sets t)); [by destruct (fold_left _ _ _)|].
      clear -Hnm. revert t. induction sets as [|c cs IH]; intros t; simpl; [done|].
      rewrite IH by (intros; apply Hnm, elem_of_cons; by right).
      specialize (Hnm c ltac:(apply elem_of_cons; by left)). destruct c; try done; by destruct t.
    - unfold apply_sets. transitivity (t_Subdomain (fold_left (fun t c => apply_set c t) sets t)); [by destruct (fold_left _ _ _)|].
      by destruct (apply_set_static sets t) as (_&_&_&->&_).
    - intros _. unfold live, status_eqb. by rewrite bool_decide_eq_false_2. }
  split; [|by apply write_keeps_ok].
  unfold update_tenant. by rewrite Ht, Hwh, Hc.
Qed.

End Updates.

#[export] Hint Resolve stays_SetLXCIP stays_SetDashboardToken stays_SetHealthStatus : safe.

(** ** Releasing a reservation *)

(** The account after [ram] was released, when [ram] is positive. *)
Definition released (nid : string) (ram : Z) (n : Node) (N N' : gmap string Node) : Prop :=
  (0 < ram /\ exists now, N' = <[nid := with_allocated now (Z.max (n_AllocatedRAMMB n - ram) 0) n]> N) \/
  (ram <= 0 /\ N' = N).

(** Released, or kept because the statement failed. *)
Definition maybe_released `{Env} (nid : string) (ram : Z) (n : Node) (N N' : gmap string Node) : Prop :=
  released nid ram n N N' \/ (faulty /\ N' = N).

Lemma wp_release `{Env} nid ram n (N : gmap string Node) w :
  nodes_ok N -> N !! nid = Some n -> in_int4 ram = true -> w_nodes w = N ->
  wp (if 0 <? ram then let! _e := NodeStore.ReleaseRAM nid ram in Ret tt else Ret tt) (fun _ w' =>
    maybe_released nid ram n N (w_nodes w') /\ w_tenants w' = w_tenants w /\ w_trace w' = w_trace w) w.
Proof.
  intros HN Hn Hint HN1. destruct (Z.ltb_spec 0 ram) as [Hr|Hr].
  - unfold NodeStore.ReleaseRAM. rewrite Hint. cbn [negb]. apply wp_bind, wp_bind, wp_stmt.
    { intros m Hf. apply wp_ret, wp_ret. split; [|done]. right. split; [by eexists; eexists|done]. }
    intros _. rewrite (release_ram_eq nid ram (set_tick (S (w_tick w)) w) n);
      [|simpl; by rewrite HN1|simpl; by rewrite HN1|lia|done]. cbn [fst snd].
    apply wp_ret, wp_ret. split; [|done]. left. left. split; [done|].
    exists (env_now (w_tick (set_tick (S (w_tick w)) w))). simpl. by rewrite HN1.
  - apply wp_ret. split; [|done]. left. by right.
Qed.

(** ** Provisioning settles the tenant *)

Definition has_status (tid : string) (st : TenantStatus) (w : World) : Prop :=
  exists t, w_tenants w !! tid = Some t /\ t_Status t = st.

Definition marked_errored (tid : string) (w : World) : Prop :=
  exists t, w_tenants w !! tid = Some t /\ t_Status t = errored /\ is_Some (t_ErrorMessage t) /\ t_LXCID t = None.

(** The tenant is errored with a message and without a container, and the
    node's account has the reservation back. *)
Definition failed (tid nid : string) (ram : Z) (n : Node) (N : gmap string Node) (w : World) : Prop :=
  marked_errored tid w /\ released nid ram n N (w_nodes w).

(** What a failed job leaves: [failed], but for what a failing statement left
    undone. The two repairs are independent of each other. *)
Definition gave_up `{Env} (tid nid : string) (ram : Z) (n : Node) (N : gmap string Node) (w : World) : Prop :=
  (marked_errored tid w \/
   (faulty /\ exists t, w_tenants w !! tid = Some t /\ t_Status t = provisioning /\ t_LXCID t = None)) /\
  maybe_released nid ram n N (w_nodes w).

(** The tenant is active in container [lxc]; the reservation stands. *)
Definition settled_active (tid : string) (lxc : Z) (N : gmap string Node) (w : World) : Prop :=
  in_phase tid active (Some lxc) N w.

Section Settles.
Context `{Env}.
Context (tid nid : string) (ram : Z) (n : Node) (N : gmap string Node).
Context (HN : nodes_ok N) (Hn : N !! nid = Some n) (Hint : in_int4 ram = true).

Abbreviation before := (in_phase tid provisioning None N).

Lemma gave_up_failed w : ~ faulty -> gave_up tid nid ram n N w -> failed tid nid ram n N w.
Proof. intros Hf [[Hm|[? _]] [Hr|[? _]]]; done. Qed.

Lemma wp_setError msg w :
  before w -> wp (setError tid nid ram msg) (fun _ w' => gave_up tid nid ram n N w' /\ w_trace w' = w_trace w) w.
Proof.
  intros Hw. unfold setError. apply wp_bind.
  eapply (wp_mono _ (fun _ w' => w_nodes w' = N /\ w_trace w' = w_trace w /\ (marked_errored tid w' \/
    (faulty /\ exists t, w_tenants w' !! tid = Some t /\ t_Status t = provisioning /\ t_LXCID t = None)))).
  - unfold TenantStore.SetError, TenantStore.exec_tenant. apply wp_bind, wp_stmt.
    { intros m Hf. apply wp_ret. destruct Hw as (? & _ & ?). split_and!; [done|done|]. right. split; [by eexists; eexists|done]. }
    intros _. set (w1 := set_tick (S (w_tick w)) w).
    assert (before w1) as Hw1 by by apply (tables_only w).
    pose proof Hw1 as (HN1 & _ & t & Ht & Hst & Hl).
    destruct (update_live tid provisioning None N (TenantStore.status_in [provisioning; deleting])
      [SetStatus errored; SetErrorMessage (Some msg)] w1 t) as [-> _]; [done|done| | |congruence|].
    { apply status_in_spec. rewrite Hst. apply elem_of_cons. by left. }
    { intros c. rewrite !elem_of_cons, elem_of_nil. by intros [->|[->|[]]]. }
    apply wp_ret. split_and!; [done|done|]. left. eexists. split; [apply lookup_insert_eq|].
    destruct (apply_sets_fields (env_now (w_tick w1)) [SetStatus errored; SetErrorMessage (Some msg)] t)
      as (-> & -> & ->). destruct t. simpl in *. by eauto.
  - intros ? w1 (Hn1 & Ht1 & Hm). eapply wp_mono; [by apply (wp_release nid ram n N)|].
    intros ? w2 (Hr & Ht2 & Htr2). split; [|congruence]. split; [|done].
    unfold marked_errored in *. by rewrite Ht2.
Qed.

(** A container is deleted, and only then is the tenant reported errored and
    its reservation released: [w1] is the world in between. *)
Definition cleaned_up (c : ProxmoxClient) (id : Z) (w' : World) : Prop :=
  exists msg w1, before w1 /\ EvDeleteContainer (c_NodeID c) id ∈ w_trace w1 /\
    w' = (run (setError tid nid ram msg) w1).2.

Lemma cleaned_up_gave_up c id w : cleaned_up c id w -> gave_up tid nid ram n N w.
Proof. intros (msg & w1 & Hw1 & _ & ->). apply (wp_setError msg w1 Hw1). Qed.

Lemma wp_cleanup c id msg w :
  before w -> wp (cleanupAndError c tid nid ram id msg) (fun _ w' => cleaned_up c id w') w.
Proof.
  intros Hw. unfold cleanupAndError. apply wp_bind, wp_ext. intros w1 (E1&E2&_) _ Htr.
  assert (before w1) as Hw1 by by apply (tables_only w).
  assert (EvDeleteContainer (c_NodeID c) id ∈ w_trace w1) as Hin
    by (rewrite Htr; apply elem_of_app; right; by apply list_elem_of_singleton).
  assert (forall w2, before w2 -> EvDeleteContainer (c_NodeID c) id ∈ w_trace w2 ->
    wp (setError tid nid ram msg) (fun _ w' => cleaned_up c id w') w2) as Hend
    by (intros w2 Hw2 Hin2; by exists msg, w2).
  apply wp_bind. destruct (env_ext _ _); [apply wp_ret; by apply Hend|].
  apply wp_bind, wp_ext. intros w2 (F1&F2&_) _ Htr2. apply wp_ret, Hend.
  - by apply (tables_only w1).
  - rewrite Htr2. apply elem_of_app. by left.
Qed.

Lemma wp_SetActive id w :
  before w ->
  wp (TenantStore.SetActive tid id) (fun r w' =>
    match r with
    | None => settled_active tid id N w'
    | Some _ => before w'
    end) w.
Proof.
  intros Hw. unfold TenantStore.SetActive. destruct (in_int4 id); cbn [negb]; [|by apply wp_ret].
  unfold TenantStore.exec_tenant. apply wp_bind, wp_stmt; [intros m _; apply wp_ret; by apply (tables_only w)|]. intros _.
  set (w1 := set_tick (S (w_tick w)) w).
  assert (before w1) as Hw1 by by apply (tables_only w).
  pose proof Hw1 as (HN1 & _ & t & Ht & Hst & Hl).
  set (sets := [SetStatus active; SetLXCID id; SetErrorMessage None]).
  destruct (update_live tid provisioning None N (TenantStore.status_in [provisioning]) sets w1 t)
    as [-> Hok]; [done|done| | |congruence|].
  { apply status_in_spec. rewrite Hst. apply elem_of_cons. by left. }
  { intros c. unfold sets. rewrite !elem_of_cons, elem_of_nil. by intros [->|[->|[->|[]]]]. }
  apply wp_ret. split_and!; [done|done|].
  exists (apply_sets (env_now (w_tick w1)) sets t). split; [apply lookup_insert_eq|].
  destruct (apply_sets_fields (env_now (w_tick w1)) sets t) as (-> & -> & _). by destruct t.
Qed.

(** Once a container exists, a failure removes it. *)
Definition settled (c : ProxmoxClient) (id : Z) (w : World) : Prop :=
  settled_active tid id N w \/ cleaned_up c id w.

Lemma wp_configure_network p c proj id w :
  before w ->
  wp (configure_network p c proj tid nid ram id) (fun r w' =>
    match r with None => settled c id w' | Some _ => before w' end) w.
Proof.
  intros Hw. unfold configure_network. destruct (is_empty _); [by apply wp_ret|].
  assert (forall msg w1, before w1 ->
    wp (cleanupAndError c tid nid ram id msg ;;; Ret None) (fun (r : option string) w' =>
      match r with None => settled c id w' | Some _ => before w' end) w1) as Hfail.
  { intros msg w1 Hw1. apply wp_bind. eapply wp_mono; [by apply wp_cleanup|].
    intros ? w2 Hw2. apply wp_ret. by right. }
  apply wp_bind, (wp_safe before anyway any); [eauto with safe typeclass_instances|done|].
  intros [ip|] w1 _ Hw1; [|by apply Hfail].
  apply wp_bind, wp_ext. intros w2 (E1&E2&_) _ _.
  assert (before w2) as Hw2 by by apply (tables_only w1).
  destruct (env_ext _ _); [by apply Hfail|].
  apply wp_bind, (wp_safe before anyway any); [eauto with safe|done|].
  intros ? w3 _ Hw3. by apply wp_ret.
Qed.

Lemma wp_configure_mounts p c nd id w :
  before w ->
  wp (configure_mounts p c nd tid nid ram id) (fun r w' =>
    match r with false => settled c id w' | true => before w' end) w.
Proof.
  intros Hw. unfold configure_mounts. cbv zeta.
  assert (forall w1, before w1 ->
    wp (cleanupAndError c tid nid ram id "provisioning failed: mount point config error" ;;; Ret false)
      (fun (r : bool) w' => match r with false => settled c id w' | true => before w' end) w1) as Hfail.
  { intros w1 Hw1. apply wp_bind. eapply wp_mono; [by apply wp_cleanup|].
    intros ? w2 Hw2. apply wp_ret. by right. }
  destruct (pv_sshClient p); [destruct (ExtractHost _); [|by apply Hfail]|].
  - apply wp_bind, wp_ext. intros w1 (E1&E2&_) _ _.
    assert (before w1) as Hw1 by by apply (tables_only w).
    destruct (env_ext _ _); [by apply Hfail|]. apply wp_bind, wp_ext. intros w2 (F1&F2&_) _ _.
    assert (before w2) as Hw2 by by apply (tables_only w1).
    destruct (env_ext _ _); [by apply Hfail|by apply wp_ret].
  - apply wp_bind, wp_ext. intros w1 (E1&E2&_) _ _.
    assert (before w1) as Hw1 by by apply (tables_only w).
    destruct (env_ext _ _); [by apply Hfail|by apply wp_ret].
Qed.

Lemma wp_start_container p c id w :
  before w ->
  wp (start_container p c tid nid ram id) (fun r w' =>
    match r with false => settled c id w' | true => before w' end) w.
Proof.
  intros Hw. unfold start_container.
  assert (forall msg w1, before w1 ->
    wp (cleanupAndError c tid nid ram id msg ;;; Ret false)
      (fun (r : bool) w' => match r with false => settled c id w' | true => before w' end) w1) as Hfail.
  { intros msg w1 Hw1. apply wp_bind. eapply wp_mono; [by apply wp_cleanup|].
    intros ? w2 Hw2. apply wp_ret. by right. }
  apply wp_bind, wp_ext. intros w1 (E1&E2&_) _ _.
  assert (before w1) as Hw1 by by apply (tables_only w).
  destruct (env_ext _ _); [by apply Hfail|]. apply wp_bind, wp_ext. intros w2 (F1&F2&_) _ _.
  assert (before w2) as Hw2 by by apply (tables_only w1).
  destruct (env_ext _ _); [by apply Hfail|by apply wp_ret].
Qed.

Lemma wp_finish p c proj nd sub id w :
  before w ->
  wp (finish_provision p c proj nd tid nid sub ram id) (fun _ w' => settled c id w') w.
Proof.
  intros Hw. unfold finish_provision. apply wp_bind.
  eapply wp_mono; [by apply wp_configure_network|]. intros [ip|] w1 Hw1; [|by apply wp_ret].
  apply wp_bind. eapply wp_mono; [by apply wp_configure_mounts|].
  intros [] w2 Hw2; cbn [negb]; [|by apply wp_ret].
  apply wp_bind. eapply wp_mono; [by apply wp_start_container|].
  intros [] w3 Hw3; cbn [negb]; [|by apply wp_ret].
  apply wp_bind, (wp_safe before anyway any); [unfold dashboard_token; stays_auto|done|].
  intros tok w4 _ Hw4. apply wp_bind. eapply wp_mono; [by apply wp_SetActive|].
  intros [e|] w5 Hw5.
  - eapply wp_mono; [by apply wp_cleanup|]. intros ? w6 ?. by right.
  - apply (wp_safe (settled_active tid id N) anyway any); [|done|intros; by left].
    unfold settled_active, after_active. stays_auto.
Qed.

End Settles.

(** C4. Provisioning settles. The job of a freshly created tenant, run alone,
    with Proxmox, SSH, Caddy, the station creator, the random source and any
    database statement free to fail, ends in one of two ways. Either the tenant
    is active with its container, and the node's RAM account is as the creation
    left it; or the job gave up: the tenant is errored with a message and
    without a container, and the reserved RAM has been given back, once. Only a
    failing statement weakens the second: the tenant may then still be in
    provisioning without a container, or the RAM still be held, but no other
    state and no second release is possible; with a database that answers the
    tenant is errored and the RAM given back. *)
Theorem doProvision_settles `{Env} (p : Provisioner) (tid nid pid sub : string) (ram : Z)
    (n : Node) (t : Tenant) (w : World)
  (Ht : w_tenants w !! tid = Some t) (Hfresh : fresh t) (Hok : tenants_ok (w_tenants w))
  (Hnodes : nodes_ok (w_nodes w)) (Hn : w_nodes w !! nid = Some n) (Hint : in_int4 ram = true) :
  wp (doProvision p tid nid pid sub ram) (fun _ w' =>
    (exists lxc, settled_active tid lxc (w_nodes w) w') \/
    (gave_up tid nid ram n (w_nodes w) w' /\ (~ faulty -> failed tid nid ram n (w_nodes w) w'))) w.
Proof.
  destruct Hfresh as [Hst Hl]. set (N := w_nodes w).
  assert (in_phase tid provisioning None N w) as Hw by (split_and!; eauto).
  apply (wp_mono _ (fun _ w' => (exists lxc, settled_active tid lxc N w') \/ gave_up tid nid ram n N w')).
  2: { intros ? w' [?|?]; [by left|]. right. split; [done|]. intros. by apply gave_up_failed. }
  assert (forall msg w1, in_phase tid provisioning None N w1 ->
    wp (setError tid nid ram msg) (fun _ w' =>
      (exists lxc, settled_active tid lxc N w') \/ gave_up tid nid ram n N w') w1) as Hfail.
  { intros msg w1 Hw1. eapply wp_mono; [by eapply wp_setError|]. intros ? w2 [? _]. by right. }
  unfold doProvision.
  apply wp_bind, (wp_safe (in_phase tid provisioning None N) anyway any); [eauto with safe typeclass_instances|done|].
  intros [[proj|]|] w1 _ Hw1; [|by apply Hfail..].
  apply wp_bind, (wp_safe (in_phase tid provisioning None N) anyway any); [eauto with safe typeclass_instances|done|].
  intros [[nd|]|] w2 _ Hw2; [|by apply Hfail..].
  apply wp_bind, (wp_safe (in_phase tid provisioning None N) anyway any); [eauto with safe typeclass_instances|done|].
  intros [c|] w3 _ Hw3; [|by apply Hfail].
  apply wp_bind, (wp_safe (in_phase tid provisioning None N) anyway any); [eauto with safe typeclass_instances|done|].
  intros [id|] w4 _ Hw4; [|by apply Hfail].
  apply wp_bind, wp_ext. intros w5 (E1&E2&_) _ _.
  assert (in_phase tid provisioning None N w5) as Hw5 by by apply (tables_only w4).
  destruct (env_ext _ _); [by apply Hfail|].
  apply wp_bind, wp_ext. intros w6 (F1&F2&_) _ _.
  assert (in_phase tid provisioning None N w6) as Hw6 by by apply (tables_only w5).
  destruct (env_ext _ _); [by apply Hfail|].
  eapply wp_mono; [by apply (wp_finish tid nid ram N)|].
  intros ? w7 [?|Hc]; [left; by eexists|right]. by eapply cleaned_up_gave_up.
Qed.

(** C5. No container is left behind. Once the clone of container [id] is
    complete, the rest of the job, run alone, either records the tenant as
    active in that container, or, whichever of the remaining steps failed, the
    recording included, it asks Proxmox to delete the container while the
    tenant is still in provisioning and the RAM still held ([w1]), and only
    then, as its last action, reports the failure: what follows [w1] is exactly
    [setError]. Any statement of the database may fail as well. (That the
    deletion is requested by this job is seen from a [w] whose trace has no such
    event yet.) *)
Theorem provision_cleans_up `{Env} (p : Provisioner) (c : ProxmoxClient) (proj : Project) (nd : Node)
    (tid nid sub : string) (ram id : Z) (t : Tenant) (w : World)
  (Ht : w_tenants w !! tid = Some t) (Hfresh : fresh t) (Hok : tenants_ok (w_tenants w)) :
  wp (finish_provision p c proj nd tid nid sub ram id) (fun _ w' =>
    settled_active tid id (w_nodes w) w' \/
    exists msg w1, in_phase tid provisioning None (w_nodes w) w1 /\
      EvDeleteContainer (c_NodeID c) id ∈ w_trace w1 /\
      w' = (run (setError tid nid ram msg) w1).2) w.
Proof.
  destruct Hfresh as [Hst Hl]. apply (wp_finish tid nid ram (w_nodes w)). split_and!; eauto.
Qed.

(** ** Deprovisioning *)

Definition deletable (st : TenantStatus) : Prop := st = active \/ st = errored \/ st = suspended.

(** Errored, or still in deletion because the statement failed. *)
Definition deletion_failed `{Env} (tid : string) (w : World) : Prop :=
  has_status tid errored w \/ (faulty /\ has_status tid deleting w).

Section Deprovisions.
Context `{Env}.
Context (tid nid : string) (ram : Z) (n : Node) (N : gmap string Node) (lxc0 : option Z).
Context (HN : nodes_ok N) (Hn : N !! nid = Some n) (Hint : in_int4 ram = true).

Abbreviation going := (in_phase tid deleting lxc0 N).

Lemma going_status w : going w -> has_status tid deleting w.
Proof. intros (_ & _ & t & ? & ? & _). by exists t. Qed.

Lemma wp_deprov_error msg e w :
  going w ->
  wp (let! _e := TenantStore.SetError tid msg in Ret (Some e)) (fun (r : option error) w' =>
    r = Some e /\ deletion_failed tid w' /\ w_nodes w' = N) w.
Proof.
  intros Hw. unfold TenantStore.SetError, TenantStore.exec_tenant. apply wp_bind, wp_bind, wp_stmt.
  { intros m Hf. apply wp_ret, wp_ret. split; [done|]. split; [|apply Hw]. right.
    split; [by eexists; eexists|]. by apply going_status. }
  intros _. set (w1 := set_tick (S (w_tick w)) w).
  assert (going w1) as Hw1 by by apply (tables_only w).
  pose proof Hw1 as (HN1 & _ & t & Ht & Hst & Hl).
  set (sets := [SetStatus errored; SetErrorMessage (Some msg)]).
  destruct (update_live tid deleting lxc0 N (TenantStore.status_in [provisioning; deleting]) sets w1 t)
    as [-> _]; [done|done| | |congruence|].
  { apply status_in_spec. rewrite Hst. apply elem_of_cons. right. by apply list_elem_of_singleton. }
  { intros c. unfold sets. rewrite !elem_of_cons, elem_of_nil. by intros [->|[->|[]]]. }
  apply wp_ret, wp_ret. split; [done|]. split; [|done]. left.
  exists (apply_sets (env_now (w_tick w1)) sets t). split; [apply lookup_insert_eq|].
  destruct (apply_sets_fields (env_now (w_tick w1)) sets t) as (-> & _). by destruct t.
Qed.

Lemma wp_remove_container c id w :
  going w ->
  wp (remove_container c tid id) (fun r w' =>
    match r with
    | None => going w' /\ EvDeleteContainer (c_NodeID c) id ∈ w_trace w'
    | Some e => deletion_failed tid w' /\ w_nodes w' = N
    end) w.
Proof.
  intros Hw. unfold remove_container. apply wp_bind, wp_ext. intros w1 (E1&E2&_) _ Htr.
  assert (going w1) as Hw1 by by apply (tables_only w).
  assert (EvDeleteContainer (c_NodeID c) id ∈ w_trace w1) as Hin
    by (rewrite Htr; apply elem_of_app; right; by apply list_elem_of_singleton).
  assert (forall msg (e : error) w2, going w2 ->
    wp (let! _e := TenantStore.SetError tid msg in Ret (Some e)) (fun r w' =>
      match r with
      | None => going w' /\ EvDeleteContainer (c_NodeID c) id ∈ w_trace w'
      | Some e => deletion_failed tid w' /\ w_nodes w' = N
      end) w2) as Hfail.
  { intros msg e w2 Hw2. eapply wp_mono; [by apply wp_deprov_error|]. by intros ? w3 (-> & ?). }
  destruct (env_ext _ _) as [e|].
  - destruct (ProxmoxErrors.IsContainerNotFound _); [by apply wp_ret|by apply Hfail].
  - apply wp_bind, wp_ext. intros w2 (F1&F2&_) _ Htr2.
    assert (going w2) as Hw2 by by apply (tables_only w1).
    assert (EvDeleteContainer (c_NodeID c) id ∈ w_trace w2)
      by (rewrite Htr2; apply elem_of_app; by left).
    destruct (env_ext _ _) as [e|]; [|by apply wp_ret].
    destruct (ProxmoxErrors.IsContainerNotFound _); [by apply wp_ret|by apply Hfail].
Qed.

Lemma wp_SetDeleted N' w :
  in_phase tid deleting lxc0 N' w ->
  wp (TenantStore.SetDeleted tid) (fun r w' =>
    w_nodes w' = w_nodes w /\ w_trace w' = w_trace w /\
    match r with
    | None => has_status tid deleted w'
    | Some _ => faulty /\ has_status tid deleting w'
    end) w.
Proof.
  intros Hw. unfold TenantStore.SetDeleted, TenantStore.exec_tenant. apply wp_bind, wp_stmt.
  { intros m Hf. apply wp_ret. split_and!; [done|done|by eexists; eexists|].
    destruct Hw as (_ & _ & t & ? & ? & _). by exists t. }
  intros _. set (w1 := set_tick (S (w_tick w)) w).
  assert (in_phase tid deleting lxc0 N' w1) as Hw1 by by apply (tables_only w).
  pose proof Hw1 as (HN1 & _ & t & Ht & Hst & Hl).
  destruct (update_live tid deleting lxc0 N' (TenantStore.status_in [deleting]) [SetStatus deleted] w1 t)
    as [-> _]; [done|done| | |congruence|].
  { apply status_in_spec. rewrite Hst. apply elem_of_cons. by left. }
  { intros c. rewrite !elem_of_cons, elem_of_nil. by intros [->|[]]. }
  apply wp_ret. split; [done|]. split; [done|].
  exists (apply_sets (env_now (w_tick w1)) [SetStatus deleted] t). split; [apply lookup_insert_eq|].
  destruct (apply_sets_fields (env_now (w_tick w1)) [SetStatus deleted] t) as (-> & _). by destruct t.
Qed.

End Deprovisions.

(** The compare-and-swap that guards a deletion. *)
Lemma wp_SetDeleting `{Env} tid w :
  tenants_ok (w_tenants w) ->
  wp (TenantStore.SetDeleting tid) (fun r w' =>
    (r = None /\ exists t, w_tenants w !! tid = Some t /\ deletable (t_Status t) /\
       in_phase tid deleting (t_LXCID t) (w_nodes w) w') \/
    (r = Some TenantStore.ErrStateConflict /\
     (forall t, w_tenants w !! tid = Some t -> ~ deletable (t_Status t)) /\ unchanged w w') \/
    (exists e, r = Some e /\ errors_Is e TenantStore.ErrStateConflict = false /\ faulty /\ unchanged w w')) w.
Proof.
  intros Hok. unfold TenantStore.SetDeleting, TenantStore.exec_tenant. apply wp_bind, wp_stmt.
  { intros m Hf. apply wp_ret. right. right. eexists. split; [done|]. split; [done|]. split; [by eexists; eexists|done]. }
  intros _. set (w1 := set_tick (S (w_tick w)) w).
  assert (forall st, st ∈ [active; errored; suspended] <-> deletable st) as Hdel.
  { intros st. unfold deletable. rewrite !elem_of_cons, elem_of_nil. tauto. }
  destruct (w_tenants w !! tid) as [t|] eqn:Ht.
  - destruct (TenantStore.status_in [active; errored; suspended] t) eqn:Hs.
    + pose proof Hs as Hs'. apply status_in_spec, Hdel in Hs'.
      assert (in_phase tid (t_Status t) (t_LXCID t) (w_nodes w) w1) as Hw1 by (split_and!; eauto).
      destruct (update_live tid _ _ _ (TenantStore.status_in [active; errored; suspended])
        [SetStatus deleting] w1 t Hw1) as [-> Hok']; [done|done| | |].
      { intros c. rewrite !elem_of_cons, elem_of_nil. by intros [->|[]]. }
      { intros Hd. rewrite Hd in Hs'. unfold deletable in Hs'. naive_solver. }
      apply wp_ret. left. split; [done|]. exists t. do 2 (split; [done|]).
      split; [done|]. split; [done|].
      exists (apply_sets (env_now (w_tick w1)) [SetStatus deleting] t). split; [apply lookup_insert_eq|].
      destruct (apply_sets_fields (env_now (w_tick w1)) [SetStatus deleting] t) as (-> & -> & _). by destruct t.
    + unfold update_tenant. change (w_tenants w1 !! tid) with (w_tenants w !! tid). rewrite Ht, Hs.
      apply wp_ret. right. left. split; [done|]. split; [|done].
      intros t' [= <-] Hd. apply Hdel, status_in_spec in Hd. congruence.
  - unfold update_tenant. change (w_tenants w1 !! tid) with (w_tenants w !! tid). rewrite Ht.
    apply wp_ret. right. left. split; [done|]. split; [by intros|done].
Qed.

(** C7. Deprovisioning tells the truth, run alone on a consistent database any
    of whose statements may fail, with remote systems that may answer anything.
    Success means the tenant is deleted, the removal of its container was
    requested (seen from a [w] whose trace has no such event yet) and the RAM is
    back on the node, unless the one statement that
    releases it failed, which the code only logs. [ErrStateConflict] means the
    tenant was not in a deletable state, and then no table changed and no
    remote system was called. Any other error leaves the tenant errored with
    its reservation in place, so that it can be deleted again; only a failing
    statement makes it otherwise: nothing changed at all, or the tenant is
    stuck in deletion, with its reservation, or without it once the removal of
    its container was requested. *)
Theorem Deprovision_spec `{Env} (p : Provisioner) (tid nid sub : string) (lxc ram : Z) (n : Node) (w : World)
  (Hok : tenants_ok (w_tenants w))
  (Hnodes : nodes_ok (w_nodes w)) (Hn : w_nodes w !! nid = Some n) (Hint : in_int4 ram = true) :
  wp (Deprovision p tid nid sub lxc ram) (fun r w' =>
    let requested := exists node, EvDeleteContainer node lxc ∈ w_trace w' in
    match r with
    | None => has_status tid deleted w' /\ requested /\
        (released nid ram n (w_nodes w) (w_nodes w') \/ (faulty /\ w_nodes w' = w_nodes w))
    | Some e =>
        (e = TenantStore.ErrStateConflict /\ unchanged w w' /\
         forall t, w_tenants w !! tid = Some t -> ~ deletable (t_Status t)) \/
        (has_status tid errored w' /\ w_nodes w' = w_nodes w) \/
        (faulty /\ (unchanged w w' \/
          (has_status tid deleting w' /\
           (w_nodes w' = w_nodes w \/ (requested /\ released nid ram n (w_nodes w) (w_nodes w'))))))
    end) w.
Proof.
  unfold Deprovision. apply wp_bind. eapply wp_mono; [by apply wp_SetDeleting|].
  intros r w1 [(-> & t & Ht & Hd & Hw1)|[(-> & Hnd & Hun)|(e & -> & -> & Hf & Hun)]];
    [|by apply wp_ret; left|by apply wp_ret; right; right; auto].
  set (going := in_phase tid deleting (t_LXCID t) (w_nodes w)) in *.
  apply wp_bind, (wp_safe going anyway any); [eauto with safe typeclass_instances|done|].
  intros [c|e] w2 _ Hw2.
  2: { eapply wp_mono; [by eapply wp_deprov_error|]. intros ? w3 (-> & [?|[??]] & ?); [by right; left|].
       right. right. auto. }
  apply wp_bind, wp_ext. intros w3 (E1&E2&_) _ _.
  assert (going w3) as Hw3 by by apply (tables_only w2).
  apply wp_bind, (wp_safe going anyway any).
  { destruct (env_ext _ _); [apply safe_any|]. unfold Wait. apply safe_bind_any; [|intros; apply safe_any].
    apply stays_ext, _. }
  { done. }
  intros ? w4 _ Hw4. apply wp_bind. eapply wp_mono; [by eapply wp_remove_container|].
  intros [e|] w5; [intros [[?|[??]] ?]; apply wp_ret; right; [by left|right; auto]|]. intros [Hw5 Hin5].
  apply wp_bind. eapply wp_mono; [apply (wp_release nid ram n (w_nodes w)); [done..|apply Hw5]|].
  intros ? w6 (Hrel & Ht6 & Htr6).
  assert (in_phase tid deleting (t_LXCID t) (w_nodes w6) w6) as Hw6.
  { destruct Hw5 as (_ & Hok5 & Hex). split; [done|]. by rewrite Ht6. }
  assert (EvDeleteContainer (c_NodeID c) lxc ∈ w_trace w6) as Hin6 by by rewrite Htr6.
  apply wp_bind, (wp_safe (fun w' => in_phase tid deleting (t_LXCID t) (w_nodes w6) w' /\
    EvDeleteContainer (c_NodeID c) lxc ∈ w_trace w') anyway any).
  { destruct (_ && _); [|apply safe_any]. apply safe_bind_any; [|intros; apply safe_any].
    apply safe_atom. intros w7 [H1 H2]. split; [|done]. split; [by apply (tables_only w7)|].
    simpl. apply elem_of_app. by left. }
  { done. }
  intros ? w7 _ [Hw7 Hin7]. apply wp_bind. eapply wp_mono; [by eapply wp_SetDeleted|].
  intros r w8 (Hn8 & Htr8 & Hr). rewrite (proj1 Hw7) in Hn8.
  assert (exists node, EvDeleteContainer node lxc ∈ w_trace w8) as Hreq by (rewrite Htr8; by eexists).
  destruct r as [e|]; apply wp_ret; cbv zeta; rewrite Hn8.
  - right. right. destruct Hr as [Hf Hdel], Hrel as [Hrel|[_ Hrel]]; auto 10.
  - done.
Qed.

(** ** The health check *)

Section Health.
Context `{Env} (p : Provisioner) (url : string).
Context (Hclock : forall a b, (a <= b)%nat -> env_elapsed a <= env_elapsed b) (Hint : 0 < pv_healthInterval p).

(** The loop's verdict after at most [k] polls. *)
Definition polled (k : Z) (w : World) (r : option bool) (w' : World) : Prop :=
  exists healthy polls, r = Some healthy /\ same_db w w' /\ Z.of_nat polls <= k /\
    w_trace w' = w_trace w ++ repeat (EvHealthGet url) polls /\
    (healthy = true -> exists t, env_ext t (EvHealthGet url) = None /\ env_http_status t = 200).

Lemma polled_none k w w' : 0 <= k -> unchanged w w' -> polled k w (Some false) w'.
Proof.
  intros Hk (Hs & _ & Ht). exists false, 0%nat. rewrite Ht, app_nil_r. split_and!; try done.
Qed.

Lemma polled_more k w w1 w2 r :
  same_db w w1 -> w_trace w1 = w_trace w ++ [EvHealthGet url] -> polled (k - 1) w1 r w2 -> polled k w r w2.
Proof.
  intros Hs Ht (healthy & polls & -> & Hs2 & Hk & Ht2 & Hok). exists healthy, (S polls).
  split_and!; [done|by etrans|lia| |done]. by rewrite Ht2, Ht, <- app_assoc.
Qed.

Lemma polled_weaken k k' w r w' : k <= k' -> polled k w r w' -> polled k' w r w'.
Proof. intros Hk (healthy & polls & ? & ? & ? & ?). exists healthy, polls. split_and!; [done|done|lia|naive_solver..]. Qed.

(** With [k] polls left before the deadline and the fuel for them. *)
Lemma wp_health_loop start fuel k slept w :
  0 <= slept -> start <= env_elapsed (w_tick w) -> 0 <= k < Z.of_nat fuel ->
  pv_healthTimeout p - slept <= k * pv_healthInterval p ->
  wp (health_loop fuel p url (start + pv_healthTimeout p) slept) (polled k w) w.
Proof.
  revert k slept w. induction fuel as [|fuel IH]; intros k slept w Hs Hst Hk Hf; [lia|].
  cbn [health_loop]. apply wp_bind, wp_atom. cbn [fst snd].
  destruct (Z.ltb_spec (env_elapsed (w_tick w) + slept) (start + pv_healthTimeout p)) as [Hlt|];
    [|apply wp_ret, polled_none; [lia|done]].
  assert (1 <= k) by nia.
  set (w1 := set_tick (S (w_tick w)) w). apply wp_bind, wp_atom.
  set (w2 := set_trace (w_trace w1 ++ [EvHealthGet url]) (set_tick (S (w_tick w1)) w1)).
  assert (wp (let! done := sample env_ctx_done in
              if (done : bool) then Ret (Some false)
              else health_loop fuel p url (start + pv_healthTimeout p) (slept + pv_healthInterval p))
    (polled k w) w2) as Hagain.
  { apply wp_bind, wp_atom. cbn [fst snd]. set (w3 := set_tick (S (w_tick w2)) w2).
    destruct (env_ctx_done (w_tick w2)).
    - apply wp_ret, (polled_more k w w3); [done|done|]. apply polled_none; [lia|done].
    - eapply wp_mono; [apply (IH (k - 1))|].
      + lia.
      + etrans; [exact Hst|]. apply Hclock. simpl. lia.
      + lia.
      + lia.
      + intros r w4. by apply polled_more. }
  destruct (env_ext (w_tick w1) _) eqn:Ee; cbn [fst snd]; [done|].
  destruct (Z.eqb_spec (env_http_status (w_tick w1)) 200) as [E|]; [|done].
  apply wp_ret. exists true, 1%nat. split_and!; [done|done|lia|done|]. intros _. by eexists.
Qed.

End Health.

(** C6. The post-provision health check ends. With a clock that does not run
    backwards and a positive polling interval, as the configuration guarantees,
    the loop stops by itself within timeout / interval + 1 polls, whatever the
    polled server answers and whenever the context is cancelled: the fuel of
    the model is never what ends it. It changes no table, and it reports the
    station as healthy only if a poll was answered with status 200. *)
Theorem waitForHealth_terminates `{Env} (p : Provisioner) (url : string) (w : World)
  (Hclock : forall a b, (a <= b)%nat -> env_elapsed a <= env_elapsed b)
  (Hint : 0 < pv_healthInterval p) (Hto : 0 <= pv_healthTimeout p) :
  wp (waitForHealth p url) (fun r w' => exists healthy polls, r = Some healthy /\ same_db w w' /\
    Z.of_nat polls <= pv_healthTimeout p / pv_healthInterval p + 1 /\
    w_trace w' = w_trace w ++ repeat (EvHealthGet url) polls /\
    (healthy = true -> exists t, env_ext t (EvHealthGet url) = None /\ env_http_status t = 200)) w.
Proof.
  unfold waitForHealth. apply wp_bind, wp_atom. cbn [fst snd].
  set (w1 := set_tick (S (w_tick w)) w).
  assert (0 <= pv_healthTimeout p / pv_healthInterval p) by by apply Z.div_pos.
  eapply wp_mono; [apply (wp_health_loop p url Hclock Hint _ _ (pv_healthTimeout p / pv_healthInterval p + 1))|].
  - lia.
  - apply Hclock. simpl. lia.
  - unfold health_fuel. rewrite Z2Nat.id; lia.
  - pose proof (Z.mul_succ_div_gt (pv_healthTimeout p) (pv_healthInterval p) Hint). lia.
  - intros r w2 Hp. exact Hp.
Qed.

(** ** Witnesses *)

Definition demo_key : string := hex_encode (repeat_string 32 "k").

Definition pve_node : Node :=
  mkNode "n1" "pve-1" "100.64.0.1" "https://pve:8006"
    (hex_encode (repeat_string 12 "r" +:+ "root@pam!cp=secret")) 8192 1536 "active" 1 1.

Definition radio_project : Project :=
  mkProject "p1" "radio" 9000 [8080] None "/api/health" 1536 "10.10.10.0/24" "10.10.10.1" 1 1.

Definition radio_tenant (st : TenantStatus) (lxc : option Z) : Tenant :=
  mkTenant "t1" "radio-one" "p1" "n1" lxc None "radio-one" st None (Some "u1") None None
    "free" None "unknown" None 5 5.

Definition radio_world (st : TenantStatus) (lxc : option Z) : World :=
  set_tenants {["t1" := radio_tenant st lxc]}
    (set_nodes {["n1" := pve_node]} (set_projects {["p1" := radio_project]} empty_world)).

Definition demo_prov : Provisioner := WithSSHClient (WithCaddyClient (New demo_key)).

Lemma radio_tenants_ok st lxc : tenants_ok {["t1" := radio_tenant st lxc]}.
Proof.
  split.
  - by intros id t [<- <-]%lookup_singleton_Some.
  - by intros id1 id2 t1 t2 [<- <-]%lookup_singleton_Some [<- <-]%lookup_singleton_Some.
Qed.

Lemma radio_nodes_ok : nodes_ok {["n1" := pve_node]}.
Proof.
  split.
  - intros id n [<- <-]%lookup_singleton_Some. by vm_compute.
  - by intros id1 id2 t1 t2 [<- <-]%lookup_singleton_Some [<- <-]%lookup_singleton_Some.
Qed.

Lemma doProvision_settles_witness :
  let E := calm in
  let w := radio_world provisioning None in
  wp (doProvision demo_prov "t1" "n1" "p1" "radio-one" 1536) (fun _ w' =>
    (exists lxc, settled_active "t1" lxc (w_nodes w) w') \/
    (gave_up "t1" "n1" 1536 pve_node (w_nodes w) w' /\
     (~ faulty -> failed "t1" "n1" 1536 pve_node (w_nodes w) w'))) w /\
  option_map t_Status (w_tenants (run (doProvision demo_prov "t1" "n1" "p1" "radio-one" 1536) w).2 !! "t1")
    = Some active.
Proof.
  intros E w. split; [|vm_compute; reflexivity].
  apply (@doProvision_settles calm demo_prov "t1" "n1" "p1" "radio-one" 1536 pve_node
           (radio_tenant provisioning None) w).
  - reflexivity.
  - split; reflexivity.
  - apply radio_tenants_ok.
  - apply radio_nodes_ok.
  - reflexivity.
  - reflexivity.
Defined.

(** Proxmox refuses every start. *)
Definition no_start : Env :=
  env_with (fun _ => None) (fun _ ev => match ev with
    | EvStartContainer _ _ => Some (errorString "no quorum") | _ => None end).

Lemma provision_cleans_up_witness :
  let E := no_start in
  let w := radio_world provisioning None in
  let c := mkClient "n1" "https://pve:8006" "tok" in
  exists msg w1, in_phase "t1" provisioning None (w_nodes w) w1 /\ EvDeleteContainer "n1" 105 ∈ w_trace w1 /\
    (run (finish_provision demo_prov c radio_project pve_node "t1" "n1" "radio-one" 1536 105) w).2 =
      (run (setError "t1" "n1" 1536 msg) w1).2.
Proof.
  intros E w c.
  assert (wp (finish_provision demo_prov c radio_project pve_node "t1" "n1" "radio-one" 1536 105) (fun _ w' =>
    settled_active "t1" 105 (w_nodes w) w' \/
    exists msg w1, in_phase "t1" provisioning None (w_nodes w) w1 /\
      EvDeleteContainer (c_NodeID c) 105 ∈ w_trace w1 /\
      w' = (run (setError "t1" "n1" 1536 msg) w1).2) w)
    as [Hact|Hfail].
  { apply (@provision_cleans_up no_start demo_prov c radio_project pve_node "t1" "n1" "radio-one" 1536 105
      (radio_tenant provisioning None) w).
    - reflexivity.
    - split; reflexivity.
    - apply radio_tenants_ok. }
  - exfalso. destruct Hact as (_&_&t&Ht&Hst&_). vm_compute in Ht. injection Ht as <-. discriminate Hst.
  - exact Hfail.
Defined.

Lemma Deprovision_spec_witness :
  let E := calm in
  let w := radio_world suspended (Some 105) in
  let w' := (run (Deprovision demo_prov "t1" "n1" "radio-one" 105 1536) w).2 in
  has_status "t1" deleted w' /\ released "n1" 1536 pve_node (w_nodes w) (w_nodes w') /\
  exists node, EvDeleteContainer node 105 ∈ w_trace w'.
Proof.
  cbv zeta. set (w := radio_world suspended (Some 105)).
  pose proof (@Deprovision_spec calm demo_prov "t1" "n1" "radio-one" 105 1536 pve_node w
    (radio_tenants_ok _ _) radio_nodes_ok eq_refl eq_refl) as Hspec.
  unfold wp in Hspec.
  assert ((run (@Deprovision calm demo_prov "t1" "n1" "radio-one" 105 1536) w).1 = None) as E1 by (vm_compute; reflexivity).
  rewrite E1 in Hspec. destruct Hspec as (Hd & Hreq & [Hrel|[Hf _]]); [|by destruct (@up_not_faulty calm (fun _ => eq_refl) Hf)].
  split; [exact Hd|]. split; [exact Hrel|exact Hreq].
Defined.

Lemma waitForHealth_terminates_witness :
  let E := calm in
  wp (waitForHealth demo_prov "http://10.10.10.2:8080/api/health")
    (fun r w' => exists healthy polls, r = Some healthy /\ same_db empty_world w' /\
      Z.of_nat polls <= 60000 / 5000 + 1 /\
      w_trace w' = w_trace empty_world ++ repeat (EvHealthGet "http://10.10.10.2:8080/api/health") polls /\
      (healthy = true -> exists t, env_ext t (EvHealthGet "http://10.10.10.2:8080/api/health") = None /\
                                   env_http_status t = 200)) empty_world.
Proof.
  intros E. apply (@waitForHealth_terminates calm demo_prov "http://10.10.10.2:8080/api/health" empty_world).
  - intros a b Hab. simpl. lia.
  - reflexivity.
  - discriminate.
Defined.
