(* ===== verification/Lifecycle.v ===== *)
(** * internal/tenant/lifecycle.go: creating and deleting tenants

    The service the API, the user endpoints and the admin UI share. It drives
    the provisioner through the interface [ProvisionerOps]; its theorems use
    only the laws [ProvisionerLaws] of that interface, which
    internal/provisioner/provisioner.go is shown to satisfy in [System]. *)

From stdpp Require Import gmap strings list fin_maps.
From Stdlib Require Import ZArith Lia Ascii.
From S2P Require Import Prelude GoStrings World Tables TenantFSM StoreSafe.
From S2P Require NodeStore ProjectStore TenantStore AuditStore.

Open Scope Z_scope.

(** [tenant.Provisioner], which extends [LifecycleProvisioner]. *)
Class ProvisionerOps := {
  Provision : string -> string -> string -> string -> Z -> P unit;
  Deprovision : string -> string -> string -> Z -> Z -> P (option error);
  Suspend : string -> string -> Z -> P (option error);
  Resume : string -> string -> Z -> P (option error) }.

(** What the clients rely on: [Provision] only starts a goroutine, and no call
    leaves the state machine. *)
Class ProvisionerLaws `{ProvisionerOps} : Prop := {
  Provision_starts : forall tid nid pid sub ram w,
    run (Provision tid nid pid sub ram) w =
    (tt, set_jobs (w_jobs w ++ [mkJob tid nid pid sub ram]) w);
  keeps_Deprovision : forall tid nid sub lxc ram, keeps any (Deprovision tid nid sub lxc ram);
  keeps_Suspend : forall tid nid lxc, keeps any (Suspend tid nid lxc);
  keeps_Resume : forall tid nid lxc, keeps any (Resume tid nid lxc);
  keeps_Provision : forall tid nid pid sub ram, 0 <= ram -> keeps any (Provision tid nid pid sub ram) }.

(** ** Types *)

(** An [AuditLogger] value: a nil interface, or an interface holding a possibly
    nil [*audit.Store]. *)
Inductive AuditLogger := NilLogger | StoreLogger (nilPointer : bool).

Definition normalizeAuditLogger (a : AuditLogger) : AuditLogger :=
  match a with
  | NilLogger => NilLogger
  | StoreLogger true => NilLogger
  | StoreLogger false => StoreLogger false
  end.

Inductive FailureKind := FailureInternal | FailureInvalid | FailureConflict.

Record LifecycleError := mkLifecycleError {
  le_Kind : FailureKind; le_Message : string; le_Err : option error }.

Definition invalid (message : string) : LifecycleError := mkLifecycleError FailureInvalid message None.
Definition conflict (message : string) (err : option error) : LifecycleError :=
  mkLifecycleError FailureConflict message err.
Definition internal (message : string) (err : error) : LifecycleError :=
  mkLifecycleError FailureInternal message (Some err).

(** A Go pair of a value and a [*LifecycleError]. *)
Inductive lres (A : Type) := Done (a : A) | Failed (e : LifecycleError).
Arguments Done {A} a.
Arguments Failed {A} e.

(** [Actor.UserID], empty for admin and API actions. *)
Record Actor := mkActor { ac_UserID : string }.

Record CreateParams := mkParams {
  pr_Name : string; pr_Subdomain : string; pr_Project : Project; pr_Node : Node; pr_OwnerID : string }.

Record LifecycleService := mkService { ls_auditStore : AuditLogger }.

Definition NewLifecycleService (auditStore : AuditLogger) : LifecycleService :=
  mkService (normalizeAuditLogger auditStore).

(** ** Subdomains *)

Definition alnum (c : ascii) : bool := is_lower c || is_digit c.
Definition label_char (c : ascii) : bool := alnum c || Ascii.eqb c "-".

Fixpoint label_tail (s : string) : bool :=
  match s with
  | EmptyString => false
  | String c EmptyString => alnum c
  | String c s' => label_char c && label_tail s'
  end.

(** [subdomainRegexp]: [^[a-z0-9][a-z0-9-]*[a-z0-9]$]. *)
Definition subdomainRegexp (s : string) : bool :=
  match s with
  | EmptyString => false
  | String c s' => alnum c && label_tail s'
  end.

Definition reservedSubdomains : list string :=
  ["www"; "api"; "admin"; "app"; "mail"; "smtp"; "ftp"; "ns1"; "ns2"; "cdn"; "static"; "assets"; "media"].

Definition ValidateSubdomain (subdomain : string) : option LifecycleError :=
  if (63 <? len subdomain) || negb (subdomainRegexp subdomain) then
    Some (invalid "invalid subdomain: must be lowercase alphanumeric with hyphens, 2-63 chars")
  else if existsb (String.eqb subdomain) reservedSubdomains then Some (invalid "subdomain is reserved")
  else None.

Definition deletableStatuses (s : TenantStatus) : bool :=
  match s with active | errored | suspended => true | _ => false end.

Section Service.
Context `{Env} `{ProvisionerOps}.

Definition audit (s : LifecycleService) (action tenantID : string)
    (meta : option (list (string * string))) : P unit :=
  match ls_auditStore s with
  | StoreLogger false => AuditStore.Log action "tenant" tenantID meta
  | _ => Ret tt
  end.

(** The tenant store is an [OwnerCreator]. *)
Definition createRecord (req : TenantStore.CreateTenantRequest) (ownerID : string) : P (res Tenant) :=
  if is_empty ownerID then TenantStore.Create req else TenantStore.CreateWithOwner req ownerID.

Definition Create (s : LifecycleService) (params : CreateParams) (actor : Actor) : P (lres Tenant) :=
  match ValidateSubdomain (pr_Subdomain params) with
  | Some err => Ret (Failed err)
  | None =>
      if_err err := NodeStore.ReserveRAM (n_ID (pr_Node params)) (p_RAMMB (pr_Project params)) then
        Ret (Failed (if errors_Is err NodeStore.ErrInsufficientCapacity
                     then conflict "insufficient capacity on node" (Some err)
                     else internal "failed to reserve resources" err))
      else
      let req := TenantStore.mkCreateTenant (pr_Name params) (p_ID (pr_Project params))
                   (n_ID (pr_Node params)) (pr_Subdomain params) in
      let? t := createRecord req (pr_OwnerID params)
      catch err =>
        (let! _e := NodeStore.ReleaseRAM (n_ID (pr_Node params)) (p_RAMMB (pr_Project params)) in
         Ret (Failed (if is_pg_code err unique_violation
                      then conflict "name or subdomain already exists" (Some err)
                      else internal "failed to create tenant" err))) in
      Provision (t_ID t) (n_ID (pr_Node params)) (p_ID (pr_Project params)) (pr_Subdomain params)
        (p_RAMMB (pr_Project params)) ;;;
      audit s "create" (t_ID t)
        (Some ([("name", pr_Name params); ("subdomain", pr_Subdomain params)] ++
               (if is_empty (ac_UserID actor) then [] else [("user_id", ac_UserID actor)]))) ;;;
      Ret (Done t)
  end.

(** The two ways of removing the tenant: through the provisioner when it has a
    container, directly otherwise. *)
Definition remove (t : Tenant) (ramMB : Z) : P (option LifecycleError) :=
  match t_LXCID t with
  | Some lxcID =>
      if_err err := Deprovision (t_ID t) (t_NodeID t) (t_Subdomain t) lxcID ramMB then
        Ret (Some (if errors_Is err TenantStore.ErrStateConflict
                   then conflict "tenant is already being deleted" (Some err)
                   else internal "failed to deprovision tenant" err))
      else Ret None
  | None =>
      if_err err := TenantStore.SetDeleting (t_ID t) then
        Ret (Some (if errors_Is err TenantStore.ErrStateConflict
                   then conflict "tenant is already being deleted" (Some err)
                   else internal "failed to delete tenant" err))
      else
      (if 0 <? ramMB then let! _e := NodeStore.ReleaseRAM (t_NodeID t) ramMB in Ret tt else Ret tt) ;;;
      if_err err := TenantStore.SetDeleted (t_ID t) then
        Ret (Some (internal "failed to delete tenant" err))
      else Ret None
  end.

Definition Delete (s : LifecycleService) (t : Tenant) (actor : Actor) : P (lres (option Tenant)) :=
  if negb (deletableStatuses (t_Status t)) then
    Ret (Failed (conflict ("tenant cannot be deleted in current status: " +:+ status_string (t_Status t)) None))
  else
  let? proj := ProjectStore.GetByID (t_ProjectID t)
  catch err => Ret (Failed (internal "failed to get project" err)) in
  let ramMB := match proj with Some p => p_RAMMB p | None => 0 end in
  if_err err := remove t ramMB then Ret (Failed err) else
  audit s "delete" (t_ID t)
    (if is_empty (ac_UserID actor) then None else Some [("user_id", ac_UserID actor)]) ;;;
  let? updated := TenantStore.GetByID (t_ID t)
  catch err => Ret (Failed (internal "failed to get tenant" err)) in
  Ret (Done updated).

End Service.

(** ** Subdomains, declaratively *)

Lemma label_tail_spec s :
  label_tail s = true <->
  exists m b, s = m +:+ String b EmptyString /\ str_forallb label_char m = true /\ alnum b = true.
Proof.
  induction s as [|c s IH].
  - split; [done|]. by intros ([|] & b & ? & _).
  - destruct s as [|d s].
    + simpl. split.
      * intros Hc. by exists EmptyString, c.
      * intros ([|x [|y m]] & b & E & _ & Hb); [by injection E as <-|done..].
    + change (label_tail (String c (String d s))) with (label_char c && label_tail (String d s)).
      rewrite andb_true_iff, IH. split.
      * intros (Hc & m & b & -> & Hm & Hb). exists (String c m), b. simpl. by rewrite Hc, Hm.
      * intros ([|x m] & b & E & Hm & Hb); [done|]. simpl in Hm. apply andb_prop in Hm as [Hx Hm].
        change (String c (String d s) = String x (m +:+ String b EmptyString)) in E.
        injection E as -> E. split; [done|]. by exists m, b.
Qed.

(** A DNS label that is not reserved. *)
Definition valid_label (s : string) : Prop :=
  (exists a m b, s = String a (m +:+ String b EmptyString) /\
     alnum a = true /\ str_forallb label_char m = true /\ alnum b = true) /\
  len s <= 63 /\ s ∉ reservedSubdomains.

Lemma ValidateSubdomain_None s : ValidateSubdomain s = None <-> valid_label s.
Proof.
  unfold ValidateSubdomain.
  assert (subdomainRegexp s = true <-> exists a m b, s = String a (m +:+ String b EmptyString) /\
    alnum a = true /\ str_forallb label_char m = true /\ alnum b = true) as Hre.
  { destruct s as [|c s]; simpl.
    - split; [done|]. by intros (?&?&?&?&_).
    - rewrite andb_true_iff, label_tail_spec. split.
      + intros (Hc & m & b & -> & ? & ?). by exists c, m, b.
      + intros (a & m & b & [= -> ->] & ? & ? & ?). split; [done|]. by exists m, b. }
  assert (existsb (String.eqb s) reservedSubdomains = true <-> s ∈ reservedSubdomains) as Hres.
  { rewrite existsb_exists. split.
    - intros (x & Hx & ->%String.eqb_eq). by apply list_elem_of_In.
    - intros Hx. exists s. split; [by apply list_elem_of_In|apply String.eqb_refl]. }
  unfold valid_label. rewrite <- Hre.
  destruct (Z.ltb_spec 63 (len s)); cbn [orb].
  { split; [done|]. intros (_&?&_). lia. }
  destruct (subdomainRegexp s); cbn [negb]; [|by split; [|intros (?&_)]].
  destruct (existsb (String.eqb s) reservedSubdomains) eqn:E.
  + split; [done|]. intros (_&_&Hn). by destruct Hn; apply Hres.
  + split; [|done]. intros _. split; [done|]. split; [lia|]. intros Hin%Hres. congruence.
Qed.

Lemma ValidateSubdomain_kind s e : ValidateSubdomain s = Some e -> le_Kind e = FailureInvalid.
Proof.
  unfold ValidateSubdomain. destruct (_ || _); [by intros [= <-]|].
  destruct (existsb _ _); [by intros [= <-]|done].
Qed.

(** [ValidateSubdomain] accepts exactly the labels it describes: between 2
    and 63 characters, lowercase letters, digits and hyphens, a letter or digit
    at both ends, and not a reserved name; every refusal is a client error. *)
Theorem ValidateSubdomain_spec (s : string) :
  match ValidateSubdomain s with
  | None => valid_label s
  | Some e => ~ valid_label s /\ le_Kind e = FailureInvalid
  end.
Proof.
  destruct (ValidateSubdomain s) as [e|] eqn:E.
  - split; [|by eapply ValidateSubdomain_kind]. rewrite <- ValidateSubdomain_None. congruence.
  - by apply ValidateSubdomain_None.
Qed.

(** ** The service keeps the invariant *)

Section Safe.
Context `{Env} `{HL : ProvisionerLaws}.

Lemma keeps_audit s a id m : keeps any (audit s a id m).
Proof. unfold audit. destruct (ls_auditStore s) as [|[]]; eauto with safe. Qed.

Lemma keeps_createRecord req own : keeps any (createRecord req own).
Proof. unfold createRecord. destruct (is_empty own); eauto with safe. Qed.

Lemma keeps_Create s params actor :
  0 <= p_RAMMB (pr_Project params) -> keeps any (Create s params actor).
Proof.
  intros Hram. unfold Create. destruct (ValidateSubdomain _); [apply safe_any|].
  apply safe_bind_any; [by apply keeps_ReserveRAM|]. intros [e|]; [apply safe_any|]. cbv zeta.
  apply safe_bind_any; [apply keeps_createRecord|]. intros [t|e].
  - apply safe_bind_any; [by apply keeps_Provision|]. intros _.
    apply safe_bind_any; [apply keeps_audit|]. intros _. apply safe_any.
  - apply safe_bind_any; [by apply keeps_ReleaseRAM|]. intros _. apply safe_any.
Qed.

Lemma keeps_release_if nid ram :
  keeps any (if 0 <? ram then let! _e := NodeStore.ReleaseRAM nid ram in Ret tt else Ret tt).
Proof.
  destruct (Z.ltb_spec 0 ram); [|apply safe_any].
  apply safe_bind_any; [apply keeps_ReleaseRAM; lia|]. intros _. apply safe_any.
Qed.

Lemma keeps_remove t ram : keeps any (remove t ram).
Proof.
  unfold remove. destruct (t_LXCID t).
  - apply safe_bind_any; [apply keeps_Deprovision|]. intros []; apply safe_any.
  - apply safe_bind_any; [eauto with safe|]. intros [e|]; [apply safe_any|].
    apply safe_bind_any; [apply keeps_release_if|]. intros _.
    apply safe_bind_any; [eauto with safe|]. intros []; apply safe_any.
Qed.

Lemma keeps_Delete s t actor : keeps any (Delete s t actor).
Proof.
  unfold Delete. destruct (negb _); [apply safe_any|].
  apply safe_bind_any; [eauto with safe|]. intros [proj|e]; [|apply safe_any]. cbv zeta.
  apply safe_bind_any; [apply keeps_remove|]. intros [e|]; [apply safe_any|].
  apply safe_bind_any; [apply keeps_audit|]. intros _.
  apply safe_bind_any; [eauto with safe|]. intros []; apply safe_any.
Qed.

End Safe.

#[export] Hint Resolve keeps_audit keeps_Create keeps_Delete : safe.
