(* ===== verification/LifecycleSpec.v ===== *)
(** * What the life-cycle service achieves

    Outcomes of [Lifecycle.Create] and [Lifecycle.Delete] against a database
    that answers, and the accounting error of deleting a tenant whose
    provisioning failed. *)

From stdpp Require Import gmap strings list fin_maps.
From Stdlib Require Import ZArith Lia.
From S2P Require Import Prelude GoStrings World Tables NodeStore TenantFSM StoreSafe ProvisionerSpec Lifecycle.
From S2P Require ProjectStore TenantStore AuditStore.

Open Scope Z_scope.

Definition owner_of (ownerID : string) : option string :=
  if is_empty ownerID then None else Some ownerID.

(** The row [Create] adds. *)
Record new_tenant (params : CreateParams) (t : Tenant) : Prop := {
  nt_fresh : fresh t;
  nt_Name : t_Name t = pr_Name params;
  nt_Subdomain : t_Subdomain t = pr_Subdomain params;
  nt_ProjectID : t_ProjectID t = p_ID (pr_Project params);
  nt_NodeID : t_NodeID t = n_ID (pr_Node params);
  nt_OwnerID : t_OwnerID t = owner_of (pr_OwnerID params);
  nt_Tier : t_Tier t = "free" }.

Section Create.
Context `{Env} `{HL : ProvisionerLaws}.

Lemma wp_audit s a id m Q w :
  (forall w', AuditStore.same_but_audit w w' -> Q tt w') -> wp (audit s a id m) Q w.
Proof.
  intros HQ. unfold audit. destruct (ls_auditStore s) as [|[]];
    try (apply wp_ret, HQ; by repeat split). apply AuditStore.wp_Log. auto.
Qed.

(** Why an INSERT fails: a key is taken, or the statement failed. *)
Definition insert_refused (params : CreateParams) (w : World) (e : error) : Prop :=
  (is_pg_code e unique_violation = true /\ exists t, new_tenant params t /\
     (is_Some (w_tenants w !! t_ID t) \/ index_conflict (w_tenants w) t = true)) \/
  (is_pg_code e unique_violation = false /\ faulty).

(** The INSERT, when the references exist. *)
Lemma wp_createRecord params w :
  is_Some (w_projects w !! p_ID (pr_Project params)) -> is_Some (w_nodes w !! n_ID (pr_Node params)) ->
  wp (createRecord (TenantStore.mkCreateTenant (pr_Name params) (p_ID (pr_Project params))
        (n_ID (pr_Node params)) (pr_Subdomain params)) (pr_OwnerID params)) (fun r w' =>
    w_nodes w' = w_nodes w /\ w_jobs w' = w_jobs w /\
    match r with
    | Ok t => new_tenant params t /\ w_tenants w !! t_ID t = None /\
        w_tenants w' = <[t_ID t := t]> (w_tenants w)
    | Fail e => w_tenants w' = w_tenants w /\ insert_refused params w e
    end) w.
Proof.
  intros Hp Hn.
  assert (forall own, own = owner_of (pr_OwnerID params) ->
    wp (let? t := stmt (insert_tenant (pr_Name params) (p_ID (pr_Project params))
                    (n_ID (pr_Node params)) (pr_Subdomain params) own)
        catch e => Ret (Fail (EWrap "insert tenant" e)) in Ret (Ok t)) (fun r w' =>
      w_nodes w' = w_nodes w /\ w_jobs w' = w_jobs w /\
      match r with
      | Ok t => new_tenant params t /\ w_tenants w !! t_ID t = None /\
          w_tenants w' = <[t_ID t := t]> (w_tenants w)
      | Fail e => w_tenants w' = w_tenants w /\ insert_refused params w e
      end) w) as Hins.
  { intros own Hown. apply wp_bind, wp_stmt.
    { intros m Hf. apply wp_ret. split_and!; [done..|]. right. split; [done|]. by eexists; eexists. }
    intros _. set (w1 := set_tick (S (w_tick w)) w). unfold insert_tenant.
    set (t := mkTenant _ _ _ _ _ _ _ _ _ _ _ _ _ _ _ _ _ _).
    assert (new_tenant params t) as Hnew by by split.
    rewrite (bool_decide_eq_true_2 (is_Some (w_projects w1 !! _))) by done.
    rewrite (bool_decide_eq_true_2 (is_Some (w_nodes w1 !! _))) by done. cbn [negb andb].
    destruct (_ || _) eqn:E; cbn [fst snd]; apply wp_ret; (split; [done|split; [done|]]).
    - split; [done|]. left. split; [done|]. exists t. split; [done|].
      apply orb_prop in E as [E%bool_decide_eq_true|E]; [by left|by right].
    - apply orb_false_elim in E as [E%bool_decide_eq_false _].
      split; [done|]. split; [by apply eq_None_not_Some|done]. }
  unfold createRecord, TenantStore.Create, TenantStore.CreateWithOwner, owner_of in *.
  destruct (is_empty (pr_OwnerID params)) eqn:Eo; by apply Hins.
Qed.

(** Why a creation failed, from the kind it is reported with. *)
Definition create_failure (params : CreateParams) (n : Node) (w : World) (k : FailureKind) : Prop :=
  (k = FailureInvalid /\ ~ valid_label (pr_Subdomain params)) \/
  (k = FailureConflict /\ valid_label (pr_Subdomain params) /\
   (free_ram n < p_RAMMB (pr_Project params) \/
    exists t, new_tenant params t /\
      (is_Some (w_tenants w !! t_ID t) \/ index_conflict (w_tenants w) t = true))) \/
  (k = FailureInternal /\ valid_label (pr_Subdomain params) /\ faulty).

(** How a creation can end, from [w] with the node's row [n]. *)
Definition create_outcome (params : CreateParams) (n : Node) (w : World) (r : lres Tenant) (w' : World) : Prop :=
  let nid := n_ID (pr_Node params) in
  let ram := p_RAMMB (pr_Project params) in
  match r with
  | Done t =>
      valid_label (pr_Subdomain params) /\ new_tenant params t /\
      w_tenants w !! t_ID t = None /\ w_tenants w' = <[t_ID t := t]> (w_tenants w) /\
      (exists now, w_nodes w' = <[nid := with_allocated now (n_AllocatedRAMMB n + ram) n]> (w_nodes w)) /\
      w_jobs w' = w_jobs w ++ [mkJob (t_ID t) nid (p_ID (pr_Project params)) (pr_Subdomain params) ram]
  | Failed e =>
      w_tenants w' = w_tenants w /\ w_jobs w' = w_jobs w /\
      (w_nodes w' = w_nodes w \/ (exists now, w_nodes w' = <[nid := nset_updated now n]> (w_nodes w)) \/
       (faulty /\ exists now, w_nodes w' = <[nid := with_allocated now (n_AllocatedRAMMB n + ram) n]> (w_nodes w))) /\
      create_failure params n w (le_Kind e)
  end.

Lemma insert_refused_kind params n w e :
  valid_label (pr_Subdomain params) -> insert_refused params w e ->
  create_failure params n w (if is_pg_code e unique_violation then FailureConflict else FailureInternal).
Proof.
  intros Hv [[-> (t & ? & ?)]|[-> ?]]; [right; left|by right; right]. split_and!; [done|done|]. right. by exists t.
Qed.

(** Taking a reservation back. *)
Lemma wp_unreserve nid ram n now (N : gmap string Node) w :
  nodes_ok N -> N !! nid = Some n -> 0 <= ram -> in_int4 ram = true ->
  nodes_ok (w_nodes w) -> w_nodes w = <[nid := with_allocated now (n_AllocatedRAMMB n + ram) n]> N ->
  wp (NodeStore.ReleaseRAM nid ram) (fun _ w' =>
    w_tenants w' = w_tenants w /\ w_jobs w' = w_jobs w /\
    ((exists now, w_nodes w' = <[nid := nset_updated now n]> N) \/ (faulty /\ w_nodes w' = w_nodes w))) w.
Proof.
  intros HN Hn Hram Hint Hok Hw. unfold NodeStore.ReleaseRAM. rewrite Hint. cbn [negb]. apply wp_bind, wp_stmt.
  { intros m Hf. apply wp_ret. split_and!; [done|done|]. right. split; [by eexists; eexists|done]. }
  intros _. set (w1 := set_tick (S (w_tick w)) w).
  rewrite (release_ram_eq nid ram w1 (with_allocated now (n_AllocatedRAMMB n + ram) n));
    [|done|change (w_nodes w1) with (w_nodes w); rewrite Hw; apply lookup_insert_eq|done..].
  cbn [fst snd]. apply wp_ret. split_and!; [done|done|]. left. exists (env_now (w_tick w1)).
  simpl. rewrite Hw, insert_insert_eq. f_equal. destruct (proj1 HN _ _ Hn) as [_ [? _]].
  unfold with_allocated. destruct n. simpl in *. f_equal. lia.
Qed.

Lemma wp_Create (s : LifecycleService) (params : CreateParams) (actor : Actor) (n : Node) (w : World) :
  world_ok w -> w_nodes w !! n_ID (pr_Node params) = Some n ->
  w_projects w !! p_ID (pr_Project params) = Some (pr_Project params) ->
  in_int4 (p_RAMMB (pr_Project params)) = true ->
  wp (Create s params actor) (create_outcome params n w) w.
Proof.
  intros Hok Hn Hp Hint. unfold create_outcome.
  set (nid := n_ID (pr_Node params)). set (ram := p_RAMMB (pr_Project params)).
  destruct (ok_projects _ Hok _ _ Hp) as [_ Hram]. fold ram in Hram, Hint.
  unfold Create. destruct (ValidateSubdomain _) as [e|] eqn:Ev.
  { apply wp_ret. split_and!; [done|done|by left|]. left.
    split; [by eapply ValidateSubdomain_kind|]. rewrite <- ValidateSubdomain_None. congruence. }
  apply ValidateSubdomain_None in Ev. fold nid ram.
  unfold NodeStore.ReserveRAM. rewrite Hint. cbn [negb].
  apply wp_bind, wp_bind, wp_stmt.
  { intros m Hf. apply wp_ret, wp_ret. split_and!; [done|done|by left|]. right. right.
    split_and!; [done|done|by eexists; eexists]. }
  intros _.
  set (w1 := set_tick (S (w_tick w)) w).
  destruct (decide (ram <= free_ram n)) as [Hfit|Hfull].
  2: { rewrite reserve_ram_full; [|apply (ok_nodes _ Hok)|].
    - apply wp_ret, wp_ret. split_and!; [done|done|by left|]. right. left. split_and!; [done|done|]. left. lia.
    - intros n' Hn'. change (w_nodes w !! n_ID (pr_Node params) = Some n') in Hn'. assert (n' = n) as -> by congruence. lia. }
  rewrite (reserve_ram_fits nid ram w1 n); [|apply (ok_nodes _ Hok)|done|lia].
  set (n1 := with_allocated _ _ n). set (w2 := (_, set_nodes _ w1).2). cbn [fst snd]. apply wp_ret.
  cbv zeta. apply wp_bind. eapply wp_mono; [apply wp_createRecord|].
  { exists (pr_Project params). done. }
  { exists n1. apply lookup_insert_eq. }
  intros [t|e] w3 (Hn3 & Hj3 & Hres).
  - destruct Hres as (Hnew & Hfresh & Ht3). apply wp_bind. unfold wp at 1. rewrite Provision_starts. cbn [fst snd].
    apply wp_bind, wp_audit. intros w4 (Ht4 & Hn4 & _ & _ & Hj4 & _). apply wp_ret.
    split_and!; try done.
    + rewrite Ht4. simpl. by rewrite Ht3.
    + exists (env_now (w_tick w1)). rewrite Hn4. simpl. by rewrite Hn3.
    + rewrite Hj4. simpl. by rewrite Hj3.
  - destruct Hres as (Ht3 & Hex).
    pose proof (reserve_ram_ok nid ram w1 (ok_nodes _ Hok) Hram) as [Hok2 _].
    rewrite (reserve_ram_fits nid ram w1 n) in Hok2; [|apply (ok_nodes _ Hok)|done|lia].
    apply wp_bind. eapply wp_mono; [apply (wp_unreserve nid ram n (env_now (w_tick w1)) (w_nodes w))|];
      [apply Hok|done..|rewrite Hn3; exact Hok2|exact Hn3|].
    intros ? w4 (Ht4 & Hj4 & Hback). apply wp_ret. split_and!; [exact (eq_trans Ht4 Ht3)|exact (eq_trans Hj4 Hj3)| |].
    + destruct Hback as [Hback|[Hf ->]]; right; [by left|right]. split; [done|]. exists (env_now (w_tick w1)). exact Hn3.
    + pose proof (insert_refused_kind params n w e Ev Hex) as Hkind. by destruct (is_pg_code _ _).
Qed.


End Create.

Section Delete.
Context `{Env} `{HL : ProvisionerLaws} (Hup : forall t, env_fault t = None).

(** Removing a tenant that has no container. *)
Lemma wp_remove_direct t ram n w :
  tenants_ok (w_tenants w) -> nodes_ok (w_nodes w) ->
  w_tenants w !! t_ID t = Some t -> deletable (t_Status t) -> t_LXCID t = None ->
  w_nodes w !! t_NodeID t = Some n -> in_int4 ram = true ->
  wp (remove t ram) (fun r w' =>
    r = None /\ has_status (t_ID t) deleted w' /\
    released (t_NodeID t) ram n (w_nodes w) (w_nodes w')) w.
Proof.
  intros Hok Hnodes Ht Hd Hl Hn Hint. unfold remove. rewrite Hl.
  apply wp_bind. eapply wp_mono; [by apply wp_SetDeleting|].
  intros r w1 [(-> & t' & Ht' & _ & Hw1)|[(-> & Hnd & _)|(e & _ & _ & Hf & _)]];
    [|by destruct (Hnd t Ht)|by destruct (up_not_faulty Hup Hf)].
  assert (t' = t) as -> by congruence. rewrite Hl in Hw1.
  apply wp_bind. eapply wp_mono; [apply (wp_release (t_NodeID t) ram n (w_nodes w)); [done..|apply Hw1]|].
  intros ? w2 ([Hrel|[Hf _]] & Ht2 & _); [|by destruct (up_not_faulty Hup Hf)]. apply wp_bind.
  eapply wp_mono; [apply (wp_SetDeleted (t_ID t) None (w_nodes w2))|].
  { destruct Hw1 as (_ & Hok1 & Hex). split; [done|]. by rewrite Ht2. }
  intros [e|] w3 (Hn3 & _ & Hdel); [by destruct (up_not_faulty Hup (proj1 Hdel))|].
  apply wp_ret. split; [done|]. split; [done|]. by rewrite Hn3.
Qed.

(** From the removal to the response. *)
Lemma wp_Delete s t actor proj w Q :
  deletableStatuses (t_Status t) = true ->
  w_projects w !! t_ProjectID t = proj ->
  (forall w1, unchanged w w1 ->
     wp (remove t (match proj with Some p => p_RAMMB p | None => 0 end)) (fun r w2 =>
       match r with
       | Some e => Q (Failed e) w2
       | None => forall w3, w_tenants w3 = w_tenants w2 -> w_nodes w3 = w_nodes w2 ->
           Q (Done (w_tenants w2 !! t_ID t)) w3
       end) w1) ->
  wp (Delete s t actor) Q w.
Proof.
  intros Hd Hp Hrem. unfold Delete. rewrite Hd. cbn [negb].
  apply wp_bind. unfold ProjectStore.GetByID. apply wp_bind, wp_query.
  { intros m w1 _ Hf. by rewrite Hup in Hf. }
  intros w1 Hun _. apply wp_ret. destruct Hun as [(E1&E2&E3&E4) E5]. rewrite E3, Hp.
  apply wp_bind. eapply wp_mono; [by apply Hrem|]. intros [e|] w2 HQ; [by apply wp_ret|].
  apply wp_bind, wp_audit. intros w3 (Ht3 & Hn3 & _). apply wp_bind.
  unfold TenantStore.GetByID. apply wp_bind, wp_query; [intros m w4 _ Hf; by rewrite Hup in Hf|].
  intros w4 [(F1&F2&_) _] _. apply wp_ret, wp_ret. rewrite F1, Ht3. apply HQ; congruence.
Qed.

(** Deleting a tenant whose provisioning failed releases its RAM a second
    time. The failed job has already given the reservation back ([failed]);
    deleting the errored tenant, which has no container, subtracts the
    project's RAM from the node's account again. Whatever other tenants the
    node carries, its account ends up one reservation below what they hold,
    floored at zero. *)
Theorem failed_then_deleted_releases_twice (s : LifecycleService) (actor : Actor) (t : Tenant)
    (p : Project) (n : Node) (N : gmap string Node) (w : World)
  (Hfailed : failed (t_ID t) (t_NodeID t) (p_RAMMB p) n N w)
  (Ht : w_tenants w !! t_ID t = Some t) (Hok : world_ok w)
  (Hp : w_projects w !! t_ProjectID t = Some p)
  (Hn : N !! t_NodeID t = Some n) (Hram : 0 < p_RAMMB p) (Hint : in_int4 (p_RAMMB p) = true) :
  wp (Delete s t actor) (fun r w' =>
    (exists t', r = Done (Some t') /\ t_Status t' = deleted) /\
    option_map n_AllocatedRAMMB (w_nodes w' !! t_NodeID t) =
      Some (Z.max (Z.max (n_AllocatedRAMMB n - p_RAMMB p) 0 - p_RAMMB p) 0)) w.
Proof.
  destruct Hfailed as [(t0 & Ht0 & Hst & _ & Hl) [[_ [now HN]]|[? _]]]; [|lia].
  assert (t0 = t) as -> by congruence.
  apply (wp_Delete _ _ _ (Some p)); [by rewrite Hst|done|]. intros w1 [(E1&E2&_) _].
  set (n1 := with_allocated now (Z.max (n_AllocatedRAMMB n - p_RAMMB p) 0) n) in *.
  assert (w_nodes w1 !! t_NodeID t = Some n1) as Hn1 by (rewrite E2, HN; apply lookup_insert_eq).
  eapply wp_mono.
  { apply (wp_remove_direct t (p_RAMMB p) n1); try done.
    - rewrite E1. apply Hok.
    - rewrite E2. apply Hok.
    - by rewrite E1.
    - unfold deletable. auto. }
  intros r w2 (-> & (t' & Ht' & Hdel) & Hrel) w3 E3 E4. split.
  - exists t'. by rewrite Ht'.
  - destruct Hrel as [[_ [now' Hrel]]|[? _]]; [|lia]. rewrite E4, Hrel, lookup_insert_eq. simpl.
    unfold n1. by destruct n.
Qed.

End Delete.
