(* ===== verification/Tiers.v ===== *)
(** * internal/billing/tiers.go: the limits of each plan *)

From stdpp Require Import strings list.
From Stdlib Require Import ZArith Lia.
From S2P Require Import Prelude GoStrings.

Open Scope Z_scope.

Record TierLimits := mkLimits {
  MaxStations : Z; MaxTenants : Z; MaxPlatforms : Z; MaxQuality : string; Watermark : bool;
  DSP : bool; CustomOverlays : bool; Analytics : string; Storage : string }.

Definition TierFree : string := "free".
Definition TierStarter : string := "starter".
Definition TierPro : string := "pro".
Definition TierStudio : string := "studio".

Definition ValidTiers : list string := [TierFree; TierStarter; TierPro; TierStudio].

Definition freeLimits : TierLimits := mkLimits 1 1 1 "720p" true false false "basic" "unlimited".

(** The map as its list of entries. *)
Definition tierLimits : list (string * TierLimits) :=
  [(TierFree, freeLimits);
   (TierStarter, mkLimits 1 1 1 "720p" false false false "basic" "unlimited");
   (TierPro, mkLimits 1 2 3 "1080p" false true true "full" "unlimited");
   (TierStudio, mkLimits 3 3 3 "4k" false true true "full" "unlimited")].

Definition lookup_tier (tier : string) : option TierLimits :=
  option_map snd (List.find (fun kv => String.eqb (fst kv) tier) tierLimits).

Definition GetLimits (tier : string) : TierLimits :=
  match lookup_tier tier with
  | Some l => l
  | None => freeLimits
  end.

Definition IsValidTier (tier : string) : bool := existsb (String.eqb tier) ValidTiers.

Definition IsPaidTier (tier : string) : bool := negb (String.eqb tier TierFree) && IsValidTier tier.

(** ** Lemmas *)

Lemma GetLimits_cases tier :
  GetLimits tier = freeLimits \/ exists kv, kv ∈ tierLimits /\ GetLimits tier = kv.2.
Proof.
  unfold GetLimits, lookup_tier. destruct (List.find _ _) as [kv|] eqn:E; [|by left].
  apply List.find_some in E as [Hin _]. right. exists kv. split; [by apply list_elem_of_In|done].
Qed.

Lemma MaxTenants_range tier : 1 <= MaxTenants (GetLimits tier) <= 3.
Proof.
  destruct (GetLimits_cases tier) as [->|(kv & Hin & ->)]; [simpl; lia|].
  unfold tierLimits in Hin. rewrite !elem_of_cons, elem_of_nil in Hin.
  destruct Hin as [->|[->|[->|[->|[]]]]]; simpl; lia.
Qed.

Lemma MaxStations_range tier : 1 <= MaxStations (GetLimits tier) <= 3.
Proof.
  destruct (GetLimits_cases tier) as [->|(kv & Hin & ->)]; [simpl; lia|].
  unfold tierLimits in Hin. rewrite !elem_of_cons, elem_of_nil in Hin.
  destruct Hin as [->|[->|[->|[->|[]]]]]; simpl; lia.
Qed.
