(* ===== verification/StationHandler.v ===== *)
(** * internal/station/handler.go: the stations endpoints

    Public search and listing, live data from the poller's cache, and the
    administration of stations with the limits of the tenant's plan. The
    poller and the tenant provider are wired as internal/server/server.go
    wires them. *)

From stdpp Require Import gmap strings list fin_maps.
From Stdlib Require Import ZArith Lia.
From S2P Require Import Prelude GoStrings World Response Tables StationStore Tiers.
From S2P Require AuditStore TenantStore NodeStore Lifecycle StationPoller.

Open Scope Z_scope.

(** Which of its optional parts the handler has. *)
Record Handler := mkStationHandler { sh_auditStore : bool; sh_poller : bool; sh_tenantProvider : bool }.

Definition listenersScanLimit : Z := 1000.

(** The window [offset, offset+limit) of a slice. *)
Definition pageOf {T} (items : list T) (offset limit : Z) : list T :=
  let n := Z.of_nat (length items) in
  if n <=? offset then []
  else
    let end_ := wrap64 (offset + limit) in
    let end_ := if n <? end_ then n else end_ in
    take (Z.to_nat (end_ - offset)) (drop (Z.to_nat offset) items).

(** [slugRegexp] is the expression of subdomains. *)
Definition slugRegexp : string -> bool := Lifecycle.subdomainRegexp.

Definition validSlug (s : string) : bool := (2 <=? len s) && (len s <=? 63) && slugRegexp s.

(** [sort.SliceStable] by descending listener count: each station goes before
    the first that has fewer listeners. *)
Fixpoint insert_ranked (x : Station) (l : list Station) : list Station :=
  match l with
  | [] => [x]
  | y :: l' => if st_ListenersCount x >=? st_ListenersCount y then x :: l else y :: insert_ranked x l'
  end.

Definition rank (l : list Station) : list Station := foldr insert_ranked [] l.

Section Handler.
Context `{Env} (h : Handler).

Definition audit_log (action id : string) (details : option (list (string * string))) : P unit :=
  if sh_auditStore h then AuditStore.Log action "station" id details else Ret tt.

(** [stationTenantProviderAdapter.GetTier]. *)
Definition GetTier (tenantID : string) : P (res string) :=
  let? t := TenantStore.GetByID tenantID catch e => Ret (Fail e) in
  match t with
  | None => Ret (Fail (errorString ("tenant " +:+ tenantID +:+ " not found")))
  | Some t => Ret (Ok (if is_empty (t_Tier t) then "free" else t_Tier t))
  end.

Definition with_status (st : Station) (s : option StationStatus) : Station :=
  match s with
  | Some s => mkStation (st_Row st) (ss_ListenersCount s) (ss_NowPlaying s) (ss_BPM s)
  | None => st
  end.

(** Live data of one station, when there is a poller and a tenant. *)
Definition enrich (st : Station) : P Station :=
  if sh_poller h then
    match sr_TenantID (st_Row st) with
    | Some t => let! s := StationPoller.GetStatus t in Ret (with_status st s)
    | None => Ret st
    end
  else Ret st.

Fixpoint enrich_all (l : list Station) : P (list Station) :=
  match l with
  | [] => Ret []
  | st :: l => let! st := enrich st in let! l := enrich_all l in Ret (st :: l)
  end.

Definition list_params (q : string -> string) : ListPublicParams :=
  let lp := ParseListParams q in
  mkListPublic (q "q") (q "genre") (q "sort") (lp_Limit lp) (lp_Offset lp).

Definition List (q : string -> string) : P HTTPResponse :=
  let params := list_params q in
  let byListeners := String.eqb (pp_Sort params) "listeners" in
  let scan := if byListeners
              then mkListPublic (pp_Query params) (pp_Genre params) (pp_Sort params) listenersScanLimit 0
              else params in
  let? r := ListPublic scan catch _e => Ret (Error StatusInternalServerError "failed to list stations") in
  let! items := enrich_all r.1 in
  let '(pageable, items) :=
    if byListeners
    then (Z.of_nat (length items), pageOf (rank items) (pp_Offset params) (pp_Limit params))
    else (r.2, items) in
  Ret (JSON StatusOK (BStations (mkListResult items r.2 (pp_Limit params) (pp_Offset params)
         (wrap64 (pp_Offset params + pp_Limit params) <? pageable)))).

Definition Genres : P HTTPResponse :=
  let? gs := ListGenres catch _e => Ret (Error StatusInternalServerError "failed to list genres") in
  Ret (JSON StatusOK (BJson (JArray (map JString gs)))).

Definition GetBySlug (slug : string) : P HTTPResponse :=
  if negb (validSlug slug) then Ret (Error StatusBadRequest "invalid slug format") else
  let? st := StationStore.GetBySlug slug
  catch _e => Ret (Error StatusInternalServerError "failed to get station") in
  match st with
  | None => Ret (Error StatusNotFound "station not found")
  | Some st => let! st := enrich st in Ret (JSON StatusOK (BStation st))
  end.

Definition valid_ref (id : option string) : bool := match id with Some id => ValidUUID id | None => true end.

(** The limit of the tenant's plan; [None] admits the station. *)
Definition check_limit (tenantID : option string) : P (option HTTPResponse) :=
  if sh_tenantProvider h then
    match tenantID with
    | None => Ret (Some (Error StatusBadRequest "tenant_id is required"))
    | Some t =>
        let? tier := GetTier t
        catch _e => Ret (Some (Error StatusInternalServerError "failed to check tier limits")) in
        let limits := GetLimits tier in
        let? count := CountByTenantID t
        catch _e => Ret (Some (Error StatusInternalServerError "failed to check station count")) in
        if MaxStations limits <=? count then
          Ret (Some (Error StatusForbidden
            ("station limit reached for tier " +:+ tier +:+ " (max " +:+ itoa (MaxStations limits) +:+ ")")))
        else Ret None
    end
  else Ret None.

Definition create_station (req : CreateStationRequest) : P HTTPResponse :=
  let? st := StationStore.Create req
  catch e => (if is_pg_code e unique_violation
              then Ret (Error StatusConflict "slug already exists")
              else Ret (Error StatusInternalServerError "failed to create station")) in
  audit_log "create" (sr_ID (st_Row st))
    (Some [("name", sr_Name (st_Row st)); ("slug", sr_Slug (st_Row st))]) ;;;
  Ret (JSON StatusCreated (BStation st)).

Definition Create (body : option CreateStationRequest) : P HTTPResponse :=
  match body with
  | None => Ret (Error StatusBadRequest "invalid request body")
  | Some req =>
      if is_empty (cs_Name req) || is_empty (cs_Slug req) then
        Ret (Error StatusBadRequest "name and slug are required")
      else if negb (validSlug (cs_Slug req)) then
        Ret (Error StatusBadRequest "invalid slug: must be lowercase alphanumeric with hyphens, 2-63 chars")
      else if negb (valid_ref (cs_TenantID req)) then
        Ret (Error StatusBadRequest "invalid tenant_id format")
      else if negb (valid_ref (cs_OwnerID req)) then
        Ret (Error StatusBadRequest "invalid owner_id format")
      else
        let! refused := check_limit (cs_TenantID req) in
        match refused with
        | Some resp => Ret resp
        | None => create_station req
        end
  end.

Definition Update (id : string) (body : option UpdateStationRequest) : P HTTPResponse :=
  if negb (ValidUUID id) then Ret (Error StatusBadRequest "invalid station ID format") else
  match body with
  | None => Ret (Error StatusBadRequest "invalid request body")
  | Some req =>
      if match us_Slug req with Some s => negb (validSlug s) | None => false end then
        Ret (Error StatusBadRequest "invalid slug: must be lowercase alphanumeric with hyphens, 2-63 chars")
      else
        let? st := StationStore.Update id req
        catch e => (if errors_Is e ErrNoUpdate then Ret (Error StatusBadRequest "no fields to update")
                    else if is_pg_code e unique_violation
                    then Ret (Error StatusConflict "slug already exists")
                    else Ret (Error StatusInternalServerError "failed to update station")) in
        match st with
        | None => Ret (Error StatusNotFound "station not found")
        | Some st =>
            audit_log "update" (sr_ID (st_Row st)) None ;;;
            Ret (JSON StatusOK (BStation st))
        end
  end.

Definition Delete (id : string) : P HTTPResponse :=
  if negb (ValidUUID id) then Ret (Error StatusBadRequest "invalid station ID format") else
  let! e := StationStore.Delete id in
  match e with
  | Some e =>
      if errors_Is e NodeStore.ErrNoRows then Ret (Error StatusNotFound "station not found")
      else Ret (Error StatusInternalServerError "failed to delete station")
  | None =>
      audit_log "delete" id None ;;;
      Ret (mkResponse StatusNoContent BEmpty [])
  end.

End Handler.
