(* ===== verification/StationSpec.v ===== *)
(** * What the stations package achieves

    Searching matches the term literally; ranking by listeners is a stable
    descending order whose pages partition it; a plan's station limit holds;
    the station of a new tenant is created once; the poller talks to the
    tenants' network only and its results agree with the table. *)

From stdpp Require Import gmap strings list fin_maps sorting.
From Stdlib Require Import Ascii ZArith Lia.
From S2P Require Import Prelude GoStrings NetIP World Response Tables StationStore Tiers.
From S2P Require AuditStore TenantStore NodeStore StationPoller StationHandler.

Open Scope Z_scope.

(** ** Searching *)

Lemma like_percent_step p s :
  like (String "%" p) s =
  (at_char s && like p s) || match s with String _ s' => like (String "%" p) s' | EmptyString => false end.
Proof. by destruct s. Qed.

Lemma like_percent p s :
  like (String "%" p) s = true <-> exists a b, s = a +:+ b /\ at_char b = true /\ like p b = true.
Proof.
  induction s as [|c s IH]; rewrite like_percent_step, orb_true_iff, andb_true_iff.
  - split; [intros [[H1 H2]|]; [by exists EmptyString, EmptyString|done]|].
    intros ([|] & [|] & E & H1 & H2); try done. by left.
  - rewrite IH. split.
    + intros [[H1 H2]|(a & b & -> & H1 & H2)]; [by exists EmptyString, (String c s)|by exists (String c a), b].
    + intros ([|c' a] & b & E & H1 & H2); [left; change (EmptyString +:+ b) with b in E; by rewrite E|right].
      injection E as -> ->. by exists a, b.
Qed.

Lemma like_all s : like "%" s = true.
Proof.
  apply like_percent. exists s, EmptyString.
  split; [by rewrite app_nil_str|done].
Qed.

(** An escaped text matches itself. *)
Lemma like_escape q p s :
  like (likeEscape q +:+ p) s = match trim_prefix_opt q s with Some r => like p r | None => false end.
Proof.
  revert s. induction q as [|c q IH]; intros s; [done|]. cbn [likeEscape].
  assert (forall s, match s with String e s' => Ascii.eqb c e && like (likeEscape q +:+ p) s' | EmptyString => false end =
    match trim_prefix_opt (String c q) s with Some r => like p r | None => false end) as Hstep.
  { intros [|e s']; [done|]. simpl. rewrite IH. by destruct (Ascii.eqb c e). }
  destruct (is_meta c) eqn:Em; rewrite <- Hstep; [done|]. unfold is_meta in Em.
  apply orb_false_elim in Em as [[E1 E2]%orb_false_elim E3]. rewrite app_cons. cbn [like]. by rewrite E1, E2, E3.
Qed.

(** Text that begins with a whole character, as UTF-8 does. *)
Definition well_started (q : string) : Prop := q <> EmptyString /\ at_char q = true.

Lemma at_char_app q b : well_started q -> at_char (q +:+ b) = true.
Proof. destruct q; [by intros []|]. by intros [_ ?]. Qed.

Lemma likePattern_contains q s : well_started q -> like (likePattern q) s = contains q s.
Proof.
  intros Hq. apply eq_true_iff_eq. unfold likePattern. change ("%" +:+ likeEscape q +:+ "%") with (String "%" (likeEscape q +:+ "%")).
  rewrite like_percent, contains_iff. split.
  - intros (a & b & -> & _ & Hl). rewrite like_escape in Hl.
    destruct (trim_prefix_opt q b) as [r|] eqn:E; [|done]. apply trim_prefix_opt_iff in E as ->. by exists a, r.
  - intros (a & b & ->). exists a, (q +:+ b). split; [done|]. split; [by apply at_char_app|].
    rewrite like_escape. rewrite (proj2 (trim_prefix_opt_iff q (q +:+ b) b) eq_refl). apply like_all.
Qed.

(** What lower() does to text: it works through it from left to right, maps
    whole characters to whole characters, and leaves punctuation alone. *)
Class TextLaws `{Env} : Prop := {
  lower_empty : env_lower EmptyString = EmptyString;
  lower_meta : forall a c b, is_meta c = true ->
    env_lower (a +:+ String c b) = env_lower a +:+ String c (env_lower b);
  lower_letters : forall s, str_forallb (fun c => negb (is_meta c)) s = true ->
    str_forallb (fun c => negb (is_meta c)) (env_lower s) = true;
  lower_started : forall s, well_started s -> well_started (env_lower s) }.

Lemma likeEscape_app a b : likeEscape (a +:+ b) = likeEscape a +:+ likeEscape b.
Proof. induction a as [|c a IH]; [done|]. simpl. rewrite IH. by destruct (is_meta c). Qed.

Lemma likeEscape_plain s : str_forallb (fun c => negb (is_meta c)) s = true -> likeEscape s = s.
Proof.
  induction s as [|c s IH]; [done|]. simpl. intros [Hc Hs]%andb_prop. apply negb_true_iff in Hc.
  by rewrite Hc, IH.
Qed.

(** The first character LIKE treats specially, if any. *)
Lemma split_meta s :
  str_forallb (fun c => negb (is_meta c)) s = true \/
  exists a c b, s = a +:+ String c b /\ is_meta c = true /\
    str_forallb (fun c => negb (is_meta c)) a = true /\ (String.length b < String.length s)%nat.
Proof.
  induction s as [|c s IH]; [by left|]. destruct (is_meta c) eqn:Ec.
  - right. exists EmptyString, c, s. split_and!; try done. simpl. lia.
  - destruct IH as [IH|(a & d & b & -> & Hd & Ha & Hl)]; [left; simpl; by rewrite Ec|].
    right. exists (String c a), d, b. split_and!; try done; [simpl; by rewrite Ec|].
    change (String.length b < S (String.length (a +:+ String d b)))%nat. lia.
Qed.

Section Text.
Context `{TL : TextLaws}.

Lemma lower_escape q : env_lower (likeEscape q) = likeEscape (env_lower q).
Proof.
  remember (String.length q) as n eqn:Hn. revert q Hn. induction (lt_wf n) as [n _ IH]. intros q ->.
  destruct (split_meta q) as [Hp|(a & c & b & -> & Hc & Ha & Hl)].
  - by rewrite likeEscape_plain, likeEscape_plain by (try apply lower_letters; done).
  - rewrite likeEscape_app, (likeEscape_plain a Ha). simpl likeEscape. rewrite Hc.
    rewrite lower_meta by done. change (String c (likeEscape b)) with (EmptyString +:+ String c (likeEscape b)).
    rewrite !lower_meta by done. rewrite lower_empty, likeEscape_app, (likeEscape_plain (env_lower a)) by by apply lower_letters.
    simpl. rewrite Hc. by rewrite (IH _ Hl b eq_refl).
Qed.

Lemma lower_pattern q : env_lower (likePattern q) = likePattern (env_lower q).
Proof.
  unfold likePattern. change ("%" +:+ likeEscape q +:+ "%") with (EmptyString +:+ String "%" (likeEscape q +:+ String "%" EmptyString)).
  rewrite !lower_meta by done. by rewrite lower_empty, lower_escape.
Qed.

(** [s] occurs in [t], in any case. *)
Definition occurs (s t : string) : Prop := exists a b, env_lower t = a +:+ env_lower s +:+ b.

Lemma ilike_occurs q s : well_started q -> ilike (likePattern q) s = true <-> occurs q s.
Proof.
  intros Hq. unfold ilike. rewrite lower_pattern, likePattern_contains by by apply lower_started.
  apply contains_iff.
Qed.

(** A search term means itself. Whatever characters it has, percent signs,
    underscores and backslashes included, the public listing selects exactly
    the public stations that have the term, in any case, in their name, genre
    or description, and the requested genre if one is given. *)
Theorem search_literal (p : ListPublicParams) (r : StationRow)
  (Hq : pp_Query p = EmptyString \/ well_started (pp_Query p)) :
  where_public p r = true <->
  sr_IsPublic r = true /\
  (pp_Query p <> EmptyString ->
     occurs (pp_Query p) (sr_Name r) \/ occurs (pp_Query p) (sr_Genre r) \/ occurs (pp_Query p) (sr_Description r)) /\
  (pp_Genre p <> EmptyString -> sr_Genre r = pp_Genre p).
Proof.
  unfold where_public. cbv zeta. rewrite !andb_true_iff, !orb_true_iff, !is_empty_true, String.eqb_eq.
  destruct Hq as [Hq|Hq].
  - rewrite Hq. destruct (decide (pp_Genre p = EmptyString)); naive_solver.
  - rewrite !ilike_occurs by done. destruct Hq as [Hne _].
    destruct (decide (pp_Genre p = EmptyString)); naive_solver.
Qed.

End Text.

(** ** Ranking by listeners *)

Import StationHandler(insert_ranked, rank, pageOf, enrich, enrich_all, with_status, list_params, sh_poller, sh_tenantProvider).

Definition listeners_ge (a b : Station) : Prop := st_ListenersCount b <= st_ListenersCount a.

Lemma insert_ranked_perm x l : insert_ranked x l ≡ₚ x :: l.
Proof.
  induction l as [|y l IH]; simpl; [done|]. destruct (_ >=? _); [done|]. rewrite IH. by constructor.
Qed.

Lemma rank_perm l : rank l ≡ₚ l.
Proof. induction l as [|x l IH]; [done|]. simpl. by rewrite insert_ranked_perm, IH. Qed.

Lemma rank_sorted l : StronglySorted listeners_ge (rank l).
Proof.
  induction l as [|x l IH]; [constructor|]. simpl. induction IH as [|y l' Hs IH' Hy]; simpl.
  - by repeat constructor.
  - rewrite Z.geb_leb. destruct (Z.leb_spec (st_ListenersCount y) (st_ListenersCount x)).
    + constructor; [by constructor|]. constructor; [done|]. eapply Forall_impl; [done|].
      unfold listeners_ge. intros; simpl in *; lia.
    + constructor; [done|]. rewrite insert_ranked_perm. constructor; [|done]. unfold listeners_ge. lia.
Qed.

(** Stations with as many listeners keep the order they came in. *)
Definition with_count (k : Z) (l : list Station) : list Station :=
  List.filter (fun s => st_ListenersCount s =? k) l.

Lemma rank_stable k l : with_count k (rank l) = with_count k l.
Proof.
  induction l as [|x l IH]; [done|]. unfold with_count in *. simpl. rewrite <- IH. clear IH.
  pose proof (rank_sorted l) as Hs. induction Hs as [|y l' Hs IH Hy]; [done|]. simpl.
  rewrite Z.geb_leb. destruct (Z.leb_spec (st_ListenersCount y) (st_ListenersCount x)); [done|].
  simpl. rewrite IH. destruct (Z.eqb_spec (st_ListenersCount x) k); [|done].
  destruct (Z.eqb_spec (st_ListenersCount y) k); [lia|done].
Qed.

Lemma pageOf_page {T} (items : list T) offset limit :
  0 <= offset -> 0 <= limit -> Z.of_nat (length items) + limit <= max_int64 ->
  pageOf items offset limit = page limit offset items.
Proof.
  intros Ho Hl Hb. unfold pageOf, page. destruct (Z.leb_spec (Z.of_nat (length items)) offset).
  { by rewrite drop_ge, take_nil by lia. }
  rewrite wrap64_id by (unfold in_int64, min_int64, max_int64 in *; lia).
  destruct (Z.ltb_spec (Z.of_nat (length items)) (offset + limit)).
  - rewrite !take_ge; [done|rewrite length_drop; lia..].
  - f_equal. lia.
Qed.

Section Listing.
Context `{Env} (h : StationHandler.Handler).

(** A station with what the cache holds about its tenant. *)
Definition enriched (w : World) (s : Station) : Station :=
  match sr_TenantID (st_Row s) with
  | Some t => with_status s (StationPoller.cache w !! t)
  | None => s
  end.

Lemma run_enrich_all l w :
  sh_poller h = true -> run (enrich_all h l) w = (map (enriched w) l, w).
Proof.
  intros Hp. induction l as [|s l IH]; [done|]. cbn [enrich_all]. rewrite run_bind.
  assert (run (enrich h s) w = (enriched w s, w)) as ->.
  { unfold enrich, enriched. rewrite Hp. by destruct (sr_TenantID (st_Row s)). }
  cbn [fst snd]. rewrite run_bind, IH. done.
Qed.

(** Listing by listeners gives the top of one ranking. On a database that
    answers, a listing with sort=listeners takes the first 1000 matching
    stations by name, puts the live data of the poller on them, orders them by
    descending listener count with ties in the order by name, and returns the
    requested window of that ranking, so that successive pages continue each
    other. [has_more] says whether the next window holds stations, except that
    an offset within [limit] of the largest integer always reports more. *)
Theorem List_by_listeners (q : string -> string) (w : World)
  (Hup : forall t, env_fault t = None) (Hp : sh_poller h = true) (Hs : q "sort" = "listeners") :
  let p := list_params q in
  wp (StationHandler.List h q) (fun r w' => unchanged w w' /\ exists ranked more,
    r = JSON StatusOK (BStations (mkListResult (page (pp_Limit p) (pp_Offset p) ranked)
          (Z.of_nat (length (select (where_public p) (stations w)))) (pp_Limit p) (pp_Offset p) more)) /\
    ranked ≡ₚ map (enriched w) (map scanStation (page 1000 0 (matching p w))) /\
    StronglySorted listeners_ge ranked /\
    (forall k, with_count k ranked = with_count k (map (enriched w) (map scanStation (page 1000 0 (matching p w))))) /\
    (more = true <-> page (pp_Limit p) (pp_Offset p + pp_Limit p) ranked <> [] \/
                     max_int64 < pp_Offset p + pp_Limit p)) w.
Proof.
  intros p. destruct (ParseListParams_range q) as [Hl Ho]. unfold MaxLimit in Hl.
  change (1 <= pp_Limit p <= 200) in Hl. change (0 <= pp_Offset p <= max_int64) in Ho.
  unfold StationHandler.List. fold p. change (pp_Sort p) with (q "sort"). rewrite Hs. cbn [String.eqb Ascii.eqb Bool.eqb].
  apply wp_bind. unfold ListPublic. apply wp_bind, wp_query; [intros m w1 _ Hf; by rewrite Hup in Hf|].
  intros w1 H1 _. apply wp_bind, wp_query; [intros m w2 _ Hf; by rewrite Hup in Hf|]. intros w2 H2 _. apply wp_ret.
  apply wp_bind. unfold wp at 1. rewrite run_enrich_all by done. cbn [fst snd].
  set (l := map (enriched w2) _). apply wp_ret. assert (unchanged w w2) as H02 by by etrans.
  split; [done|]. assert (w_radio w2 = w_radio w) as R2 by apply H02. assert (w_radio w1 = w_radio w) as R1 by apply H1.
  assert (length l <= 1000)%nat as Hlen.
  { unfold l. rewrite !length_map. unfold page. rewrite length_take. cbn [pp_Limit]. unfold StationHandler.listenersScanLimit. lia. }
  assert (l = map (enriched w) (map scanStation (page 1000 0 (matching p w)))) as El.
  { assert (pp_Sort p = "listeners") as Es by exact Hs.
    unfold l, enriched, StationPoller.cache, matching, order_public, stations. rewrite Es. by rewrite R2. }
  exists (rank l). eexists. split_and!.
  - rewrite pageOf_page by (try rewrite (rank_perm l); unfold max_int64; lia). unfold stations. by rewrite R1.
  - rewrite rank_perm. by rewrite El.
  - apply rank_sorted.
  - intros k. by rewrite rank_stable, El.
  - rewrite page_nil, (rank_perm l) by lia. rewrite Z.ltb_lt. unfold max_int64 in *.
    destruct (Z.le_gt_cases (pp_Offset p + pp_Limit p) 9223372036854775807).
    + rewrite wrap64_id by (unfold in_int64, min_int64, max_int64; lia). lia.
    + assert (wrap64 (pp_Offset p + pp_Limit p) < 0); [|lia]. unfold wrap64.
      rewrite <- (Z.mod_unique _ (2 ^ 64) 1 (pp_Offset p + pp_Limit p + 2 ^ 63 - 2 ^ 64)); lia.
Qed.

End Listing.

(** ** Creating stations *)

Lemma unchanged_stations w w' : unchanged w w' -> stations w' = stations w.
Proof. intros [(_&_&_&_&_&_&_&E&_) _]. unfold stations. by rewrite E. Qed.

Lemma same_but_audit_stations w w' : AuditStore.same_but_audit w w' -> stations w' = stations w.
Proof. intros (_&_&_&_&_&_&_&_&E&_). unfold stations. by rewrite E. Qed.

Section Creation.
Context `{Env}.

(** A successful INSERT: one new row, under a slug no row has. *)
Definition station_added (req : CreateStationRequest) (w w' : World) (r : StationRow) : Prop :=
  stations w !! sr_ID r = None /\ stations w' = <[sr_ID r := r]> (stations w) /\
  slug_taken (stations w) (sr_ID r) (cs_Slug req) = false /\
  sr_Name r = cs_Name req /\ sr_Slug r = cs_Slug req /\ sr_TenantID r = cs_TenantID req /\
  sr_OwnerID r = cs_OwnerID req /\ sr_IsPublic r = cs_IsPublic req /\ sr_IsOnline r = false /\
  w_tenants w' = w_tenants w /\ w_trace w' = w_trace w.

Lemma wp_station_Create req (Q : res Station -> World -> Prop) w :
  (forall e w', stations w' = stations w -> w_tenants w' = w_tenants w -> Q (Fail e) w') ->
  (forall r w', station_added req w w' r -> Q (Ok (scanStation r)) w') ->
  wp (StationStore.Create req) Q w.
Proof.
  intros HF HO. unfold StationStore.Create. apply wp_bind, wp_stmt; [intros; apply wp_ret; by apply HF|]. intros _.
  unfold insert_station. cbv zeta. destruct (_ || _) eqn:E1; [apply wp_ret; by apply HF|].
  destruct (negb _) eqn:E2; [apply wp_ret; by apply HF|]. apply wp_ret, HO.
  apply orb_false_elim in E1 as [E1%bool_decide_eq_false E1']. apply eq_None_not_Some in E1.
  by repeat split.
Qed.

Lemma count_of_added req w w' r t :
  station_added req w w' r -> count_of t w' = count_of t w + (if of_tenant t r then 1 else 0).
Proof.
  intros (Hnone & Hs & _). unfold count_of. rewrite Hs. by apply length_select_insert.
Qed.

Lemma count_of_zero t w : count_of t w = 0 <-> head (select (of_tenant t) (stations w)) = None.
Proof. unfold count_of. destruct (select _ _); simpl; [done|]. split; [lia|done]. Qed.

(** What one call does: an error and nothing, nothing, or a first station. *)
Definition grown (t : string) (e : option error) (w w' : World) : Prop :=
  (e <> None /\ stations w' = stations w) \/
  (e = None /\ count_of t w <> 0 /\ stations w' = stations w) \/
  (e = None /\ count_of t w = 0 /\ count_of t w' = 1 /\ exists id s, stations w !! id = None /\
     sr_TenantID s = Some t /\ stations w' = <[id := s]> (stations w)).

Lemma wp_AutoCreateStation t name sub own dom w :
  wp (AutoCreateStation t name sub own dom) (fun e w' => grown t e w w') w.
Proof.
  unfold AutoCreateStation, GetByTenantID. apply wp_bind, wp_bind, wp_query.
  { intros m w1 H1 _. apply wp_ret, wp_ret. left. split; [done|]. by apply unchanged_stations. }
  intros w1 H1 _. apply wp_ret. assert (stations w1 = stations w) as E1 by by apply unchanged_stations.
  destruct (head _) as [x|] eqn:Ex; simpl; rewrite E1 in Ex.
  - apply wp_ret. right; left. split_and!; try done. rewrite count_of_zero. congruence.
  - apply count_of_zero in Ex. apply wp_bind, wp_station_Create.
    + intros e w2 E2 _. apply wp_ret. left. split; [done|congruence].
    + intros r w2 Ha. apply wp_ret. right; right. split_and!; try done.
      * assert (count_of t w1 = 0) as Ex1 by (unfold count_of in *; by rewrite E1).
        rewrite (count_of_added _ _ _ _ t Ha), Ex1.
        destruct Ha as (_&_&_&_&_&Et&_). unfold of_tenant. rewrite Et. by rewrite bool_decide_eq_true_2.
      * destruct Ha as (Hn&Hs&_&_&_&Et&_). exists (sr_ID r), r. rewrite <- E1. by split_and!.
Qed.

Lemma grown_rows t e w w' :
  grown t e w w' ->
  (forall id s, stations w !! id = Some s -> stations w' !! id = Some s) /\
  (forall id s, stations w' !! id = Some s -> stations w !! id = Some s \/ sr_TenantID s = Some t).
Proof.
  intros [[_ ->]|[(_&_& ->)|(_&_&_&i&x&Hn&Ht&->)]]; [auto..|]. split.
  - intros id s Hs. rewrite lookup_insert_ne by congruence. done.
  - intros id s [[<- <-]|[_ Hs]]%lookup_insert_Some; auto.
Qed.

(** One station per new tenant. Run twice for the same tenant, under any
    database failures, [AutoCreateStation] that reported success the first time
    leaves the tenant with exactly one station, or with those it had; no other
    station changes. *)
Theorem AutoCreateStation_once (t name sub own dom name' sub' own' dom' : string) (w : World) :
  wp (let! e1 := AutoCreateStation t name sub own dom in
      let! e2 := AutoCreateStation t name' sub' own' dom' in Ret (e1, e2))
    (fun r w' =>
      (r.1 = None -> count_of t w' = Z.max 1 (count_of t w)) /\
      (forall id s, stations w !! id = Some s -> stations w' !! id = Some s) /\
      (forall id s, stations w' !! id = Some s -> stations w !! id = Some s \/ sr_TenantID s = Some t)) w.
Proof.
  apply wp_bind. eapply wp_mono; [apply wp_AutoCreateStation|]. intros e1 w1 H1. apply wp_bind.
  eapply wp_mono; [apply wp_AutoCreateStation|]. intros e2 w2 H2. apply wp_ret. cbn [fst].
  destruct (grown_rows _ _ _ _ H1) as [M1 M1'], (grown_rows _ _ _ _ H2) as [M2 M2']. split_and!; [|eauto|].
  - intros ->. assert (0 <= count_of t w) by (unfold count_of; lia).
    assert (count_of t w1 = Z.max 1 (count_of t w)) as E1.
    { destruct H1 as [[? _]|[(_&Hc&E)|(_&Hc&Hc'&_)]]; [done| |lia]. unfold count_of in *. rewrite E. lia. }
    destruct H2 as [[_ E]|[(_&_&E)|(_&Hc&_)]]; [unfold count_of in *; by rewrite E..|lia].
  - intros id s Hs. destruct (M2' _ _ Hs) as [Hs'|]; [auto|by right].
Qed.

Lemma GetLimits_default tier : GetLimits (if is_empty tier then "free" else tier) = GetLimits tier.
Proof. destruct (is_empty tier) eqn:E; [|done]. by apply is_empty_true in E as ->. Qed.

Lemma wp_check_limit h t (Q : option HTTPResponse -> World -> Prop) w :
  (forall t, env_fault t = None) -> sh_tenantProvider h = true ->
  (forall resp w', r_Status resp <> StatusCreated -> unchanged w w' -> Q (Some resp) w') ->
  (forall tn w', unchanged w w' -> w_tenants w !! t = Some tn ->
     count_of t w < MaxStations (GetLimits (t_Tier tn)) -> Q None w') ->
  wp (StationHandler.check_limit h (Some t)) Q w.
Proof.
  intros Hup Htp Hno Hyes. unfold StationHandler.check_limit. rewrite Htp.
  unfold StationHandler.GetTier, TenantStore.GetByID. apply wp_bind, wp_bind, wp_bind, wp_query; [intros ? ? _ Hf; by rewrite Hup in Hf|].
  intros w1 H1 _. apply wp_ret. assert (w_tenants w1 = w_tenants w) as -> by apply H1.
  destruct (w_tenants w !! t) as [tn|] eqn:Etn; [|by apply wp_ret, wp_ret, Hno].
  apply wp_ret. rewrite GetLimits_default. apply wp_bind, wp_bind, wp_query; [intros ? ? _ Hf; by rewrite Hup in Hf|].
  intros w2 H2 _. apply wp_ret. assert (unchanged w w2) as H02 by by etrans.
  assert (count_of t w2 = count_of t w) as -> by (unfold count_of; by rewrite (unchanged_stations _ _ H02)).
  destruct (Z.leb_spec (MaxStations (GetLimits (t_Tier tn))) (count_of t w)); apply wp_ret; [by apply Hno|by eapply Hyes].
Qed.

(** The plan's station limit holds. On a database that answers, a request to
    create a station is either refused, and the stations are what they were, or
    adds exactly one station, public under a well-formed slug that no other
    station has, to an existing tenant, and then that tenant has at most as
    many stations as its plan admits, never more than three. *)
Theorem Station_Create_limit (h : StationHandler.Handler) (body : option CreateStationRequest) (w : World)
  (Hup : forall t, env_fault t = None) (Htp : sh_tenantProvider h = true) :
  wp (StationHandler.Create h body) (fun r w' =>
    (r_Status r <> StatusCreated /\ stations w' = stations w) \/
    exists req t tn row, body = Some req /\ r = JSON StatusCreated (BStation (scanStation row)) /\
      cs_TenantID req = Some t /\ w_tenants w !! t = Some tn /\
      StationHandler.validSlug (cs_Slug req) = true /\
      stations w !! sr_ID row = None /\ stations w' = <[sr_ID row := row]> (stations w) /\
      slug_taken (stations w) (sr_ID row) (sr_Slug row) = false /\ sr_Slug row = cs_Slug req /\
      sr_TenantID row = Some t /\
      count_of t w' = count_of t w + 1 /\ count_of t w' <= MaxStations (GetLimits (t_Tier tn)) <= 3) w.
Proof.
  unfold StationHandler.Create. destruct body as [req|]; [|apply wp_ret; by left].
  destruct (_ || _); [apply wp_ret; by left|].
  destruct (StationHandler.validSlug (cs_Slug req)) eqn:Eslug; [|apply wp_ret; by left]. cbn [negb].
  do 2 (match goal with |- wp (if ?b then _ else _) _ _ => destruct b end; [apply wp_ret; by left|]).
  destruct (cs_TenantID req) as [t|] eqn:Et;
    [|unfold StationHandler.check_limit; rewrite Htp; apply wp_bind, wp_ret, wp_ret; by left].
  apply wp_bind, wp_check_limit; [done..| |].
  { intros resp w1 Hr H1. apply wp_ret. left. split; [done|]. by apply unchanged_stations. }
  intros tn w2 H2 Etn Hlt. assert (stations w2 = stations w) as S2 by by apply unchanged_stations.
  unfold StationHandler.create_station. apply wp_bind, wp_station_Create.
  { intros e w3 S3 _. destruct (is_pg_code _ _); apply wp_ret; left; (split; [done|congruence]). }
  intros row w3 Ha. apply wp_bind. pose proof (count_of_added _ _ _ _ t Ha) as Hc.
  destruct Ha as (Hn & Hs & Hsl & _ & Eslg & Etn' & _). unfold of_tenant in Hc.
  rewrite Etn', Et, bool_decide_eq_true_2 in Hc by done. rewrite S2 in *.
  pose proof (MaxStations_range (t_Tier tn)).
  assert (forall w4, stations w4 = stations w3 -> count_of t w4 = count_of t w + 1) as Hc4.
  { intros w4 S4. unfold count_of in *. rewrite S4, <- S2. lia. }
  unfold StationHandler.audit_log. destruct (StationHandler.sh_auditStore h).
  - apply AuditStore.wp_Log. intros w4 H4 _. assert (stations w4 = stations w3) as S4 by by apply same_but_audit_stations.
    apply wp_ret. right. exists req, t, tn, row. rewrite (Hc4 _ S4), S4, Eslg, Etn'. split_and!; try done; lia.
  - apply wp_ret, wp_ret. right. exists req, t, tn, row. rewrite (Hc4 _ eq_refl), Eslg, Etn'. split_and!; try done; lia.
Qed.

End Creation.

(** ** Polling *)

Import StationPoller(Poller, po_skipIPCheck, isAllowedIP, statusURL, cache, poll, poll_one, poll_tenants, fetchStatus).
Import TenantStore(PollableTenant, pt_ID, pt_LXCIP).

Lemma AddrString_no_colon a :
  0 <= a <= addr_max -> str_forallb (fun c => negb (Ascii.eqb c ":")) (AddrString a) = true.
Proof.
  intros Ha. pose proof (As4_range a Ha) as Hr. unfold AddrString. destruct (As4 a) as [|b0 [|b1 [|b2 [|b3 [|]]]]]; try done.
  assert (forall b, 0 <= b < 256 -> str_forallb (fun c => negb (Ascii.eqb c ":")) (itoa b) = true) as Hb.
  { intros b Hb%octets_spec. assert (forallb (fun b => str_forallb (fun c => negb (Ascii.eqb c ":")) (itoa b)) octets = true) as Hall
      by (vm_compute; reflexivity).
    rewrite forallb_forall in Hall. by apply Hall, list_elem_of_In. }
  repeat (apply Forall_cons in Hr as [? Hr]). rewrite !str_forallb_app, !Hb by done. done.
Qed.

(** On an address as the allocator writes it, the check is membership in 10.0.0.0/8. *)
Lemma isAllowedIP_AddrString a :
  0 <= a <= addr_max -> isAllowedIP (AddrString a) = true <-> 10 * 2 ^ 24 <= a < 11 * 2 ^ 24.
Proof.
  intros Ha. unfold isAllowedIP, SplitHostPort. rewrite (no_char_cut_last _ _ (AddrString_no_colon a Ha)).
  unfold ParseIP. rewrite parseIPv4_AddrString by done. cbn [IsLoopback IsLinkLocalUnicast IsUnspecified NetContains].
  unfold PrefixContains, StationPoller.private10. cbn [p_addr p_bits]. change (32 - 8) with 24.
  change (10 * 2 ^ 24 / 2 ^ 24) with 10.
  assert (a / 2 ^ 24 = 10 <-> 10 * 2 ^ 24 <= a < 11 * 2 ^ 24) as E.
  { split; intros Hd; [pose proof (Z.div_mod a (2 ^ 24)); pose proof (Z.mod_pos_bound a (2 ^ 24)); lia|].
    symmetry. apply (Z.div_unique _ _ _ (a - 10 * 2 ^ 24)); lia. }
  rewrite <- E. destruct (_ || _) eqn:Eo; [|apply Z.eqb_eq]. split; [done|]. intros H10. exfalso.
  rewrite !orb_true_iff, !Z.eqb_eq in Eo. apply E in H10.
  destruct Eo as [[Eo|Eo]|Eo]; [apply E in H10; lia| |lia].
  pose proof (Z.div_mod a (2 ^ 16)). pose proof (Z.mod_pos_bound a (2 ^ 16)). lia.
Qed.

(** A port is not looked at: what follows the first address may be anything. *)
Example allowed_port_unchecked :
  isAllowedIP "10.0.0.1:80@evil.example" = true /\
  statusURL "10.0.0.1:80@evil.example" = "http://10.0.0.1:80@evil.example:80/api/status".
Proof. split; reflexivity. Qed.

Lemma app_inj_tail_str (a b s : string) : a +:+ s = b +:+ s -> a = b.
Proof.
  intros E. apply (f_equal String.list_ascii_of_string) in E.
  assert (forall x y, String.list_ascii_of_string (x +:+ y) =
    String.list_ascii_of_string x ++ String.list_ascii_of_string y) as Happ.
  { induction x as [|c x IH]; intros y; [done|]. rewrite app_cons. simpl. by rewrite IH. }
  rewrite !Happ in E. apply app_inj_2 in E as [E _]; [|done].
  rewrite <- (String.string_of_list_ascii_of_string a), E. apply String.string_of_list_ascii_of_string.
Qed.

Lemma statusURL_inj a b : statusURL a = statusURL b -> a = b.
Proof.
  unfold statusURL. intros E. change ("http://" +:+ ?x) with (String "h" (String "t" (String "t" (String "p"
    (String ":" (String "/" (String "/" x))))))) in E. injection E as E. by eapply app_inj_tail_str.
Qed.

Section Polling.
Context `{Env}.

(** A request to the dashboard of an address that passed the check. *)
Definition allowed_get (ts : list PollableTenant) (ev : Event) : Prop :=
  exists t, t ∈ ts /\ isAllowedIP (pt_LXCIP t) = true /\ ev = EvStatusGet (statusURL (pt_LXCIP t)).

Lemma wp_fetchStatus t (Q : StationStatus -> World -> Prop) w :
  (forall s w', same_db w w' -> (w_trace w' = w_trace w \/ w_trace w' = w_trace w ++ [EvStatusGet (statusURL (pt_LXCIP t))]) ->
     Q s w') ->
  wp (fetchStatus t) Q w.
Proof.
  intros HQ. unfold fetchStatus. set (url := statusURL (pt_LXCIP t)) in *.
  assert (forall w1, same_db w w1 -> (w_trace w1 = w_trace w \/ w_trace w1 = w_trace w ++ [EvStatusGet url]) ->
    forall f, wp (let! now := sample env_now in Ret (f now)) Q w1) as Hend.
  { intros w1 H1 Ht f. apply wp_bind, wp_sample. intros w2 [H2 [_ Ht2]]. apply wp_ret, HQ; [by etrans|]. by rewrite Ht2. }
  unfold StationPoller.offline. destruct (env_url_parse url); [|apply (Hend w); [done|by left]].
  apply wp_bind. unfold StationPoller.status_get. apply wp_atom. cbn [fst snd].
  set (w1 := set_trace _ _). assert (same_db w w1) as H1 by by repeat split.
  assert (w_trace w1 = w_trace w ++ [EvStatusGet url]) as Ht by done.
  destruct (env_ext _ _); cbn [fst snd]; [apply (Hend w1); [done|by right]|].
  destruct (negb _); [apply (Hend w1); [done|by right]|].
  destruct (sa_Data _); apply (Hend w1); (done || by right).
Qed.

(** What one tenant's turn does. *)
Definition turn (t : PollableTenant) (w w' : World) : Prop :=
  w_tenants w' = w_tenants w /\
  exists s, cache w' = <[pt_ID t := s]> (cache w) /\
    (stations w' = stations w \/ exists now, stations w' =
       (fun r => if of_tenant (pt_ID t) r then apply_ssets now [SSetIsOnline (ss_IsOnline s)] r else r) <$> stations w).

Lemma wp_poll_one p t (Q : unit -> World -> Prop) w :
  po_skipIPCheck p = false ->
  (isAllowedIP (pt_LXCIP t) = false -> Q tt w) ->
  (isAllowedIP (pt_LXCIP t) = true -> forall w', turn t w w' ->
     (w_trace w' = w_trace w \/ w_trace w' = w_trace w ++ [EvStatusGet (statusURL (pt_LXCIP t))]) ->
     ((forall t, env_fault t = None) -> exists s now, cache w' !! pt_ID t = Some s /\ stations w' =
       (fun r => if of_tenant (pt_ID t) r then apply_ssets now [SSetIsOnline (ss_IsOnline s)] r else r) <$> stations w) ->
     Q tt w') ->
  wp (poll_one p t) Q w.
Proof.
  intros Hp Hno Hyes. unfold poll_one. rewrite Hp. cbn [negb andb].
  destruct (isAllowedIP _) eqn:Ea; cbn [negb]; [|by apply wp_ret, Hno].
  apply wp_bind, wp_fetchStatus. intros s w1 (T1&_&_&_&_&_&_&R1&_) Ht. apply wp_bind, wp_atom. cbn [fst snd].
  set (w2 := StationPoller.set_cache _ w1). apply wp_bind. unfold SetOnline. apply wp_bind, wp_stmt.
  - intros m Hf. apply wp_ret, wp_ret, Hyes; [done| |done|intros Hup; by rewrite Hup in Hf].
    split; [done|]. exists s. split; [by unfold cache; rewrite <- R1|]. left. unfold stations. by rewrite <- R1.
  - intros _. apply wp_ret, wp_ret, Hyes; [done| |done|].
    + split; [done|]. exists s. split; [by unfold cache; rewrite <- R1|]. right.
      exists (env_now (w_tick (set_tick (S (w_tick w2)) w2))). unfold stations. by rewrite <- R1.
    + intros _. exists s, (env_now (w_tick (set_tick (S (w_tick w2)) w2))). split; [apply lookup_insert_eq|].
      unfold stations. by rewrite <- R1.
Qed.

Lemma wp_poll_tenants_trace p ts w :
  po_skipIPCheck p = false ->
  wp (poll_tenants p ts) (fun _ w' => exists l, w_trace w' = w_trace w ++ l /\ Forall (allowed_get ts) l) w.
Proof.
  intros Hp. revert w. induction ts as [|t ts IH]; intros w; simpl.
  { apply wp_ret. exists []. by rewrite app_nil_r. }
  apply wp_bind, wp_sample. intros w1 (_&_&T1). destruct (env_ctx_done _).
  { apply wp_ret. exists []. by rewrite T1, app_nil_r. }
  assert (forall l, Forall (allowed_get ts) l -> Forall (allowed_get (t :: ts)) l) as Hmono.
  { intros l Hl. eapply Forall_impl; [exact Hl|]. intros ev (u&Hu&?). exists u. split; [by apply list_elem_of_further|done]. }
  apply wp_bind, wp_poll_one; [done| |].
  - intros _. eapply wp_mono; [apply IH|]. intros _ w' (l & E & Hl). exists l. rewrite E, T1. auto.
  - intros Ha w2 _ Ht _. eapply wp_mono; [apply IH|]. intros _ w' (l & E & Hl). rewrite E.
    destruct Ht as [->| ->]; rewrite T1; [exists l; auto|]. eexists (_ :: l). rewrite <- app_assoc. split; [done|].
    constructor; [|auto]. exists t. split; [apply list_elem_of_here|done].
Qed.

(** The tenants a cycle asks about: the active ones with an address on file. *)
Lemma elem_of_pollable w pt :
  pt ∈ TenantStore.toPollableTenants (map TenantStore.row_with_ip (select TenantStore.reachable (w_tenants w))) <->
  exists id t ip, w_tenants w !! id = Some t /\ t_Status t = active /\ t_LXCIP t = Some ip /\ ip <> EmptyString /\
    pt = TenantStore.mkPollable (t_ID t) ip.
Proof.
  unfold TenantStore.toPollableTenants. rewrite map_map, list_elem_of_fmap. split.
  - intros (t & -> & (Hr & id & Hid)%elem_of_select). unfold TenantStore.reachable in Hr.
    apply andb_prop in Hr as [Hs Hi]. destruct (t_LXCIP t) as [ip|] eqn:Eip; [|done].
    exists id, t, ip. apply negb_true_iff, is_empty_false in Hi. apply bool_decide_eq_true in Hs.
    split_and!; try done. unfold TenantStore.row_with_ip. simpl. by rewrite Eip.
  - intros (id & t & ip & Hid & Hs & Hi & Hne & ->). exists t. unfold TenantStore.row_with_ip. simpl. rewrite Hi.
    split; [done|]. apply elem_of_select. split; [|eauto]. unfold TenantStore.reachable, status_eqb.
    rewrite bool_decide_eq_true_2, Hi by done. simpl. by apply negb_true_iff, is_empty_false.
Qed.


(** The cache and the table say the same about the tenant [id]. *)
Definition agrees (id : string) (w : World) : Prop :=
  exists s, cache w !! id = Some s /\
    forall k r, stations w !! k = Some r -> sr_TenantID r = Some id -> sr_IsOnline r = ss_IsOnline s.

(** Nothing about the tenant [id] changed. *)
Definition same_for (id : string) (w w' : World) : Prop :=
  cache w' !! id = cache w !! id /\
  forall k r, sr_TenantID r = Some id -> stations w' !! k = Some r <-> stations w !! k = Some r.

Lemma same_for_refl id w : same_for id w w.
Proof. by split. Qed.

Lemma same_for_trans id a b c : same_for id a b -> same_for id b c -> same_for id a c.
Proof. intros [H1 H2] [H3 H4]. split; [congruence|]. intros k r Hr. by rewrite H4, H2. Qed.

Lemma agrees_same id w w' : same_for id w w' -> agrees id w -> agrees id w'.
Proof. intros [E1 E2] (s & Hs & Hr). exists s. split; [congruence|]. intros k r Hk Ht. apply (Hr k); [by apply E2|done]. Qed.

(** The UPDATE of [SetOnline] and the rows it leaves. *)
Lemma online_row id now b r :
  let r' := if of_tenant id r then apply_ssets now [SSetIsOnline b] r else r in
  sr_TenantID r' = sr_TenantID r /\ (sr_TenantID r = Some id -> sr_IsOnline r' = b) /\
  (sr_TenantID r <> Some id -> r' = r).
Proof.
  unfold of_tenant. simpl. case_bool_decide; destruct r; simpl in *; naive_solver.
Qed.

Lemma turn_others t w w' : turn t w w' -> forall id, id <> pt_ID t -> same_for id w w'.
Proof.
  intros (_ & s & Ec & Es) id Hne. split; [by rewrite Ec, lookup_insert_ne|]. intros k r Hr.
  destruct Es as [->|[now ->]]; [done|]. rewrite lookup_fmap.
  destruct (stations w !! k) as [r0|]; [|split; discriminate].
  destruct (online_row (pt_ID t) now (ss_IsOnline s) r0) as (E1 & _ & E3). simpl in *. split; intros [= Heq].
  - f_equal. rewrite <- Heq. symmetry. apply E3. rewrite <- E1, Heq, Hr. congruence.
  - subst r0. f_equal. apply E3. rewrite Hr. congruence.
Qed.

Lemma wp_poll_tenants_agree p ts w :
  po_skipIPCheck p = false -> (forall t, env_fault t = None) -> (forall t, env_ctx_done t = false) ->
  NoDup (map pt_ID ts) ->
  wp (poll_tenants p ts) (fun _ w' => w_tenants w' = w_tenants w /\
    (forall t, t ∈ ts -> isAllowedIP (pt_LXCIP t) = true -> agrees (pt_ID t) w') /\
    (forall id, (forall t, t ∈ ts -> pt_ID t = id -> isAllowedIP (pt_LXCIP t) = false) -> same_for id w w')) w.
Proof.
  intros Hp Hup Hctx. revert w. induction ts as [|t ts IH]; intros w Hnd.
  { apply wp_ret. split_and!; [done|by intros ? ?%elem_of_nil|]. intros. apply same_for_refl. }
  simpl in Hnd. apply NoDup_cons in Hnd as [Hnew Hnd]. cbn [poll_tenants].
  apply wp_bind, wp_sample. intros w1 H1. rewrite Hctx. assert (w_tenants w1 = w_tenants w) as T1 by apply H1.
  assert (forall id, same_for id w w1) as S1.
  { intros id. unfold same_for, cache, stations. assert (w_radio w1 = w_radio w) as -> by apply H1. done. }
  assert (forall u, u ∈ ts -> pt_ID u <> pt_ID t) as Hne.
  { intros u Hu E. apply Hnew. rewrite <- E. by apply (list_elem_of_fmap_2 pt_ID). }
  apply wp_bind, wp_poll_one; [done| |].
  - intros Ha. eapply wp_mono; [by apply IH|]. intros _ w' (T & A & S). split_and!; [congruence| |].
    + intros u [->|Hu]%elem_of_cons Hal; [congruence|auto].
    + intros id Hid. eapply same_for_trans; [apply S1|]. apply S. intros u Hu. apply Hid, elem_of_cons. by right.
  - intros Ha w2 Hturn _ Hon. eapply wp_mono; [by apply IH|]. intros _ w' (T & A & S).
    pose proof (turn_others _ _ _ Hturn) as Hoth. destruct Hturn as [T2 _].
    split_and!; [congruence| |].
    + intros u [->|Hu]%elem_of_cons Hal; [|auto]. apply (agrees_same _ w2).
      { apply S. intros v Hv E. by destruct (Hne v). }
      destruct (Hon Hup) as (s & now & Hs & Hst). exists s. split; [done|]. intros k r. rewrite Hst, lookup_fmap.
      destruct (stations w1 !! k) as [r0|]; [|done]. intros [= <-].
      destruct (online_row (pt_ID t) now (ss_IsOnline s) r0) as (E1 & E2 & _). simpl in *. rewrite E1. auto.
    + intros id Hid. assert (id <> pt_ID t) as Hidt.
      { intros ->. specialize (Hid t (list_elem_of_here _ _) eq_refl). congruence. }
      eapply same_for_trans; [apply S1|]. eapply same_for_trans; [by apply Hoth|].
      apply S. intros u Hu. apply Hid, elem_of_cons. by right.
Qed.

Lemma pollable_ids w :
  tenants_ok (w_tenants w) ->
  NoDup (map pt_ID (TenantStore.toPollableTenants (map TenantStore.row_with_ip (select TenantStore.reachable (w_tenants w))))).
Proof.
  intros [Hk _]. unfold TenantStore.toPollableTenants. rewrite !map_map. unfold TenantStore.row_with_ip. simpl.
  assert (forall l : list Tenant, NoDup (map t_ID l) -> NoDup (map t_ID (List.filter TenantStore.reachable l))) as Hf.
  { induction l as [|x l IH]; simpl; [done|]. intros [Hx Hl]%NoDup_cons. destruct (TenantStore.reachable x); [|auto].
    simpl. apply NoDup_cons. split; [|auto]. intros (y & Hy & Hin)%list_elem_of_fmap. apply Hx.
    rewrite Hy. apply (list_elem_of_fmap_2 t_ID). rewrite list_elem_of_In, filter_In, <- list_elem_of_In in Hin. apply Hin. }
  apply Hf. unfold rows. rewrite map_map. erewrite (map_ext_in _ fst); [apply NoDup_fst_map_to_list|].
  intros [k t] Hin. apply list_elem_of_In, elem_of_map_to_list in Hin. by apply Hk.
Qed.

(** What the poller shows is what it wrote. A cycle against a database that
    answers, not cancelled, leaves every active tenant whose address passes the
    check with a status in the cache, and [is_online] of all its stations is
    that status; nothing about any other tenant changes, in the cache or in the
    table. *)
Theorem poll_agrees (p : Poller) (w : World)
  (Hp : po_skipIPCheck p = false) (Hup : forall t, env_fault t = None)
  (Hctx : forall t, env_ctx_done t = false) (Hok : tenants_ok (w_tenants w)) :
  wp (poll p) (fun _ w' => w_tenants w' = w_tenants w /\
    (forall id t ip, w_tenants w !! id = Some t -> t_Status t = active -> t_LXCIP t = Some ip ->
       isAllowedIP ip = true -> agrees id w') /\
    (forall id, (forall t ip, w_tenants w !! id = Some t -> t_Status t = active -> t_LXCIP t = Some ip ->
       isAllowedIP ip = false) -> same_for id w w')) w.
Proof.
  unfold poll, TenantStore.ListPollable, TenantStore.listActiveWithIP.
  apply wp_bind, wp_bind, wp_bind, wp_query; [intros m w1 _ Hf; by rewrite Hup in Hf|].
  intros w1 H1 _. apply wp_ret, wp_ret. assert (w_tenants w1 = w_tenants w) as T1 by apply H1.
  eapply wp_mono; [apply wp_poll_tenants_agree; try done; apply pollable_ids; by rewrite T1|].
  intros _ w' (T & A & S). split_and!; [congruence| |].
  - intros id t ip Hid Hs Hi Ha. pose proof (proj1 Hok _ _ Hid) as Hk.
    rewrite <- Hk. apply (A (TenantStore.mkPollable (t_ID t) ip)); [|done].
    apply elem_of_pollable. rewrite T1. exists id, t, ip. split_and!; try done. by intros ->.
  - intros id Hno. eapply same_for_trans; [|apply S].
    + unfold same_for, cache, stations. assert (w_radio w1 = w_radio w) as -> by apply H1. done.
    + intros u Hu <-. apply elem_of_pollable in Hu as (k & t & ip & Hk & Hs & Hi & _ & ->). simpl in *.
      rewrite T1 in Hk. apply (Hno t); [|done..]. by rewrite (proj1 Hok _ _ Hk).
Qed.

End Polling.

(** ** Examples *)

Lemma str_map_app f a b : str_map f (a +:+ b) = str_map f a +:+ str_map f b.
Proof. induction a as [|c a IH]; [done|]. rewrite !app_cons. simpl. by rewrite IH. Qed.

Lemma to_lower_char_meta c : is_meta (to_lower_char c) = is_meta c /\ (is_meta c = true -> to_lower_char c = c) /\
  is_cont (to_lower_char c) = is_cont c.
Proof. by destruct c as [[] [] [] [] [] [] [] []]. Qed.

(** ASCII lower-casing is a lower(). *)
#[export] Instance calm_text : @TextLaws calm.
Proof.
  split.
  - done.
  - intros a c b Hc. change (to_lower (a +:+ String c b) = to_lower a +:+ String c (to_lower b)).
    unfold to_lower. rewrite str_map_app. simpl. by rewrite (proj1 (proj2 (to_lower_char_meta c)) Hc).
  - intros s Hs. change (str_forallb (fun c => negb (is_meta c)) (to_lower s) = true).
    unfold to_lower. induction s as [|c s IH]; [done|]. simpl in *. apply andb_prop in Hs as [Hc Hs].
    by rewrite (proj1 (to_lower_char_meta c)), Hc, IH.
  - intros s [Hne Hc]. change (well_started (to_lower s)). destruct s as [|c s]; [done|].
    split; [done|]. simpl in *. by rewrite (proj2 (proj2 (to_lower_char_meta c))).
Qed.

Definition station_row (id name slug : string) (tenant : option string) : StationRow :=
  mkStationRow id name slug "techno" EmptyString EmptyString EmptyString None tenant true false 1 1.

(** One running tenant; two public stations, the first one its. *)
Definition stations_world : World :=
  set_stations {["s1" := station_row "s1" "100% Techno" "full-techno" (Some "t1");
                 "s2" := station_row "s2" "100 Beats" "beats" None]}
    (set_tenants {["t1" := mkTenant "t1" "radio" "p1" "n1" (Some 105) (Some "10.10.10.7") "radio" active None
                     (Some "u1") None None "studio" None "unknown" None 1 1]} empty_world).

Definition search_q (k : string) : string :=
  if String.eqb k "q" then "100% t" else if String.eqb k "sort" then "listeners" else EmptyString.

Lemma search_literal_witness :
  let E := calm in let p := list_params search_q in
  where_public p (station_row "s1" "100% Techno" "full-techno" (Some "t1")) = true /\
  where_public p (station_row "s2" "100 Beats" "beats" None) = false.
Proof.
  intros E p. split; [|vm_compute; reflexivity].
  apply (proj2 (@search_literal calm calm_text p _ (or_intror (conj (fun H : "100% t" = EmptyString => ltac:(discriminate H)) eq_refl)))).
  split; [reflexivity|]. split; [|intros []; reflexivity].
  intros _. left. exists EmptyString, "echno". reflexivity.
Defined.

Definition full_handler : StationHandler.Handler := StationHandler.mkStationHandler true true true.

Lemma List_by_listeners_witness :
  let E := calm in
  let r := (run (StationHandler.List full_handler search_q) stations_world).1 in
  (exists st, r_Body r = BStations (mkListResult [st] 1 50 0 false) /\ st_ListenersCount st = 0) /\
  unchanged stations_world (run (StationHandler.List full_handler search_q) stations_world).2.
Proof.
  intros E r. split.
  - eexists. split; [vm_compute; reflexivity|reflexivity].
  - destruct (@List_by_listeners calm full_handler search_q stations_world) as [H _]; [reflexivity..|exact H].
Defined.

Definition second_station : CreateStationRequest :=
  mkCreateStation "Second" "second-one" EmptyString EmptyString EmptyString EmptyString None (Some "t1") true.

Lemma Station_Create_limit_witness :
  let E := calm in
  let x := run (StationHandler.Create full_handler (Some second_station)) stations_world in
  r_Status x.1 = StatusCreated /\ count_of "t1" x.2 = 2.
Proof.
  intros E x. split; [vm_compute; reflexivity|].
  destruct (@Station_Create_limit calm full_handler (Some second_station) stations_world ltac:(reflexivity) ltac:(reflexivity))
    as [[H _]|(req & t & tn & row & Hb & _ & Ht & _ & _ & _ & _ & _ & _ & _ & Hc & _)].
  - destruct H. vm_compute. reflexivity.
  - injection Hb as Hb. rewrite <- Hb in Ht. injection Ht as Ht. rewrite <- Ht in Hc. exact Hc.
Defined.

Definition live_poller : Poller := StationPoller.mkPoller false.


Lemma poll_agrees_witness :
  let E := calm in
  let w' := (run (poll live_poller) stations_world).2 in
  cache w' !! "t1" = Some (mkStationStatus true 7 "a song" "120" 3) /\ agrees "t1" w'.
Proof.
  intros E w'. split; [vm_compute; reflexivity|].
  refine (proj1 (proj2 (@poll_agrees calm live_poller stations_world _ _ _ _)) "t1" _ "10.10.10.7" _ _ _ _);
    try reflexivity.
  split.
  - intros id t. cbn. intros [<- <-]%lookup_singleton_Some. reflexivity.
  - intros id1 id2 t1 t2. cbn. intros [<- <-]%lookup_singleton_Some [<- <-]%lookup_singleton_Some Hne. destruct (Hne eq_refl).
Defined.
