(* ===== verification/AuthHandler.v ===== *)
(** * internal/auth: registration, login, refresh, logout, passwords, JWTAuth

    bcrypt, SHA-256, golang-jwt and net/mail's address parser are libraries:
    fields of [AuthLib], with the laws the code relies on in [AuthLaws].
    [hmacKeyfunc] is what decides which tokens get to be verified. *)

From stdpp Require Import gmap strings list fin_maps.
From Stdlib Require Import ZArith Lia Ascii.
From S2P Require Import Prelude GoStrings World Response Tables AuthStore.
From S2P Require NodeStore.

Open Scope Z_scope.

(** [jwt.MapClaims]: the claims the code or the library reads; [None] for one
    that is absent or not of its type. *)
Record Claims := mkClaims {
  cl_sub : option string; cl_email : string; cl_jti : option string;
  cl_exp : option Z; cl_iat : Z; cl_nbf : option Z }.

(** The algorithm a token names: one of the HMAC family, or another. *)
Inductive SigningMethod := SigningMethodHMAC (alg : string) | OtherMethod (alg : string).
Definition SigningMethodHS256 : SigningMethod := SigningMethodHMAC "HS256".

(** [jwt.Token], not verified. *)
Record Token := mkToken { tk_Method : SigningMethod; tk_Claims : Claims }.

(** Whether the claims about time hold: [exp] lies ahead, [nbf] does not. *)
Definition in_time (c : Claims) (now : Z) : bool :=
  match cl_exp c with Some exp => now <? exp | None => true end &&
  match cl_nbf c with Some nbf => nbf <=? now | None => true end.

Class AuthLib := {
  bcrypt_hash : nat -> string -> res string;       (* operation, password *)
  bcrypt_check : string -> string -> bool;         (* hash, password *)
  sha256 : string -> string;
  mail_parse : string -> option string;            (* the address of a mail header *)
  jwt_SignedString : Token -> string -> res string;             (* with a key *)
  jwt_ParseUnverified : string -> option Token;
  jwt_Verify : SigningMethod -> string -> string -> bool;       (* a token's signature, with a key *)
  jwt_Parse : string -> (Token -> res string) -> Z -> option Claims;   (* with a [Keyfunc], at a time *)
  uuid_parse : string -> option string }.          (* the canonical text *)

(** Checking a password against its own hash succeeds. [jwt.Parse] accepts a
    token exactly when its parts parse, the [Keyfunc] has a key for it, the
    signature verifies under that key and its claims about time hold. A signed
    token parses to what was signed and verifies under the key. *)
Class AuthLaws (L : AuthLib) : Prop := {
  law_bcrypt : forall t pw hash, bcrypt_hash t pw = Ok hash -> bcrypt_check hash pw = true;
  law_jwt_Parse : forall s kf now c, jwt_Parse s kf now = Some c <->
    exists t key, jwt_ParseUnverified s = Some t /\ kf t = Ok key /\ jwt_Verify (tk_Method t) key s = true /\
      in_time (tk_Claims t) now = true /\ c = tk_Claims t;
  law_jwt_sign : forall t key s, jwt_SignedString t key = Ok s ->
    s <> EmptyString /\ jwt_ParseUnverified s = Some t /\ jwt_Verify (tk_Method t) key s = true }.

Record Handler := mkHandler { ah_jwtSecret : string; ah_registrationToken : string; ah_cookieSecure : bool }.

Record registerRequest := mkRegister {
  rq_Email : string; rq_Password : string; rq_DisplayName : string; rq_RegistrationToken : string }.
Record loginRequest := mkLogin { lq_Email : string; lq_Password : string }.
Record passwordRequest := mkPassword { pq_Old : string; pq_New : string }.

(** The headers and cookies of a request the package reads. *)
Record Headers := mkHeaders {
  hd_Authorization : string; hd_RegistrationToken : string;
  hd_AccessCookie : option string; hd_RefreshCookie : option string }.

Record authResponse := mkAuthResponse {
  ar_Token : string; ar_RefreshToken : string; ar_ExpiresIn : Z; ar_User : User }.

Definition ErrSignatureInvalid : error := EBase (Sentinel "signature is invalid").

(** The secret goes only to tokens that name an HMAC method. *)
Definition hmacKeyfunc (secret : string) (t : Token) : res string :=
  match tk_Method t with
  | SigningMethodHMAC _ => Ok secret
  | OtherMethod _ => Fail ErrSignatureInvalid
  end.

(** How every token is parsed. *)
Definition jwt_parse `{AuthLib} (secret : string) (now : Z) (tokenStr : string) : option Claims :=
  jwt_Parse tokenStr (hmacKeyfunc secret) now.

Section Handlers.
Context `{Env} `{AuthLib}.

Definition HashToken (token : string) : string := hex_encode (sha256 token).

Definition user_view (u : User) : Json :=
  JObject [("id", JString (us_ID u)); ("email", JString (us_Email u));
           ("display_name", JString (us_DisplayName u))].

Definition auth_json (r : authResponse) : Json :=
  JObject [("token", JString (ar_Token r)); ("refresh_token", JString (ar_RefreshToken r));
           ("expires_in", JInt (ar_ExpiresIn r)); ("user", user_view (ar_User r))].

Context (h : Handler).

Definition access_cookie (value : string) (maxAge : Z) : Cookie :=
  mkCookie "access_token" value "/" true (ah_cookieSecure h) false maxAge.
Definition refresh_cookie (value : string) (maxAge : Z) : Cookie :=
  mkCookie "refresh_token" value "/api/v1/auth/" true (ah_cookieSecure h) true maxAge.

Definition setAuthCookies (accessToken refreshToken : string) : list Cookie :=
  [access_cookie accessToken accessTokenExpiration; refresh_cookie refreshToken refreshTokenExpiry].
Definition clearAuthCookies : list Cookie :=
  [access_cookie EmptyString (-1); refresh_cookie EmptyString (-1)].

Definition generateAccessToken (u : User) : P (res string) :=
  let! now := sample env_now in
  let! jti := sample env_uuid in
  let claims := mkClaims (Some (us_ID u)) (us_Email u) (Some jti) (Some (now + accessTokenExpiration)) now None in
  Ret (jwt_SignedString (mkToken SigningMethodHS256 claims) (ah_jwtSecret h)).

Definition issueTokenPair (u : User) : P (res authResponse) :=
  let? accessToken := generateAccessToken u catch e => Ret (Fail e) in
  let? refreshToken := GenerateRefreshToken catch e => Ret (Fail e) in
  let tokenHash := HashToken refreshToken in
  let! now := sample env_now in
  if_err e := CreateRefreshToken (us_ID u) tokenHash (now + refreshTokenExpiry) then Ret (Fail e) else
  Ret (Ok (mkAuthResponse accessToken refreshToken accessTokenExpiration u)).

(** The end of every endpoint that signs a user in. *)
Definition sign_in (status : Z) (msg : string) (u : User) : P HTTPResponse :=
  let? resp := issueTokenPair u
  catch e => Ret (Error StatusInternalServerError msg) in
  Ret (with_cookies (setAuthCookies (ar_Token resp) (ar_RefreshToken resp))
         (JSON status (BJson (auth_json resp)))).

Definition Register (hd : Headers) (body : option registerRequest) : P HTTPResponse :=
  match body with
  | None => Ret (Error StatusBadRequest "invalid request body")
  | Some req =>
      let provided := if is_empty (rq_RegistrationToken req) then hd_RegistrationToken hd
                      else rq_RegistrationToken req in
      if negb (is_empty (ah_registrationToken h)) && negb (String.eqb provided (ah_registrationToken h)) then
        Ret (Error StatusForbidden "registration is not open")
      else
      match mail_parse (rq_Email req) with
      | None => Ret (Error StatusBadRequest "invalid email format")
      | Some address =>
          let email := NormalizeEmail address in
          if len (rq_Password req) <? minPasswordLen then
            Ret (Error StatusBadRequest "password must be at least 12 characters")
          else
          let? hash := sample (fun t => bcrypt_hash t (rq_Password req))
          catch e => Ret (Error StatusInternalServerError "failed to process registration") in
          let? u := Create email hash (rq_DisplayName req)
          catch e => Ret (if is_pg_code e unique_violation
                          then Error StatusConflict "email already registered"
                          else Error StatusInternalServerError "failed to create user") in
          sign_in StatusCreated "failed to generate tokens" u
      end
  end.

Definition Login (body : option loginRequest) : P HTTPResponse :=
  match body with
  | None => Ret (Error StatusBadRequest "invalid request body")
  | Some req =>
      if is_empty (lq_Email req) || is_empty (lq_Password req) then
        Ret (Error StatusBadRequest "email and password are required")
      else
      let email := NormalizeEmail (lq_Email req) in
      let! allowed := limiter_check email in
      if negb allowed then
        Ret (Error StatusTooManyRequests "too many login attempts, try again later")
      else
      let? u := GetByEmail email
      catch e => Ret (Error StatusInternalServerError "failed to process login") in
      match u with
      | None =>
          limiter_recordFailure email ;;;
          Ret (Error StatusUnauthorized "invalid email or password")
      | Some u =>
          if negb (bcrypt_check (us_PasswordHash u) (lq_Password req)) then
            limiter_recordFailure email ;;;
            Ret (Error StatusUnauthorized "invalid email or password")
          else
          limiter_reset email ;;;
          sign_in StatusOK "failed to generate tokens" u
      end
  end.

(** The body of a request, or else a cookie. *)
Definition or_cookie (body : option string) (cookie : option string) : string :=
  let fromBody := default EmptyString body in
  if is_empty fromBody then default EmptyString cookie else fromBody.

(** [Refresh] from the point where the token has been found valid. *)
Definition rotate (tokenHash userID : string) : P HTTPResponse :=
  let! _e := RevokeRefreshToken tokenHash in
  let? u := GetByID userID catch e => Ret (Error StatusUnauthorized "user not found") in
  match u with
  | None => Ret (Error StatusUnauthorized "user not found")
  | Some u => sign_in StatusOK "failed to generate tokens" u
  end.

Definition Refresh (hd : Headers) (body : option string) : P HTTPResponse :=
  let refreshToken := or_cookie body (hd_RefreshCookie hd) in
  if is_empty refreshToken then Ret (Error StatusBadRequest "refresh_token is required") else
  let tokenHash := HashToken refreshToken in
  let? userID := ValidateRefreshToken tokenHash
  catch e => Ret (Error StatusUnauthorized "invalid or expired refresh token") in
  rotate tokenHash userID.

(** The access token of a request: header first, then cookie. *)
Definition logout_token (hd : Headers) : string :=
  let tokenStr := trim_prefix "Bearer " (hd_Authorization hd) in
  if is_empty tokenStr || String.eqb tokenStr (hd_Authorization hd) then
    match hd_AccessCookie hd with Some c => c | None => tokenStr end
  else tokenStr.

(** Revoking the access token, when it parses and has a jti. *)
Definition revoke_access (tokenStr userID : string) : P unit :=
  let! now := sample env_now in
  match jwt_parse (ah_jwtSecret h) now tokenStr with
  | Some c =>
      match cl_jti c with
      | Some jti =>
          if is_empty jti then Ret tt else
          let! _e := Revoke jti userID (default 0 (cl_exp c)) in Ret tt
      | None => Ret tt
      end
  | None => Ret tt
  end.

Definition Logout (user : option User) (hd : Headers) (body : option string) : P HTTPResponse :=
  match user with
  | None => Ret (Error StatusUnauthorized "not authenticated")
  | Some u =>
      revoke_access (logout_token hd) (us_ID u) ;;;
      (let refreshTokenValue := or_cookie body (hd_RefreshCookie hd) in
       if is_empty refreshTokenValue then Ret tt else
       let! _e := RevokeRefreshToken (HashToken refreshTokenValue) in Ret tt) ;;;
      Ret (with_cookies clearAuthCookies
             (JSON StatusOK (BJson (JObject [("status", JString "logged out")]))))
  end.

Definition ChangePassword (user : option User) (body : option passwordRequest) : P HTTPResponse :=
  match user with
  | None => Ret (Error StatusUnauthorized "not authenticated")
  | Some u =>
  match body with
  | None => Ret (Error StatusBadRequest "invalid request body")
  | Some req =>
      if is_empty (pq_Old req) || is_empty (pq_New req) then
        Ret (Error StatusBadRequest "old_password and new_password are required")
      else if len (pq_New req) <? minPasswordLen then
        Ret (Error StatusBadRequest "new password must be at least 12 characters")
      else if negb (bcrypt_check (us_PasswordHash u) (pq_Old req)) then
        Ret (Error StatusUnauthorized "incorrect current password")
      else
      let? hash := sample (fun t => bcrypt_hash t (pq_New req))
      catch e => Ret (Error StatusInternalServerError "failed to update password") in
      if_err e := UpdatePassword (us_ID u) hash then
        Ret (Error StatusInternalServerError "failed to update password")
      else
      let! _e := RevokeAllUserRefreshTokens (us_ID u) in
      sign_in StatusOK "password updated but failed to generate new tokens" u
  end
  end.

Definition Me (user : option User) : P HTTPResponse :=
  match user with
  | None => Ret (Error StatusUnauthorized "not authenticated")
  | Some u => Ret (JSON StatusOK (BJson (user_view u)))
  end.

(** ** Middleware *)

(** Header first, then the cookie when it is not empty. *)
Definition bearer (hd : Headers) : string :=
  match trim_prefix_opt "Bearer " (hd_Authorization hd) with
  | Some t => t
  | None => default EmptyString (hd_AccessCookie hd)
  end.

Definition JWTAuth (hd : Headers) (next : User -> P HTTPResponse) : P HTTPResponse :=
  let tokenStr := bearer hd in
  if is_empty tokenStr then Ret (Error StatusUnauthorized "missing authorization") else
  let! now := sample env_now in
  match jwt_parse (ah_jwtSecret h) now tokenStr with
  | None => Ret (Error StatusUnauthorized "invalid or expired token")
  | Some c =>
      let? revoked := (match cl_jti c with
                       | Some jti => if is_empty jti then Ret (Ok false) else IsRevoked jti
                       | None => Ret (Ok false)
                       end)
      catch e => Ret (Error StatusInternalServerError "failed to verify token") in
      if (revoked : bool) then Ret (Error StatusUnauthorized "token has been revoked") else
      match cl_sub c with
      | None => Ret (Error StatusUnauthorized "invalid token subject")
      | Some sub =>
      match uuid_parse sub with
      | None => Ret (Error StatusUnauthorized "invalid user ID in token")
      | Some userID =>
          let? u := GetByID userID
          catch e => Ret (Error StatusInternalServerError "failed to verify user") in
          match u with
          | None => Ret (Error StatusUnauthorized "user not found")
          | Some u => next u
          end
      end
      end
  end.

(** ** Janitor *)

(** [Janitor.CleanOnce]; [tokens] tells whether it was given a token store. *)
Definition CleanOnce (tokens : bool) : P unit :=
  (if tokens then let! _e := Cleanup in Ret tt else Ret tt) ;;;
  limiter_sweep.

(** [Janitor.Run] until the context is cancelled after [ticks] ticks of the timer. *)
Fixpoint JanitorRun (tokens : bool) (ticks : nat) : P unit :=
  CleanOnce tokens ;;; match ticks with O => Ret tt | S n => JanitorRun tokens n end.

End Handlers.
