(* ===== verification/AuthSpec.v ===== *)
(** * What authentication guarantees

    The login limiter, sign-in, rotation of refresh tokens, password changes,
    logout and the janitor. *)

From stdpp Require Import gmap strings list fin_maps.
From Stdlib Require Import ZArith Lia Ascii.
From S2P Require Import Prelude GoStrings World Response GoJson GoJsonText GoJsonPrint Tables AuthStore AuthHandler.
From S2P Require NodeStore Crypto.

Open Scope Z_scope.

(** ** The limiter *)

(** The critical sections of the limiter: what logins and the janitor do to it,
    each at a time, in the order the mutex puts them. Logins overlap freely: the
    [Attempted] of one may stand between the [Attempted] and the [Failed] of
    another. *)
Inductive LimiterOp :=
| Attempted (email : string)
| Failed (email : string)
| Succeeded (email : string)
| Swept.

Definition limiter_op (m : gmap string limitEntry) (x : Z * LimiterOp) : gmap string limitEntry :=
  match x.2 with
  | Attempted email => (check x.1 email m).2
  | Failed email => recordFailure x.1 email m
  | Succeeded email => reset email m
  | Swept => sweep x.1 m
  end.

(** The limiter after a history, from the start of the process. *)
Definition limiter_after (hist : list (Z * LimiterOp)) : gmap string limitEntry := fold_left limiter_op hist ∅.

Definition is_failure (email : string) (x : Z * LimiterOp) : bool :=
  match x.2 with Failed e => String.eqb e email | _ => false end.
Definition failures (email : string) (hist : list (Z * LimiterOp)) : nat :=
  length (List.filter (is_failure email) hist).

(** The addresses that failed. *)
Definition failing (hist : list (Z * LimiterOp)) : gset string :=
  list_to_set (omap (fun x => match x.2 with Failed e => Some e | _ => None end) hist).

Lemma limiter_after_snoc hist x : limiter_after (hist ++ [x]) = limiter_op (limiter_after hist) x.
Proof. unfold limiter_after. by rewrite fold_left_app. Qed.

Lemma failures_app email h1 h2 : failures email (h1 ++ h2) = (failures email h1 + failures email h2)%nat.
Proof. unfold failures. by rewrite List.filter_app, length_app. Qed.

Lemma sweep_lookup t m e x : sweep t m !! e = Some x <-> m !! e = Some x /\ expired t x = false.
Proof. unfold sweep. by rewrite map_lookup_filter_Some. Qed.

Lemma makeRoom_lookup t m e x : makeRoom t m !! e = Some x -> m !! e = Some x.
Proof.
  unfold makeRoom. destruct (_ <? _); [done|]. cbv zeta. destruct (_ <? _).
  - by intros [? _]%sweep_lookup.
  - intros [_ Hx]%lookup_delete_Some. by apply sweep_lookup in Hx as [? _].
Qed.

(** Where the entry of an address comes from. *)
Lemma entry_origin hist email f last :
  limiter_after hist !! email = Some (mkLimit f last) ->
  exists h1 h2, hist = h1 ++ h2 /\ (forall t, (t, Succeeded email) ∉ h2) /\
    1 <= f <= Z.of_nat (failures email h2) /\ (last, Failed email) ∈ h2.
Proof.
  revert f last. induction hist as [|[t x] hist IH] using rev_ind; intros f last; [unfold limiter_after; cbn [fold_left]; by rewrite lookup_empty|].
  rewrite limiter_after_snoc. unfold limiter_op. cbn [fst snd].
  assert (limiter_after hist !! email = Some (mkLimit f last) -> x <> Succeeded email ->
    exists h1 h2, hist ++ [(t, x)] = h1 ++ h2 /\ (forall t, (t, Succeeded email) ∉ h2) /\
      1 <= f <= Z.of_nat (failures email h2) /\ (last, Failed email) ∈ h2) as Hkeep.
  { intros Hm Hx. destruct (IH f last Hm) as (h1 & h2 & -> & Hs & Hf & Hin). exists h1, (h2 ++ [(t, x)]).
    rewrite failures_app, app_assoc, !elem_of_app. split_and!; [done| |lia|lia|by left].
    intros t'. rewrite elem_of_app, list_elem_of_singleton. intros [?|[= _ <-]]; [by eapply Hs|done]. }
  destruct x as [e|e|e|].
  - unfold check. destruct (limiter_after hist !! e) as [ent|] eqn:Ee; [|intros; by apply Hkeep].
    destruct (expired t ent); simpl; [intros [_ ?]%lookup_delete_Some|intros ?]; by apply Hkeep.
  - unfold recordFailure. destruct (limiter_after hist !! e) as [ent|] eqn:Ee.
    + intros [[-> [= <- <-]]|[Hne ?]]%lookup_insert_Some; [|by apply Hkeep].
      destruct ent as [f0 l0]. destruct (IH _ _ Ee) as (h1 & h2 & -> & Hs & Hf & Hin). exists h1, (h2 ++ [(t, Failed email)]).
      rewrite failures_app, app_assoc, !elem_of_app, list_elem_of_singleton.
      split; [done|]. split; [|split; [|by right]].
      * intros t'. rewrite elem_of_app, list_elem_of_singleton. intros [?|[=]]; by eapply Hs.
      * unfold failures at 2. cbn [List.filter is_failure snd]. rewrite String.eqb_refl. simpl in *. lia.
    + intros [[-> [= <- <-]]|[Hne ?%makeRoom_lookup]]%lookup_insert_Some; [|by apply Hkeep].
      exists hist, [(t, Failed email)].
      split; [done|]. split; [|split; [|by apply list_elem_of_singleton]].
      * intros t'. rewrite list_elem_of_singleton. by intros [=].
      * unfold failures. cbn [List.filter is_failure snd]. rewrite String.eqb_refl. simpl. lia.
  - unfold reset. intros [Hne Hm]%lookup_delete_Some. apply Hkeep; [done|congruence].
  - intros [? _]%sweep_lookup. by apply Hkeep.
Qed.

(** Only addresses that failed have entries; so with ten thousand of them no
    entry is ever evicted. *)
Lemma entries_failing hist : dom (limiter_after hist) ⊆ failing hist.
Proof.
  intros e [[f l] Hm]%elem_of_dom. apply entry_origin in Hm as (h1 & h2 & -> & _ & _ & Hin).
  unfold failing. rewrite elem_of_list_to_set, list_elem_of_omap. exists (l, Failed e).
  by rewrite elem_of_app; auto.
Qed.

Lemma failing_mono h x : failing h ⊆ failing (h ++ x).
Proof. unfold failing. rewrite omap_app, list_to_set_app_L. set_solver. Qed.

Lemma room_left hist t e (addrs : gset string) :
  failing hist ⊆ addrs -> e ∈ addrs -> Z.of_nat (size addrs) <= maxLimiterEntries -> limiter_after hist !! e = None ->
  makeRoom t (limiter_after hist) = limiter_after hist.
Proof.
  intros Hsub He Hs Hn. unfold makeRoom. destruct (Z.ltb_spec (entries_count (limiter_after hist)) maxLimiterEntries) as [|Hge]; [done|].
  exfalso. unfold entries_count in Hge. rewrite <- size_dom in Hge.
  assert (size (dom (limiter_after hist)) <= size (addrs ∖ {[e]}))%nat as Hle.
  { apply subseteq_size. pose proof (entries_failing hist). apply not_elem_of_dom in Hn. set_solver. }
  rewrite size_difference, size_singleton in Hle by set_solver.
  assert (size addrs <> 0)%nat by (intros E0; apply size_empty_inv in E0; set_solver). lia.
Qed.

(** Failures inside one window are all counted. *)
Lemma window_counts email (addrs : gset string) T h1 h2 :
  Z.of_nat (size addrs) <= maxLimiterEntries -> failing (h1 ++ h2) ⊆ addrs ->
  (forall x, x ∈ h2 -> T <= x.1 <= T + loginLimitWindow) -> (forall t, (t, Succeeded email) ∉ h2) ->
  (0 < failures email h2)%nat ->
  exists f last, limiter_after (h1 ++ h2) !! email = Some (mkLimit f last) /\
    Z.of_nat (failures email h2) <= f /\ T <= last.
Proof.
  intros Hsize. induction h2 as [|[t x] h2 IH] using rev_ind; [intros; unfold failures in *; simpl in *; lia|].
  intros Hsub Hwin Hno Hpos.
  assert (failing (h1 ++ h2) ⊆ addrs) as Hsub'.
  { etrans; [|exact Hsub]. rewrite app_assoc. apply failing_mono. }
  assert (T <= t <= T + loginLimitWindow) as Ht.
  { apply (Hwin (t, x)). rewrite elem_of_app, list_elem_of_singleton. by right. }
  assert (failures email (h2 ++ [(t, x)]) = (failures email h2 + (if is_failure email (t, x) then 1 else 0))%nat) as Ef.
  { rewrite failures_app. f_equal. unfold failures. cbn [List.filter]. by destruct (is_failure email (t, x)). }
  assert ((0 < failures email h2)%nat -> exists f last, limiter_after (h1 ++ h2) !! email = Some (mkLimit f last) /\
    Z.of_nat (failures email h2) <= f /\ T <= last) as IH'.
  { intros Hp. apply IH; [done| | |done].
    - intros y Hy. apply Hwin. rewrite elem_of_app. by left.
    - intros t' Hin. apply (Hno t'). rewrite elem_of_app. by left. }
  rewrite app_assoc, limiter_after_snoc. rewrite Ef in Hpos |- *. unfold limiter_op. cbn [fst snd].
  set (m := limiter_after (h1 ++ h2)) in *.
  destruct (is_failure email (t, x)) eqn:Ex.
  { unfold is_failure in Ex. destruct x as [|e| |]; try done. apply String.eqb_eq in Ex. subst e.
    unfold recordFailure. destruct (m !! email) as [[f l]|] eqn:Em.
    - rewrite lookup_insert_eq. eexists _, _. split; [done|]. cbn [li_failures]. split; [|lia].
      destruct (decide (failures email h2 = 0%nat)) as [E0|]; [|destruct IH' as (f' & l' & [= -> ->] & ? & ?); lia].
      apply entry_origin in Em as (? & ? & _ & _ & ? & _). lia.
    - rewrite lookup_insert_eq. eexists _, _. split; [done|]. cbn [li_failures]. split; [|lia].
      destruct (decide (failures email h2 = 0%nat)) as [->|]; [lia|]. destruct IH' as (f' & l' & [=] & _). lia. }
  rewrite Nat.add_0_r in *. destruct (IH' Hpos) as (f & l & Em & Hf & Hl). exists f, l. split; [|done].
  assert (expired t (mkLimit f l) = false) as Hexp by (unfold expired; cbn [li_lastFail]; apply Z.ltb_ge; lia).
  destruct x as [e|e|e|].
  - unfold check. destruct (m !! e) as [ent|] eqn:Ee; [|done]. destruct (expired t ent) eqn:Ex2; [|done].
    cbn [snd]. rewrite lookup_delete_ne; [done|]. intros ->. congruence.
  - unfold is_failure in Ex. cbn [snd] in Ex. apply String.eqb_neq in Ex. unfold recordFailure.
    destruct (m !! e) eqn:Ee; rewrite lookup_insert_ne by done; [done|].
    unfold m. rewrite (room_left _ t e addrs); [done..| |done|done]. apply Hsub.
    unfold failing. rewrite elem_of_list_to_set, list_elem_of_omap. exists (t, Failed e).
    by rewrite !elem_of_app, list_elem_of_singleton; auto.
  - unfold reset. rewrite lookup_delete_ne; [done|]. intros ->. apply (Hno t).
    rewrite elem_of_app, list_elem_of_singleton. by right.
  - by apply sweep_lookup.
Qed.

Lemma limiter_bounded hist : entries_count (limiter_after hist) <= maxLimiterEntries.
Proof.
  induction hist as [|[t x] hist IH] using rev_ind; [done|]. rewrite limiter_after_snoc. unfold limiter_op. cbn [fst snd].
  destruct x as [e|e|e|].
  - unfold check. destruct (_ !! e) as [ent|]; [|done]. destruct (expired t ent); [|done]. by apply delete_bounded.
  - by apply recordFailure_bounded.
  - by apply delete_bounded.
  - by apply sweep_bounded.
Qed.

(** C19. What the login limiter guarantees, over every history of its operations:
    logins of any addresses, overlapping in any way, and the janitor, from the
    start of the process. Five failures for an address within fifteen minutes,
    without a success of it between them, lock the address until those fifteen
    minutes are over, as long as no more than 10,000 addresses have failed. An
    address is refused only if at least five failures of it stand behind its last
    success, one of them at most fifteen minutes ago. And whatever happens, the
    limiter holds at most 10,000 addresses. *)
Theorem limiter_lockout (email : string) :
  (forall h1 h2 T now, Z.of_nat (size (failing (h1 ++ h2))) <= 10000 ->
     (forall t x, (t, x) ∈ h2 -> T <= t <= T + 15 * 60) -> (forall t, (t, Succeeded email) ∉ h2) ->
     (5 <= failures email h2)%nat -> now <= T + 15 * 60 ->
     (check now email (limiter_after (h1 ++ h2))).1 = false) /\
  (forall hist now, (check now email (limiter_after hist)).1 = false ->
     exists h1 h2 last, hist = h1 ++ h2 /\ (forall t, (t, Succeeded email) ∉ h2) /\
       (5 <= failures email h2)%nat /\ (last, Failed email) ∈ h2 /\ now - last <= 15 * 60) /\
  (forall hist, entries_count (limiter_after hist) <= 10000).
Proof.
  split_and!; [| |apply limiter_bounded].
  - intros h1 h2 T now Hsize Hwin Hno Hfive Hnow.
    destruct (window_counts email (failing (h1 ++ h2)) T h1 h2) as (f & l & Em & Hf & Hl); [done|done| |done|lia|].
    { intros [t x] Hin. by apply (Hwin t x). }
    unfold check. rewrite Em. unfold expired, loginLimitWindow, maxLoginAttempts. cbn [li_lastFail li_failures].
    destruct (Z.ltb_spec (15 * 60) (now - l)); [lia|]. apply Z.ltb_ge. lia.
  - intros hist now. unfold check. destruct (limiter_after hist !! email) as [[f l]|] eqn:Em; [|done].
    unfold expired, loginLimitWindow, maxLoginAttempts. cbn [li_lastFail li_failures].
    destruct (Z.ltb_spec (15 * 60) (now - l)); [done|]. cbn [fst]. intros Hf%Z.ltb_ge.
    apply entry_origin in Em as (h1 & h2 & -> & Hs & Hc & Hin). exists h1, h2, l. split_and!; [done..|lia|done|lia].
Qed.


(** ** Refresh tokens *)

(** The hash is accepted at [now], for user [uid]. *)
Definition valid_at (now : Z) (hash uid : string) (w : World) : Prop :=
  exists id r, refresh_tokens w !! id = Some r /\ usable now hash r = true /\ rt_UserID r = uid.

Lemma usable_spec now hash r :
  usable now hash r = true <-> rt_TokenHash r = hash /\ now < rt_ExpiresAt r /\ rt_RevokedAt r = None.
Proof.
  unfold usable. rewrite !andb_true_iff, String.eqb_eq, Z.ltb_lt.
  destruct (rt_RevokedAt r); split; intros H; intuition (try done).
Qed.

Lemma revoke_row_hash t cond r : rt_TokenHash (revoke_row t cond r) = rt_TokenHash r.
Proof. unfold revoke_row. destruct (rt_RevokedAt r); [done|]. by destruct (cond r). Qed.

Lemma valid_at_same w w' now hash uid :
  refresh_tokens w' = refresh_tokens w -> valid_at now hash uid w' <-> valid_at now hash uid w.
Proof. unfold valid_at. by intros ->. Qed.

Lemma valid_at_revoke w w' t cond now hash uid :
  refresh_tokens w' = revoke_row t cond <$> refresh_tokens w ->
  valid_at now hash uid w' <->
  exists id r, refresh_tokens w !! id = Some r /\ usable now hash r = true /\ rt_UserID r = uid /\ cond r = false.
Proof.
  intros E. unfold valid_at. rewrite E. setoid_rewrite lookup_fmap. split.
  - intros (id & r' & Hr & Hu & Hid). apply fmap_Some in Hr as (r & Hr & ->). exists id, r.
    unfold revoke_row in Hu, Hid. destruct (rt_RevokedAt r) eqn:Er.
    { apply usable_spec in Hu as (_&_&Hn). congruence. }
    destruct (cond r) eqn:Ec; [|done]. apply usable_spec in Hu as (_&_&Hn). simpl in Hn. done.
  - intros (id & r & Hr & Hu & Hid & Hc). exists id, r. rewrite Hr. split; [|done]. simpl. f_equal.
    unfold revoke_row. apply usable_spec in Hu as (_&_&->). by rewrite Hc.
Qed.

Lemma valid_at_revoked_hash w w' t old now hash uid :
  refresh_tokens w' = revoke_row t (fun r => String.eqb (rt_TokenHash r) old) <$> refresh_tokens w ->
  valid_at now hash uid w' <-> valid_at now hash uid w /\ hash <> old.
Proof.
  intros E. rewrite (valid_at_revoke _ _ _ _ _ _ _ E). unfold valid_at. split.
  - intros (id & r & Hr & Hu & Hid & Hc%String.eqb_neq). split; [by exists id, r|].
    apply usable_spec in Hu as [<- _]. done.
  - intros [(id & r & Hr & Hu & Hid) Hne]. exists id, r. split_and!; [done..|].
    apply String.eqb_neq. apply usable_spec in Hu as [-> _]. done.
Qed.

Lemma valid_at_revoked_user w w' t u now hash uid :
  refresh_tokens w' = revoke_row t (fun r => String.eqb (rt_UserID r) u) <$> refresh_tokens w ->
  valid_at now hash uid w' <-> valid_at now hash uid w /\ uid <> u.
Proof.
  intros E. rewrite (valid_at_revoke _ _ _ _ _ _ _ E). unfold valid_at. split.
  - intros (id & r & Hr & Hu & <- & Hc%String.eqb_neq). split; [by exists id, r|done].
  - intros [(id & r & Hr & Hu & <-) Hne]. exists id, r. split_and!; [done..|]. by apply String.eqb_neq.
Qed.

Section Specs.
Context `{Env} `{AuthLib} (h : Handler).

(** What a fresh pair adds: one row for the hash of a token no row had. *)
Definition issued (uid tok : string) (w w' : World) : Prop :=
  exists id t1 t2, refresh_tokens w !! id = None /\
    (forall k r, refresh_tokens w !! k = Some r -> rt_TokenHash r <> HashToken tok) /\
    is_Some (users w !! uid) /\
    w_auth w' = with_refresh (<[id := mkRefresh id uid (HashToken tok) (t1 + refreshTokenExpiry) t2 None]>
      (refresh_tokens w)) (w_auth w).

Lemma issued_valid uid tok w w' :
  issued uid tok w w' -> exists t1, forall now hash u,
    valid_at now hash u w' <->
    valid_at now hash u w \/ (hash = HashToken tok /\ u = uid /\ now < t1 + refreshTokenExpiry).
Proof.
  intros (id & t1 & t2 & Hid & _ & _ & E). exists t1. intros now hash u.
  assert (refresh_tokens w' = <[id := mkRefresh id uid (HashToken tok) (t1 + refreshTokenExpiry) t2 None]>
    (refresh_tokens w)) as E2 by (unfold refresh_tokens; by rewrite E).
  unfold valid_at. rewrite E2. split.
  - intros (k & r & Hr & Hu & Hid2). rewrite lookup_insert in Hr. case_decide; [|left; by exists k, r].
    injection Hr as <-. apply usable_spec in Hu as (<- & Ht & _). simpl in *. by right.
  - intros [(k & r & Hr & Hu & Hid2)|(-> & -> & Ht)].
    + exists k, r. split_and!; [|done|done]. rewrite lookup_insert. case_decide; [congruence|done].
    + exists id. eexists. rewrite lookup_insert_eq. split_and!; [done| |done]. by apply usable_spec.
Qed.

Lemma wp_auth_stmt {A} (f : World -> res A * World) Q w :
  (forall e w', unchanged w w' -> (exists m, env_fault (w_tick w) = Some m) -> Q (Fail e) w') ->
  (forall w1, unchanged w w1 -> Q (f w1).1 (f w1).2) ->
  wp (stmt f) Q w.
Proof.
  intros HF HS. apply wp_stmt; intros.
  - apply HF; [done|by eexists].
  - by apply HS.
Qed.

Lemma unchanged_auth w w' : unchanged w w' -> w_auth w' = w_auth w.
Proof. by intros [(_&_&_&_&?&_) _]. Qed.

Lemma wp_issue u Q w :
  (forall e w', w_auth w' = w_auth w -> Q (Fail e) w') ->
  (forall acc tok w', issued (us_ID u) tok w w' ->
     Q (Ok (mkAuthResponse acc tok accessTokenExpiration u)) w') ->
  wp (issueTokenPair h u) Q w.
Proof.
  intros HF HS. apply wp_bind. unfold generateAccessToken.
  apply wp_bind, wp_sample. intros w1 Hu1. apply wp_bind, wp_sample. intros w2 Hu2. apply wp_ret.
  destruct (jwt_SignedString _ _) as [acc|e]; [|apply wp_ret, HF, unchanged_auth; by etrans].
  apply wp_bind. unfold GenerateRefreshToken. apply wp_bind, wp_sample. intros w3 Hu3.
  assert (unchanged w w3) as Hu by (etrans; [exact Hu1|]; by etrans).
  destruct (env_rand _ _) as [b|e]; apply wp_ret; [|by apply wp_ret, HF, unchanged_auth].
  cbv zeta. apply wp_bind, wp_sample. intros w4 Hu4. apply wp_bind. unfold CreateRefreshToken.
  assert (unchanged w w4) as Hw4 by by etrans.
  apply wp_bind, wp_auth_stmt.
  { intros e w5 Hu5 _. apply wp_ret, wp_ret, HF, unchanged_auth. by etrans. }
  intros w5 Hu5. assert (w_auth w5 = w_auth w) as Ea by (apply unchanged_auth; by etrans).
  unfold insert_refresh. destruct (_ || _) eqn:Ec; simpl; [by apply wp_ret, wp_ret, HF|].
  apply orb_false_elim in Ec as [Hid Hh]. apply bool_decide_eq_false in Hid.
  destruct (bool_decide (is_Some (users w5 !! us_ID u))) eqn:Eu; simpl; [|by apply wp_ret, wp_ret, HF].
  apply bool_decide_eq_true in Eu. apply wp_ret, wp_ret, HS.
  exists (env_uuid (w_tick w5)), (env_now (w_tick w3)), (env_now (w_tick w5)).
  unfold refresh_tokens, users in *. rewrite Ea in *. split_and!; [| |done|].
  - by apply eq_None_not_Some.
  - intros k r Hr Heq. apply not_true_iff_false in Hh. apply Hh, existsb_exists. exists r.
    split; [|by apply String.eqb_eq]. apply list_elem_of_In, elem_of_rows. by exists k.
  - simpl. by rewrite ?Ea.
Qed.

Lemma wp_sign_in status msg u Q w :
  (forall w', w_auth w' = w_auth w -> Q (Error StatusInternalServerError msg) w') ->
  (forall acc tok w' b, issued (us_ID u) tok w w' ->
     Q (with_cookies (setAuthCookies h acc tok) (JSON status b)) w') ->
  wp (sign_in h status msg u) Q w.
Proof.
  intros HF HS. apply wp_bind, wp_issue.
  - intros e w' E. by apply wp_ret, HF.
  - intros acc tok w' Hi. apply wp_ret. by apply HS.
Qed.

(** ** Sign-in *)

Lemma wp_limited {A} (f : Z -> gmap string limitEntry -> A * gmap string limitEntry) Q w :
  (forall w' t, w_auth w' = with_limiter (f t (limiter w)).2 (w_auth w) ->
     Q (f t (limiter w)).1 w') -> wp (limited f) Q w.
Proof. intros HQ. apply wp_atom. by apply HQ. Qed.

(** What a login may do to the limiter and the tables. *)
Definition login_outcome (body : option loginRequest) (w : World) (r : HTTPResponse) (w' : World) : Prop :=
  users w' = users w /\
  (r_Status r <> StatusOK -> refresh_tokens w' = refresh_tokens w) /\
  (r_Status r = StatusOK -> exists req id u t, body = Some req /\ users w !! id = Some u /\
     env_lower (us_Email u) = env_lower (NormalizeEmail (lq_Email req)) /\
     bcrypt_check (us_PasswordHash u) (lq_Password req) = true /\
     (check t (NormalizeEmail (lq_Email req)) (limiter w)).1 = true /\
     limiter w' !! NormalizeEmail (lq_Email req) = None) /\
  (r_Status r = StatusUnauthorized -> r = Error StatusUnauthorized "invalid email or password" /\
     exists req t1 t2, body = Some req /\
       limiter w' = recordFailure t2 (NormalizeEmail (lq_Email req))
                      (check t1 (NormalizeEmail (lq_Email req)) (limiter w)).2) /\
  (r_Status r = StatusTooManyRequests -> w_auth w' = w_auth w).

Lemma login_same body w r w' :
  w_auth w' = w_auth w -> r_Status r <> StatusOK -> r_Status r <> StatusUnauthorized ->
  login_outcome body w r w'.
Proof. intros E H1 H2. unfold login_outcome, users, refresh_tokens. rewrite E. by split_and!. Qed.

(** A wrong password or an unknown address. *)
Lemma wp_login_failed req t1 m1 w w2 :
  check t1 (NormalizeEmail (lq_Email req)) (limiter w) = (true, m1) ->
  users w2 = users w -> refresh_tokens w2 = refresh_tokens w -> limiter w2 = m1 ->
  wp (limiter_recordFailure (NormalizeEmail (lq_Email req)) ;;;
      Ret (Error StatusUnauthorized "invalid email or password")) (login_outcome (Some req) w) w2.
Proof.
  intros Ec Eu Er El. apply wp_bind, wp_limited. intros w3 t2 E3. apply wp_ret. unfold login_outcome.
  assert (users w3 = users w /\ refresh_tokens w3 = refresh_tokens w) as [Eu3 Er3]
    by (unfold users, refresh_tokens in *; by rewrite E3).
  split_and!; [done|done|done| |done]. intros _. split; [done|]. exists req, t1, t2. split_and!; try done.
  all: unfold limiter in *; by rewrite E3, ?Ec, ?El.
Qed.

(** C17. Signing in. In every state and under every pattern of failures: a 200
    is given only to an address that is not locked out, for an account whose
    stored hash accepts the password, and it clears the address's failures. A
    401 is the same answer whether the account exists or not, and it counts one
    failure against the normalised address. Refresh tokens are issued only with
    a 200, and a locked-out attempt changes nothing at all. *)
Theorem Login_sound (body : option loginRequest) (w : World) :
  wp (Login h body) (login_outcome body w) w.
Proof.
  unfold Login. destruct body as [req|]; [|by apply wp_ret, login_same].
  destruct (_ || _); [by apply wp_ret, login_same|]. cbv zeta.
  set (email := NormalizeEmail (lq_Email req)).
  apply wp_bind, wp_limited. intros w1 t1 E1.
  destruct (check t1 email (limiter w)) as [allowed m1] eqn:Ec. cbn [fst snd] in *.
  destruct allowed; cbn [negb].
  2:{ assert (m1 = limiter w) as ->.
      { unfold check in Ec. destruct (limiter w !! email) as [e|]; [|by injection Ec].
        by destruct (expired t1 e); injection Ec. }
      apply wp_ret, login_same; [|done..]. rewrite E1. unfold limiter, with_limiter. by destruct (w_auth w). }
  assert (users w1 = users w /\ refresh_tokens w1 = refresh_tokens w /\ limiter w1 = m1) as (Eu & Er & El)
    by (unfold users, refresh_tokens, limiter; by rewrite E1).
  apply wp_bind. unfold GetByEmail. apply wp_bind, wp_query; [intros m w2 Hu _|intros w2 Hu _];
    pose proof (unchanged_auth _ _ Hu) as E2; apply wp_ret.
  { apply wp_ret. unfold login_outcome, users, refresh_tokens. rewrite E2, E1. by split_and!. }
  assert (wp (limiter_recordFailure email ;;; Ret (Error StatusUnauthorized "invalid email or password"))
    (login_outcome (Some req) w) w2) as Hfail.
  { apply (wp_login_failed req t1 m1); [done|..]; unfold users, refresh_tokens, limiter in *; by rewrite E2. }
  destruct (first_by _ _) as [u|] eqn:Ef; [|exact Hfail].
  apply first_by_elem, elem_of_select in Ef as [Hmail%String.eqb_eq [id Hid]].
  destruct (bcrypt_check _ _) eqn:Eb; cbn [negb]; [|exact Hfail].
  apply wp_bind, wp_limited. intros w3 t3 E3. simpl in E3.
  assert (users w3 = users w /\ refresh_tokens w3 = refresh_tokens w) as [Eu3 Er3]
    by (unfold users, refresh_tokens in *; rewrite E3; simpl; by rewrite E2).
  assert (limiter w3 !! email = None) as El3
    by (unfold limiter; rewrite E3; apply lookup_delete_eq).
  apply wp_sign_in.
  - intros w4 E4. unfold login_outcome, users, refresh_tokens in *. rewrite E4. by split_and!.
  - intros acc tok w4 b (k & ta & tb & _ & _ & _ & E4). unfold login_outcome.
    split_and!; [|done| |done|done].
    + unfold users in *. by rewrite E4.
    + intros _. exists req, id, u, t1. fold email. rewrite Ec. split_and!; try done.
      * rewrite <- Eu. unfold users in *. by rewrite <- E2.
      * unfold limiter in *. by rewrite E4.
Qed.

(** ** Rotation *)

Lemma wp_revoke_where (cond : RefreshRow -> bool) Q w :
  (forall e w', unchanged w w' -> (exists m, env_fault (w_tick w) = Some m) -> Q (Some e) w') ->
  (forall w' t, w_auth w' = with_refresh (revoke_row t cond <$> refresh_tokens w) (w_auth w) -> Q None w') ->
  wp (let? _tag := stmt (revoke_where cond) catch e => Ret (Some e) in Ret None) Q w.
Proof.
  intros HF HS. apply wp_bind, wp_auth_stmt; [intros; apply wp_ret; by eapply HF|].
  intros w1 Hu. apply wp_ret. eapply HS. simpl. unfold refresh_tokens. by rewrite (unchanged_auth _ _ Hu).
Qed.

(** What is left of the tokens once [hash] was revoked, or could not be. *)
Definition retired (hash : string) (w w' : World) : Prop :=
  (exists t, refresh_tokens w' = revoke_row t (fun r => String.eqb (rt_TokenHash r) hash) <$> refresh_tokens w) \/
  (faulty /\ refresh_tokens w' = refresh_tokens w).

(** From a validated token: a new pair, and the old hash is revoked. *)
Lemma wp_rotate hash uid u w :
  users w !! uid = Some u -> us_ID u = uid ->
  wp (rotate h hash uid) (fun r w' =>
    (r_Status r = StatusUnauthorized /\ faulty) \/
    (r = Error StatusInternalServerError "failed to generate tokens" /\ retired hash w w') \/
    exists w1 tok acc, r_Status r = StatusOK /\ r_Cookies r = setAuthCookies h acc tok /\
      retired hash w w1 /\ users w1 = users w /\ issued uid tok w1 w') w.
Proof.
  intros Hu Hid. apply wp_bind.
  eapply (wp_mono _ (fun _ w1 => retired hash w w1 /\ users w1 = users w)).
  { apply wp_revoke_where.
    - intros e w1 Hu1 [m Hf]. unfold retired, refresh_tokens, users. rewrite (unchanged_auth _ _ Hu1).
      split; [right|done]. split; [by eexists; eexists|done].
    - intros w1 t E1. unfold retired, refresh_tokens, users. rewrite E1. split; [left; by exists t|done]. }
  intros ? w1 [Hret Eu]. apply wp_bind. unfold GetByID. apply wp_bind, wp_query.
  { intros m w2 _ Hf. apply wp_ret, wp_ret. left. split; [done|by eexists; eexists]. }
  intros w2 Hu2 _. pose proof (unchanged_auth _ _ Hu2) as E2. apply wp_ret.
  assert (users w2 !! uid = Some u) as -> by (unfold users in *; by rewrite E2, Eu).
  assert (retired hash w w2) as Hret2 by (unfold retired, refresh_tokens in *; by rewrite E2).
  apply wp_sign_in.
  - intros w3 E3. right. left. split; [done|]. unfold retired, refresh_tokens in *. by rewrite E3.
  - intros acc tok w3 b Hi. right. right. exists w2, tok, acc. rewrite <- Hid. split_and!; try done.
    unfold users in *. by rewrite E2.
Qed.

Lemma wp_rotate_up (Hup : forall t, env_fault t = None) hash uid u w :
  users w !! uid = Some u -> us_ID u = uid ->
  wp (rotate h hash uid) (fun r w' =>
    (r = Error StatusInternalServerError "failed to generate tokens" /\
     exists t, refresh_tokens w' = revoke_row t (fun r => String.eqb (rt_TokenHash r) hash) <$> refresh_tokens w) \/
    exists w1 t tok acc, r_Status r = StatusOK /\ r_Cookies r = setAuthCookies h acc tok /\
      refresh_tokens w1 = revoke_row t (fun r => String.eqb (rt_TokenHash r) hash) <$> refresh_tokens w /\
      users w1 = users w /\ issued uid tok w1 w') w.
Proof.
  intros Hu Hid. pose proof (up_not_faulty Hup) as Hf. eapply wp_mono; [by eapply wp_rotate|].
  intros r w' [[_ ?]|[[? [?|[? _]]]|(w1 & tok & acc & ? & ? & [[t ?]|[? _]] & ?)]]; [done|by left|done| |done].
  right. exists w1, t, tok, acc. tauto.
Qed.

Lemma wp_rotate_gone hash uid w :
  users w !! uid = None -> wp (rotate h hash uid) (fun r _ => r_Status r = StatusUnauthorized) w.
Proof.
  intros Hu. apply wp_bind. eapply (wp_mono _ (fun _ w1 => users w1 = users w)).
  { apply wp_revoke_where; [intros e w1 H1 _|intros w1 t E1]; unfold users;
      [by rewrite (unchanged_auth _ _ H1)|by rewrite E1]. }
  intros ? w1 E1. apply wp_bind. unfold GetByID. apply wp_bind, wp_query; [intros m w2 _ _; by apply wp_ret, wp_ret|].
  intros w2 H2 _. apply wp_ret. assert (users w2 = users w) as -> by (unfold users; rewrite (unchanged_auth _ _ H2); exact E1).
  rewrite Hu. by apply wp_ret.
Qed.

Lemma retired_valid hash w w1 :
  retired hash w w1 ->
  (forall now h' u, valid_at now h' u w1 <-> valid_at now h' u w /\ h' <> hash) \/
  (faulty /\ forall now h' u, valid_at now h' u w1 <-> valid_at now h' u w).
Proof.
  intros [[t E]|[Hf E]].
  - left. intros now h' u. by apply (valid_at_revoked_hash w w1 t).
  - right. split; [done|]. intros now h' u. unfold valid_at. by rewrite E.
Qed.

Lemma retired_row hash w w1 k r :
  retired hash w w1 -> refresh_tokens w !! k = Some r ->
  exists r', refresh_tokens w1 !! k = Some r' /\ rt_TokenHash r' = rt_TokenHash r.
Proof.
  intros [[t E]|[_ E]] Hk; rewrite E; [|by exists r].
  eexists. rewrite lookup_fmap, Hk. split; [done|]. apply revoke_row_hash.
Qed.

(** Users are stored under their key. *)
Definition users_keyed (w : World) : Prop := forall id u, users w !! id = Some u -> us_ID u = id.

(** C20. Rotation, of a refresh that runs alone, with any statement free to fail.
    A missing token is answered 400. A 401 means that no such token was valid at
    the time of the look-up, that its user is gone, or that a statement failed.
    Otherwise the presented token was valid, and, unless no new pair could be
    made (500), the answer is 200: the token the response sets is valid for the
    same user for thirty days, every other token is as valid as it was, and the
    presented one is valid for nobody at any time, except that the code ignores
    a failure of the statement that revokes it, which leaves it as it was. (Two
    overlapping refreshes are another matter: [refresh_not_single_use].) *)
Theorem Refresh_rotates (hd : Headers) (body : option string) (w : World)
  (Hkeys : users_keyed w) :
  let old := HashToken (or_cookie body (hd_RefreshCookie hd)) in
  wp (Refresh h hd body) (fun r w' =>
    (r_Status r = StatusBadRequest /\ or_cookie body (hd_RefreshCookie hd) = EmptyString) \/
    (r_Status r = StatusUnauthorized /\ (faulty \/ exists t0, (forall u, ~ valid_at t0 old u w) \/
       exists uid, valid_at t0 old uid w /\ users w !! uid = None)) \/
    (exists uid t0, valid_at t0 old uid w /\
       (r = Error StatusInternalServerError "failed to generate tokens" \/
        (r_Status r = StatusOK /\ exists acc tok t1, r_Cookies r = setAuthCookies h acc tok /\
           (forall now, now < t1 + 30 * 24 * 60 * 60 -> valid_at now (HashToken tok) uid w') /\
           (forall now hash u, hash <> old -> hash <> HashToken tok ->
              valid_at now hash u w' <-> valid_at now hash u w) /\
           ((forall now u, ~ valid_at now old u w') \/
            (faulty /\ forall now u, valid_at now old u w' <-> valid_at now old u w)))))) w.
Proof.
  intros old. unfold Refresh. cbv zeta.
  destruct (is_empty _) eqn:Ee; [apply is_empty_true in Ee; apply wp_ret; by left|]. fold old. clear Ee.
  apply wp_bind. unfold ValidateRefreshToken. apply wp_auth_stmt.
  { intros e w1 _ [m Hf]. apply wp_ret. right. left. split; [done|]. left. by eexists; eexists. }
  intros w1 Hu1. pose proof (unchanged_auth _ _ Hu1) as E1.
  assert (refresh_tokens w1 = refresh_tokens w) as Er by (unfold refresh_tokens; by rewrite E1).
  assert (users w1 = users w) as Eu by (unfold users; by rewrite E1).
  destruct (select _ _) as [|row rs] eqn:Es; simpl.
  { apply wp_ret. right. left. split; [done|]. right. exists (env_now (w_tick w1)). left.
    intros u (k & r & Hk & Hus & _). rewrite <- Er in Hk.
    assert (r ∈ select (usable (env_now (w_tick w1)) old) (refresh_tokens w1)) as Hin by (apply elem_of_select; eauto).
    rewrite Es in Hin. by apply elem_of_nil in Hin. }
  assert (row ∈ select (usable (env_now (w_tick w1)) old) (refresh_tokens w1)) as Hrow
    by (rewrite Es; apply elem_of_cons; by left).
  apply elem_of_select in Hrow as [Hus [k Hk]].
  assert (valid_at (env_now (w_tick w1)) old (rt_UserID row) w) as Hval by (exists k, row; by rewrite <- Er).
  destruct (users w1 !! rt_UserID row) as [u|] eqn:Euser.
  2:{ eapply wp_mono; [by apply wp_rotate_gone|]. intros r w2 ->. right. left. split; [done|]. right.
      eexists. right. eexists. split; [exact Hval|]. by rewrite <- Eu. }
  eapply wp_mono.
  { apply (wp_rotate _ _ u); [done|]. apply (Hkeys (rt_UserID row)). by rewrite <- Eu. }
  intros r w2 [[-> Hf]|[[-> _]|(w3 & tok & acc & Hok & Hc & Hret & _ & Hi)]].
  { right. left. auto. }
  { right. right. exists (rt_UserID row), (env_now (w_tick w1)). auto. }
  right. right. exists (rt_UserID row), (env_now (w_tick w1)). split; [done|]. right. split; [done|].
  assert (HashToken tok <> old) as Hne.
  { destruct Hi as (? & ? & ? & _ & Hall & _). intros Heq. apply usable_spec in Hus as (Hh & _).
    destruct (retired_row _ _ _ _ _ Hret Hk) as (r' & Hr' & Hh'). apply (Hall k r' Hr'). congruence. }
  destruct (issued_valid _ _ _ _ Hi) as [t1 Hv]. exists acc, tok, t1. split; [done|].
  assert (forall now hash u, valid_at now hash u w1 <-> valid_at now hash u w) as Hsame
    by (intros; unfold valid_at; by rewrite Er).
  destruct (retired_valid _ _ _ Hret) as [Hv2|[Hf Hv2]]; split_and!.
  - intros now Hnow. rewrite Hv. right. by split_and!.
  - intros now hash u' H1 H2. rewrite Hv, Hv2, Hsame. tauto.
  - left. intros now u'. rewrite Hv, Hv2. intros [[_ ?]|(? & _)]; congruence.
  - intros now Hnow. rewrite Hv. right. by split_and!.
  - intros now hash u' H1 H2. rewrite Hv, Hv2, Hsame. tauto.
  - right. split; [done|]. intros now u'. rewrite Hv, Hv2, Hsame. split; [intros [?|(? & _)]; [done|congruence]|auto].
Qed.

(** A refresh token is not single-use under concurrency. When one request
    has found a token valid and another request rotates that token completely
    before the first goes on, the first is not refused: its revocation of an
    already revoked token is not checked, so it also gets a pair (unless the
    pair itself cannot be made), and then two tokens are valid where one was
    presented. *)
Theorem refresh_not_single_use (hd : Headers) (body : option string) (u : User) (w : World)
  (Hup : forall t, env_fault t = None) (Hkeys : users_keyed w)
  (Huser : users w !! us_ID u = Some u) :
  let old := HashToken (or_cookie body (hd_RefreshCookie hd)) in
  wp (ValidateRefreshToken old) (fun first w1 => first = Ok (us_ID u) ->
    wp (rotate h old (us_ID u)) (fun r2 w2 => r_Status r2 = StatusOK ->
      wp (rotate h old (us_ID u)) (fun r1 w3 =>
        r1 = Error StatusInternalServerError "failed to generate tokens" \/
        (r_Status r1 = StatusOK /\ exists tok1 tok2 t, HashToken tok1 <> HashToken tok2 /\
           forall now, now < t -> valid_at now (HashToken tok1) (us_ID u) w3 /\
                                  valid_at now (HashToken tok2) (us_ID u) w3)) w2) w1) w.
Proof.
  intros old. unfold ValidateRefreshToken. apply wp_auth_stmt.
  { intros e w1 _ [m Hf]. by rewrite Hup in Hf. }
  intros w1 Hu1. pose proof (unchanged_auth _ _ Hu1) as E1.
  destruct (select _ _) as [|row rs] eqn:Es; simpl; [done|]. intros [= Hrow].
  assert (exists k r, refresh_tokens w1 !! k = Some r /\ rt_TokenHash r = old) as (k & r0 & Hk & Hh).
  { assert (row ∈ select (usable (env_now (w_tick w1)) old) (refresh_tokens w1)) as Hin
      by (rewrite Es; apply elem_of_cons; by left).
    apply elem_of_select in Hin as [Hus [k Hk]]. apply usable_spec in Hus as [? _]. by exists k, row. }
  eapply wp_mono; [apply (wp_rotate_up Hup _ _ u); [unfold users in *; by rewrite E1|done]|].
  intros r2 w2 [[-> _]|(w1' & ta & tok2 & acc2 & _ & _ & Ea & Eua & Hi2)]; [done|]. intros _.
  destruct (issued_valid _ _ _ _ Hi2) as [t2 Hv2].
  assert (HashToken tok2 <> old) as Hne2.
  { destruct Hi2 as (? & ? & ? & _ & Hall & _). intros Heq.
    apply (Hall k (revoke_row ta (fun r => String.eqb (rt_TokenHash r) old) r0)).
    - by rewrite Ea, lookup_fmap, Hk.
    - by rewrite Heq, <- Hh, revoke_row_hash. }
  assert (users w2 = users w) as Eu2.
  { destruct Hi2 as (?&?&?&_&_&_&E). unfold users in *. rewrite E. simpl. by rewrite Eua, E1. }
  assert (exists k2 r, refresh_tokens w2 !! k2 = Some r /\ rt_TokenHash r = HashToken tok2) as (k2 & r3 & Hk2 & Hh2).
  { destruct Hi2 as (id&tb&tc&_&_&_&E). exists id. eexists. unfold refresh_tokens. rewrite E. simpl.
    rewrite lookup_insert_eq. by split. }
  eapply wp_mono; [apply (wp_rotate_up Hup _ _ u); [by rewrite Eu2|done]|].
  intros r1 w3 [[-> _]|(w2' & tb & tok1 & acc1 & Hs & _ & Eb & _ & Hi1)]; [by left|]. right. split; [done|].
  destruct (issued_valid _ _ _ _ Hi1) as [t1 Hv1].
  exists tok1, tok2, (Z.min t1 t2 + refreshTokenExpiry). split.
  { destruct Hi1 as (? & ? & ? & _ & Hall & _). intros Heq.
    apply (Hall k2 (revoke_row tb (fun r => String.eqb (rt_TokenHash r) old) r3)).
    - by rewrite Eb, lookup_fmap, Hk2.
    - by rewrite Heq, <- Hh2, revoke_row_hash. }
  intros now Hnow. rewrite !Hv1. split; [right; split_and!; [done|done|lia]|].
  left. rewrite (valid_at_revoked_hash w2 _ tb old now (HashToken tok2) (us_ID u) Eb). split; [|done].
  rewrite Hv2. right. split_and!; [done|done|lia].
Qed.

(** ** Registration and passwords *)

(** The account [u] may be added for this request. *)
Definition registrable (hd : Headers) (req : registerRequest) (u : User) (w : World) : Prop :=
  (ah_registrationToken h = EmptyString \/ ah_registrationToken h = rq_RegistrationToken req \/
   (rq_RegistrationToken req = EmptyString /\ ah_registrationToken h = hd_RegistrationToken hd)) /\
  12 <= len (rq_Password req) /\ bcrypt_check (us_PasswordHash u) (rq_Password req) = true /\
  (exists address, mail_parse (rq_Email req) = Some address /\ us_Email u = NormalizeEmail address) /\
  users w !! us_ID u = None /\ (forall id o, users w !! id = Some o -> us_Email o <> us_Email u).

(** C21. Registration. In every state and under every pattern of failures: a 201
    means that the invitation was right when one is configured, the password
    has at least 12 characters, and exactly one account was added, under the
    normalised address, which no account had, with a hash that accepts the
    password. Any other answer adds no account, except that a failure to make
    the first tokens is reported as 500 after the account was added. *)
Theorem Register_spec `{!AuthLaws _} (hd : Headers) (body : option registerRequest) (w : World) :
  wp (Register h hd body) (fun r w' =>
    (users w' = users w /\ r_Status r <> StatusCreated) \/
    exists req u, body = Some req /\ registrable hd req u w /\
      users w' = <[us_ID u := u]> (users w) /\
      (r_Status r = StatusCreated \/ r = Error StatusInternalServerError "failed to generate tokens")) w.
Proof.
  unfold Register. destruct body as [req|]; [|by apply wp_ret; left]. cbv zeta.
  destruct (negb _ && negb _) eqn:Egate; [by apply wp_ret; left|].
  destruct (mail_parse _) as [address|] eqn:Email; [|by apply wp_ret; left].
  destruct (Z.ltb_spec (len (rq_Password req)) minPasswordLen) as [|Hlen]; [by apply wp_ret; left|].
  apply wp_bind, wp_sample. intros w1 Hu1. pose proof (unchanged_auth _ _ Hu1) as E1.
  destruct (bcrypt_hash _ _) as [hash|e] eqn:Ehash.
  2:{ apply wp_ret. left. split; [|done]. unfold users. by rewrite E1. }
  apply wp_bind. unfold Create. apply wp_bind, wp_auth_stmt.
  { intros e w2 Hu2 [m _]. apply wp_ret, wp_ret. left. unfold users.
    rewrite (unchanged_auth _ _ Hu2), E1. split; [done|]. by destruct (is_pg_code _ _). }
  intros w2 Hu2. pose proof (unchanged_auth _ _ Hu2) as E2. unfold insert_user.
  destruct (_ || _) eqn:Ec; simpl.
  { apply wp_ret, wp_ret. left. unfold users. by rewrite E2, E1. }
  apply orb_false_elim in Ec as [Hid%bool_decide_eq_false Hmail]. apply wp_ret.
  set (u := mkUser _ _ _ _ _ _).
  assert (users w2 = users w) as Eu by (unfold users; by rewrite E2, E1). rewrite Eu in *.
  assert (registrable hd req u w) as Hreg.
  { split_and!.
    - destruct (is_empty (ah_registrationToken h)) eqn:Et; [left; by apply is_empty_true|].
      simpl in Egate. apply negb_false_iff, String.eqb_eq in Egate. right.
      destruct (is_empty (rq_RegistrationToken req)) eqn:Er; [right|by left].
      by apply is_empty_true in Er.
    - done.
    - by eapply law_bcrypt.
    - by exists address.
    - by apply eq_None_not_Some.
    - intros id o Ho Heq. apply not_true_iff_false in Hmail. apply Hmail, existsb_exists. exists o.
      split; [|by apply String.eqb_eq]. apply list_elem_of_In, elem_of_rows. by exists id. }
  apply wp_sign_in.
  - intros w3 E3. right. exists req, u. unfold users. rewrite E3. split_and!; auto.
  - intros acc tok w3 b (id & t1 & t2 & _ & _ & _ & E3). right. exists req, u. unfold users. rewrite E3.
    split_and!; auto.
Qed.

(** Signing every session out and one in. *)
Lemma wp_relogin (Hup : forall t, env_fault t = None) msg u hash w0 w :
  refresh_tokens w = refresh_tokens w0 ->
  (forall o, users w !! us_ID u = Some o -> us_PasswordHash o = hash) ->
  wp (let! _e := RevokeAllUserRefreshTokens (us_ID u) in sign_in h StatusOK msg u)
     (fun r w' => r_Status r = StatusOK -> exists acc tok u', r_Cookies r = setAuthCookies h acc tok /\
        users w' !! us_ID u = Some u' /\ us_PasswordHash u' = hash /\
        (forall now hash, valid_at now hash (us_ID u) w' -> hash = HashToken tok) /\
        (forall now hash v, v <> us_ID u -> valid_at now hash v w' <-> valid_at now hash v w0)) w.
Proof.
  intros Er Hhash. apply wp_bind, wp_revoke_where; [intros e w4 _ [m Hf]; by rewrite Hup in Hf|].
  intros w4 t E4. rewrite Er in E4. apply wp_sign_in; [done|]. intros acc tok w5 b Hi _.
  destruct (issued_valid _ _ _ _ Hi) as [t1 Hv]. destruct Hi as (id&ta&tb&_&_&[u' Hu']&E5).
  assert (refresh_tokens w4 = revoke_row t (fun r => String.eqb (rt_UserID r) (us_ID u)) <$> refresh_tokens w0)
    as Er4 by (unfold refresh_tokens at 1; by rewrite E4).
  assert (users w4 = users w) as Eu4 by (unfold users; by rewrite E4).
  exists acc, tok, u'. split_and!; [done| | | |].
  - unfold users in *. by rewrite E5.
  - apply Hhash. by rewrite <- Eu4.
  - intros now hs. rewrite Hv, (valid_at_revoked_user w0 _ t (us_ID u) now hs (us_ID u) Er4). intuition.
  - intros now hs v Hne. rewrite Hv, (valid_at_revoked_user w0 _ t (us_ID u) now hs v Er4). intuition.
Qed.

(** Changing the password signs every other session out. On a database that
    answers, a 200 means that the old password was right, the account's hash
    now accepts the new one, and the only refresh token of that user that is
    valid from then on is the one this response sets; the tokens of other users
    are untouched. *)
Theorem ChangePassword_spec `{!AuthLaws _} (u : User) (body : option passwordRequest) (w : World)
  (Hup : forall t, env_fault t = None) :
  wp (ChangePassword h (Some u) body) (fun r w' => r_Status r = StatusOK ->
    exists req acc tok u', body = Some req /\ bcrypt_check (us_PasswordHash u) (pq_Old req) = true /\
      r_Cookies r = setAuthCookies h acc tok /\
      users w' !! us_ID u = Some u' /\ bcrypt_check (us_PasswordHash u') (pq_New req) = true /\
      (forall now hash, valid_at now hash (us_ID u) w' -> hash = HashToken tok) /\
      (forall now hash v, v <> us_ID u -> valid_at now hash v w' <-> valid_at now hash v w)) w.
Proof.
  unfold ChangePassword. destruct body as [req|]; [|by apply wp_ret].
  destruct (_ || _); [by apply wp_ret|]. destruct (_ <? _); [by apply wp_ret|].
  destruct (bcrypt_check (us_PasswordHash u) (pq_Old req)) eqn:Eold; cbn [negb]; [|by apply wp_ret].
  apply wp_bind, wp_sample. intros w1 Hu1. pose proof (unchanged_auth _ _ Hu1) as E1.
  destruct (bcrypt_hash _ _) as [hash|e] eqn:Ehash; [|by apply wp_ret].
  apply wp_bind. unfold UpdatePassword. apply wp_bind, wp_auth_stmt.
  { intros e w2 _ [m Hf]. by rewrite Hup in Hf. }
  intros w2 Hu2. pose proof (unchanged_auth _ _ Hu2) as E2.
  assert (refresh_tokens w2 = refresh_tokens w) as Er by (unfold refresh_tokens; by rewrite E2, E1).
  assert (forall w3, refresh_tokens w3 = refresh_tokens w ->
    (forall o, users w3 !! us_ID u = Some o -> us_PasswordHash o = hash) ->
    wp (let! _e := RevokeAllUserRefreshTokens (us_ID u) in
        sign_in h StatusOK "password updated but failed to generate new tokens" u)
       (fun r w' => r_Status r = StatusOK -> exists req' acc tok u', Some req = Some req' /\
          bcrypt_check (us_PasswordHash u) (pq_Old req') = true /\ r_Cookies r = setAuthCookies h acc tok /\
          users w' !! us_ID u = Some u' /\ bcrypt_check (us_PasswordHash u') (pq_New req') = true /\
          (forall now hash, valid_at now hash (us_ID u) w' -> hash = HashToken tok) /\
          (forall now hash v, v <> us_ID u -> valid_at now hash v w' <-> valid_at now hash v w)) w3) as Hend.
  { intros w3 H1 H2. eapply wp_mono; [by apply (wp_relogin Hup _ _ hash w)|]. intros r w4 Hw Hs.
    destruct (Hw Hs) as (acc & tok & u' & Hc & Hu' & Hp & Hv1 & Hv2). exists req, acc, tok, u'.
    split_and!; try done. rewrite Hp. by eapply law_bcrypt. }
  destruct (users w2 !! us_ID u) as [o|] eqn:Eo; simpl; apply wp_ret, Hend; try done.
  - intros o'. unfold users. simpl. rewrite lookup_insert_eq. by intros [= <-].
  - intros o'. by rewrite Eo.
Qed.

(** ** Access tokens *)

Section Tokens.
Context `{!AuthLaws _}.

(** What [jwt.Parse] with [hmacKeyfunc] accepts: tokens that name an HMAC method
    and verify under the secret. *)
Lemma jwt_parse_iff secret now s c :
  jwt_parse secret now s = Some c <->
  exists alg, jwt_ParseUnverified s = Some (mkToken (SigningMethodHMAC alg) c) /\
    jwt_Verify (SigningMethodHMAC alg) secret s = true /\ in_time c now = true.
Proof.
  unfold jwt_parse. rewrite law_jwt_Parse. split.
  - intros ([[alg|alg] c'] & key & Hs & Hk & Hv & Ht & ->); [|done]. injection Hk as <-. by exists alg.
  - intros (alg & Hs & Hv & Ht). by exists (mkToken (SigningMethodHMAC alg) c), secret.
Qed.

(** A token without [nbf] does not become valid as time passes. *)
Lemma jwt_parse_earlier secret now now' s c :
  cl_nbf c = None -> now <= now' -> jwt_parse secret now' s = Some c -> jwt_parse secret now s = Some c.
Proof.
  intros Hn Hle. rewrite !jwt_parse_iff. intros (alg & Hs & Hv & Ht). exists alg. split_and!; [done..|].
  unfold in_time in *. rewrite Hn in *. destruct (cl_exp c) as [exp|]; [|done].
  rewrite andb_true_r in *. apply Z.ltb_lt in Ht. apply Z.ltb_lt. lia.
Qed.

(** Forged tokens. One that names another method than HMAC, whatever its
    signature, or does not verify under the secret, or is out of its time, is
    refused with 401 and changes nothing. *)
Theorem forged_token_refused (hd : Headers) (next : User -> P HTTPResponse) (w : World)
  (Hforged : forall t, jwt_ParseUnverified (bearer hd) = Some t ->
     (exists alg, tk_Method t = OtherMethod alg) \/
     jwt_Verify (tk_Method t) (ah_jwtSecret h) (bearer hd) = false \/
     in_time (tk_Claims t) (env_now (w_tick w)) = false) :
  wp (JWTAuth h hd next) (fun r w' => r_Status r = StatusUnauthorized /\ unchanged w w') w.
Proof.
  unfold JWTAuth. cbv zeta. destruct (is_empty (bearer hd)); [by apply wp_ret|].
  apply wp_bind, wp_sample. intros w1 H1.
  destruct (jwt_parse _ _ _) as [c|] eqn:Ec; [exfalso|by apply wp_ret].
  apply jwt_parse_iff in Ec as (alg & Hs & Hv & Ht).
  destruct (Hforged _ Hs) as [[alg' E]|[E|E]]; simpl in *; congruence.
Qed.

(** C18. The life of an access token, on a database that answers. In every later
    state in which the account exists, the middleware takes the token
    [generateAccessToken] made for a user as that user's, running the endpoint
    for the account as it then is, until fifteen minutes after it was made, to
    the second, unless the token has been revoked; then and from there on it is
    refused with 401, whatever the endpoint, and nothing changes. *)
Theorem access_token_lifetime (u : User) (w : World)
  (Hup : forall t, env_fault t = None) (Hid : uuid_parse (us_ID u) = Some (us_ID u))
  (Hjti : forall t, env_uuid t <> EmptyString) :
  wp (generateAccessToken h u) (fun r w1 => forall tok, r = Ok tok -> exists jti,
    forall (hd : Headers) (next : User -> P HTTPResponse) (w2 : World) (u' : User),
      bearer hd = tok -> users w2 !! us_ID u = Some u' ->
      if (env_now (w_tick w2) <? env_now (w_tick w) + accessTokenExpiration) &&
         bool_decide (revoked_tokens w2 !! jti = None)
      then forall Q, (forall w3, unchanged w2 w3 -> wp (next u') Q w3) -> wp (JWTAuth h hd next) Q w2
      else wp (JWTAuth h hd next) (fun r w3 => r_Status r = StatusUnauthorized /\ unchanged w2 w3) w2) w.
Proof.
  apply wp_bind, wp_sample. intros w1 _. apply wp_bind, wp_sample. intros w2 _. apply wp_ret.
  cbv zeta. intros tok (Hne & Hs & Hv)%law_jwt_sign. exists (env_uuid (w_tick w1)).
  intros hd next w3 u' <- Hu. destruct (Z.ltb_spec (env_now (w_tick w3)) (env_now (w_tick w) + accessTokenExpiration)) as [Hlt|Hge];
    cbn [andb].
  2: { apply forged_token_refused. intros t. rewrite Hs. intros [= <-]. right. right. unfold in_time. simpl.
       apply andb_false_iff. left. by apply Z.ltb_ge. }
  eassert (jwt_parse (ah_jwtSecret h) (env_now (w_tick w3)) (bearer hd) = Some _) as Ep.
  { apply jwt_parse_iff. eexists. split_and!; [exact Hs|exact Hv|]. unfold in_time. simpl.
    by rewrite (proj2 (Z.ltb_lt _ _) Hlt). }
  unfold JWTAuth. cbv zeta. rewrite (proj2 (is_empty_false _) Hne).
  case_bool_decide as Hrev; [intros Q HQ|]; apply wp_bind, wp_sample; intros w4 H4; rewrite Ep; simpl;
    rewrite (proj2 (is_empty_false _) (Hjti _)); apply wp_bind; unfold IsRevoked;
    (apply wp_query; [intros m w5 _ Hf; by rewrite Hup in Hf|]); intros w5 H5 _.
  - assert (unchanged w3 w5) as H35 by by etrans.
    rewrite bool_decide_eq_false_2 by (unfold revoked_tokens in *; rewrite (unchanged_auth _ _ H35), Hrev; by intros [? [=]]).
    rewrite Hid. apply wp_bind. unfold GetByID. apply wp_bind.
    apply wp_query; [intros m w6 _ Hf; by rewrite Hup in Hf|]. intros w6 H6 _.
    assert (unchanged w3 w6) as H36 by by etrans.
    assert (users w6 !! us_ID u = Some u') as -> by (unfold users in *; by rewrite (unchanged_auth _ _ H36)).
    by apply wp_ret, HQ.
  - assert (unchanged w3 w5) as H35 by by etrans.
    rewrite bool_decide_eq_true_2; [by apply wp_ret|].
    unfold revoked_tokens in *. rewrite (unchanged_auth _ _ H35). by apply not_eq_None_Some.
Qed.

End Tokens.

(** ** Logout *)

Lemma ticks_revoke_where cond :
  ticks (let? _tag := stmt (revoke_where cond) catch e => Ret (Some e) in Ret None).
Proof. apply ticks_bind; [by apply ticks_stmt|]. intros []; apply ticks_ret. Qed.

Lemma ticks_Revoke jti uid exp : ticks (Revoke jti uid exp).
Proof.
  apply ticks_bind; [|intros []; apply ticks_ret]. apply ticks_stmt. intros w. unfold insert_revoked.
  destruct (bool_decide _); [done|]. by destruct (negb _).
Qed.

Lemma trim_prefix_opt_none p s : trim_prefix_opt p s = None -> trim_prefix p s = s.
Proof. unfold trim_prefix. by intros ->. Qed.

Lemma trim_prefix_opt_some p s t : trim_prefix_opt p s = Some t -> s = p +:+ t.
Proof.
  revert s. induction p as [|a p IH]; intros s; simpl; [by intros [= ->]|].
  destruct s as [|b s]; [done|]. destruct (Ascii.eqb_spec a b) as [->|]; [|done].
  intros E. by rewrite (IH _ E).
Qed.

(** The token the middleware accepted is the one logout revokes. *)
Lemma logout_token_bearer hd : bearer hd <> EmptyString -> logout_token hd = bearer hd.
Proof.
  unfold bearer, logout_token. destruct (trim_prefix_opt "Bearer " (hd_Authorization hd)) as [t|] eqn:E; intros Ht.
  - unfold trim_prefix. rewrite E. simpl. rewrite (proj2 (is_empty_false _) Ht).
    destruct (String.eqb_spec t (hd_Authorization hd)) as [Heq|]; [|done].
    apply trim_prefix_opt_some in E. rewrite <- Heq in E. apply (f_equal String.length) in E. rewrite string_length_app in E. simpl in E. lia.
  - rewrite (trim_prefix_opt_none _ _ E), String.eqb_refl, orb_true_r.
    by destruct (hd_AccessCookie hd).
Qed.

(** After the revocation step, the jti of a token that still parses is on file. *)
Lemma wp_revoke_access (Hup : forall t, env_fault t = None) tok uid w :
  is_Some (users w !! uid) ->
  wp (revoke_access h tok uid) (fun _ w' => forall c jti,
    jwt_parse (ah_jwtSecret h) (env_now (w_tick w)) tok = Some c -> cl_jti c = Some jti -> jti <> EmptyString ->
    is_Some (revoked_tokens w' !! jti)) w.
Proof.
  intros Huser. apply wp_bind, wp_sample. intros w1 Hu1. pose proof (unchanged_auth _ _ Hu1) as E1.
  destruct (jwt_parse _ _ _) as [c|]; [|by apply wp_ret].
  destruct (cl_jti c) as [jti|] eqn:Ej; [|apply wp_ret; intros c' j [= <-]; congruence].
  destruct (is_empty jti) eqn:Ee.
  { apply wp_ret. intros c' j [= <-] Hj Hne. apply is_empty_true in Ee. congruence. }
  apply wp_bind. unfold Revoke. apply wp_bind, wp_auth_stmt; [intros e w2 _ [m Hf]; by rewrite Hup in Hf|].
  intros w2 Hu2. pose proof (unchanged_auth _ _ Hu2) as E2. unfold insert_revoked.
  destruct (bool_decide (is_Some (revoked_tokens w2 !! jti))) eqn:Er.
  { apply bool_decide_eq_true in Er. apply wp_ret, wp_ret. intros c' j [= <-] Hj _.
    rewrite Ej in Hj. by injection Hj as <-. }
  assert (bool_decide (is_Some (users w2 !! uid)) = true) as ->
    by (apply bool_decide_eq_true; unfold users in *; by rewrite E2, E1).
  apply wp_ret, wp_ret. intros c' j [= <-] Hj _. rewrite Ej in Hj. injection Hj as <-.
  unfold revoked_tokens. simpl. rewrite lookup_insert_eq. by eexists.
Qed.

Lemma ticks_revoke_access tok uid : ticks (revoke_access h tok uid).
Proof.
  apply ticks_bind; [apply ticks_sample|]. intros now. destruct (jwt_parse _ _ _) as [c|]; [|apply ticks_ret].
  destruct (cl_jti c) as [jti|]; [|apply ticks_ret]. destruct (is_empty jti); [apply ticks_ret|].
  apply ticks_bind; [apply ticks_Revoke|]. intros _. apply ticks_ret.
Qed.

(** Logging out takes effect at once. On a database that answers and with a
    clock that does not run backwards, after a logout made with an access token
    (which carries a jti and no nbf, as every issued token does), the middleware refuses
    that token with 401 whatever endpoint it protects, and never runs the
    endpoint. *)
Theorem Logout_revokes `{!AuthLaws _} (u : User) (hd : Headers) (body : option string)
    (next : User -> P HTTPResponse) (w : World)
  (Hup : forall t, env_fault t = None) (Hclock : forall a b, (a <= b)%nat -> env_now a <= env_now b)
  (Hu : is_Some (users w !! us_ID u))
  (Hjti : forall now c, jwt_parse (ah_jwtSecret h) now (bearer hd) = Some c ->
     cl_nbf c = None /\ exists jti, cl_jti c = Some jti /\ jti <> EmptyString) :
  wp (Logout h (Some u) hd body) (fun _ w1 =>
    wp (JWTAuth h hd next) (fun r w2 => r_Status r = StatusUnauthorized /\ unchanged w1 w2) w1) w.
Proof.
  destruct (is_empty (bearer hd)) eqn:Eb.
  { apply (wp_mono _ (fun _ _ => True)); [done|]. intros r w1 _. unfold JWTAuth. cbv zeta. rewrite Eb. by apply wp_ret. }
  apply is_empty_false in Eb. unfold Logout. rewrite (logout_token_bearer _ Eb).
  apply wp_bind. eapply wp_mono; [apply wp_ticks; [apply ticks_revoke_access|by apply wp_revoke_access]|].
  intros _ w1 [Hrev Ht1]. apply wp_bind. cbv zeta.
  set (R := fun w2 : World => revoked_tokens w2 = revoked_tokens w1 /\ (w_tick w1 <= w_tick w2)%nat).
  apply (wp_mono _ (fun _ => R)).
  { destruct (is_empty _); [by apply wp_ret|]. apply wp_bind.
    eapply wp_mono; [apply wp_ticks; [apply ticks_revoke_where|]; apply wp_revoke_where|].
    - intros e w2 Hu2 _. instantiate (1 := fun _ w2 => revoked_tokens w2 = revoked_tokens w1).
      unfold revoked_tokens. by rewrite (unchanged_auth _ _ Hu2).
    - intros w2 t E2. unfold revoked_tokens. by rewrite E2.
    - intros o w2 [Hr Ht]. apply wp_ret. by split. }
  intros _ w2 [Hr Ht2]. apply wp_ret. unfold JWTAuth. cbv zeta. rewrite (proj2 (is_empty_false _) Eb).
  apply wp_bind, wp_sample. intros w3 Hu3.
  destruct (jwt_parse (ah_jwtSecret h) (env_now (w_tick w2)) (bearer hd)) as [c|] eqn:Ec; [|apply wp_ret; by split].
  destruct (Hjti _ _ Ec) as (Hnbf & jti & Ej & Hne). rewrite Ej, (proj2 (is_empty_false _) Hne).
  apply wp_bind. unfold IsRevoked. apply wp_query; [intros m w4 _ Hf; by rewrite Hup in Hf|].
  intros w4 Hu4 _.
  assert (bool_decide (is_Some (revoked_tokens w4 !! jti)) = true) as ->.
  { apply bool_decide_eq_true. unfold revoked_tokens.
    rewrite (unchanged_auth _ _ Hu4), (unchanged_auth _ _ Hu3). fold (revoked_tokens w2). rewrite Hr.
    eapply Hrev; [|done|done]. eapply jwt_parse_earlier; [| |exact Ec]; [done|]. apply Hclock. lia. }
  apply wp_ret. split; [done|]. by etrans.
Qed.

(** ** The janitor *)

(** From time [t] on, the two worlds decide alike. *)
Definition keeps_from (t : Z) (w w' : World) : Prop := forall now, t <= now ->
  (forall hash uid, valid_at now hash uid w' <-> valid_at now hash uid w) /\
  (forall jti row, revoked_tokens w !! jti = Some row -> now <= rv_ExpiresAt row ->
     revoked_tokens w' !! jti = Some row) /\
  (forall email, (check now email (limiter w')).1 = (check now email (limiter w)).1).

Lemma keeps_from_auth t w w' : w_auth w' = w_auth w -> keeps_from t w w'.
Proof.
  intros E now _. unfold valid_at, refresh_tokens, revoked_tokens, limiter. rewrite E. by split_and!.
Qed.

Lemma keeps_from_trans t a b c : keeps_from t a b -> keeps_from t b c -> keeps_from t a c.
Proof.
  intros H1 H2 now Ht. destruct (H1 now Ht) as (A1&A2&A3), (H2 now Ht) as (B1&B2&B3). split_and!.
  - intros hash uid. by rewrite B1, A1.
  - intros jti row Hr Hn. apply B2; [|done]. by apply A2.
  - intros email. by rewrite B3, A3.
Qed.

Lemma keeps_from_later t t' w w' : t <= t' -> keeps_from t w w' -> keeps_from t' w w'.
Proof. intros Ht Hk now Hn. apply Hk. lia. Qed.

Lemma delete_revoked_keeps w : keeps_from (env_now (w_tick w)) w (delete_revoked w).2.
Proof.
  intros now Ht. split_and!; [done| |done]. intros jti row Hr Hn. unfold revoked_tokens. simpl.
  apply map_lookup_filter_Some. split; [done|]. apply Z.ltb_ge. simpl. lia.
Qed.

Lemma delete_refresh_keeps w : keeps_from (env_now (w_tick w)) w (delete_refresh w).2.
Proof.
  intros now Ht. split_and!; [|done|done]. intros hash uid. unfold valid_at, refresh_tokens at 1. simpl. split.
  - intros (id & r & Hr & Hu & Hid). apply map_lookup_filter_Some in Hr as [Hr _]. by exists id, r.
  - intros (id & r & Hr & Hu & Hid). exists id, r. split; [|done]. apply map_lookup_filter_Some.
    split; [done|]. apply usable_spec in Hu as (_ & Hexp & _). apply Z.ltb_ge. simpl. lia.
Qed.

Lemma check_sweep now t email m : t <= now -> (check now email (sweep t m)).1 = (check now email m).1.
Proof.
  intros Ht. unfold check, sweep. destruct (filter _ m !! email) as [e|] eqn:E.
  - apply map_lookup_filter_Some in E as [-> _]. by destruct (expired now e).
  - apply map_lookup_filter_None in E as [->|E]; [done|]. destruct (m !! email) as [e|] eqn:Em; [|done].
    specialize (E e eq_refl). simpl in E. apply not_false_iff_true in E. unfold expired in *.
    apply Z.ltb_lt in E. by rewrite (proj2 (Z.ltb_lt _ _)) by lia.
Qed.

(** A step of the janitor, and the clock it leaves. *)
Definition step_ok (w w' : World) : Prop :=
  keeps_from (env_now (w_tick w')) w w' /\ (w_tick w <= w_tick w')%nat.

Lemma step_ok_trans (Hclock : forall a b, (a <= b)%nat -> env_now a <= env_now b) a b c :
  step_ok a b -> step_ok b c -> step_ok a c.
Proof.
  intros [H1 T1] [H2 T2]. split; [|lia]. eapply keeps_from_trans; [|exact H2].
  eapply keeps_from_later; [|exact H1]. by apply Hclock.
Qed.

Lemma wp_step_ok (Hclock : forall a b, (a <= b)%nat -> env_now a <= env_now b)
    (f : World -> res unit * World) w :
  (forall w, w_tick (f w).2 = w_tick w) -> (forall w, keeps_from (env_now (w_tick w)) w (f w).2) ->
  wp (stmt f) (fun _ w' => step_ok w w') w.
Proof.
  intros Hf Hk. apply wp_stmt; intros; set (w1 := set_tick (S (w_tick w)) w).
  - split; [by apply keeps_from_auth|]. simpl. lia.
  - split; [|rewrite Hf; simpl; lia]. rewrite Hf. eapply keeps_from_trans; [|apply Hk].
    by apply keeps_from_auth.
Qed.

(** Cleaning up changes no decision. Under every pattern of failures, and
    with a clock that does not run backwards, after a pass of the janitor every
    refresh token is as valid as before, every revocation of a token that has
    not expired is still on file, and the limiter allows and refuses the same
    addresses, at every later time. *)
Theorem CleanOnce_keeps_decisions (tokens : bool) (w : World)
  (Hclock : forall a b, (a <= b)%nat -> env_now a <= env_now b) :
  wp (CleanOnce tokens) (fun _ w' => forall now, env_now (w_tick w') <= now ->
    (forall hash uid, valid_at now hash uid w' <-> valid_at now hash uid w) /\
    (forall jti row, revoked_tokens w !! jti = Some row -> now <= rv_ExpiresAt row ->
       revoked_tokens w' !! jti = Some row) /\
    (forall email, (check now email (limiter w')).1 = (check now email (limiter w)).1)) w.
Proof.
  apply (wp_mono _ (fun _ w' => step_ok w w')); [|by intros _ w' [Hk _]].
  apply wp_bind. apply (wp_mono _ (fun _ w' => step_ok w w')).
  - destruct tokens; [|apply wp_ret; split; [by apply keeps_from_auth|lia]].
    apply wp_bind. unfold Cleanup. apply wp_bind.
    eapply wp_mono; [by apply wp_step_ok; [|done|apply delete_revoked_keeps]|].
    intros [[]|e] w1 H1; [|by apply wp_ret, wp_ret]. apply wp_bind.
    eapply wp_mono; [by apply wp_step_ok; [|done|apply delete_refresh_keeps]|].
    intros [[]|e] w2 H2; apply wp_ret, wp_ret; by eapply step_ok_trans.
  - intros _ w1 H1. apply (wp_mono _ (fun _ w2 => step_ok w1 w2)); [|intros ? w2 H2; by eapply step_ok_trans].
    apply wp_atom. simpl. split; [|simpl; lia]. intros now Hn. simpl in Hn. split_and!; [done|done|].
    intros email. unfold limiter at 1. simpl. apply check_sweep. transitivity (env_now (S (w_tick w1))); [apply Hclock; lia|done].
Qed.

End Specs.

(** ** Witnesses *)

Definition demo_claims : Claims := mkClaims (Some "u1") "a@example.com" (Some "jti-1") (Some 1000) 0 None.

(** A toy library: a token is its parts and its key in one document, and [jwt]
    is a token of its own that verifies under any key. *)
Module DemoJwt.
Definition texts (o : option string) : Json := match o with Some s => JString s | None => JNull end.
Definition ints (o : option Z) : Json := match o with Some z => JInt z | None => JNull end.
Definition text_of (j : Json) : option string := match j with JString s => Some s | _ => None end.
Definition int_of (j : Json) : option Z := match j with JInt z => Some z | _ => None end.

Definition document (t : Token) (key : string) : Json :=
  let c := tk_Claims t in
  JArray [match tk_Method t with SigningMethodHMAC a => JArray [JString a] | OtherMethod a => JString a end;
          texts (cl_sub c); JString (cl_email c); texts (cl_jti c); ints (cl_exp c); JInt (cl_iat c);
          ints (cl_nbf c); JString key].

Definition read (s : string) : option (Token * string) :=
  match ParseJSON s with
  | Some (JArray [m; sub; JString email; jti; exp; JInt iat; nbf; JString key]) =>
      let c := mkClaims (text_of sub) email (text_of jti) (int_of exp) iat (int_of nbf) in
      match m with
      | JArray [JString a] => Some (mkToken (SigningMethodHMAC a) c, key)
      | JString a => Some (mkToken (OtherMethod a) c, key)
      | _ => None
      end
  | _ => None
  end.

Definition ParseUnverified (s : string) : option Token :=
  if String.eqb s "jwt" then Some (mkToken SigningMethodHS256 demo_claims) else option_map fst (read s).

Definition Verify (m : SigningMethod) (key s : string) : bool :=
  if String.eqb s "jwt" then true else
  match read s with Some (_, key') => String.eqb key key' | None => false end.

Definition Parse (s : string) (kf : Token -> res string) (now : Z) : option Claims :=
  match ParseUnverified s with
  | Some t =>
      match kf t with
      | Ok key => if Verify (tk_Method t) key s && in_time (tk_Claims t) now then Some (tk_Claims t) else None
      | Fail _ => None
      end
  | None => None
  end.

Lemma read_document t key : read (print_json (document t key)) = Some (t, key).
Proof.
  unfold read. rewrite ParseJSON_print.
  - by destruct t as [[a|a] [[sub|] email [jti|] [exp|] iat [nbf|]]].
  - by destruct t as [[a|a] [[sub|] email [jti|] [exp|] iat [nbf|]]].
Qed.

Lemma document_array t key : exists l, print_json (document t key) = String "[" l.
Proof. by eexists. Qed.
End DemoJwt.

#[local] Instance demo_auth : AuthLib := {|
  bcrypt_hash := fun _ pw => Ok ("bcrypt:" +:+ pw);
  bcrypt_check := fun hash pw => String.eqb hash ("bcrypt:" +:+ pw);
  sha256 := fun s => s;
  mail_parse := Some;
  jwt_SignedString := fun t key => Ok (print_json (DemoJwt.document t key));
  jwt_ParseUnverified := DemoJwt.ParseUnverified;
  jwt_Verify := DemoJwt.Verify;
  jwt_Parse := DemoJwt.Parse;
  uuid_parse := Some |}.

#[local] Instance demo_auth_laws : AuthLaws demo_auth.
Proof.
  split.
  - intros t pw hash [= <-]. apply String.eqb_refl.
  - intros s kf now c. simpl. unfold DemoJwt.Parse. split.
    + destruct (DemoJwt.ParseUnverified s) as [t|]; [|done]. destruct (kf t) as [key|] eqn:Ek; [|done].
      destruct (DemoJwt.Verify _ _ _ && _) eqn:E; [|done]. apply andb_true_iff in E as [? ?].
      intros [= <-]. by exists t, key.
    + intros (t & key & -> & -> & -> & -> & ->). done.
  - intros t key s [= <-]. destruct (DemoJwt.document_array t key) as [l E].
    pose proof (DemoJwt.read_document t key) as Hr. simpl.
    unfold DemoJwt.ParseUnverified, DemoJwt.Verify. rewrite Hr, E. simpl. by rewrite String.eqb_refl.
Qed.

(** Nothing fails, and the random bytes differ from operation to operation. *)
Definition varied : Env := env_with_rand (fun t _ => Ok (itoa (Z.of_nat t))) calm.

Definition demo_user : User := mkUser "u1" "a@example.com" "bcrypt:correct horse" "A" 0 0.
Definition demo_refresh : RefreshRow := mkRefresh "r1" "u1" (HashToken "old") 100000 0 None.
Definition auth_world : World :=
  set_auth (mkAuth {[ "u1" := demo_user ]} {[ "r1" := demo_refresh ]} ∅ ∅) empty_world.
Definition demo_auth_handler : Handler := mkHandler "secret" EmptyString true.
Definition no_headers : Headers := mkHeaders EmptyString EmptyString None None.

Lemma auth_world_keyed : users_keyed auth_world.
Proof. intros id u Hu. unfold users in Hu. simpl in Hu. by apply lookup_singleton_Some in Hu as [<- <-]. Qed.

Lemma varied_clock a b : (a <= b)%nat -> @env_now varied a <= @env_now varied b.
Proof. simpl. lia. Qed.

(** Five wrong passwords in four minutes, and one later login of somebody else. *)
Definition guesses : list (Z * LimiterOp) :=
  [(0, Attempted "a@b"); (0, Failed "a@b"); (60, Attempted "a@b"); (60, Failed "a@b"); (120, Attempted "a@b");
   (120, Failed "a@b"); (180, Attempted "a@b"); (180, Failed "a@b"); (240, Attempted "a@b"); (240, Failed "a@b");
   (300, Attempted "c@d"); (300, Failed "c@d")].

Lemma limiter_lockout_witness :
  (check 900 "a@b" (limiter_after ([] ++ guesses))).1 = false /\ (check 1141 "a@b" (limiter_after guesses)).1 = true.
Proof.
  split; [|vm_compute; reflexivity].
  apply (proj1 (limiter_lockout "a@b") [] guesses 0 900); [vm_compute; discriminate| | |vm_compute; lia|lia].
  - intros t x Hin. repeat (apply elem_of_cons in Hin as [[= -> _]|Hin]; [lia|]). by apply elem_of_nil in Hin.
  - intros t Hin. repeat (apply elem_of_cons in Hin as [[=]|Hin]). by apply elem_of_nil in Hin.
Defined.

Lemma Refresh_rotates_witness :
  let r := run (@Refresh varied _ demo_auth_handler no_headers (Some "old")) auth_world in
  r_Status r.1 = StatusOK /\ forall now u, ~ valid_at now (HashToken "old") u r.2.
Proof.
  intros r. assert (r_Status r.1 = StatusOK) as Hok by (vm_compute; reflexivity). split; [exact Hok|].
  destruct (@Refresh_rotates varied _ demo_auth_handler no_headers (Some "old") auth_world
    auth_world_keyed)
    as [(E & _)|[(E & _)|(uid & t0 & _ & [E|(_ & acc & tok & t1 & _ & _ & _ & [Hno|[Hf _]])])]].
  - pose proof (eq_trans (eq_sym Hok) E) as E'. discriminate E'.
  - pose proof (eq_trans (eq_sym Hok) E) as E'. discriminate E'.
  - pose proof (eq_trans (eq_sym Hok) (f_equal r_Status E)) as E'. discriminate E'.
  - exact Hno.
  - destruct (@up_not_faulty varied (fun _ => eq_refl) Hf).
Defined.

Lemma refresh_not_single_use_witness :
  let step := run (@ValidateRefreshToken varied (HashToken "old")) auth_world in
  let second := run (@rotate varied _ demo_auth_handler (HashToken "old") "u1") step.2 in
  let first := run (@rotate varied _ demo_auth_handler (HashToken "old") "u1") second.2 in
  r_Status second.1 = StatusOK /\ r_Status first.1 = StatusOK /\
  exists tok1 tok2 t, HashToken tok1 <> HashToken tok2 /\
    forall now, now < t -> valid_at now (HashToken tok1) "u1" first.2 /\
                           valid_at now (HashToken tok2) "u1" first.2.
Proof.
  intros step second first.
  assert (r_Status second.1 = StatusOK) as H2 by (vm_compute; reflexivity).
  assert (r_Status first.1 = StatusOK) as H1 by (vm_compute; reflexivity).
  assert (step.1 = Ok "u1") as Hs by (vm_compute; reflexivity).
  split; [exact H2|]. split; [exact H1|].
  destruct (@refresh_not_single_use varied _ demo_auth_handler no_headers (Some "old") demo_user auth_world
    (fun _ => eq_refl) auth_world_keyed eq_refl Hs H2) as [E|[_ Hr]]; [|exact Hr].
  exfalso. change (first.1 = Error StatusInternalServerError "failed to generate tokens") in E.
  pose proof (f_equal r_Status E) as E'. rewrite H1 in E'. clear - E'. vm_compute in E'. discriminate E'.
Defined.

Lemma ChangePassword_spec_witness :
  let r := run (@ChangePassword varied _ demo_auth_handler (Some demo_user)
                  (Some (mkPassword "correct horse" "battery staple"))) auth_world in
  r_Status r.1 = StatusOK /\ exists u', users r.2 !! "u1" = Some u' /\
    bcrypt_check (us_PasswordHash u') "battery staple" = true.
Proof.
  intros r. assert (r_Status r.1 = StatusOK) as Hok by (vm_compute; reflexivity). split; [exact Hok|].
  destruct (@ChangePassword_spec varied _ demo_auth_handler _ demo_user
    (Some (mkPassword "correct horse" "battery staple")) auth_world (fun _ => eq_refl) Hok)
    as (req & acc & tok & u' & [= <-] & _ & _ & Hu & Hp & _).
  exists u'. exact (conj Hu Hp).
Defined.

Lemma Register_spec_witness :
  let r := run (@Register varied _ demo_auth_handler no_headers
                  (Some (mkRegister " B@Example.com" "battery staple" "B" EmptyString))) auth_world in
  r_Status r.1 = StatusCreated /\ exists u, us_Email u = "b@example.com" /\ users r.2 !! us_ID u = Some u.
Proof.
  intros r. assert (r_Status r.1 = StatusCreated) as Hok by (vm_compute; reflexivity). split; [exact Hok|].
  destruct (@Register_spec varied _ demo_auth_handler _ no_headers
    (Some (mkRegister " B@Example.com" "battery staple" "B" EmptyString)) auth_world)
    as [[_ Hno]|(req & u & [= <-] & (_ & _ & _ & (a & [= <-] & Ha) & _) & Hw & _)]; [destruct (Hno Hok)|].
  exists u. split; [exact Ha|]. unfold r. rewrite Hw. apply lookup_insert_eq.
Defined.

Definition bearer_headers : Headers := mkHeaders "Bearer jwt" EmptyString None None.

(** A token made at time 0 opens an endpoint at 899 and does not at 900. *)
Definition at_time (t : nat) (w : World) : World := set_tick t w.
Lemma access_token_lifetime_witness :
  let made := run (@generateAccessToken varied _ demo_auth_handler demo_user) auth_world in
  exists tok, made.1 = Ok tok /\
    forall t, (t = 899%nat \/ t = 900%nat) ->
      r_Status (run (@JWTAuth varied _ demo_auth_handler (mkHeaders ("Bearer " +:+ tok) EmptyString None None)
        (fun _ => Ret (JSON StatusOK BEmpty))) (at_time t auth_world)).1 =
      if (t <? 900)%nat then StatusOK else StatusUnauthorized.
Proof.
  intros made. destruct made.1 as [tok|e] eqn:Em; [|vm_compute in Em; discriminate Em].
  exists tok. split; [reflexivity|]. intros t Ht.
  destruct (@access_token_lifetime varied demo_auth demo_auth_handler _ demo_user auth_world (fun _ => eq_refl) eq_refl
    ltac:(discriminate) tok Em) as [jti Hj].
  pose proof (fun next => Hj (mkHeaders ("Bearer " +:+ tok) EmptyString None None) next (at_time t auth_world) demo_user
    eq_refl ltac:(vm_compute; reflexivity)) as Hl.
  destruct Ht as [-> | ->].
  - by apply (Hl _ (fun r _ => r_Status r = StatusOK)).
  - specialize (Hl (fun _ => Ret (JSON StatusOK BEmpty))).
    destruct (_ && _) eqn:E in Hl; [vm_compute in E; discriminate E|]. exact (proj1 Hl).
Defined.

Lemma Logout_revokes_witness :
  let logout := run (@Logout varied _ demo_auth_handler (Some demo_user) bearer_headers None) auth_world in
  r_Status (run (@JWTAuth varied _ demo_auth_handler bearer_headers
    (fun _ => Ret (JSON StatusOK BEmpty))) auth_world).1 = StatusOK /\
  r_Status (run (@JWTAuth varied _ demo_auth_handler bearer_headers
    (fun _ => Ret (JSON StatusOK BEmpty))) logout.2).1 = StatusUnauthorized.
Proof.
  intros logout. split; [vm_compute; reflexivity|].
  apply (@Logout_revokes varied _ demo_auth_handler _ demo_user bearer_headers None
    (fun _ => Ret (JSON StatusOK BEmpty)) auth_world (fun _ => eq_refl) varied_clock).
  - by eexists.
  - intros now c (alg & Hs & _)%jwt_parse_iff. vm_compute in Hs. injection Hs as _ <-.
    split; [reflexivity|]. exists "jti-1". split; [reflexivity|discriminate].
Defined.

Lemma CleanOnce_keeps_decisions_witness :
  let w' := (run (@CleanOnce varied true) auth_world).2 in
  valid_at 50 (HashToken "old") "u1" w'.
Proof.
  intros w'.
  destruct (@CleanOnce_keeps_decisions varied true auth_world varied_clock 50 ltac:(vm_compute; discriminate))
    as [Hv _].
  apply Hv. exists "r1", demo_refresh. by split_and!.
Defined.
