(* ===== verification/Billing.v ===== *)
(** * internal/billing/stripe.go and handler.go: subscriptions

    Stripe's SDK is reached through three calls: creating a checkout session,
    creating a portal session (remote calls) and checking the signature of a
    webhook ([webhook.ConstructEvent], a parameter). The payloads of events are
    JSON values, read by the [Parse] functions into structs the way
    encoding/json does ([GoJson]). *)

From stdpp Require Import gmap strings list fin_maps.
From Stdlib Require Import ZArith Lia Ascii.
From S2P Require Import Prelude GoStrings World Response GoJson Tables Tiers.
From S2P Require TenantStore.

Open Scope Z_scope.

(** ** encoding/json *)

Definition errUnmarshal : error := errorString "json: cannot unmarshal".

(** [json.Unmarshal] into a variable that is new. *)
Definition unmarshal {A} (zero : A) (d : Decoder A) (data : Json) : res A :=
  match d zero data with Some a => Ok a | None => Fail errUnmarshal end.

(** A field of type [map[string]string]. *)
Definition d_metadata : Decoder (gmap string string) := fun old j =>
  let '(m, ok) := d_string_map old j in if ok then Some m else None.

(** Indexing a [map[string]string]: the zero value for a missing key. *)
Definition index (m : gmap string string) (k : string) : string := default EmptyString (m !! k).

(** ** Events *)

Definition EventCheckoutCompleted : string := "checkout.session.completed".
Definition EventSubscriptionUpdated : string := "customer.subscription.updated".
Definition EventSubscriptionDeleted : string := "customer.subscription.deleted".
Definition EventInvoicePaymentFailed : string := "invoice.payment_failed".

(** [stripe.Event]: its type and [Data.Raw]. *)
Record StripeEvent := mkEvent { ev_Type : string; ev_Data : Json }.

Record CheckoutSessionData := mkCheckout {
  cs_CustomerID : string; cs_SubscriptionID : string; cs_CustomerEmail : string;
  cs_Metadata : gmap string string }.

Definition checkout_fields : list (Field CheckoutSessionData) := [
  field "customer" cs_CustomerID (fun v '(mkCheckout _ b c d) => mkCheckout v b c d) d_string;
  field "subscription" cs_SubscriptionID (fun v '(mkCheckout a _ c d) => mkCheckout a v c d) d_string;
  field "customer_details" cs_CustomerEmail (fun v '(mkCheckout a b _ d) => mkCheckout a b v d)
    (d_struct [field "email" id (fun v _ => v) d_string]);
  field "metadata" cs_Metadata (fun v '(mkCheckout a b c _) => mkCheckout a b c v) d_metadata].

Definition ParseCheckoutSession (data : Json) : res CheckoutSessionData :=
  wrap_res "parse checkout session"
    (unmarshal (mkCheckout EmptyString EmptyString EmptyString ∅) (d_struct checkout_fields) data).

Record SubscriptionData := mkSubscription {
  sb_ID : string; sb_CustomerID : string; sb_PriceID : string; sb_Status : string }.

(** The struct the payload is read into; of an item, the id of its price. *)
Record subscription := mkSub { su_ID : string; su_Customer : string; su_Status : string; su_Items : list string }.

Definition d_item : Decoder string :=
  d_struct [field "price" id (fun v _ => v) (d_struct [field "id" id (fun v _ => v) d_string])].

Definition subscription_fields : list (Field subscription) := [
  field "id" su_ID (fun v '(mkSub _ b c d) => mkSub v b c d) d_string;
  field "customer" su_Customer (fun v '(mkSub a _ c d) => mkSub a v c d) d_string;
  field "status" su_Status (fun v '(mkSub a b _ d) => mkSub a b v d) d_string;
  field "items" su_Items (fun v '(mkSub a b c _) => mkSub a b c v)
    (d_struct [field "data" id (fun v _ => v) (d_slice EmptyString d_item)])].

Definition ParseSubscription (data : Json) : res SubscriptionData :=
  match unmarshal (mkSub EmptyString EmptyString EmptyString []) (d_struct subscription_fields) data with
  | Fail e => Fail (EWrap "parse subscription" e)
  | Ok sub =>
      Ok (mkSubscription (su_ID sub) (su_Customer sub)
           (match su_Items sub with p :: _ => p | [] => EmptyString end) (su_Status sub))
  end.

Record InvoiceData := mkInvoice {
  in_CustomerID : string; in_CustomerEmail : string; in_AmountDue : Z; in_Currency : string }.

Definition invoice_fields : list (Field InvoiceData) := [
  field "customer" in_CustomerID (fun v '(mkInvoice _ b c d) => mkInvoice v b c d) d_string;
  field "customer_email" in_CustomerEmail (fun v '(mkInvoice a _ c d) => mkInvoice a v c d) d_string;
  field "amount_due" in_AmountDue (fun v '(mkInvoice a b _ d) => mkInvoice a b v d) d_int;
  field "currency" in_Currency (fun v '(mkInvoice a b c _) => mkInvoice a b c v) d_string].

Definition ParseInvoice (data : Json) : res InvoiceData :=
  wrap_res "parse invoice" (unmarshal (mkInvoice EmptyString EmptyString 0 EmptyString) (d_struct invoice_fields) data).

(** ** The service *)

Record Service := mkService {
  sv_webhookSecret : string;
  sv_prices : gmap string string;        (* tier -> price ID *)
  sv_priceToTier : gmap string string }.

(** The reverse map is built in the iteration order of the Go map, which is any
    enumeration of its entries. *)
Definition NewService (webhookSecret : string) (prices : gmap string string)
    (order : list (string * string)) : Service :=
  mkService webhookSecret prices
    (fold_left (fun m kv => if is_empty kv.2 then m else <[kv.2 := kv.1]> m) order ∅).

Definition GetTierFromPriceID (s : Service) (priceID : string) : string :=
  match sv_priceToTier s !! priceID with Some tier => tier | None => TierFree end.

Definition GetPriceID (s : Service) (tier : string) : string :=
  match sv_prices s !! tier with Some p => p | None => EmptyString end.

(** Stripe: the signature check (payload, header, secret) and the URLs its
    sessions answer with. *)
Class Stripe := {
  ConstructEvent : string -> string -> string -> res StripeEvent;
  session_url : nat -> string }.

Definition VerifyWebhook `{Stripe} (s : Service) (payload signature : string) : res StripeEvent :=
  wrap_res "verify webhook signature" (ConstructEvent payload signature (sv_webhookSecret s)).

(** [io.LimitReader]: the first [n] bytes. *)
Fixpoint limit_reader (n : Z) (s : string) : string :=
  match s with
  | EmptyString => EmptyString
  | String c s' => if n <=? 0 then EmptyString else String c (limit_reader (n - 1) s')
  end.

Definition terminalSubscriptionStatuses (s : string) : bool :=
  existsb (String.eqb s) ["canceled"; "unpaid"; "incomplete_expired"].
Definition liveSubscriptionStatuses (s : string) : bool :=
  existsb (String.eqb s) ["active"; "trialing"].

Record CheckoutRequest := mkCheckoutRequest { ck_Tier : string; ck_SuccessURL : string; ck_CancelURL : string }.

Section Handler.
Context `{Env} `{Stripe}.

(** A call that answers with a session URL. *)
Definition stripe_call (ev : Event) : P (res string) :=
  atom (fun w =>
    let w' := set_trace (w_trace w ++ [ev]) (set_tick (S (w_tick w)) w) in
    match env_ext (w_tick w) ev with
    | Some e => (Fail e, w')
    | None => (Ok (session_url (w_tick w)), w')
    end).

Definition CreateCheckoutSession (email priceID successURL cancelURL : string)
    (metadata : list (string * string)) : P (res string) :=
  let? url := stripe_call (EvCheckoutSession email priceID successURL cancelURL metadata)
  catch e => Ret (Fail (EWrap "create checkout session" e)) in
  Ret (Ok url).

Definition CreateCustomerPortalSession (customerID returnURL : string) : P (res string) :=
  let? url := stripe_call (EvPortalSession customerID returnURL)
  catch e => Ret (Fail (EWrap "create portal session" e)) in
  Ret (Ok url).

(** The handler: [None] when Stripe is not configured. *)
Context (h : option Service).

Definition with_enabled (k : Service -> P HTTPResponse) : P HTTPResponse :=
  match h with
  | None => Ret (Error StatusNotImplemented "billing is not configured")
  | Some s => k s
  end.

Definition with_user (user : option User) (k : User -> P HTTPResponse) : P HTTPResponse :=
  match user with
  | None => Ret (Error StatusUnauthorized "unauthorized")
  | Some u => k u
  end.

Definition CreateCheckout (user : option User) (body : option CheckoutRequest) : P HTTPResponse :=
  with_enabled (fun s => with_user user (fun u =>
  match body with
  | None => Ret (Error StatusBadRequest "invalid request body")
  | Some req =>
      if negb (IsPaidTier (ck_Tier req)) then
        Ret (Error StatusBadRequest "invalid tier: must be starter, pro, or studio")
      else
      let priceID := GetPriceID s (ck_Tier req) in
      if is_empty priceID then Ret (Error StatusBadRequest "tier not available for purchase") else
      if is_empty (ck_SuccessURL req) || is_empty (ck_CancelURL req) then
        Ret (Error StatusBadRequest "success_url and cancel_url are required")
      else
      let metadata := [("user_id", us_ID u); ("user_email", us_Email u); ("tier", ck_Tier req)] in
      let? url := CreateCheckoutSession (us_Email u) priceID (ck_SuccessURL req) (ck_CancelURL req) metadata
      catch e => Ret (Error StatusInternalServerError "failed to create checkout session") in
      Ret (JSON StatusOK (BJson (JObject [("url", JString url)])))
  end)).

Definition nonempty (o : option string) : bool :=
  match o with Some s => negb (is_empty s) | None => false end.

(** The first Stripe customer among the user's tenants. *)
Definition find_customer (tenants : list TenantStore.BillingTenant) : string :=
  match List.find (fun t => nonempty (TenantStore.bt_StripeCustomerID t)) tenants with
  | Some t => default EmptyString (TenantStore.bt_StripeCustomerID t)
  | None => EmptyString
  end.

(** [body]: the return URL. *)
Definition CreatePortal (user : option User) (body : option string) : P HTTPResponse :=
  with_enabled (fun _ => with_user user (fun u =>
  match body with
  | None => Ret (Error StatusBadRequest "invalid request body")
  | Some returnURL =>
      if is_empty returnURL then Ret (Error StatusBadRequest "return_url is required") else
      let? tenants := TenantStore.GetBillingByOwnerID (us_ID u)
      catch e => Ret (Error StatusInternalServerError "failed to look up billing info") in
      let customerID := find_customer tenants in
      if is_empty customerID then Ret (Error StatusBadRequest "no active subscription found") else
      let? url := CreateCustomerPortalSession customerID returnURL
      catch e => Ret (Error StatusInternalServerError "failed to create portal session") in
      Ret (JSON StatusOK (BJson (JObject [("url", JString url)])))
  end)).

Definition limits_json (l : TierLimits) : Json :=
  JObject [("max_stations", JInt (MaxStations l)); ("max_tenants", JInt (MaxTenants l));
           ("max_platforms", JInt (MaxPlatforms l)); ("max_quality", JString (MaxQuality l));
           ("watermark", JBool (Watermark l)); ("dsp", JBool (DSP l));
           ("custom_overlays", JBool (CustomOverlays l)); ("analytics", JString (Analytics l));
           ("storage", JString (Storage l))].

Definition status_json (t : TenantStore.BillingTenant) : Json :=
  JObject [("tenant_id", JString (TenantStore.bt_ID t)); ("tenant_name", JString (TenantStore.bt_Name t));
           ("tier", JString (TenantStore.bt_Tier t));
           ("limits", limits_json (GetLimits (TenantStore.bt_Tier t)));
           ("has_stripe", JBool (nonempty (TenantStore.bt_StripeCustomerID t)))].

Definition Status (user : option User) : P HTTPResponse :=
  with_enabled (fun _ => with_user user (fun u =>
  let? tenants := TenantStore.GetBillingByOwnerID (us_ID u)
  catch e => Ret (Error StatusInternalServerError "failed to look up billing info") in
  Ret (JSON StatusOK (BJson (JObject [("tenants", JArray (map status_json tenants))]))))).

(** ** Webhooks: an error asks Stripe to deliver the event again *)

Definition handleCheckoutCompleted (data : Json) : P (option error) :=
  match ParseCheckoutSession data with
  | Fail _ => Ret None
  | Ok session =>
      let userID := index (cs_Metadata session) "user_id" in
      let tier := index (cs_Metadata session) "tier" in
      if is_empty userID || is_empty tier then Ret None else
      let? tenants := TenantStore.GetBillingByOwnerID userID
      catch e => Ret (Some (EWrap ("get tenants for checkout (user " +:+ userID +:+ ")") e)) in
      match tenants with
      | [] => Ret None
      | t :: _ =>
          if_err e := TenantStore.UpdateBilling (TenantStore.bt_ID t) (cs_CustomerID session)
                        (cs_SubscriptionID session) tier
          then Ret (Some (EWrap ("update tenant " +:+ TenantStore.bt_ID t +:+ " after checkout") e))
          else Ret None
      end
  end.

(** The update a subscription event asks for: tier and subscription reference. *)
Definition subscription_change (s : Service) (sub : SubscriptionData) : option (string * string) :=
  if terminalSubscriptionStatuses (sb_Status sub) then Some (TierFree, EmptyString)
  else if liveSubscriptionStatuses (sb_Status sub) then
    Some (GetTierFromPriceID s (sb_PriceID sub), sb_ID sub)
  else None.

(** The tail [handleSubscriptionUpdated] and [handleSubscriptionDeleted] share:
    the customer's tenant takes the tier. *)
Definition set_customer_tier (customerID tier ref : string) (msg : string -> string) :
    P (option error) :=
  let? tenant := TenantStore.GetByStripeCustomerID customerID
  catch e => Ret (Some (EWrap ("get tenant by customer " +:+ customerID) e)) in
  match tenant with
  | None => Ret None
  | Some t =>
      if_err e := TenantStore.UpdateBilling (TenantStore.bt_ID t) customerID ref tier
      then Ret (Some (EWrap (msg (TenantStore.bt_ID t)) e))
      else Ret None
  end.

Definition handleSubscriptionUpdated (s : Service) (data : Json) : P (option error) :=
  match ParseSubscription data with
  | Fail _ => Ret None
  | Ok sub =>
      match subscription_change s sub with
      | None => Ret None
      | Some (tier, ref) => set_customer_tier (sb_CustomerID sub) tier ref (fun id => "update tier for tenant " +:+ id)
      end
  end.

Definition handleSubscriptionDeleted (data : Json) : P (option error) :=
  match ParseSubscription data with
  | Fail _ => Ret None
  | Ok sub => set_customer_tier (sb_CustomerID sub) TierFree EmptyString
                  (fun id => "downgrade tenant " +:+ id +:+ " to free")
  end.

(** Logs only; the parse decides what is logged. *)
Definition handleInvoicePaymentFailed (data : Json) : P unit :=
  match ParseInvoice data with Fail _ => Ret tt | Ok _ => Ret tt end.

Definition dispatch (s : Service) (event : StripeEvent) : P (option error) :=
  if String.eqb (ev_Type event) EventCheckoutCompleted then handleCheckoutCompleted (ev_Data event)
  else if String.eqb (ev_Type event) EventSubscriptionUpdated then handleSubscriptionUpdated s (ev_Data event)
  else if String.eqb (ev_Type event) EventSubscriptionDeleted then handleSubscriptionDeleted (ev_Data event)
  else if String.eqb (ev_Type event) EventInvoicePaymentFailed then
    handleInvoicePaymentFailed (ev_Data event) ;;; Ret None
  else Ret None.

(** [body]: what reading the request body gives. *)
Definition Webhook (body : res string) (signature : string) : P HTTPResponse :=
  with_enabled (fun s =>
  match body with
  | Fail _ => Ret (Error StatusBadRequest "failed to read request body")
  | Ok raw =>
      let payload := limit_reader 1048576 raw in
      if is_empty signature then Ret (Error StatusBadRequest "missing Stripe-Signature header") else
      match VerifyWebhook s payload signature with
      | Fail _ => Ret (Error StatusBadRequest "invalid webhook signature")
      | Ok event =>
          if_err e := dispatch s event then
            Ret (Error StatusInternalServerError "failed to process webhook")
          else Ret (mkResponse StatusOK BEmpty [])
      end
  end).

End Handler.
