(* ===== verification/BillingSpec.v ===== *)
(** * What the Stripe webhook does to a tenant

    A webhook changes at most the billing columns of one live tenant, and only
    when its signature checks out; an answer of 500, which asks Stripe to
    deliver again, leaves everything as it was. Replaying a subscription event
    converges; replaying a checkout after the deletion of its subscription does
    not. *)

From stdpp Require Import gmap strings list fin_maps.
From Stdlib Require Import ZArith Lia.
From S2P Require Import Prelude GoStrings World Response Tables Tiers TenantFSM StoreSafe Billing.
From S2P Require TenantStore.

Open Scope Z_scope.

(** The row after [UpdateBilling]. *)
Definition billed (customerID ref tier : string) (now : Z) (t : Tenant) : Tenant :=
  apply_sets now [SetStripeCustomerID customerID; SetStripeSubscriptionID ref; SetTier tier] t.

(** Nothing but tenants and the operation counter changed. *)
Definition only_tenants (w w' : World) : Prop :=
  w_nodes w' = w_nodes w /\ w_projects w' = w_projects w /\ w_audit w' = w_audit w /\
  w_auth w' = w_auth w /\ w_peers w' = w_peers w /\ w_clients w' = w_clients w /\
  w_jobs w' = w_jobs w /\ w_radio w' = w_radio w /\ w_keys w' = w_keys w /\ w_trace w' = w_trace w.

#[export] Instance only_tenants_preorder : PreOrder only_tenants.
Proof. split; [by intros w|]. unfold only_tenants. intros a b c. intuition congruence. Qed.

Lemma unchanged_only_tenants w w' : unchanged w w' -> only_tenants w w'.
Proof. unfold unchanged, same_db, only_tenants. intuition. Qed.

Lemma unchanged_tenants w w' : unchanged w w' -> w_tenants w' = w_tenants w.
Proof. by intros [(?&_) _]. Qed.

(** One live row, re-billed. *)
Definition rebilled (c ref tier : string) (sel : Tenant -> bool) (w w' : World) : Prop :=
  exists id t now, w_tenants w !! id = Some t /\ sel t = true /\ live t = true /\
    w_tenants w' = <[id := billed c ref tier now t]> (w_tenants w).

Lemma billed_fields c ref tier now t :
  t_StripeCustomerID (billed c ref tier now t) = Some c /\
  t_StripeSubscriptionID (billed c ref tier now t) = Some ref /\
  t_Tier (billed c ref tier now t) = tier /\
  t_ID (billed c ref tier now t) = t_ID t /\ t_Name (billed c ref tier now t) = t_Name t /\
  t_Subdomain (billed c ref tier now t) = t_Subdomain t /\
  t_Status (billed c ref tier now t) = t_Status t /\ t_OwnerID (billed c ref tier now t) = t_OwnerID t.
Proof. by destruct t. Qed.

Lemma billed_again c ref tier now now' t :
  billed c ref tier now' (billed c ref tier now t) = billed c ref tier now' t.
Proof. by destruct t. Qed.

Lemma billed_live c ref tier now t : live (billed c ref tier now t) = live t.
Proof. by destruct t. Qed.

Section Specs.
Context `{Env}.

Lemma wp_UpdateBilling id c ref tier Q w :
  (forall e w', unchanged w w' -> Q (Some e) w') ->
  (forall t now w', w_tenants w !! id = Some t -> only_tenants w w' ->
     w_tenants w' = <[id := billed c ref tier now t]> (w_tenants w) -> Q None w') ->
  wp (TenantStore.UpdateBilling id c ref tier) Q w.
Proof.
  intros HF HS. apply wp_bind, wp_stmt; [intros; by apply wp_ret, HF|intros _].
  set (w1 := set_tick (S (w_tick w)) w).
  destruct (update_tenant_cases id (fun _ => true)
    [SetStripeCustomerID c; SetStripeSubscriptionID ref; SetTier tier] w1)
    as [(t & t' & Ht & H1 & -> & H2 & ->)|[[H1 ->]|(t & H1 & H2 & ->)]]; apply wp_ret; cbn [fst snd].
  - by eapply (HS t (env_now (w_tick w1))).
  - by apply HF.
  - by apply HF.
Qed.

(** On an answering database it takes effect. *)
Lemma wp_UpdateBilling_up (Hup : forall t, env_fault t = None) id c ref tier t Q w :
  tenants_ok (w_tenants w) -> w_tenants w !! id = Some t ->
  (forall now w', only_tenants w w' ->
     w_tenants w' = <[id := billed c ref tier now t]> (w_tenants w) -> Q None w') ->
  wp (TenantStore.UpdateBilling id c ref tier) Q w.
Proof.
  intros Hok Ht HS. apply wp_bind, wp_stmt; [intros ? Hf; by rewrite Hup in Hf|intros _].
  set (w1 := set_tick (S (w_tick w)) w).
  assert (update_tenant id (fun _ => true)
    [SetStripeCustomerID c; SetStripeSubscriptionID ref; SetTier tier] w1 =
    (Ok (Some (billed c ref tier (env_now (w_tick w1)) t)),
     set_tenants (<[id := billed c ref tier (env_now (w_tick w1)) t]> (w_tenants w1)) w1)) as ->.
  { unfold update_tenant. change (w_tenants w1) with (w_tenants w). rewrite Ht. fold (billed c ref tier (env_now (w_tick w1)) t).
    destruct (billed_fields c ref tier (env_now (w_tick w1)) t) as (_&_&_&E1&E2&E3&_).
    rewrite (no_conflict_same_key _ id t); try done. by rewrite billed_live. }
  apply wp_ret. by eapply HS.
Qed.

Lemma wp_GetBillingByOwnerID u Q w :
  (forall e w', unchanged w w' -> (exists m, env_fault (w_tick w) = Some m) -> Q (Fail e) w') ->
  (forall w', unchanged w w' ->
     Q (Ok (map TenantStore.to_billing
        (order_desc t_CreatedAt (select (fun t => TenantStore.owned_by u t && live t) (w_tenants w))))) w') ->
  wp (TenantStore.GetBillingByOwnerID u) Q w.
Proof.
  intros HF HS. apply wp_bind, wp_query.
  - intros m w' Hu Hf. apply wp_ret, HF; eauto.
  - intros w' Hu _. apply wp_ret. rewrite (unchanged_tenants _ _ Hu). by apply HS.
Qed.

Lemma wp_GetByStripeCustomerID c Q w :
  (forall e w', unchanged w w' -> (exists m, env_fault (w_tick w) = Some m) -> Q (Fail e) w') ->
  (forall w', unchanged w w' ->
     (forall id t, w_tenants w !! id = Some t -> live t = true -> t_StripeCustomerID t <> Some c) ->
     Q (Ok None) w') ->
  (forall w' id t, unchanged w w' -> w_tenants w !! id = Some t -> live t = true ->
     t_StripeCustomerID t = Some c -> Q (Ok (Some (TenantStore.to_billing t))) w') ->
  wp (TenantStore.GetByStripeCustomerID c) Q w.
Proof.
  intros HF HN HS. apply wp_bind, wp_query.
  - intros m w' Hu Hf. apply wp_ret, HF; eauto.
  - intros w' Hu _. apply wp_ret. rewrite (unchanged_tenants _ _ Hu).
    destruct (select _ _) as [|t l] eqn:E; simpl.
    + apply HN; [done|]. intros id t Ht Hl Hc.
      assert (t ∈ select (fun t => TenantStore.has_customer c t && live t) (w_tenants w)) as Hin.
      { apply elem_of_select. split; [|eauto]. unfold TenantStore.has_customer.
        by rewrite Hc, String.eqb_refl, Hl. }
      rewrite E in Hin. by apply elem_of_nil in Hin.
    + assert (t ∈ select (fun t => TenantStore.has_customer c t && live t) (w_tenants w)) as Hin.
      { rewrite E. apply elem_of_cons. by left. }
      apply elem_of_select in Hin as [Hs [id Hid]]. apply andb_prop in Hs as [Hc Hl].
      unfold TenantStore.has_customer in Hc. destruct (t_StripeCustomerID t) as [c'|] eqn:Ec; [|done].
      apply String.eqb_eq in Hc as ->. by apply (HS w' id t).
Qed.

End Specs.

(** ** What each event handler does, faults included *)

Section Handlers.
Context `{Env} `{Stripe}.

(** An error changed nothing; success changed nothing or re-billed one live
    row. *)
Definition event_outcome (w : World) (r : option error) (w' : World) : Prop :=
  only_tenants w w' /\
  (w_tenants w' = w_tenants w \/
   (r = None /\ exists c ref tier, rebilled c ref tier (fun _ => true) w w')).

Lemma outcome_same w r w' : unchanged w w' -> event_outcome w r w'.
Proof. intros Hu. split; [by apply unchanged_only_tenants|]. left. by apply unchanged_tenants. Qed.

Lemma outcome_billed w w1 w2 c ref tier t id now :
  unchanged w w1 -> only_tenants w1 w2 -> w_tenants w !! id = Some t -> live t = true ->
  w_tenants w2 = <[id := billed c ref tier now t]> (w_tenants w1) ->
  event_outcome w None w2.
Proof.
  intros Hu Ho Ht Hl E. split; [etrans; [by apply unchanged_only_tenants|done]|].
  right. split; [done|]. exists c, ref, tier, id, t, now.
  split_and!; [done..|]. by rewrite E, (unchanged_tenants _ _ Hu).
Qed.

Lemma wp_set_customer_tier c tier ref msg w :
  tenants_ok (w_tenants w) -> wp (set_customer_tier c tier ref msg) (event_outcome w) w.
Proof.
  intros Hok. apply wp_bind, wp_GetByStripeCustomerID.
  - intros e w1 Hu _. by apply wp_ret, outcome_same.
  - intros w1 Hu _. by apply wp_ret, outcome_same.
  - intros w1 id t Hu Ht Hl Hc. apply wp_bind, wp_UpdateBilling.
    + intros e w2 Hu2. apply wp_ret, outcome_same. by etrans.
    + simpl. rewrite (proj1 Hok _ _ Ht). intros t2 now w2 Ht2 Ho E. apply wp_ret.
      rewrite (unchanged_tenants _ _ Hu) in Ht2. assert (t2 = t) as -> by congruence.
      by eapply outcome_billed.
Qed.

Lemma wp_handleCheckout data w :
  tenants_ok (w_tenants w) -> wp (handleCheckoutCompleted data) (event_outcome w) w.
Proof.
  intros Hok. unfold handleCheckoutCompleted.
  destruct (ParseCheckoutSession data) as [session|e]; [|by apply wp_ret, outcome_same].
  cbv zeta. destruct (_ || _); [by apply wp_ret, outcome_same|].
  apply wp_bind, wp_GetBillingByOwnerID.
  - intros e w1 Hu _. by apply wp_ret, outcome_same.
  - intros w1 Hu. destruct (order_desc _ _) as [|t l] eqn:E; [by apply wp_ret, outcome_same|].
    assert (exists id, w_tenants w !! id = Some t /\ live t = true) as (id & Ht & Hl).
    { assert (t ∈ order_desc t_CreatedAt (select (fun t => TenantStore.owned_by
        (index (cs_Metadata session) "user_id") t && live t) (w_tenants w))) as Hin
        by (rewrite E; apply elem_of_cons; by left).
      rewrite elem_of_order_desc, elem_of_select in Hin. destruct Hin as [[_ Hl]%andb_prop [id Hid]].
      by exists id. }
    simpl. apply wp_bind, wp_UpdateBilling.
    + intros e w2 Hu2. apply wp_ret, outcome_same. by etrans.
    + rewrite (proj1 Hok _ _ Ht). intros t2 now w2 Ht2 Ho E2. apply wp_ret.
      rewrite (unchanged_tenants _ _ Hu) in Ht2. assert (t2 = t) as -> by congruence.
      by eapply outcome_billed.
Qed.

Lemma wp_dispatch s event w :
  tenants_ok (w_tenants w) -> wp (dispatch s event) (event_outcome w) w.
Proof.
  intros Hok. unfold dispatch. destruct (String.eqb _ _); [by apply wp_handleCheckout|].
  destruct (String.eqb _ _).
  { unfold handleSubscriptionUpdated. destruct (ParseSubscription _) as [sub|]; [|by apply wp_ret, outcome_same].
    destruct (subscription_change s sub) as [[tier ref]|]; [|by apply wp_ret, outcome_same].
    by apply wp_set_customer_tier. }
  destruct (String.eqb _ _).
  { unfold handleSubscriptionDeleted. destruct (ParseSubscription _) as [sub|]; [|by apply wp_ret, outcome_same].
    by apply wp_set_customer_tier. }
  destruct (String.eqb _ _); [|by apply wp_ret, outcome_same].
  unfold handleInvoicePaymentFailed. destruct (ParseInvoice _); by apply wp_ret, outcome_same.
Qed.

(** C22. Only Stripe changes a plan, and an error is a request to redeliver. For
    every body, signature and pattern of failures, the webhook either leaves
    every table as it is, or the signature was accepted under the configured
    secret, the answer is 200, and exactly one live tenant's customer,
    subscription and tier were rewritten, with all its other columns and every
    other row untouched. In particular an answer other than 200 changed
    nothing. *)
Theorem Webhook_effect (h : option Service) (body : res string) (signature : string) (w : World)
  (Hok : tenants_ok (w_tenants w)) :
  wp (Webhook h body signature) (fun r w' => only_tenants w w' /\
    (w_tenants w' = w_tenants w \/
     (r_Status r = StatusOK /\
      (exists s raw event, h = Some s /\ body = Ok raw /\
         ConstructEvent (limit_reader 1048576 raw) signature (sv_webhookSecret s) = Ok event) /\
      exists c ref tier, rebilled c ref tier (fun _ => true) w w'))) w.
Proof.
  unfold Webhook. destruct h as [s|]; cbn [with_enabled]; [|by apply wp_ret; split; [done|left]].
  destruct body as [raw|e]; [|by apply wp_ret; split; [done|left]].
  cbv zeta. destruct (is_empty signature); [by apply wp_ret; split; [done|left]|].
  unfold VerifyWebhook. destruct (ConstructEvent _ _ _) as [event|e] eqn:Ev; simpl wrap_res; cbv iota;
    [|by apply wp_ret; split; [done|left]].
  apply wp_bind. eapply wp_mono; [by apply wp_dispatch|].
  intros [e|] w' [Ho Hout]; apply wp_ret; (split; [done|]); destruct Hout as [|[Hr Hb]]; auto; try done.
  right. split_and!; [done| |done]. by exists s, raw, event.
Qed.

(** ** Subscription events on a database that answers *)

Definition has_live_customer (c : string) (m : gmap string Tenant) : Prop :=
  exists id t, m !! id = Some t /\ live t = true /\ t_StripeCustomerID t = Some c.

(** The tenant of customer [c], if there is one, is put on [tier]. *)
Definition put_on (c tier ref : string) (w w' : World) : Prop :=
  (~ has_live_customer c (w_tenants w) /\ unchanged w w') \/
  (rebilled c ref tier (TenantStore.has_customer c) w w' /\ only_tenants w w').

Lemma wp_put_on (Hup : forall t, env_fault t = None) c tier ref msg w :
  tenants_ok (w_tenants w) ->
  wp (set_customer_tier c tier ref msg) (fun r w' => r = None /\ put_on c tier ref w w') w.
Proof.
  intros Hok. apply wp_bind, wp_GetByStripeCustomerID.
  - intros e w1 _ [m Hf]. by rewrite Hup in Hf.
  - intros w1 Hu Hno. apply wp_ret. split; [done|]. left. split; [|done].
    intros (id & t & Ht & Hl & Hc). by apply (Hno id t).
  - intros w1 id t Hu Ht Hl Hc. apply wp_bind.
    apply (wp_UpdateBilling_up Hup _ _ _ _ t).
    + by rewrite (unchanged_tenants _ _ Hu).
    + simpl. by rewrite (unchanged_tenants _ _ Hu), (proj1 Hok _ _ Ht).
    + simpl. rewrite (proj1 Hok _ _ Ht). intros now w2 Ho E. apply wp_ret. split; [done|]. right.
      split; [|etrans; [by apply unchanged_only_tenants|done]].
      exists id, t, now. unfold TenantStore.has_customer. rewrite Hc, String.eqb_refl.
      by rewrite E, (unchanged_tenants _ _ Hu).
Qed.

(** C23. The plan follows the subscription. On a database that answers, an
    update of a subscription that ended (canceled, unpaid, incomplete_expired)
    puts its customer's tenant on the free plan and clears the reference,
    whatever price it still carries; one that is live (active, trialing) puts
    it on the plan of its price, or on free for an unknown price; every other
    status changes nothing. A deletion puts it on free. Other tenants are never
    touched, and no such event is reported as failed. *)
Theorem subscription_events_spec (s : Service) (data : Json) (sub : SubscriptionData) (w : World)
  (Hup : forall t, env_fault t = None) (Hok : tenants_ok (w_tenants w))
  (Hparse : ParseSubscription data = Ok sub) :
  wp (handleSubscriptionUpdated s data) (fun r w' => r = None /\
    ((sb_Status sub ∈ ["canceled"; "unpaid"; "incomplete_expired"] /\
        put_on (sb_CustomerID sub) "free" "" w w') \/
     (sb_Status sub ∈ ["active"; "trialing"] /\
        put_on (sb_CustomerID sub) (default "free" (sv_priceToTier s !! sb_PriceID sub)) (sb_ID sub) w w') \/
     (~ sb_Status sub ∈ ["canceled"; "unpaid"; "incomplete_expired"; "active"; "trialing"] /\
        unchanged w w'))) w /\
  wp (handleSubscriptionDeleted data) (fun r w' => r = None /\
    put_on (sb_CustomerID sub) "free" "" w w') w.
Proof.
  assert (forall x l, existsb (String.eqb x) l = true <-> x ∈ l) as Hmem.
  { intros x l. rewrite existsb_exists. split.
    - intros (y & Hy & ->%String.eqb_eq). by apply list_elem_of_In.
    - intros Hx. exists x. split; [by apply list_elem_of_In|apply String.eqb_refl]. }
  split; [unfold handleSubscriptionUpdated|unfold handleSubscriptionDeleted]; rewrite Hparse.
  2: by apply wp_put_on.
  unfold subscription_change, terminalSubscriptionStatuses, liveSubscriptionStatuses.
  destruct (existsb _ ["canceled"; _; _]) eqn:E1.
  { eapply wp_mono; [by apply wp_put_on|]. intros r w' [-> Hp]. split; [done|]. left.
    split; [by apply Hmem|done]. }
  destruct (existsb _ ["active"; _]) eqn:E2.
  { eapply wp_mono; [by apply wp_put_on|]. intros r w' [-> Hp]. split; [done|]. right; left.
    split; [by apply Hmem|]. unfold GetTierFromPriceID in Hp. by destruct (sv_priceToTier s !! _). }
  apply wp_ret. split; [done|]. right; right. split; [|done].
  apply not_true_iff_false in E1, E2. rewrite Hmem in E1, E2.
  rewrite !elem_of_cons in *. tauto.
Qed.

(** ** Replays *)

Lemma put_on_again c tier ref w w1 w2 :
  (forall id1 t1 id2 t2, w_tenants w !! id1 = Some t1 -> w_tenants w !! id2 = Some t2 ->
     live t1 = true -> live t2 = true ->
     t_StripeCustomerID t1 = Some c -> t_StripeCustomerID t2 = Some c -> id1 = id2) ->
  put_on c tier ref w w1 -> put_on c tier ref w1 w2 ->
  w_tenants w2 = w_tenants w1 \/
  exists id t now, w_tenants w1 !! id = Some t /\ w_tenants w2 = <[id := set_updated now t]> (w_tenants w1).
Proof.
  intros Huniq Hp1 [[_ Hu]|[(id2 & t2 & now2 & Ht2 & Hc2 & Hl2 & E2) _]].
  { left. by apply unchanged_tenants. }
  unfold TenantStore.has_customer in Hc2. destruct (t_StripeCustomerID t2) as [c2|] eqn:Ec2; [|done].
  apply String.eqb_eq in Hc2 as ->.
  destruct Hp1 as [[Hno Hu]|[(id & t & now & Ht & Hc & Hl & E) _]].
  { destruct Hno. exists id2, t2. by rewrite <- (unchanged_tenants _ _ Hu). }
  unfold TenantStore.has_customer in Hc. destruct (t_StripeCustomerID t) as [c1|] eqn:Ec; [|done].
  apply String.eqb_eq in Hc as ->. right.
  assert (id2 = id) as ->.
  { rewrite E, lookup_insert in Ht2. case_decide; [done|]. by apply (Huniq id2 t2 id t). }
  rewrite E, lookup_insert_eq in Ht2. injection Ht2 as <-.
  exists id, (billed c ref tier now t), now2. rewrite E, lookup_insert_eq. split; [done|].
  rewrite E in E2. rewrite E2. f_equal. by destruct t.
Qed.

(** Redelivering a subscription event converges: on a database that
    answers, processing the same update or deletion a second time changes
    nothing but the row's [updated_at]. *)
Theorem subscription_replay (s : Service) (data : Json) (sub : SubscriptionData) (w : World)
    (handler : P (option error))
  (Hup : forall t, env_fault t = None) (Hok : tenants_ok (w_tenants w))
  (Hparse : ParseSubscription data = Ok sub)
  (Huniq : forall id1 t1 id2 t2, w_tenants w !! id1 = Some t1 -> w_tenants w !! id2 = Some t2 ->
     live t1 = true -> live t2 = true -> t_StripeCustomerID t1 = Some (sb_CustomerID sub) ->
     t_StripeCustomerID t2 = Some (sb_CustomerID sub) -> id1 = id2)
  (Hev : handler = handleSubscriptionUpdated s data \/ handler = handleSubscriptionDeleted data) :
  wp handler (fun _ w1 => wp handler (fun _ w2 =>
    w_tenants w2 = w_tenants w1 \/
    exists id t now, w_tenants w1 !! id = Some t /\
      w_tenants w2 = <[id := set_updated now t]> (w_tenants w1)) w1) w.
Proof.
  assert (exists change : option (string * string), exists msg,
    handler = match change with None => Ret None
              | Some (tier, ref) => set_customer_tier (sb_CustomerID sub) tier ref msg end) as (ch & msg & ->).
  { destruct Hev as [-> | ->]; unfold handleSubscriptionUpdated, handleSubscriptionDeleted; rewrite Hparse.
    - by exists (subscription_change s sub), (fun id => "update tier for tenant " +:+ id).
    - by exists (Some (TierFree, EmptyString)), (fun id => "downgrade tenant " +:+ id +:+ " to free"). }
  destruct ch as [[tier ref]|]; [|apply wp_ret, wp_ret; by left].
  eapply wp_mono; [by apply wp_put_on|]. intros r w1 [_ Hp1].
  assert (tenants_ok (w_tenants w1)) as Hok1.
  { destruct Hp1 as [[_ Hu]|[(id & t & now & Ht & _ & _ & E) _]]; [by rewrite (unchanged_tenants _ _ Hu)|].
    destruct (billed_fields (sb_CustomerID sub) ref tier now t) as (_&_&_&E1&E2&E3&_).
    rewrite E, <- (proj1 Hok _ _ Ht), <- E1. apply tenants_ok_insert; [done|].
    apply (no_conflict_same_key _ id t); try done. by rewrite billed_live. }
  eapply wp_mono; [by apply wp_put_on|]. intros r2 w2 [_ Hp2]. by eapply put_on_again.
Qed.

(** A checkout for the only tenant of its user: it fails without effect, or
    puts the tenant on the plan. *)
Lemma wp_checkout_sole data session t w :
  tenants_ok (w_tenants w) -> ParseCheckoutSession data = Ok session ->
  index (cs_Metadata session) "tier" <> EmptyString ->
  index (cs_Metadata session) "user_id" <> EmptyString ->
  order_desc t_CreatedAt (select (fun t => TenantStore.owned_by (index (cs_Metadata session) "user_id") t
    && live t) (w_tenants w)) = [t] ->
  wp (handleCheckoutCompleted data) (fun r w' =>
    (is_Some r /\ unchanged w w') \/
    (r = None /\ exists now, w_tenants w' = <[t_ID t := billed (cs_CustomerID session)
       (cs_SubscriptionID session) (index (cs_Metadata session) "tier") now t]> (w_tenants w))) w.
Proof.
  intros Hok Hparse Htier Huser Hsole. unfold handleCheckoutCompleted. rewrite Hparse. cbv zeta.
  rewrite (proj2 (is_empty_false _) Huser), (proj2 (is_empty_false _) Htier). cbn [orb].
  apply wp_bind, wp_GetBillingByOwnerID.
  - intros e w1 Hu _. apply wp_ret. left. split; [by eexists|done].
  - intros w1 Hu. rewrite Hsole. cbn [map]. apply wp_bind, wp_UpdateBilling.
    + intros e w2 Hu2. apply wp_ret. left. split; [by eexists|by etrans].
    + intros t2 now w2 Ht2 _ E. apply wp_ret. right. split; [done|]. exists now.
      assert (t ∈ order_desc t_CreatedAt (select (fun t => TenantStore.owned_by (index
        (cs_Metadata session) "user_id") t && live t) (w_tenants w))) as Hin
        by (rewrite Hsole; apply elem_of_cons; by left).
      rewrite elem_of_order_desc, elem_of_select in Hin. destruct Hin as [_ [id Hid]].
      rewrite (unchanged_tenants _ _ Hu) in E, Ht2. simpl in E, Ht2.
      assert (t2 = t) as -> by (rewrite (proj1 Hok _ _ Hid) in Ht2; congruence). done.
Qed.

(** Redelivering a checkout does not converge. The writes are absolute, but
    the order of delivery is lost: when a checkout fails (500) and its
    subscription is deleted before Stripe delivers it again, the deletion finds
    no tenant with that customer and is acknowledged, and the redelivered
    checkout then puts the tenant on the paid plan of a subscription that no
    longer exists. *)
Theorem redelivered_checkout_wins (data sub_data : Json) (session : CheckoutSessionData)
    (sub : SubscriptionData) (t : Tenant) (w : World)
  (Hok : tenants_ok (w_tenants w))
  (Hcheckout : ParseCheckoutSession data = Ok session) (Hsub : ParseSubscription sub_data = Ok sub)
  (Hsame : sb_CustomerID sub = cs_CustomerID session /\ sb_ID sub = cs_SubscriptionID session)
  (Htier : index (cs_Metadata session) "tier" <> EmptyString)
  (Huser : index (cs_Metadata session) "user_id" <> EmptyString)
  (Hsole : order_desc t_CreatedAt (select (fun t => TenantStore.owned_by
     (index (cs_Metadata session) "user_id") t && live t) (w_tenants w)) = [t])
  (Hnew : ~ has_live_customer (cs_CustomerID session) (w_tenants w)) :
  wp (handleCheckoutCompleted data) (fun r1 w1 => is_Some r1 ->
    wp (handleSubscriptionDeleted sub_data) (fun r2 w2 => r2 = None ->
      wp (handleCheckoutCompleted data) (fun r3 w3 => r3 = None ->
        exists t', w_tenants w3 !! t_ID t = Some t' /\
          t_Tier t' = index (cs_Metadata session) "tier" /\
          t_StripeSubscriptionID t' = Some (sb_ID sub)) w2) w1) w.
Proof.
  destruct Hsame as [Hc Hi].
  eapply wp_mono; [by eapply wp_checkout_sole|].
  intros r1 w1 [[_ Hu1]|[-> _]]; [intros _|by intros [? ?]].
  assert (wp (handleSubscriptionDeleted sub_data) (fun _ w2 => unchanged w1 w2) w1) as Hdel.
  { unfold handleSubscriptionDeleted. rewrite Hsub, Hc. apply wp_bind, wp_GetByStripeCustomerID.
    - intros e w2 Hu _. by apply wp_ret.
    - intros w2 Hu _. by apply wp_ret.
    - intros w2 id o Hu Ho Hl Hcust. destruct Hnew. exists id, o.
      by rewrite <- (unchanged_tenants _ _ Hu1). }
  eapply wp_mono; [exact Hdel|]. intros r2 w2 Hu2 _.
  assert (w_tenants w2 = w_tenants w) as E2
    by (rewrite (unchanged_tenants _ _ Hu2); by apply unchanged_tenants).
  eapply wp_mono; [eapply wp_checkout_sole; rewrite ?E2; done|].
  intros r3 w3 [[[e ->] _]|[_ [now E3]]] ?; [done|].
  eexists. rewrite E3, lookup_insert_eq. split; [done|].
  destruct (billed_fields (cs_CustomerID session) (cs_SubscriptionID session)
    (index (cs_Metadata session) "tier") now t) as (_&->&->&_). by rewrite Hi.
Qed.

End Handlers.

(** ** Prices *)

Lemma fold_prices order : forall (m : gmap string string) price tier,
  NoDup order.*1 -> (tier, price) ∈ order -> price <> EmptyString ->
  (forall t, (t, price) ∈ order -> t = tier) ->
  fold_left (fun m kv => if is_empty kv.2 then m else <[kv.2 := kv.1]> m) order m !! price = Some tier.
Proof.
  assert (forall order (m : gmap string string) price, (forall t, (t, price) ∉ order) ->
    fold_left (fun m kv => if is_empty kv.2 then m else <[kv.2 := kv.1]> m) order m !! price = m !! price)
    as Hskip.
  { clear. induction order as [|[t p] order IH]; intros m price Hno; simpl; [done|].
    rewrite IH by (intros t' Hin; apply (Hno t'), elem_of_cons; by right).
    destruct (is_empty p); [done|]. apply lookup_insert_ne. intros ->.
    apply (Hno t), elem_of_cons. by left. }
  induction order as [|[t p] order IH]; intros m price tier Hnd Hin Hne Huniq; simpl;
    [by apply elem_of_nil in Hin|].
  simpl in Hnd. apply NoDup_cons in Hnd as [Hnot Hnd].
  apply elem_of_cons in Hin as [[= -> ->]|Hin].
  - rewrite (proj2 (is_empty_false _) Hne). rewrite Hskip; [by rewrite lookup_insert_eq|].
    intros t' Hin. assert (t' = t) as -> by (apply Huniq, elem_of_cons; by right).
    apply Hnot, list_elem_of_fmap. by exists (t, p).
  - apply IH; [done..|]. intros t' Ht'. apply Huniq, elem_of_cons. by right.
Qed.

(** The two price maps agree: for every configuration, whatever order Go
    iterates it in, the plan of the price a plan is sold at is that plan, if no
    other plan has that price. So a checkout for a plan and the subscription
    events that follow name the same plan. *)
Theorem price_roundtrip (secret : string) (prices : gmap string string) (order : list (string * string))
    (tier price : string)
  (Horder : order ≡ₚ map_to_list prices) (Hprice : prices !! tier = Some price) (Hne : price <> EmptyString)
  (Huniq : forall tier', prices !! tier' = Some price -> tier' = tier) :
  GetPriceID (NewService secret prices order) tier = price /\
  GetTierFromPriceID (NewService secret prices order) price = tier.
Proof.
  unfold GetPriceID, GetTierFromPriceID. simpl. rewrite Hprice. split; [done|].
  rewrite (fold_prices order ∅ price tier); [done| | |done|].
  - rewrite Horder. apply NoDup_fst_map_to_list.
  - rewrite Horder. by apply elem_of_map_to_list.
  - intros t'. rewrite Horder, elem_of_map_to_list. apply Huniq.
Qed.

(** ** Witnesses *)

Definition billing_tenant : Tenant :=
  mkTenant "t1" "radio" "p1" "n1" (Some 100) None "radio" active None (Some "u1") None None
    "free" None "unknown" None 5 5.
Definition billing_world : World := set_tenants {[ "t1" := billing_tenant ]} empty_world.

Definition demo_service : Service :=
  NewService "whsec" {[ "pro" := "price_pro" ]} [("pro", "price_pro")].

Definition checkout_event : Json :=
  JObject [("customer", JString "cus_1"); ("subscription", JString "sub_1");
           ("metadata", JObject [("user_id", JString "u1"); ("tier", JString "pro")])].
Definition deletion_event : Json :=
  JObject [("id", JString "sub_1"); ("customer", JString "cus_1"); ("status", JString "active");
           ("items", JObject [("data", JArray [JObject [("price", JObject [("id", JString "price_pro")])]])])].

#[local] Instance demo_stripe : Stripe := {|
  ConstructEvent := fun _ _ _ => Ok (mkEvent EventCheckoutCompleted checkout_event);
  session_url := fun _ => "https://stripe" |}.

Lemma billing_world_ok : tenants_ok (w_tenants billing_world).
Proof.
  split.
  - intros id t. simpl. rewrite lookup_singleton. case_decide; [|done]. by intros [= <-].
  - intros i j a b Ha Hb Hne. simpl in Ha, Hb. apply lookup_singleton_Some in Ha as [<- _], Hb as [<- _]. done.
Qed.

Lemma Webhook_effect_witness :
  let r := run (@Webhook calm demo_stripe (Some demo_service) (Ok "{}") "sig") billing_world in
  r_Status r.1 = StatusOK /\ w_tenants r.2 <> w_tenants billing_world /\
  exists c ref tier, rebilled c ref tier (fun _ => true) billing_world r.2.
Proof.
  intros r. assert (w_tenants r.2 <> w_tenants billing_world) as Hne.
  { intros E. apply (f_equal (fun m => option_map t_Tier (m !! "t1"))) in E. vm_compute in E. discriminate. }
  pose proof (@Webhook_effect calm demo_stripe (Some demo_service) (Ok "{}") "sig" billing_world
    billing_world_ok) as [_ [E|(Hs & _ & Hr)]]; [by destruct Hne|]. by split_and!.
Defined.

Lemma subscription_events_spec_witness :
  wp (@handleSubscriptionUpdated calm demo_service deletion_event) (fun r _ => r = None) billing_world.
Proof.
  destruct (@subscription_events_spec calm demo_service deletion_event
    (mkSubscription "sub_1" "cus_1" "price_pro" "active") billing_world (fun _ => eq_refl)
    billing_world_ok eq_refl) as [Hw _].
  eapply wp_mono; [exact Hw|]. by intros r w' [-> _].
Defined.

Lemma subscription_replay_witness :
  wp (@handleSubscriptionDeleted calm deletion_event) (fun _ w1 =>
    wp (@handleSubscriptionDeleted calm deletion_event) (fun _ w2 =>
      w_tenants w2 = w_tenants w1 \/
      exists id t now, w_tenants w1 !! id = Some t /\
        w_tenants w2 = <[id := set_updated now t]> (w_tenants w1)) w1)
    (set_tenants {[ "t1" := billed "cus_1" "sub_1" "pro" 7 billing_tenant ]} billing_world).
Proof.
  apply (@subscription_replay calm demo_service deletion_event
    (mkSubscription "sub_1" "cus_1" "price_pro" "active")); [done| |done| |by right].
  - split.
    + intros id t. simpl. rewrite lookup_singleton. case_decide; [|done]. by intros [= <-].
    + intros i j a b Ha Hb Hne. simpl in Ha, Hb. apply lookup_singleton_Some in Ha as [<- _], Hb as [<- _]. done.
  - intros i a j b Ha Hb _ _ _ _. simpl in Ha, Hb. apply lookup_singleton_Some in Ha as [<- _], Hb as [<- _]. done.
Defined.

Definition demo_session : CheckoutSessionData :=
  mkCheckout "cus_1" "sub_1" EmptyString {["tier" := "pro"; "user_id" := "u1"]}.

(** The checkout's UPDATE fails once. *)
Definition flaky : Env := env_with (fun t => if Nat.eqb t 1 then Some "connection reset" else None) (fun _ _ => None).

Lemma redelivered_checkout_wins_witness :
  is_Some (run (@handleCheckoutCompleted flaky checkout_event) billing_world).1 /\
  wp (@handleCheckoutCompleted flaky checkout_event) (fun _ w1 =>
    wp (@handleSubscriptionDeleted flaky deletion_event) (fun r2 w2 => r2 = None /\
      wp (@handleCheckoutCompleted flaky checkout_event) (fun r3 w3 => r3 = None /\
        exists t', w_tenants w3 !! "t1" = Some t' /\ t_Tier t' = "pro") w2) w1) billing_world.
Proof.
  pose proof (@redelivered_checkout_wins flaky checkout_event deletion_event
    demo_session
    (mkSubscription "sub_1" "cus_1" "price_pro" "active") billing_tenant billing_world
    billing_world_ok eq_refl eq_refl (conj eq_refl eq_refl) ltac:(intros E; vm_compute in E; discriminate E) ltac:(intros E; vm_compute in E; discriminate E) eq_refl) as Hw.
  assert (~ has_live_customer "cus_1" (w_tenants billing_world)) as Hno.
  { intros (id & t & Ht & _ & Hc). simpl in Ht. by apply lookup_singleton_Some in Ht as [_ <-]. }
  specialize (Hw Hno (ex_intro _ _ eq_refl) eq_refl eq_refl) as (t' & Ht' & Htier & _).
  split; [by eexists|]. split; [exact eq_refl|]. split; [exact eq_refl|].
  exists t'. exact (conj Ht' Htier).
Defined.

Lemma price_roundtrip_witness :
  GetTierFromPriceID demo_service (GetPriceID demo_service "pro") = "pro".
Proof.
  destruct (price_roundtrip "whsec" {[ "pro" := "price_pro" ]} [("pro", "price_pro")] "pro" "price_pro")
    as [E1 E2]; [done|done|done| |].
  - intros t' Ht. by apply lookup_singleton_Some in Ht as [<- _].
  - unfold demo_service. by rewrite E1.
Defined.
