(* ===== verification/ServicesSafe.v ===== *)
(** * Authentication, billing and the WireGuard hub keep the invariant

    The endpoints of these components, as programs, keep the invariant of the
    tables and move tenants along the machine of [TenantFSM]. *)

From stdpp Require Import gmap strings list fin_maps.
From Stdlib Require Import ZArith Lia.
From S2P Require Import Prelude GoStrings World Response Tables TenantFSM StoreSafe.
From S2P Require WGStore WGService WGHandler AuthStore AuthHandler Tiers TenantStore Billing AuditStore.
From S2P Require StationStore StationPoller StationHandler.

Open Scope Z_scope.

Section Keeps.
Context `{Env}.

(** Writes to tables the life cycle does not look at. *)
Lemma write_auth_ok a w :
  AuthStore.auth_ok a -> world_ok w -> world_ok (set_auth a w) /\ world_step w (set_auth a w).
Proof. intros Ha []. split; [by split|by apply world_step_frame]. Qed.

Lemma write_peers_ok m w :
  WGStore.peers_ok m -> world_ok w -> world_ok (set_peers m w) /\ world_step w (set_peers m w).
Proof. intros Ha []. split; [by split|by apply world_step_frame]. Qed.

(** ** Authentication *)

Lemma keeps_auth_stmt {A} (f : World -> res A * World) :
  (forall w, AuthStore.auth_ok (w_auth w) -> AuthStore.auth_ok (w_auth (f w).2)) ->
  (forall w, (f w).2 = set_auth (w_auth (f w).2) w) -> keeps any (stmt f).
Proof.
  intros Hok Hf. apply keeps_stmt_any. intros w Hw. rewrite Hf. apply write_auth_ok; [|done].
  by apply Hok, ok_auth.
Qed.

Lemma set_auth_same w : w = set_auth (w_auth w) w.
Proof. by destruct w. Qed.

Lemma keeps_limited {A} (f : Z -> gmap string limitEntry -> A * gmap string limitEntry) :
  (forall now m, AuthStore.entries_count m <= AuthStore.maxLimiterEntries ->
     AuthStore.entries_count (f now m).2 <= AuthStore.maxLimiterEntries) ->
  keeps any (AuthStore.limited f).
Proof.
  intros Hf. apply safe_atom. intros w []. split; [split; try done|split; [by apply world_step_frame|done]].
  apply AuthStore.auth_ok_limiter; [done|]. apply Hf. by apply AuthStore.ak_limiter.
Qed.

Lemma keeps_check email : keeps any (AuthStore.limiter_check email).
Proof.
  apply keeps_limited. intros now m Hm. unfold AuthStore.check. destruct (m !! email); [|done].
  destruct (AuthStore.expired _ _); [|done]. by apply AuthStore.delete_bounded.
Qed.

Lemma keeps_recordFailure email : keeps any (AuthStore.limiter_recordFailure email).
Proof. apply keeps_limited. intros now m Hm. by apply AuthStore.recordFailure_bounded. Qed.

Lemma keeps_reset email : keeps any (AuthStore.limiter_reset email).
Proof. apply keeps_limited. intros now m Hm. by apply AuthStore.delete_bounded. Qed.

Lemma keeps_sweep : keeps any AuthStore.limiter_sweep.
Proof. apply keeps_limited. intros now m Hm. by apply AuthStore.sweep_bounded. Qed.

Lemma keeps_user_GetByID id : keeps any (AuthStore.GetByID id).
Proof. apply keeps_read. intros []; apply safe_any. Qed.

Lemma keeps_user_GetByEmail e : keeps any (AuthStore.GetByEmail e).
Proof. apply keeps_read. intros []; apply safe_any. Qed.

Lemma keeps_UpdatePassword id hash : keeps any (AuthStore.UpdatePassword id hash).
Proof.
  apply safe_bind_any; [|intros []; apply safe_any]. apply keeps_auth_stmt; intros w.
  - intros Hw. destruct (AuthStore.users w !! id) eqn:Eu; [|done]. by apply AuthStore.update_password_ok.
  - destruct (AuthStore.users w !! id); [done|apply set_auth_same].
Qed.

Lemma keeps_user_Create email hash name : keeps any (AuthStore.Create email hash name).
Proof.
  apply safe_bind_any; [|intros []; apply safe_any]. apply keeps_auth_stmt; intros w.
  - by apply AuthStore.insert_user_ok.
  - unfold AuthStore.insert_user. cbv zeta. destruct (_ || _); [apply set_auth_same|done].
Qed.

Lemma keeps_Revoke jti uid exp : keeps any (AuthStore.Revoke jti uid exp).
Proof.
  apply safe_bind_any; [|intros []; apply safe_any]. apply keeps_auth_stmt; intros w.
  - by apply AuthStore.insert_revoked_ok.
  - unfold AuthStore.insert_revoked. destruct (bool_decide _); [apply set_auth_same|].
    destruct (negb _); [apply set_auth_same|done].
Qed.

Lemma keeps_IsRevoked jti : keeps any (AuthStore.IsRevoked jti).
Proof. apply (safe_query_any _ _). Qed.

Lemma keeps_Cleanup : keeps any AuthStore.Cleanup.
Proof.
  apply safe_bind_any; [apply keeps_auth_stmt; [apply AuthStore.delete_revoked_ok|done]|].
  intros []; [|apply safe_any].
  apply safe_bind_any; [apply keeps_auth_stmt; [apply AuthStore.delete_refresh_ok|done]|].
  intros []; apply safe_any.
Qed.

Lemma keeps_CreateRefreshToken uid hash exp : keeps any (AuthStore.CreateRefreshToken uid hash exp).
Proof.
  apply safe_bind_any; [|intros []; apply safe_any]. apply keeps_auth_stmt; intros w.
  - by apply AuthStore.insert_refresh_ok.
  - unfold AuthStore.insert_refresh. cbv zeta. destruct (_ || _); [apply set_auth_same|].
    destruct (negb _); [apply set_auth_same|done].
Qed.

Lemma keeps_ValidateRefreshToken hash : keeps any (AuthStore.ValidateRefreshToken hash).
Proof. apply keeps_stmt_any. intros w Hw. destruct (select _ _); auto using world_step_refl. Qed.

Lemma keeps_RevokeRefreshToken hash : keeps any (AuthStore.RevokeRefreshToken hash).
Proof.
  apply safe_bind_any; [|intros []; apply safe_any].
  apply keeps_auth_stmt; [apply AuthStore.revoke_where_ok|done].
Qed.

Lemma keeps_RevokeAll uid : keeps any (AuthStore.RevokeAllUserRefreshTokens uid).
Proof.
  apply safe_bind_any; [|intros []; apply safe_any].
  apply keeps_auth_stmt; [apply AuthStore.revoke_where_ok|done].
Qed.

Lemma keeps_GenerateRefreshToken : keeps any AuthStore.GenerateRefreshToken.
Proof. apply safe_bind_any; [apply (safe_sample _ _)|]. intros []; apply safe_any. Qed.

Hint Resolve keeps_check keeps_recordFailure keeps_reset keeps_sweep keeps_user_GetByID keeps_user_GetByEmail
  keeps_UpdatePassword keeps_user_Create keeps_Revoke keeps_IsRevoked keeps_Cleanup keeps_CreateRefreshToken
  keeps_ValidateRefreshToken keeps_RevokeRefreshToken keeps_RevokeAll keeps_GenerateRefreshToken : safe.

Section Auth.
Context `{AuthHandler.AuthLib} (h : AuthHandler.Handler).

Lemma keeps_generateAccessToken u : keeps any (AuthHandler.generateAccessToken h u).
Proof. unfold AuthHandler.generateAccessToken. safe_auto. Qed.
Hint Resolve keeps_generateAccessToken : safe.

Lemma keeps_issueTokenPair u : keeps any (AuthHandler.issueTokenPair h u).
Proof. unfold AuthHandler.issueTokenPair. safe_auto. Qed.
Hint Resolve keeps_issueTokenPair : safe.

Lemma keeps_sign_in st msg u : keeps any (AuthHandler.sign_in h st msg u).
Proof. unfold AuthHandler.sign_in. safe_auto. Qed.
Hint Resolve keeps_sign_in : safe.

Lemma keeps_Register hd b : keeps any (AuthHandler.Register h hd b).
Proof. unfold AuthHandler.Register. safe_auto. Qed.

Lemma keeps_Login b : keeps any (AuthHandler.Login h b).
Proof. unfold AuthHandler.Login. safe_auto. Qed.

Lemma keeps_rotate hash uid : keeps any (AuthHandler.rotate h hash uid).
Proof. unfold AuthHandler.rotate. safe_auto. Qed.
Hint Resolve keeps_rotate : safe.

Lemma keeps_Refresh hd b : keeps any (AuthHandler.Refresh h hd b).
Proof. unfold AuthHandler.Refresh. safe_auto. Qed.

Lemma keeps_revoke_access tok uid : keeps any (AuthHandler.revoke_access h tok uid).
Proof. unfold AuthHandler.revoke_access. safe_auto. Qed.
Hint Resolve keeps_revoke_access : safe.

Lemma keeps_Logout u hd b : keeps any (AuthHandler.Logout h u hd b).
Proof. unfold AuthHandler.Logout. safe_auto. Qed.

Lemma keeps_ChangePassword u b : keeps any (AuthHandler.ChangePassword h u b).
Proof. unfold AuthHandler.ChangePassword. safe_auto. Qed.

Lemma keeps_Me u : keeps any (AuthHandler.Me u).
Proof. unfold AuthHandler.Me. safe_auto. Qed.

Lemma keeps_JWTAuth hd next : (forall u, keeps any (next u)) -> keeps any (AuthHandler.JWTAuth h hd next).
Proof. intros Hn. unfold AuthHandler.JWTAuth. safe_auto. Qed.

Lemma keeps_CleanOnce b : keeps any (AuthHandler.CleanOnce b).
Proof. unfold AuthHandler.CleanOnce. safe_auto. Qed.

Lemma keeps_JanitorRun b n : keeps any (AuthHandler.JanitorRun b n).
Proof.
  induction n as [|n IH]; cbn [AuthHandler.JanitorRun]; (apply safe_bind_any; [apply keeps_CleanOnce|]); intros _;
    [apply safe_any|done].
Qed.

End Auth.

(** ** Billing *)

Section Billing.
Context `{Billing.Stripe} (h : option Billing.Service).

Lemma keeps_stripe_call ev : keeps any (Billing.stripe_call ev).
Proof.
  apply safe_atom. intros w Hw.
  destruct (quiet_trace (I := world_ok) (G := world_step) w ev (S (w_tick w)) Hw). by destruct (env_ext _ _).
Qed.
Hint Resolve keeps_stripe_call : safe.

Lemma keeps_CreateCheckoutSession e p s c m : keeps any (Billing.CreateCheckoutSession e p s c m).
Proof. unfold Billing.CreateCheckoutSession. safe_auto. Qed.
Lemma keeps_CreatePortalSession c r : keeps any (Billing.CreateCustomerPortalSession c r).
Proof. unfold Billing.CreateCustomerPortalSession. safe_auto. Qed.
Hint Resolve keeps_CreateCheckoutSession keeps_CreatePortalSession : safe.

Lemma keeps_CreateCheckout u b : keeps any (Billing.CreateCheckout h u b).
Proof. unfold Billing.CreateCheckout, Billing.with_enabled, Billing.with_user. safe_auto. Qed.

Lemma keeps_CreatePortal u b : keeps any (Billing.CreatePortal h u b).
Proof. unfold Billing.CreatePortal, Billing.with_enabled, Billing.with_user. safe_auto. Qed.

Lemma keeps_Status u : keeps any (Billing.Status h u).
Proof. unfold Billing.Status, Billing.with_enabled, Billing.with_user. safe_auto. Qed.

Lemma keeps_handleCheckout d : keeps any (Billing.handleCheckoutCompleted d).
Proof. unfold Billing.handleCheckoutCompleted. safe_auto. Qed.

Lemma keeps_set_customer_tier c t r msg : keeps any (Billing.set_customer_tier c t r msg).
Proof. unfold Billing.set_customer_tier. safe_auto. Qed.
Hint Resolve keeps_handleCheckout keeps_set_customer_tier : safe.

Lemma keeps_handleUpdated s d : keeps any (Billing.handleSubscriptionUpdated s d).
Proof. unfold Billing.handleSubscriptionUpdated. safe_auto. Qed.
Lemma keeps_handleDeleted d : keeps any (Billing.handleSubscriptionDeleted d).
Proof. unfold Billing.handleSubscriptionDeleted. safe_auto. Qed.
Lemma keeps_handleInvoice d : keeps any (Billing.handleInvoicePaymentFailed d).
Proof. unfold Billing.handleInvoicePaymentFailed. safe_auto. Qed.
Hint Resolve keeps_handleUpdated keeps_handleDeleted keeps_handleInvoice : safe.

Lemma keeps_dispatch s ev : keeps any (Billing.dispatch s ev).
Proof. unfold Billing.dispatch. safe_auto. Qed.
Hint Resolve keeps_dispatch : safe.

Lemma keeps_Webhook b sg : keeps any (Billing.Webhook h b sg).
Proof. unfold Billing.Webhook, Billing.with_enabled. safe_auto. Qed.

End Billing.

(** ** The WireGuard hub *)

Section WireGuard.
Context `{WGService.WgLib} (h : WGHandler.Handler).

Lemma keeps_peer_reads :
  keeps any WGStore.List /\ (forall t, keeps any (WGStore.ListByType t)) /\ (forall i, keeps any (WGStore.GetByID i)).
Proof. split_and!; intros; apply keeps_read; intros []; apply safe_any. Qed.

Lemma keeps_peer_List : keeps any WGStore.List.
Proof. apply keeps_peer_reads. Qed.
Lemma keeps_peer_ListByType t : keeps any (WGStore.ListByType t).
Proof. apply keeps_peer_reads. Qed.
Lemma keeps_peer_GetByID i : keeps any (WGStore.GetByID i).
Proof. apply keeps_peer_reads. Qed.

Lemma keeps_peer_NextIP c : keeps any (WGStore.GetNextAvailableIP c).
Proof. apply keeps_Allocate, keeps_read. intros []; apply safe_any. Qed.

Lemma keeps_peer_Create p : keeps any (WGStore.Create p).
Proof.
  apply safe_bind_any; [|intros []; apply safe_any]. apply keeps_stmt_any. intros w Hw.
  pose proof (WGStore.insert_peer_ok p w (ok_peers _ Hw)) as Hok. unfold WGStore.insert_peer in *.
  destruct (negb _); [auto using world_step_refl|]. destruct (_ || _); [auto using world_step_refl|].
  destruct (match pe_TenantID p with Some _ => _ | None => _ end); [auto using world_step_refl|].
  by apply write_peers_ok.
Qed.

Lemma keeps_update_peer id sets : keeps any (stmt (WGStore.update_peer id sets)).
Proof.
  apply keeps_stmt_any. intros w Hw. pose proof (WGStore.update_peer_ok id sets w (ok_peers _ Hw)) as Hok.
  unfold WGStore.update_peer in *. destruct (w_peers w !! id); [|auto using world_step_refl].
  by apply write_peers_ok.
Qed.

Lemma keeps_peer_Update id req : keeps any (WGStore.Update id req).
Proof.
  unfold WGStore.Update. destruct (WGStore.peer_sets req); [apply safe_any|].
  apply safe_bind_any; [apply keeps_update_peer|]. intros []; apply safe_any.
Qed.

Lemma keeps_peer_SetEnabled id b : keeps any (WGStore.SetEnabled id b).
Proof. apply safe_bind_any; [apply keeps_update_peer|]. intros [[]|]; apply safe_any. Qed.

Lemma keeps_peer_Delete id : keeps any (WGStore.Delete id).
Proof.
  apply safe_bind_any; [|intros []; apply safe_any]. apply keeps_stmt_any. intros w Hw.
  apply write_peers_ok; [|done]. by apply WGStore.peers_ok_delete, ok_peers.
Qed.

Hint Resolve keeps_peer_List keeps_peer_ListByType keeps_peer_GetByID keeps_peer_NextIP keeps_peer_Create
  keeps_peer_Update keeps_peer_SetEnabled keeps_peer_Delete : safe.

Lemma keeps_ApplyPeer s p : keeps any (WGService.ApplyPeer s p).
Proof. unfold WGService.ApplyPeer, WGService.wg_set. safe_auto. Qed.
Lemma keeps_RemovePeer s k : keeps any (WGService.RemovePeer s k).
Proof. unfold WGService.RemovePeer, WGService.wg_set. safe_auto. Qed.
Hint Resolve keeps_ApplyPeer keeps_RemovePeer : safe.

Lemma keeps_getWGPeers s : keeps any (WGService.getWGPeers s).
Proof. unfold WGService.getWGPeers. safe_auto. Qed.
Hint Resolve keeps_getWGPeers : safe.

Lemma keeps_apply_enabled s l : keeps any (WGService.apply_enabled s l).
Proof. induction l; cbn [WGService.apply_enabled]; safe_auto. Qed.

Lemma keeps_remove_others s e l : keeps any (WGService.remove_others s e l).
Proof. induction l; cbn [WGService.remove_others]; safe_auto. Qed.
Hint Resolve keeps_apply_enabled keeps_remove_others : safe.

Lemma keeps_SyncPeers s : keeps any (WGService.SyncPeers s).
Proof. unfold WGService.SyncPeers. safe_auto. Qed.

Lemma keeps_wg_audit a id d : keeps any (WGHandler.audit_log h a id d).
Proof. unfold WGHandler.audit_log. apply keeps_audit_log. Qed.
Hint Resolve keeps_wg_audit : safe.

Lemma keeps_service_CreatePeer s req : keeps any (WGService.CreatePeer s req).
Proof.
  unfold WGService.CreatePeer, WGService.GenerateKeypair, WGService.GeneratePresharedKey, WGService.EncryptPSK.
  safe_auto.
Qed.
Hint Resolve keeps_service_CreatePeer : safe.

Lemma keeps_write_failed msg e : keeps any (WGHandler.write_failed msg e).
Proof. unfold WGHandler.write_failed. safe_auto. Qed.
Hint Resolve keeps_write_failed : safe.

Lemma keeps_with_peer id k : (forall p, keeps any (k p)) -> keeps any (WGHandler.with_peer id k).
Proof. intros Hk. unfold WGHandler.with_peer. safe_auto. Qed.

Lemma keeps_ListPeers t : keeps any (WGHandler.ListPeers t).
Proof.
  unfold WGHandler.ListPeers. apply safe_bind_any; [destruct (_ && _); eauto with safe|].
  intros []; apply safe_any.
Qed.

Lemma keeps_CreatePeer b : keeps any (WGHandler.CreatePeer h b).
Proof. unfold WGHandler.CreatePeer. safe_auto. Qed.

Lemma keeps_UpdatePeer id b : keeps any (WGHandler.UpdatePeer h id b).
Proof. unfold WGHandler.UpdatePeer. safe_auto. Qed.

Lemma keeps_DeletePeer id : keeps any (WGHandler.DeletePeer h id).
Proof. apply keeps_with_peer. safe_auto. Qed.

Lemma keeps_EnablePeer id : keeps any (WGHandler.EnablePeer h id).
Proof. unfold WGHandler.EnablePeer. safe_auto. Qed.

Lemma keeps_DisablePeer id : keeps any (WGHandler.DisablePeer h id).
Proof. apply keeps_with_peer. safe_auto. Qed.

Lemma keeps_GetPeerQR id : keeps any (WGHandler.GetPeerQR h id).
Proof. apply keeps_with_peer. safe_auto. Qed.

End WireGuard.

(** ** Stations *)

Section Stations.
Context (h : StationHandler.Handler).

Lemma keeps_enrich_all l : keeps any (StationHandler.enrich_all h l).
Proof.
  induction l as [|s l IH]; [apply safe_any|]. cbn [StationHandler.enrich_all].
  unfold StationHandler.enrich, StationPoller.GetStatus. safe_auto.
Qed.
Hint Resolve keeps_enrich_all : safe.

Lemma keeps_station_audit a id d : keeps any (StationHandler.audit_log h a id d).
Proof. unfold StationHandler.audit_log. apply keeps_audit_log. Qed.
Hint Resolve keeps_station_audit : safe.

Lemma keeps_station_List q : keeps any (StationHandler.List h q).
Proof. unfold StationHandler.List. safe_auto. Qed.

Lemma keeps_Genres : keeps any StationHandler.Genres.
Proof. unfold StationHandler.Genres. safe_auto. Qed.

Lemma keeps_GetBySlug slug : keeps any (StationHandler.GetBySlug h slug).
Proof. unfold StationHandler.GetBySlug, StationHandler.enrich, StationPoller.GetStatus. safe_auto. Qed.

Lemma keeps_check_limit t : keeps any (StationHandler.check_limit h t).
Proof. unfold StationHandler.check_limit, StationHandler.GetTier. safe_auto. Qed.
Hint Resolve keeps_check_limit : safe.

Lemma keeps_StationCreate b : keeps any (StationHandler.Create h b).
Proof. unfold StationHandler.Create, StationHandler.create_station. safe_auto. Qed.

Lemma keeps_StationUpdate id b : keeps any (StationHandler.Update h id b).
Proof. unfold StationHandler.Update. safe_auto. Qed.

Lemma keeps_StationDelete id : keeps any (StationHandler.Delete h id).
Proof. unfold StationHandler.Delete. safe_auto. Qed.

(** *** The poller *)

Lemma keeps_store_status id s : keeps any (StationPoller.store_status id s).
Proof.
  apply keeps_local. intros w Hw. apply write_radio_ok; [done| |done]. exact (ok_stations _ Hw).
Qed.

Lemma keeps_status_get u : keeps any (StationPoller.status_get u).
Proof. apply safe_atom. intros w Hw. destruct (quiet_trace w (EvStatusGet u) (S (w_tick w)) Hw). by destruct (env_ext _ _). Qed.
Hint Resolve keeps_store_status keeps_status_get : safe.

Lemma keeps_poll_one p t : keeps any (StationPoller.poll_one p t).
Proof. unfold StationPoller.poll_one, StationPoller.fetchStatus, StationPoller.offline. safe_auto. Qed.
Hint Resolve keeps_poll_one : safe.

Lemma keeps_poll p : keeps any (StationPoller.poll p).
Proof.
  unfold StationPoller.poll. apply safe_bind_any; [apply keeps_ListPollable|].
  intros [ts|]; [|apply safe_any]. induction ts as [|t ts IH]; cbn [StationPoller.poll_tenants]; safe_auto.
Qed.

Lemma keeps_poller_Run p n : keeps any (StationPoller.Run p n).
Proof.
  induction n as [|n IH]; cbn [StationPoller.Run]; (apply safe_bind_any; [apply keeps_poll|]); intros _;
    [apply safe_any|done].
Qed.

End Stations.

End Keeps.

#[export] Hint Resolve keeps_peer_List keeps_peer_GetByID keeps_peer_Update keeps_peer_SetEnabled
  keeps_peer_Delete keeps_ApplyPeer keeps_RemovePeer keeps_service_CreatePeer : safe.
