(* ===== verification/TenantHandler.v ===== *)
(** * internal/tenant/handler.go: the operators' tenant endpoints

    The decoded request body is an argument, [None] when [response.Decode]
    refuses it. The suspend and resume sequences, which handler.go and
    user_handler.go spell out alike, are written once and used by both. *)

From stdpp Require Import gmap strings list fin_maps.
From Stdlib Require Import ZArith Lia Ascii.
From S2P Require Import Prelude GoStrings World Response Tables Lifecycle.
From S2P Require NodeStore ProjectStore TenantStore AuditStore.

Open Scope Z_scope.

(** [lifecycleStatus] and [respondLifecycle]. *)
Definition lifecycleStatus (lerr : LifecycleError) : Z :=
  match le_Kind lerr with
  | FailureInvalid => StatusBadRequest
  | FailureConflict => StatusConflict
  | FailureInternal => StatusInternalServerError
  end.

Definition respondLifecycle (lerr : LifecycleError) : HTTPResponse :=
  Error (lifecycleStatus lerr) (le_Message lerr).

(** ** The sequences both handlers spell out *)

Section Shared.
Context `{Env} `{ProvisionerOps}.

Definition audit_log (auditStore : bool) (action id : string) (meta : option (list (string * string))) : P unit :=
  if auditStore then AuditStore.Log action "tenant" id meta else Ret tt.

(** The response after a change: the row read again, possibly gone. *)
Definition respond_refreshed (id : string) : P HTTPResponse :=
  let? t := TenantStore.GetByID id
  catch e => Ret (Error StatusInternalServerError "failed to get tenant") in
  Ret (JSON StatusOK (BTenant t)).

(** Database first, then the container, rolling the database back when the
    container cannot be stopped. *)
Definition suspend_tenant (auditStore : bool) (t : Tenant) (id : string)
    (meta : option (list (string * string))) : P HTTPResponse :=
  if negb (status_eqb (t_Status t) active) then
    Ret (Error StatusConflict "tenant must be active to suspend")
  else
  if_err e := TenantStore.SetSuspended id then
    Ret (if errors_Is e TenantStore.ErrStateConflict
         then Error StatusConflict "tenant is not in a suspendable state"
         else Error StatusInternalServerError "failed to suspend tenant")
  else
  let! stopped := match t_LXCID t with
                  | Some lxc => Suspend (t_ID t) (t_NodeID t) lxc
                  | None => Ret None
                  end in
  match stopped with
  | Some e =>
      let! _rb := TenantStore.SetResumed id in
      Ret (Error StatusInternalServerError "failed to stop container")
  | None => audit_log auditStore "suspend" id meta ;;; respond_refreshed id
  end.

Definition resume_tenant (auditStore : bool) (t : Tenant) (id : string)
    (meta : option (list (string * string))) : P HTTPResponse :=
  if negb (status_eqb (t_Status t) suspended) then
    Ret (Error StatusConflict "tenant must be suspended to resume")
  else
  if_err e := TenantStore.SetResumed id then
    Ret (if errors_Is e TenantStore.ErrStateConflict
         then Error StatusConflict "tenant is not in a resumable state"
         else Error StatusInternalServerError "failed to resume tenant")
  else
  let! started := match t_LXCID t with
                  | Some lxc => Resume (t_ID t) (t_NodeID t) lxc
                  | None => Ret None
                  end in
  match started with
  | Some e =>
      let! _rb := TenantStore.SetSuspended id in
      Ret (Error StatusInternalServerError "failed to start container")
  | None => audit_log auditStore "resume" id meta ;;; respond_refreshed id
  end.

Definition logger (auditStore : bool) : AuditLogger := StoreLogger (negb auditStore).

Definition delete_tenant (auditStore : bool) (t : Tenant) (actor : Actor) : P HTTPResponse :=
  let! r := Lifecycle.Delete (NewLifecycleService (logger auditStore)) t actor in
  Ret (match r with
       | Failed lerr => respondLifecycle lerr
       | Done t' => JSON StatusOK (BTenant t')
       end).

End Shared.

(** ** Operators: handler.go *)

Section Handler.
Context `{Env} `{ProvisionerOps} (auditStore : bool).

Definition List (q : string -> string) : P HTTPResponse :=
  let params := ParseListParams q in
  let? tenants := TenantStore.ListPaginated (lp_Limit params) (lp_Offset params)
                    (lp_Status params) (lp_NodeID params) (lp_ProjectID params)
  catch e => Ret (Error StatusInternalServerError "failed to list tenants") in
  Ret (JSON StatusOK (BTenants (listResult params tenants.1 tenants.2))).

(** Reads the tenant an endpoint acts on. *)
Definition with_tenant (id : string) (k : Tenant -> P HTTPResponse) : P HTTPResponse :=
  if negb (ValidUUID id) then Ret (Error StatusBadRequest "invalid tenant ID format") else
  let? t := TenantStore.GetByID id
  catch e => Ret (Error StatusInternalServerError "failed to get tenant") in
  match t with
  | None => Ret (Error StatusNotFound "tenant not found")
  | Some t => k t
  end.

Definition Get (id : string) : P HTTPResponse :=
  with_tenant id (fun t => Ret (JSON StatusOK (BTenant (Some t)))).

Definition Create (body : option TenantStore.CreateTenantRequest) : P HTTPResponse :=
  match body with
  | None => Ret (Error StatusBadRequest "invalid request body")
  | Some req =>
      if is_empty (TenantStore.ct_Name req) || is_empty (TenantStore.ct_ProjectID req) ||
         is_empty (TenantStore.ct_NodeID req) || is_empty (TenantStore.ct_Subdomain req) then
        Ret (Error StatusBadRequest "name, project_id, node_id, and subdomain are required")
      else if negb (ValidUUID (TenantStore.ct_ProjectID req)) then
        Ret (Error StatusBadRequest "invalid project_id format")
      else if negb (ValidUUID (TenantStore.ct_NodeID req)) then
        Ret (Error StatusBadRequest "invalid node_id format")
      else
      match ValidateSubdomain (TenantStore.ct_Subdomain req) with
      | Some lerr => Ret (respondLifecycle lerr)
      | None =>
          let? n := NodeStore.GetByID (TenantStore.ct_NodeID req)
          catch e => Ret (Error StatusInternalServerError "failed to validate node") in
          match n with
          | None => Ret (Error StatusNotFound "node not found")
          | Some n =>
              if negb (String.eqb (n_Status n) "active") then
                Ret (Error StatusBadRequest "node is not active")
              else
              let? proj := ProjectStore.GetByID (TenantStore.ct_ProjectID req)
              catch e => Ret (Error StatusInternalServerError "failed to validate project") in
              match proj with
              | None => Ret (Error StatusNotFound "project not found")
              | Some proj =>
                  let! r := Lifecycle.Create (NewLifecycleService (logger auditStore))
                              (mkParams (TenantStore.ct_Name req) (TenantStore.ct_Subdomain req)
                                 proj n EmptyString) (mkActor EmptyString) in
                  Ret (match r with
                       | Failed lerr => respondLifecycle lerr
                       | Done t => JSON StatusAccepted (BTenant (Some t))
                       end)
              end
          end
      end
  end.

Definition Update (id : string) (body : option TenantStore.UpdateTenantRequest) : P HTTPResponse :=
  if negb (ValidUUID id) then Ret (Error StatusBadRequest "invalid tenant ID format") else
  match body with
  | None => Ret (Error StatusBadRequest "invalid request body")
  | Some req =>
      let? t := TenantStore.Update id req
      catch e => (if errors_Is e TenantStore.ErrNoUpdate
                  then Ret (Error StatusBadRequest "no fields to update")
                  else if is_pg_code e unique_violation
                  then Ret (Error StatusConflict "name already exists")
                  else Ret (Error StatusInternalServerError "failed to update tenant")) in
      match t with
      | None => Ret (Error StatusNotFound "tenant not found")
      | Some t =>
          audit_log auditStore "update" (t_ID t) None ;;;
          Ret (JSON StatusOK (BTenant (Some t)))
      end
  end.

Definition Suspend (id : string) : P HTTPResponse :=
  with_tenant id (fun t => suspend_tenant auditStore t id None).

Definition Resume (id : string) : P HTTPResponse :=
  with_tenant id (fun t => resume_tenant auditStore t id None).

Definition Delete (id : string) : P HTTPResponse :=
  with_tenant id (fun t => delete_tenant auditStore t (mkActor EmptyString)).

End Handler.
