(* ===== verification/UserHandler.v ===== *)
(** * internal/tenant/user_handler.go: the users' tenant endpoints

    The same operations behind an ownership check and a plan limit, and the
    signed link to a tenant's dashboard. [auth.UserFromContext] is an argument,
    [None] when nobody is authenticated; HMAC-SHA256 is the environment's
    [env_hmac]. *)

From stdpp Require Import gmap strings list fin_maps.
From Stdlib Require Import ZArith Lia Ascii.
From S2P Require Import Prelude GoStrings NetURL World Response Tables Lifecycle Tiers.
From S2P Require Import TenantHandler.
From S2P Require NodeStore ProjectStore TenantStore AuditStore.

Open Scope Z_scope.

(** ** The handler *)

(** [UserHandler]: the audit store and the SSO link settings. *)
Record UserHandler := mkUserHandler { uh_auditStore : bool; uh_ssoDomain : string; uh_ssoScheme : string }.

Definition NewUserHandler (auditStore : bool) (ssoDomain ssoScheme : string) : UserHandler :=
  mkUserHandler auditStore
    (if is_empty ssoDomain then "example.com" else ssoDomain)
    (if is_empty ssoScheme then "https" else ssoScheme).

Record UserCreateRequest := mkUserCreate { uc_Name : string; uc_Subdomain : string }.

Definition owns (userID : string) (t : Tenant) : bool :=
  match t_OwnerID t with Some o => String.eqb o userID | None => false end.

(** The plan limit: the largest one among the tenants the user has. *)
Definition max_tenants (existing : list Tenant) : Z :=
  fold_left (fun m t => let l := MaxTenants (GetLimits (t_Tier t)) in if m <? l then l else m)
    existing (MaxTenants (GetLimits TierFree)).

Section Handler.
Context `{Env} `{ProvisionerOps} (h : UserHandler).
(** The authenticated user's ID, if any. *)
Context (user : option string).

Definition List : P HTTPResponse :=
  match user with
  | None => Ret (Error StatusUnauthorized "not authenticated")
  | Some u =>
      let? tenants := TenantStore.ListByOwnerID u
      catch e => Ret (Error StatusInternalServerError "failed to list tenants") in
      let n := Z.of_nat (length tenants) in
      Ret (JSON StatusOK (BTenants (mkListResult tenants n n 0 false)))
  end.

(** Reads the tenant an endpoint acts on; a tenant of someone else is as
    absent as one that does not exist. *)
Definition with_own_tenant (id : string) (k : string -> Tenant -> P HTTPResponse) : P HTTPResponse :=
  match user with
  | None => Ret (Error StatusUnauthorized "not authenticated")
  | Some u =>
      if negb (ValidUUID id) then Ret (Error StatusBadRequest "invalid tenant ID format") else
      let? t := TenantStore.GetByID id
      catch e => Ret (Error StatusInternalServerError "failed to get tenant") in
      match t with
      | None => Ret (Error StatusNotFound "tenant not found")
      | Some t => if owns u t then k u t else Ret (Error StatusNotFound "tenant not found")
      end
  end.

Definition Get (id : string) : P HTTPResponse :=
  with_own_tenant id (fun _ t => Ret (JSON StatusOK (BTenant (Some t)))).

Definition Create (body : option UserCreateRequest) : P HTTPResponse :=
  match user with
  | None => Ret (Error StatusUnauthorized "not authenticated")
  | Some u =>
  match body with
  | None => Ret (Error StatusBadRequest "invalid request body")
  | Some req =>
      if is_empty (uc_Name req) || is_empty (uc_Subdomain req) then
        Ret (Error StatusBadRequest "name and subdomain are required")
      else
      match ValidateSubdomain (uc_Subdomain req) with
      | Some lerr => Ret (respondLifecycle lerr)
      | None =>
          let? currentCount := TenantStore.CountByOwnerID u
          catch e => Ret (Error StatusInternalServerError "failed to check tenant limits") in
          let? existingTenants := TenantStore.ListByOwnerID u
          catch e => Ret (Error StatusInternalServerError "failed to check tenant limits") in
          let maxTenants := max_tenants existingTenants in
          if maxTenants <=? currentCount then
            Ret (Error StatusForbidden ("tenant limit reached (max " +:+ itoa maxTenants +:+ ")"))
          else
          let? proj := ProjectStore.GetDefault
          catch e => Ret (Error StatusInternalServerError "failed to select project") in
          match proj with
          | None => Ret (Error StatusServiceUnavailable "no projects configured")
          | Some proj =>
              let? n := NodeStore.GetLeastLoaded (p_RAMMB proj)
              catch e => Ret (Error StatusInternalServerError "failed to select node") in
              match n with
              | None => Ret (Error StatusServiceUnavailable "no nodes with sufficient capacity")
              | Some n =>
                  let! r := Lifecycle.Create (NewLifecycleService (logger (uh_auditStore h)))
                              (mkParams (uc_Name req) (uc_Subdomain req) proj n u) (mkActor u) in
                  Ret (match r with
                       | Failed lerr => respondLifecycle lerr
                       | Done t => JSON StatusAccepted (BTenant (Some t))
                       end)
              end
          end
      end
  end
  end.

(** The signed link for a tenant with a dashboard token at a given time. *)
Definition sso_payload (userID tenantID tier : string) (timestamp : Z) : string :=
  userID +:+ ":" +:+ tenantID +:+ ":" +:+ tier +:+ ":" +:+ itoa timestamp.

Definition sso_token (userID tenantID tier dashboardToken : string) (timestamp : Z) : string :=
  let payload := sso_payload userID tenantID tier timestamp in
  b64url_encode payload +:+ ":" +:+ b64url_encode (env_hmac dashboardToken payload).

Definition SSOToken (id : string) : P HTTPResponse :=
  with_own_tenant id (fun u t =>
    if negb (status_eqb (t_Status t) active) then
      Ret (Error StatusConflict "tenant must be active to generate SSO token")
    else
    match t_DashboardToken t with
    | None => Ret (Error StatusInternalServerError "dashboard token not configured")
    | Some dashboardToken =>
        if is_empty dashboardToken then
          Ret (Error StatusInternalServerError "dashboard token not configured")
        else
        let tier := if is_empty (t_Tier t) then "free" else t_Tier t in
        let! now := sample env_now in
        let token := sso_token u (t_ID t) tier dashboardToken (now / 1000000) in
        Ret (JSON StatusOK (BSSO (uh_ssoScheme h +:+ "://" +:+ t_Subdomain t +:+ "." +:+ uh_ssoDomain h +:+
                                  "/auth/sso?token=" +:+ QueryEscape token) 60 tier))
    end).

Definition Delete (id : string) : P HTTPResponse :=
  with_own_tenant id (fun u t => delete_tenant (uh_auditStore h) t (mkActor u)).

Definition Suspend (id : string) : P HTTPResponse :=
  with_own_tenant id (fun u t => suspend_tenant (uh_auditStore h) t id (Some [("user_id", u)])).

Definition Resume (id : string) : P HTTPResponse :=
  with_own_tenant id (fun u t => resume_tenant (uh_auditStore h) t id (Some [("user_id", u)])).

End Handler.
