(* ===== verification/TenantHandlerSpec.v ===== *)
(** * What the tenant endpoints guarantee

    Safety of every endpoint for the life-cycle invariant, the ownership
    boundary of the user API and the plan limit on creation. *)

From stdpp Require Import gmap strings list fin_maps.
From Stdlib Require Import ZArith Lia Ascii.
From S2P Require Import Prelude GoStrings World Response Tables TenantFSM StoreSafe TenantHandler Lifecycle LifecycleSpec Tiers.
From S2P Require UserHandler NodeStore ProjectStore TenantStore AuditStore StationStore.

Open Scope Z_scope.

(** ** Safety *)

Section Safe.
Context `{Env} `{HL : ProvisionerLaws}.

Lemma keeps_respond_refreshed id : keeps any (respond_refreshed id).
Proof. unfold respond_refreshed. safe_auto. Qed.

Lemma keeps_taudit b a id m : keeps any (audit_log b a id m).
Proof. unfold audit_log. apply keeps_audit_log. Qed.

Lemma keeps_Suspend_opt t : keeps any (match t_LXCID t with
  | Some lxc => Suspend (t_ID t) (t_NodeID t) lxc | None => Ret None end).
Proof. destruct (t_LXCID t); [apply keeps_Suspend|apply safe_any]. Qed.

Lemma keeps_Resume_opt t : keeps any (match t_LXCID t with
  | Some lxc => Resume (t_ID t) (t_NodeID t) lxc | None => Ret None end).
Proof. destruct (t_LXCID t); [apply keeps_Resume|apply safe_any]. Qed.

Hint Resolve keeps_respond_refreshed keeps_taudit keeps_Suspend_opt keeps_Resume_opt : safe.

Lemma keeps_suspend_tenant b t id m : keeps any (suspend_tenant b t id m).
Proof.
  unfold suspend_tenant. destruct (negb _); [apply safe_any|].
  apply safe_bind_any; [eauto with safe|]. intros [e|]; [apply safe_any|].
  apply safe_bind_any; [eauto with safe|]. intros [e|]; safe_auto.
Qed.

Lemma keeps_resume_tenant b t id m : keeps any (resume_tenant b t id m).
Proof.
  unfold resume_tenant. destruct (negb _); [apply safe_any|].
  apply safe_bind_any; [eauto with safe|]. intros [e|]; [apply safe_any|].
  apply safe_bind_any; [eauto with safe|]. intros [e|]; safe_auto.
Qed.

Lemma keeps_delete_tenant b t a : keeps any (delete_tenant b t a).
Proof. apply safe_bind_any; [apply keeps_Delete|]. intros []; apply safe_any. Qed.

Lemma keeps_with_tenant id k : (forall t, keeps any (k t)) -> keeps any (TenantHandler.with_tenant id k).
Proof.
  intros Hk. unfold TenantHandler.with_tenant. destruct (negb _); [apply safe_any|].
  apply safe_bind_any; [eauto with safe|]. intros [[t|]|e]; [apply Hk|apply safe_any..].
Qed.

Lemma keeps_with_own user id k : (forall u t, keeps any (k u t)) -> keeps any (UserHandler.with_own_tenant user id k).
Proof.
  intros Hk. unfold UserHandler.with_own_tenant. destruct user as [u|]; [|apply safe_any].
  destruct (negb _); [apply safe_any|].
  apply safe_bind_any; [eauto with safe|]. intros [[t|]|e]; [|apply safe_any..].
  destruct (UserHandler.owns u t); [apply Hk|apply safe_any].
Qed.

(** A creation that read its project from the store. *)
Lemma keeps_Admin_Create b body : keeps any (TenantHandler.Create b body).
Proof.
  unfold TenantHandler.Create. destruct body as [req|]; [|apply safe_any].
  do 3 (destruct (_ : bool); [apply safe_any|]).
  destruct (ValidateSubdomain _); [apply safe_any|].
  apply safe_bind_any; [eauto with safe|]. intros [[n|]|e]; [|apply safe_any..].
  destruct (negb _); [apply safe_any|].
  apply (safe_bind _ _ ok_project); [apply keeps_project_GetByID|].
  intros [[proj|]|e] Hp; [|apply safe_any..].
  apply safe_bind_any; [by apply keeps_Create|]. intros []; apply safe_any.
Qed.

Lemma keeps_User_Create h u body : keeps any (UserHandler.Create h u body).
Proof.
  unfold UserHandler.Create. destruct u as [u|]; [|apply safe_any]. destruct body as [req|]; [|apply safe_any].
  destruct (_ || _); [apply safe_any|]. destruct (ValidateSubdomain _); [apply safe_any|].
  apply safe_bind_any; [eauto with safe|]. intros [cnt|e]; [|apply safe_any].
  apply safe_bind_any; [eauto with safe|]. intros [ts|e]; [|apply safe_any]. cbv zeta.
  destruct (_ <=? _); [apply safe_any|].
  apply (safe_bind _ _ ok_project); [apply keeps_GetDefault|].
  intros [[proj|]|e] Hp; [|apply safe_any..].
  apply safe_bind_any; [eauto with safe|]. intros [[n|]|e]; [|apply safe_any..].
  apply safe_bind_any; [by apply keeps_Create|]. intros []; apply safe_any.
Qed.

Lemma keeps_SSOToken h u id : keeps any (UserHandler.SSOToken h u id).
Proof.
  apply keeps_with_own. intros u' t. destruct (negb _); [apply safe_any|].
  destruct (t_DashboardToken t) as [tok|]; [|apply safe_any]. destruct (is_empty tok); [apply safe_any|].
  cbv zeta. apply safe_bind_any; [eauto with safe|]. intros. apply safe_any.
Qed.

Lemma keeps_Admin_Update b id body : keeps any (TenantHandler.Update b id body).
Proof.
  unfold TenantHandler.Update. destruct (negb _); [apply safe_any|]. destruct body as [req|]; [|apply safe_any].
  apply safe_bind_any; [eauto with safe|]. intros [[t|]|e].
  - apply safe_bind_any; [eauto with safe|]. intros. apply safe_any.
  - apply safe_any.
  - destruct (errors_Is _ _); [apply safe_any|]. destruct (is_pg_code _ _); apply safe_any.
Qed.

Lemma keeps_Admin_List q : keeps any (TenantHandler.List q).
Proof. unfold TenantHandler.List. apply safe_bind_any; [eauto with safe|]. intros []; apply safe_any. Qed.

Lemma keeps_User_List u : keeps any (UserHandler.List u).
Proof.
  unfold UserHandler.List. destruct u; [|apply safe_any].
  apply safe_bind_any; [eauto with safe|]. intros []; apply safe_any.
Qed.

End Safe.

#[export] Hint Resolve keeps_suspend_tenant keeps_resume_tenant keeps_delete_tenant keeps_Admin_Create
  keeps_User_Create keeps_SSOToken keeps_Admin_Update keeps_Admin_List keeps_User_List : safe.

(** ** The ownership boundary *)

Section Ownership.
Context `{Env} `{ProvisionerOps}.

(** The answer to a request for an absent tenant, or to a failing look-up. *)
Definition refused (w : World) (r : HTTPResponse) (w' : World) : Prop :=
  unchanged w w' /\
  (r = Error StatusNotFound "tenant not found" \/
   (r = Error StatusInternalServerError "failed to get tenant" /\ env_fault (w_tick w) <> None)).

Lemma wp_foreign u id k (w : World) :
  ValidUUID id = true ->
  (forall t, w_tenants w !! id = Some t -> t_OwnerID t <> Some u) ->
  wp (UserHandler.with_own_tenant (Some u) id k) (refused w) w.
Proof.
  intros Hid Hforeign. unfold UserHandler.with_own_tenant. rewrite Hid. cbn [negb].
  apply wp_bind. unfold TenantStore.GetByID. apply wp_bind, wp_query.
  - intros m w1 Hun Hf. apply wp_ret, wp_ret. split; [done|]. right. split; [done|congruence].
  - intros w1 Hun _. apply wp_ret. destruct Hun as [(E1&Hrest) E2]. rewrite E1.
    destruct (w_tenants w !! id) as [t|] eqn:Et; [|apply wp_ret; split; [done|by left]].
    assert (UserHandler.owns u t = false) as ->.
    { unfold UserHandler.owns. specialize (Hforeign t eq_refl). destruct (t_OwnerID t); [|done].
      apply String.eqb_neq. congruence. }
    apply wp_ret. split; [done|by left].
Qed.

(** C9. Users cannot see or touch each other's tenants. For every user and
    every tenant that is not theirs (owned by someone else, without an owner,
    or not existing at all), reading it, asking for its dashboard link,
    suspending, resuming and deleting it all answer the same 404, whether the
    tenant exists or not, and change nothing: no table, no container, no
    goroutine. *)
Theorem foreign_tenant_untouchable (h : UserHandler.UserHandler) (u id : string) (w : World)
  (Hid : ValidUUID id = true)
  (Hforeign : forall t, w_tenants w !! id = Some t -> t_OwnerID t <> Some u) :
  wp (UserHandler.Get (Some u) id) (refused w) w /\
  wp (UserHandler.SSOToken h (Some u) id) (refused w) w /\
  wp (UserHandler.Suspend h (Some u) id) (refused w) w /\
  wp (UserHandler.Resume h (Some u) id) (refused w) w /\
  wp (UserHandler.Delete h (Some u) id) (refused w) w.
Proof. repeat split; by apply wp_foreign. Qed.

End Ownership.

(** ** The plan limit *)

Definition owned_live (u : string) (t : Tenant) : bool := TenantStore.owned_by u t && live t.

Definition count_owned (u : string) (m : gmap string Tenant) : Z :=
  Z.of_nat (length (select (owned_live u) m)).

Lemma max_tenants_range ts : 1 <= UserHandler.max_tenants ts <= 3.
Proof.
  unfold UserHandler.max_tenants. change (MaxTenants (GetLimits TierFree)) with 1.
  assert (forall m, 1 <= m <= 3 ->
    1 <= fold_left (fun m t => let l := MaxTenants (GetLimits (t_Tier t)) in if m <? l then l else m) ts m <= 3)
    as Hgen; [|apply Hgen; lia].
  induction ts as [|t ts IH]; intros m Hm; simpl; [done|]. apply IH.
  pose proof (MaxTenants_range (t_Tier t)). destruct (_ <? _); lia.
Qed.

Lemma count_owned_insert u (m : gmap string Tenant) id t :
  m !! id = None -> count_owned u (<[id := t]> m) = count_owned u m + (if owned_live u t then 1 else 0).
Proof. apply length_select_insert. Qed.

Section Limit.
Context `{Env} `{HL : ProvisionerLaws}.

(** The row the placement chose is the one on file. *)
Lemma wp_GetLeastLoaded ram (w : World) :
  in_int4 ram = true -> NodeStore.nodes_ok (w_nodes w) ->
  wp (NodeStore.GetLeastLoaded ram) (fun r w' => unchanged w w' /\
    forall m, r = Ok (Some m) -> exists n, w_nodes w !! n_ID m = Some n) w.
Proof.
  intros Hi Hok. unfold NodeStore.GetLeastLoaded. rewrite Hi. cbn [negb].
  apply wp_bind, wp_stmt; [intros e _; by apply wp_ret|]. intros _.
  set (w1 := set_tick (S (w_tick w)) w).
  assert (forallb (fun n => in_int4 (NodeStore.free_ram n))
            (select (fun n => String.eqb (n_Status n) "active") (w_nodes w1)) = true) as ->.
  { apply forallb_forall. intros n Hn. apply list_elem_of_In, elem_of_select in Hn as (_&id&Hn).
    by apply NodeStore.node_ok_free, (proj1 Hok id). }
  apply wp_ret. split; [done|]. cbn [fst]. intros m [= E]. revert E.
  destruct (first_by _ _) as [n|] eqn:E; simpl; [|done]. intros [= <-].
  apply first_by_elem, elem_of_select in E as (_ & id & Hn).
  destruct (proj1 Hok _ _ Hn) as [Hid _]. exists n. change (w_nodes w !! n_ID n = Some n). by rewrite Hid.
Qed.

Lemma world_ok_unchanged w w' : unchanged w w' -> world_ok w -> world_ok w'.
Proof. intros [(E1&E2&E3&E4&E5&E6&E7&E8&E9) _] []. split; rewrite ?E1, ?E2, ?E3, ?E5, ?E6, ?E7; try done.
  - by eapply StationStore.radio_ok_frame.
  - by eapply WebAuthnStore.keys_ok_frame.
Qed.

(** C10. Plan limits hold for requests that do not overlap. A creation request
    by a user, run alone, with any statement free to fail, either leaves the
    tenants table as it is or is accepted and adds exactly one live tenant of
    theirs, and then what the user owns afterwards is within the best plan among
    the tenants they had; no plan allows more than three. The code counts before
    it inserts, in two statements, so two overlapping requests of one user may
    both pass the check, as its comment admits; the theorem does not speak of
    them. *)
Theorem User_Create_limit (h : UserHandler.UserHandler) (u : string) (body : option UserHandler.UserCreateRequest) (w : World)
  (Hu : u <> EmptyString) (Hok : world_ok w)
  (Hint : forall id p, w_projects w !! id = Some p -> in_int4 (p_RAMMB p) = true) :
  let limit := UserHandler.max_tenants (order_desc t_CreatedAt (select (owned_live u) (w_tenants w))) in
  wp (UserHandler.Create h (Some u) body) (fun r w' =>
    w_tenants w' = w_tenants w \/
    (r_Status r = StatusAccepted /\
     count_owned u (w_tenants w') = count_owned u (w_tenants w) + 1 /\
     count_owned u (w_tenants w') <= limit <= 3)) w.
Proof.
  intros limit. unfold UserHandler.Create. destruct body as [req|]; [|by apply wp_ret; left].
  destruct (_ || _); [by apply wp_ret; left|]. destruct (ValidateSubdomain _); [by apply wp_ret; left|].
  apply wp_bind. unfold TenantStore.CountByOwnerID. apply wp_bind, wp_query.
  { intros m w1 Hun1 _. apply wp_ret, wp_ret. left. apply Hun1. }
  intros w1 Hun1 _. apply wp_ret, wp_bind. unfold TenantStore.ListByOwnerID. apply wp_bind, wp_query.
  { intros m w2 Hun2 _. apply wp_ret, wp_ret. left. transitivity (w_tenants w1); [apply Hun2|apply Hun1]. }
  intros w2 Hun2 _. apply wp_ret. cbv zeta.
  assert (unchanged w w2) as Hun by by etrans.
  pose proof Hun1 as [(E1&_) _]. pose proof Hun as [(E2&_) _]. rewrite E1, E2.
  change (fun t => TenantStore.owned_by u t && live t) with (owned_live u). fold (count_owned u (w_tenants w)).
  fold limit. destruct (Z.leb_spec limit (count_owned u (w_tenants w))) as [|Hlt]; [by apply wp_ret; left|].
  apply wp_bind. unfold ProjectStore.GetDefault. apply wp_bind, wp_query.
  { intros m w3 Hun3 _. apply wp_ret, wp_ret. left. transitivity (w_tenants w2); [apply Hun3|apply Hun]. }
  intros w3 Hun3 _. apply wp_ret. assert (unchanged w w3) as Hun4 by by etrans.
  destruct (first_by _ _) as [proj|] eqn:Eproj; [|by apply wp_ret; left; apply Hun4].
  pose proof (world_ok_unchanged _ _ Hun4 Hok) as Hok3.
  apply first_by_elem, elem_of_rows in Eproj as [pid Hproj].
  destruct (ok_projects _ Hok3 _ _ Hproj) as [Hpid _].
  assert (in_int4 (p_RAMMB proj) = true) as Hri.
  { apply (Hint pid). destruct Hun4 as [(_&_&E&_) _]. by rewrite <- E. }
  apply wp_bind. eapply wp_mono; [by apply wp_GetLeastLoaded, (ok_nodes _ Hok3)|].
  intros [[n|]|e] w4 [Hun5 Hn]; [|apply wp_ret; left; transitivity (w_tenants w3); [apply Hun5|apply Hun4]..].
  destruct (Hn n eq_refl) as [n0 Hn0].
  assert (unchanged w w4) as Hun6 by by etrans.
  pose proof Hun5 as [(_&F2&F3&_) _]. pose proof Hun6 as [(G1&_) _].
  apply wp_bind. eapply wp_mono.
  { apply (wp_Create _ _ _ n0); simpl; [by eapply world_ok_unchanged|by rewrite F2|by rewrite F3, Hpid|done]. }
  intros [t|e] w5 Hout; apply wp_ret; simpl in Hout; [|left; destruct Hout as (-> & _); done].
  destruct Hout as (_ & Hnew & Hnone & Ht & _). right. rewrite Ht, G1 in *.
  assert (owned_live u t = true) as Hown.
  { unfold owned_live, TenantStore.owned_by, live. rewrite (nt_OwnerID _ _ Hnew). unfold owner_of. simpl.
    destruct (is_empty u) eqn:Eu; [by apply is_empty_true in Eu|].
    rewrite String.eqb_refl. destruct (nt_fresh _ _ Hnew) as [-> _]. done. }
  rewrite count_owned_insert, Hown by done. split_and!; [done|done|lia|apply max_tenants_range].
Qed.

End Limit.
