(* ===== verification/Templates.v ===== *)
(** * internal/admin/templates.go: parsing and rendering

    The pages of the administration: each is the layout, the partials and a
    file of its own parsed into one template. html/template and the embedded
    file system are the class [TemplateLib]; the files' text is not modelled.
    [template_of] is the template each page of the model is rendered with. *)

From stdpp Require Import gmap strings list fin_maps.
From Stdlib Require Import ZArith.
From S2P Require Import Prelude GoStrings World Response.

Open Scope Z_scope.

(** A template is what [template.New(name).Funcs(funcs)] and the [Parse] calls
    made of it. [tl_ExecuteTemplate t name data] and [tl_Execute] give the text
    written to the buffer, or an error, after which part of it is written. *)
Class TemplateLib := {
  tl_template : Type;
  tl_data : Type;
  tl_New : string -> tl_template;
  tl_Parse : tl_template -> string -> res tl_template;
  tl_ExecuteTemplate : tl_template -> string -> tl_data -> string * option error;
  tl_Execute : tl_template -> tl_data -> string * option error;
  fs_ReadFile : string -> res string;
  fs_Glob : string -> res (list string) }.

Record Templates `{TemplateLib} := mkTemplates {
  tm_pages : gmap string tl_template; tm_standalone : gmap string tl_template }.

(** The response as far as rendering goes: its content type, the bytes written,
    and the error writing fails with once the client is gone. *)
Record Writer := mkWriter { wt_ContentType : option string; wt_Written : string; wt_Broken : option error }.

Section Parse.
Context `{TemplateLib}.

Definition pageNames : list string :=
  ["dashboard"; "nodes"; "projects"; "tenants"; "node_detail"; "project_detail"; "tenant_detail"; "audit";
   "settings"; "network"; "peer_detail"].
Definition standaloneNames : list string := ["login"].

Definition page_file (name : string) : string := "templates/" +:+ name +:+ ".html".

(** The partials, one after the other. *)
Fixpoint read_partials (files : list string) (content : string) : res string :=
  match files with
  | [] => Ok content
  | p :: files =>
      match fs_ReadFile p with
      | Fail e => Fail (EWrap ("read partial " +:+ p) e)
      | Ok data => read_partials files (content +:+ data)
      end
  end.

Definition parse_page (layout partialContent name : string) : res tl_template :=
  match fs_ReadFile (page_file name) with
  | Fail e => Fail (EWrap ("read page " +:+ name) e)
  | Ok pageData =>
      match tl_Parse (tl_New EmptyString) layout with
      | Fail e => Fail (EWrap ("parse layout for " +:+ name) e)
      | Ok t =>
          match tl_Parse t partialContent with
          | Fail e => Fail (EWrap ("parse partials for " +:+ name) e)
          | Ok t => wrap_res ("parse page " +:+ name) (tl_Parse t pageData)
          end
      end
  end.

Definition parse_standalone (name : string) : res tl_template :=
  match fs_ReadFile (page_file name) with
  | Fail e => Fail (EWrap ("read standalone " +:+ name) e)
  | Ok data => wrap_res ("parse standalone " +:+ name) (tl_Parse (tl_New name) data)
  end.

(** [for _, name := range names { ... m[name] = t }]. *)
Fixpoint parse_each (parse : string -> res tl_template) (names : list string) (m : gmap string tl_template) :
    res (gmap string tl_template) :=
  match names with
  | [] => Ok m
  | name :: names =>
      match parse name with
      | Fail e => Fail e
      | Ok t => parse_each parse names (<[name := t]> m)
      end
  end.

Definition ParseTemplates : res Templates :=
  match fs_ReadFile "templates/layout.html" with
  | Fail e => Fail (EWrap "read layout" e)
  | Ok layout =>
      match fs_Glob "templates/partials/*.html" with
      | Fail e => Fail (EWrap "glob partials" e)
      | Ok partials =>
          match read_partials partials EmptyString with
          | Fail e => Fail e
          | Ok partialContent =>
              match parse_each (parse_page layout partialContent) pageNames ∅ with
              | Fail e => Fail e
              | Ok pages =>
                  match tl_Parse (tl_New EmptyString) partialContent with
                  | Fail e => Fail (EWrap "parse standalone partials" e)
                  | Ok partialTmpl =>
                      match parse_each parse_standalone standaloneNames ∅ with
                      | Fail e => Fail e
                      | Ok standalone => Ok (mkTemplates _ (<["partials" := partialTmpl]> pages) standalone)
                      end
                  end
              end
          end
      end
  end.

(** ** Rendering *)

(** The header, then [buf.WriteTo(w)]; a broken connection takes nothing more. *)
Definition write_html (text : string) (w : Writer) : option error * Writer :=
  match wt_Broken w with
  | Some e => (Some e, mkWriter (Some "text/html; charset=utf-8") (wt_Written w) (wt_Broken w))
  | None => (None, mkWriter (Some "text/html; charset=utf-8") (wt_Written w +:+ text) None)
  end.

(** What [Execute] left in the buffer is written only when it succeeded. *)
Definition write_executed (what : string) (r : string * option error) (w : Writer) : option error * Writer :=
  match r with
  | (_, Some e) => (Some (EWrap what e), w)
  | (text, None) => write_html text w
  end.

Definition RenderPage (t : Templates) (page : string) (data : tl_data) (w : Writer) : option error * Writer :=
  match tm_pages t !! page with
  | None => (Some (errorString ("unknown page: " +:+ page)), w)
  | Some tmpl => write_executed ("execute " +:+ page) (tl_ExecuteTemplate tmpl "layout" data) w
  end.

Definition RenderPartial (t : Templates) (name : string) (data : tl_data) (w : Writer) : option error * Writer :=
  match tm_pages t !! "partials" with
  | None => (Some (errorString "partials not loaded"), w)
  | Some tmpl => write_executed ("execute partial " +:+ name) (tl_ExecuteTemplate tmpl name data) w
  end.

Definition RenderStandalone (t : Templates) (name : string) (data : tl_data) (w : Writer) : option error * Writer :=
  match tm_standalone t !! name with
  | None => (Some (errorString ("unknown standalone page: " +:+ name)), w)
  | Some tmpl => write_executed ("execute standalone " +:+ name) (tl_Execute tmpl data) w
  end.

(** ** Which template a page is rendered with *)

Inductive Rendering :=
| Whole (page : string)        (* RenderPage *)
| Part (name : string)         (* RenderPartial *)
| Alone (name : string).       (* RenderStandalone *)

(** The calls of the handlers. *)
Definition template_of (p : Page) : Rendering :=
  match p with
  | PLogin _ => Alone "login"
  | PDashboard _ => Whole "dashboard"
  | PNodes _ => Whole "nodes"
  | PNodeDetail _ _ _ => Whole "node_detail"
  | PProjects _ => Whole "projects"
  | PProjectDetail _ _ _ => Whole "project_detail"
  | PTenants _ _ _ _ _ _ _ => Whole "tenants"
  | PTenantDetail _ _ _ _ _ => Whole "tenant_detail"
  | PAudit _ _ _ _ _ _ _ => Whole "audit"
  | PSettings _ _ _ _ => Whole "settings"
  | PNetwork _ _ _ _ _ _ _ => Whole "network"
  | PPeerDetail _ _ _ _ => Whole "peer_detail"
  | PNodeRow _ => Part "node_row"
  | PProjectRow _ => Part "project_row"
  | PTenantRow _ => Part "tenant_row"
  | PFlash name _ => Part name
  end.

(** A page with its data. The handlers log the error and do nothing else. *)
Definition Render (t : Templates) (p : Page) (data : tl_data) (w : Writer) : option error * Writer :=
  match template_of p with
  | Whole page => RenderPage t page data w
  | Part name => RenderPartial t name data w
  | Alone name => RenderStandalone t name data w
  end.

End Parse.

(** ** What was parsed is what is rendered *)

Section Spec.
Context `{HT : TemplateLib}.

(** After the loop, a name is bound to what its file parsed to. *)
Lemma parse_each_lookup parse names m m' :
  parse_each parse names m = Ok m' ->
  (forall name, name ∈ names -> exists t, parse name = Ok t /\ m' !! name = Some t) /\
  (forall name, name ∉ names -> m' !! name = m !! name).
Proof.
  revert m. induction names as [|n names IH]; intros m; simpl; [intros [= ->]; split; [set_solver|done]|].
  destruct (parse n) as [t|] eqn:En; [|done]. intros Hm. destruct (IH _ Hm) as [H1 H2]. split; intros name Hin.
  - destruct (decide (name ∈ names)) as [Hin'|Hno]; [by apply H1|].
    assert (name = n) as -> by set_solver. exists t. split; [done|]. rewrite H2 by done. apply lookup_insert_eq.
  - rewrite H2 by set_solver. apply lookup_insert_ne. set_solver.
Qed.

(** The loop succeeds when every file parses. *)
Lemma parse_each_total parse names m :
  (forall name, name ∈ names -> exists t, parse name = Ok t) -> exists m', parse_each parse names m = Ok m'.
Proof.
  revert m. induction names as [|n names IH]; intros m Hp; simpl; [by eexists|].
  destruct (Hp n) as [t ->]; [set_solver|]. apply IH. set_solver.
Qed.

(** The template of a rendering, from the contents of the files. *)
Definition built (layout partialContent : string) (r : Rendering) : res tl_template :=
  match r with
  | Whole page => parse_page layout partialContent page
  | Part _ => tl_Parse (tl_New EmptyString) partialContent
  | Alone name => parse_standalone name
  end.

(** What executing it leaves in the buffer. *)
Definition executed (r : Rendering) (t : tl_template) (data : tl_data) : string * option error :=
  match r with
  | Whole _ => tl_ExecuteTemplate t "layout" data
  | Part name => tl_ExecuteTemplate t name data
  | Alone _ => tl_Execute t data
  end.

(** The renderings the handlers ask for. *)
Definition asked (r : Rendering) : Prop :=
  match r with Whole page => page ∈ pageNames | Part _ => True | Alone name => name ∈ standaloneNames end.

Lemma template_of_asked p : asked (template_of p).
Proof. destruct p; simpl; unfold pageNames, standaloneNames; try done; set_solver. Qed.

Definition lookup_template (t : Templates) (r : Rendering) : option tl_template :=
  match r with
  | Whole page => tm_pages t !! page
  | Part _ => tm_pages t !! "partials"
  | Alone name => tm_standalone t !! name
  end.

Lemma ParseTemplates_lookup t r :
  ParseTemplates = Ok t -> asked r ->
  exists layout files content tmpl,
    fs_ReadFile "templates/layout.html" = Ok layout /\ fs_Glob "templates/partials/*.html" = Ok files /\
    read_partials files EmptyString = Ok content /\ built layout content r = Ok tmpl /\
    lookup_template t r = Some tmpl.
Proof.
  unfold ParseTemplates. destruct (fs_ReadFile _) as [layout|] eqn:E1; [|done].
  destruct (fs_Glob _) as [files|] eqn:E2; [|done]. destruct (read_partials files EmptyString) as [content|] eqn:E3; [|done].
  destruct (parse_each (parse_page layout content) pageNames ∅) as [pages|] eqn:E4; [|done].
  destruct (tl_Parse (tl_New EmptyString) content) as [partialTmpl|] eqn:E5; [|done].
  destruct (parse_each parse_standalone standaloneNames ∅) as [standalone|] eqn:E6; [|done].
  intros [= <-] Hr. exists layout, files, content.
  apply parse_each_lookup in E4 as [H4 _]. apply parse_each_lookup in E6 as [H6 _].
  destruct r as [page|name|name]; simpl in *.
  - destruct (H4 page Hr) as (tmpl & ? & ?). exists tmpl. split_and!; [done..|].
    rewrite lookup_insert_ne; [done|]. intros <-. vm_compute in Hr. set_solver.
  - exists partialTmpl. split_and!; try done. apply lookup_insert_eq.
  - destruct (H6 name Hr) as (tmpl & ? & ?). exists tmpl. by split_and!.
Qed.

(** C31. A page the administration answers with is rendered by its own template,
    whole or not at all. Once the templates are parsed, no handler asks for one
    that is missing: the one used was parsed from the layout, the partials and
    the file of that page. When it executes, and the client is there, exactly its
    text is written, as HTML; when it fails, nothing is, and the error is only
    logged: the client gets an empty page with status 200. *)
Theorem Render_spec (t : Templates) (p : Page) (data : tl_data) (w : Writer)
  (Ht : ParseTemplates = Ok t) :
  exists layout files content tmpl,
    fs_ReadFile "templates/layout.html" = Ok layout /\ fs_Glob "templates/partials/*.html" = Ok files /\
    read_partials files EmptyString = Ok content /\ built layout content (template_of p) = Ok tmpl /\
    match executed (template_of p) tmpl data with
    | (_, Some _) => exists e, Render t p data w = (Some e, w)
    | (text, None) => wt_Broken w = None ->
        Render t p data w = (None, mkWriter (Some "text/html; charset=utf-8") (wt_Written w +:+ text) None)
    end.
Proof.
  destruct (ParseTemplates_lookup t (template_of p) Ht (template_of_asked p))
    as (layout & files & content & tmpl & H1 & H2 & H3 & H4 & H5).
  exists layout, files, content, tmpl. split_and!; [done..|]. unfold Render, RenderPage, RenderPartial, RenderStandalone.
  destruct (template_of p); simpl in *; rewrite H5; destruct (_ : string * option error) as [text [e|]]; simpl;
    try (by eexists); unfold write_html; by intros ->.
Qed.

(** Parsing succeeds when every file is there and parses. *)
Lemma ParseTemplates_total layout files content t :
  fs_ReadFile "templates/layout.html" = Ok layout -> fs_Glob "templates/partials/*.html" = Ok files ->
  read_partials files EmptyString = Ok content -> tl_Parse (tl_New EmptyString) content = Ok t ->
  (forall name, name ∈ pageNames -> exists t, parse_page layout content name = Ok t) ->
  (forall name, name ∈ standaloneNames -> exists t, parse_standalone name = Ok t) ->
  exists t, ParseTemplates = Ok t.
Proof.
  intros H1 H2 H3 H4 H5 H6. unfold ParseTemplates. rewrite H1, H2, H3.
  destruct (parse_each_total _ _ ∅ H5) as [pages ->]. rewrite H4.
  destruct (parse_each_total _ _ ∅ H6) as [standalone ->]. by eexists.
Qed.

End Spec.

(** ** Example *)

(** Files named by their path; a template is the list of the texts parsed into
    it, and executing one writes its name and them, unless the data is empty. *)
#[local] Instance demo_templates : TemplateLib := {|
  tl_template := list string; tl_data := string;
  tl_New := fun _ => []; tl_Parse := fun t text => Ok (t ++ [text]);
  tl_ExecuteTemplate := fun t name data =>
    if is_empty data then ("half a pa", Some (errorString "nil data")) else (foldr String.append data t, None);
  tl_Execute := fun t data => (foldr String.append data t, None);
  fs_ReadFile := fun f => Ok ("[" +:+ f +:+ "]");
  fs_Glob := fun _ => Ok ["templates/partials/flash.html"; "templates/partials/node_row.html"] |}.

Definition fresh_writer : Writer := mkWriter None EmptyString None.

Lemma Render_spec_witness :
  exists t, ParseTemplates = Ok t /\
    Render t (PNodes []) "data" fresh_writer =
      (None, mkWriter (Some "text/html; charset=utf-8")
        ("[templates/layout.html][templates/partials/flash.html][templates/partials/node_row.html]" +:+
         "[templates/nodes.html]data") None) /\
    exists e, Render t (PNodes []) EmptyString fresh_writer = (Some e, fresh_writer).
Proof.
  eexists. split; [reflexivity|]. split; [vm_compute; reflexivity|].
  destruct (@Render_spec demo_templates _ (PNodes []) EmptyString fresh_writer eq_refl)
    as (layout & files & content & tmpl & _ & _ & _ & _ & He). exact He.
Defined.
