(* ===== verification/AdminUI.v ===== *)
(** * internal/admin/handler.go: what the pages of the administration share

    Flash messages, toasts, and the names shown beside a tenant. A form is
    [None] when [r.ParseForm] fails; a rendered template is the page with its
    data ([Templates] has what becomes of it when its template fails). *)

From stdpp Require Import gmap strings list fin_maps.
From Stdlib Require Import Ascii ZArith Lia.
From S2P Require Import Prelude GoStrings World Response Lifecycle AdminAuth.
From S2P Require NodeStore ProjectStore AuditStore WGService.

Open Scope Z_scope.

(** [admin.Handler] as [server.New] builds it: the stores, the provisioner and
    the library are always there, the audit store and WireGuard may be nil. *)
Record Handler := mkHandler {
  ad_encryptionKey : string; ad_setupToken : string; ad_auditStore : bool;
  ad_wg : option WGService.Service }.

(** [r.Form] after [ParseForm], by [FormValue]. *)
Abbreviation Form := (option (string -> string)).

(** ** Rendering *)

Definition renderPage (title nav : string) (crumbs : list breadcrumb) (p : Page) : HTTPResponse :=
  mkResponse 200 (BPage (Some (mkPageData title nav crumbs)) p) [].

Definition renderPartial (p : Page) : HTTPResponse := mkResponse 200 (BPage None p) [].

Definition flash_headers : list (string * string) := [("HX-Retarget", "#flash"); ("HX-Reswap", "innerHTML")].

Definition renderFlash (msg : string) : HTTPResponse :=
  mkHTTPResponse 200 (BPage None (PFlash "flash_error" msg)) [] flash_headers.

Definition deleteStatusRefusalPrefix : string := "tenant cannot be deleted in current status: ".

Definition adminFlashMessages : list (string * string) := [
  ("invalid subdomain: must be lowercase alphanumeric with hyphens, 2-63 chars",
   "Invalid subdomain: lowercase alphanumeric with hyphens, 2-63 chars");
  ("subdomain is reserved", "Subdomain is reserved");
  ("insufficient capacity on node", "Insufficient RAM capacity on node");
  ("failed to reserve resources", "Failed to reserve resources");
  ("name or subdomain already exists", "Name or subdomain already exists");
  ("failed to create tenant", "Failed to create tenant");
  ("tenant is already being deleted", "Tenant is already being deleted");
  ("failed to deprovision tenant", "Failed to deprovision tenant");
  ("failed to delete tenant", "Failed to delete tenant");
  ("failed to get project", "Failed to get project");
  ("failed to get tenant", "Failed to get tenant")].

Definition assoc (k : string) (l : list (string * string)) : option string :=
  option_map snd (List.find (fun kv => String.eqb kv.1 k) l).

Definition adminFlashMessage (lerr : LifecycleError) : string :=
  match trim_prefix_opt deleteStatusRefusalPrefix (le_Message lerr) with
  | Some status => "Cannot delete tenant in status: " +:+ status
  | None => default (le_Message lerr) (assoc (le_Message lerr) adminFlashMessages)
  end.

Definition flashLifecycle (lerr : LifecycleError) : HTTPResponse :=
  let msg := adminFlashMessage lerr in
  match le_Kind lerr with
  | FailureConflict => mkHTTPResponse StatusConflict (BPage None (PFlash "flash_error" msg)) [] flash_headers
  | _ => renderFlash msg
  end.

(** The value of [HX-Trigger]; the messages have nothing to escape. *)
Definition triggerToast (msg toastType : string) : string * string :=
  ("HX-Trigger", "{" +:+ quote "showToast" +:+ ":{" +:+ quote "message" +:+ ":" +:+ quote msg +:+ "," +:+
                 quote "type" +:+ ":" +:+ quote toastType +:+ "}}").

(** An empty answer that sends htmx to another page. *)
Definition hx_redirect (before : list (string * string)) (url : string) : HTTPResponse :=
  mkHTTPResponse 200 BEmpty [] (before ++ [("HX-Redirect", url)]).

(** A panic of a handler, caught by chi's Recoverer. *)
Definition recovered : HTTPResponse := mkResponse 500 BEmpty [].

(** ** Names *)

Definition nodeMap (nodes : list Node) : gmap string string :=
  foldl (fun m n => <[n_ID n := n_Name n]> m) ∅ nodes.
Definition projectMap (projects : list Project) : gmap string string :=
  foldl (fun m p => <[p_ID p := p_Name p]> m) ∅ projects.

Definition buildMaps (nodes : list Node) (projects : list Project) : gmap string string * gmap string string :=
  (nodeMap nodes, projectMap projects).

Definition truncID (id : string) : string :=
  if 8 <=? len id then String.substring 0 8 id
  else if is_empty id then "?"
  else id.

(** The name, or the start of the id when there is none. *)
Definition name_or_id (name id : string) : string := if is_empty name then truncID id else name.

Definition enrichTenant (t : Tenant) (nodeMap projectMap : gmap string string) : enrichedTenant :=
  mkEnriched t (name_or_id (default EmptyString (projectMap !! t_ProjectID t)) (t_ProjectID t))
    (name_or_id (default EmptyString (nodeMap !! t_NodeID t)) (t_NodeID t)).

Section UI.
Context `{Env}.

(** A look-up whose failure is logged. *)
Definition name_of {A} (name : A -> string) (p : P (res (option A))) : P string :=
  let! r := p in
  Ret (match r with Ok (Some x) => name x | _ => EmptyString end).

Definition enrichSingle (t : Tenant) : P enrichedTenant :=
  let! pName := name_of p_Name (ProjectStore.GetByID (t_ProjectID t)) in
  let! nName := name_of n_Name (NodeStore.GetByID (t_NodeID t)) in
  Ret (mkEnriched t (name_or_id pName (t_ProjectID t)) (name_or_id nName (t_NodeID t))).

Definition audit_log (h : Handler) (action entityType id : string)
    (details : option (list (string * string))) : P unit :=
  if ad_auditStore h then AuditStore.Log action entityType id details else Ret tt.

End UI.
