(* ===== verification/AdminNodes.v ===== *)
(** * internal/admin/handler_nodes.go and handler_projects.go

    The pages and forms of nodes and projects. *)

From stdpp Require Import gmap strings list fin_maps.
From Stdlib Require Import Ascii ZArith Lia.
From S2P Require Import Prelude GoStrings NetIP World Response Crypto WGValidate AdminAuth AdminUI.
From S2P Require NodeStore NodeHandler ProjectStore TenantStore.

Open Scope Z_scope.

(** [strings.Split] by commas. *)
Definition split_comma (s : string) : list string := split "," s.

(** The positive number a field holds. *)
Definition positive_field (s : string) : option Z :=
  match atoi s with Some n => if 0 <? n then Some n else None | None => None end.

Section Nodes.
Context `{Env} (h : Handler).

Definition internal : HTTPResponse := httpError "internal error" 500.

Definition nodesList : P HTTPResponse :=
  let? nodes := NodeStore.List catch e => Ret internal in
  Ret (renderPage "Nodes" "nodes" [] (PNodes nodes)).

Definition createNode (form : Form) : P HTTPResponse :=
  match form with
  | None => Ret (renderFlash "Invalid form data")
  | Some r =>
      let name := trim_space (r "name") in
      let tailscaleIP := trim_space (r "tailscale_ip") in
      let proxmoxURL := trim_space (r "proxmox_url") in
      let apiToken := trim_space (r "api_token") in
      let totalRAMStr := r "total_ram_mb" in
      if is_empty name || is_empty tailscaleIP || is_empty proxmoxURL || is_empty apiToken ||
         is_empty totalRAMStr then
        Ret (renderFlash "All fields are required")
      else if negb (NodeHandler.nameRegexp name) || (63 <? len name) then
        Ret (renderFlash "Invalid name: lowercase alphanumeric with hyphens/dots/underscores, 2-63 chars")
      else if negb (is_ip tailscaleIP) then Ret (renderFlash "Invalid Tailscale IP address")
      else if negb (NodeHandler.valid_proxmox_url proxmoxURL) then
        Ret (renderFlash "Invalid Proxmox URL: must be a valid HTTPS URL")
      else
      match positive_field totalRAMStr with
      | None => Ret (renderFlash "Total RAM must be a positive number")
      | Some totalRAM =>
          let? encrypted := Encrypt apiToken (ad_encryptionKey h)
          catch e => Ret (renderFlash "Failed to encrypt API token") in
          let? n := NodeStore.Create (NodeStore.mkCreateNode name tailscaleIP proxmoxURL encrypted totalRAM)
          catch e => Ret (renderFlash (if is_pg_code e unique_violation then "Node name already exists"
                                       else "Failed to create node")) in
          audit_log h "create" "node" (n_ID n) (Some [("name", n_Name n)]) ;;;
          Ret (renderPartial (PNodeRow n))
      end
  end.

(** The live tenants of a node or project, with the other side's names. *)
Definition node_tenants (n : Node) (projectMap : gmap string string) (id : string) (ts : list Tenant) : list enrichedTenant :=
  map (fun t => mkEnriched t (name_or_id (default EmptyString (projectMap !! t_ProjectID t)) (t_ProjectID t)) (n_Name n))
    (List.filter (fun t => String.eqb (t_NodeID t) id && negb (status_eqb (t_Status t) deleted)) ts).

Definition has_items {A} (l : list A) : bool := match l with [] => false | _ => true end.

Definition nodeDetail (id : string) : P HTTPResponse :=
  if negb (ValidUUID id) then Ret (httpError "invalid ID" 400) else
  let? n := NodeStore.GetByID id catch e => Ret internal in
  match n with
  | None => Ret (httpError "not found" 404)
  | Some n =>
      let? allTenants := TenantStore.List catch e => Ret internal in
      let? projects := ProjectStore.List catch e => Ret internal in
      let nodeTenants := node_tenants n (buildMaps [] projects).2 id allTenants in
      Ret (renderPage ("Node: " +:+ n_Name n) "nodes"
             [mkCrumb "Nodes" "/admin/nodes"; mkCrumb (n_Name n) EmptyString]
             (PNodeDetail n nodeTenants (has_items nodeTenants)))
  end.

Definition updateNodeAdmin (id : string) (form : Form) : P HTTPResponse :=
  if negb (ValidUUID id) then Ret (renderFlash "Invalid node ID") else
  match form with
  | None => Ret (renderFlash "Invalid form data")
  | Some r =>
      let s := r "status" in
      let ramStr := r "total_ram_mb" in
      if negb (is_empty s) && negb (NodeStore.node_status_ok s) then Ret (renderFlash "Invalid status") else
      if negb (is_empty ramStr) && negb (bool_decide (is_Some (positive_field ramStr))) then
        Ret (renderFlash "Invalid RAM value")
      else
      let req := NodeStore.mkUpdateNode (if is_empty s then None else Some s)
                   (if is_empty ramStr then None else positive_field ramStr) None None in
      let? _n := NodeStore.Update id req
      catch e => Ret (renderFlash (if errors_Is e NodeStore.ErrNoUpdate then "No changes to apply"
                                   else if errors_Is e NodeStore.ErrRAMBelowAllocated
                                   then "Total RAM cannot be less than allocated RAM"
                                   else "Failed to update node")) in
      (match NodeStore.un_APIToken req with
       | Some _ => NodeHandler.InvalidateClient id
       | None => Ret tt
       end) ;;;
      audit_log h "update" "node" id None ;;;
      Ret (hx_redirect [triggerToast "Node updated" "success"] ("/admin/nodes/" +:+ id))
  end.

Definition deleteNodeAdmin (id : string) : P HTTPResponse :=
  if negb (ValidUUID id) then Ret (renderFlash "Invalid node ID") else
  let? count := NodeStore.CountTenants id
  catch e => Ret (renderFlash "Failed to check node dependencies") in
  if 0 <? count then Ret (renderFlash ("Cannot delete node: " +:+ itoa count +:+ " active tenant(s)")) else
  if_err e := NodeStore.Delete id then Ret (renderFlash "Failed to delete node") else
  (audit_log h "delete" "node" id None ;;;
   Ret (hx_redirect [] "/admin/nodes")).

End Nodes.

(** ** Projects *)

(** The ports of a comma-separated list, or the first that is not one. *)
Fixpoint parse_ports (l : list string) : string + list Z :=
  match l with
  | [] => inr []
  | ps :: rest =>
      match atoi (trim_space ps) with
      | Some p =>
          if (p <? 1) || (65535 <? p) then inl (trim_space ps)
          else match parse_ports rest with inl bad => inl bad | inr ports => inr (p :: ports) end
      | None => inl (trim_space ps)
      end
  end.

Definition nonnegative_field (s : string) : option Z :=
  match atoi s with Some n => if n <? 0 then None else Some n | None => None end.

Section Projects.
Context `{Env} (h : Handler).

Definition projectsList : P HTTPResponse :=
  let? projects := ProjectStore.List catch e => Ret internal in
  Ret (renderPage "Projects" "projects" [] (PProjects projects)).

(** The insertion once the form is read. *)
Definition store_project (req : ProjectStore.CreateProjectRequest) : P HTTPResponse :=
  let? p := ProjectStore.Create req
  catch e => Ret (renderFlash (if is_pg_code e unique_violation then "Project name already exists"
                               else "Failed to create project")) in
  audit_log h "create" "project" (p_ID p) (Some [("name", p_Name p)]) ;;;
  Ret (renderPartial (PProjectRow p)).

Definition createProject (form : Form) : P HTTPResponse :=
  match form with
  | None => Ret (renderFlash "Invalid form data")
  | Some r =>
      let name := trim_space (r "name") in
      let templateIDStr := r "template_id" in
      let portsStr := trim_space (r "ports") in
      let healthPath := trim_space (r "health_path") in
      let ramStr := r "ram_mb" in
      if is_empty name || is_empty templateIDStr then
        Ret (renderFlash "Name and Template ID are required")
      else
      match positive_field templateIDStr with
      | None => Ret (renderFlash "Template ID must be a positive number")
      | Some templateID =>
          match (if is_empty portsStr then inr [] else parse_ports (split_comma portsStr)) with
          | inl bad => Ret (renderFlash ("Invalid port number: " +:+ bad))
          | inr ports =>
              match (if is_empty ramStr then Some 0 else nonnegative_field ramStr) with
              | None => Ret (renderFlash "RAM must be a non-negative number")
              | Some ramMB =>
                  store_project (ProjectStore.mkCreateProject name templateID
                    (match ports with [] => None | _ => Some ports end) None healthPath ramMB
                    EmptyString EmptyString)
              end
          end
      end
  end.

Definition project_tenants (p : Project) (nodeMap : gmap string string) (id : string) (ts : list Tenant) : list enrichedTenant :=
  map (fun t => mkEnriched t (p_Name p) (name_or_id (default EmptyString (nodeMap !! t_NodeID t)) (t_NodeID t)))
    (List.filter (fun t => String.eqb (t_ProjectID t) id && negb (status_eqb (t_Status t) deleted)) ts).

Definition projectDetail (id : string) : P HTTPResponse :=
  if negb (ValidUUID id) then Ret (httpError "invalid ID" 400) else
  let? p := ProjectStore.GetByID id catch e => Ret internal in
  match p with
  | None => Ret (httpError "not found" 404)
  | Some p =>
      let? allTenants := TenantStore.List catch e => Ret internal in
      let? nodes := NodeStore.List catch e => Ret internal in
      let projectTenants := project_tenants p (buildMaps nodes []).1 id allTenants in
      Ret (renderPage ("Project: " +:+ p_Name p) "projects"
             [mkCrumb "Projects" "/admin/projects"; mkCrumb (p_Name p) EmptyString]
             (PProjectDetail p projectTenants (has_items projectTenants)))
  end.

(** A field as given, [None] when it is empty. *)
Definition opt_field (s : string) : option string := if is_empty s then None else Some s.

(** A number field: absent, read, or refused. *)
Definition number_field (read : string -> option Z) (s : string) : option (option Z) :=
  if is_empty s then Some None else match read s with Some v => Some (Some v) | None => None end.

Definition updateProjectAdmin (id : string) (form : Form) : P HTTPResponse :=
  if negb (ValidUUID id) then Ret (renderFlash "Invalid project ID") else
  match form with
  | None => Ret (renderFlash "Invalid form data")
  | Some r =>
      match number_field positive_field (r "template_id") with
      | None => Ret (renderFlash "Invalid template ID")
      | Some templateID =>
          match number_field nonnegative_field (r "ram_mb") with
          | None => Ret (renderFlash "Invalid RAM value")
          | Some ramMB =>
              let? _p := ProjectStore.Update id
                (ProjectStore.mkUpdateProject (opt_field (trim_space (r "name"))) templateID None None
                   (opt_field (trim_space (r "health_path"))) ramMB None None)
              catch e => Ret (renderFlash (if errors_Is e ProjectStore.ErrNoUpdate then "No changes to apply"
                                           else "Failed to update project")) in
              audit_log h "update" "project" id None ;;;
              Ret (hx_redirect [triggerToast "Project updated" "success"] ("/admin/projects/" +:+ id))
          end
      end
  end.

Definition deleteProjectAdmin (id : string) : P HTTPResponse :=
  if negb (ValidUUID id) then Ret (renderFlash "Invalid project ID") else
  let? count := ProjectStore.CountTenants id
  catch e => Ret (renderFlash "Failed to check project dependencies") in
  if 0 <? count then Ret (renderFlash ("Cannot delete project: " +:+ itoa count +:+ " active tenant(s)")) else
  if_err e := ProjectStore.Delete id then Ret (renderFlash "Failed to delete project") else
  (audit_log h "delete" "project" id None ;;;
   Ret (hx_redirect [] "/admin/projects")).

End Projects.
