(* ===== verification/AdminTenants.v ===== *)
(** * internal/admin/handler_tenants.go: the tenants' pages

    Creation and deletion go through the life cycle service the API uses;
    suspension and resumption are spelled out again, with flashes. *)

From stdpp Require Import gmap strings list fin_maps.
From Stdlib Require Import Ascii ZArith Lia.
From S2P Require Import Prelude GoStrings World Response Tables WGValidate WGStore WGService Lifecycle.
From S2P Require Import AdminAuth AdminUI AdminNodes.
From S2P Require NodeStore ProjectStore TenantStore AuditStore WGHandler TenantHandler.

Open Scope Z_scope.

Section Tenants.
Context `{Env} `{ProvisionerOps} `{WgLib} (h : Handler).

Definition tenantsList (q : string -> string) : P HTTPResponse :=
  let? nodes := NodeStore.List catch e => Ret internal in
  let? projects := ProjectStore.List catch e => Ret internal in
  let filterStatus := q "status" in
  let filterProject := q "project_id" in
  let filterNode := q "node_id" in
  let? total := TenantStore.Count catch e => Ret internal in
  let? filtered := TenantStore.ListPaginated total 0 filterStatus filterNode filterProject
  catch e => Ret internal in
  let maps := buildMaps nodes projects in
  Ret (renderPage "Tenants" "tenants" []
         (PTenants nodes projects (map (fun t => enrichTenant t maps.1 maps.2) filtered.1)
            filterStatus filterProject filterNode total)).

(** The service [NewHandler] makes. *)
Definition lifecycle : LifecycleService := NewLifecycleService (TenantHandler.logger (ad_auditStore h)).

(** A row looked up by an id from the form, which the database refuses when it
    is not a UUID. *)
Definition get_by_form_id {A} (get : string -> P (res (option A))) (id : string) : P (res (option A)) :=
  if ValidUUID id then get id else bad_text.

Definition createTenant (form : Form) : P HTTPResponse :=
  match form with
  | None => Ret (renderFlash "Invalid form data")
  | Some r =>
      let name := r "name" in
      let subdomain := r "subdomain" in
      let projectID := r "project_id" in
      let nodeID := r "node_id" in
      if is_empty name || is_empty subdomain || is_empty projectID || is_empty nodeID then
        Ret (renderFlash "All fields are required")
      else
      match ValidateSubdomain subdomain with
      | Some lerr => Ret (flashLifecycle lerr)
      | None =>
          let? n := get_by_form_id NodeStore.GetByID nodeID
          catch e => Ret (renderFlash "Failed to validate node") in
          match n with
          | None => Ret (renderFlash "Node not found")
          | Some n =>
              if negb (String.eqb (n_Status n) "active") then Ret (renderFlash "Node is not active") else
              let? proj := get_by_form_id ProjectStore.GetByID projectID
              catch e => Ret (renderFlash "Failed to validate project") in
              match proj with
              | None => Ret (renderFlash "Project not found")
              | Some proj =>
                  let! r := Lifecycle.Create lifecycle (mkParams name subdomain proj n EmptyString)
                              (mkActor EmptyString) in
                  Ret (match r with
                       | Failed lerr => flashLifecycle lerr
                       | Done t => renderPartial (PTenantRow (mkEnriched t (p_Name proj) (n_Name n)))
                       end)
              end
          end
      end
  end.

(** The tenant an endpoint that answers with plain errors acts on. *)
Definition with_tenant (id : string) (k : Tenant -> P HTTPResponse) : P HTTPResponse :=
  if negb (ValidUUID id) then Ret (httpError "invalid ID" 400) else
  let? t := TenantStore.GetByID id catch e => Ret internal in
  match t with
  | None => Ret (httpError "not found" 404)
  | Some t => k t
  end.

(** A row read back as absent is a nil pointer the handler follows. *)
Definition deleteTenant (id : string) : P HTTPResponse :=
  with_tenant id (fun t =>
    let! r := Lifecycle.Delete lifecycle t (mkActor EmptyString) in
    match r with
    | Failed lerr => Ret (flashLifecycle lerr)
    | Done None => Ret recovered
    | Done (Some t) =>
        let! enriched := enrichSingle t in
        Ret (renderPartial (PTenantRow enriched))
    end).

(** 286 tells htmx to stop polling. *)
Definition stop_polling : HTTPResponse := mkResponse 286 BEmpty [].

Definition tenantRow (id : string) : P HTTPResponse :=
  if negb (ValidUUID id) then Ret stop_polling else
  let? t := TenantStore.GetByID id catch e => Ret internal in
  match t with
  | None => Ret stop_polling
  | Some t =>
      let! enriched := enrichSingle t in
      Ret (renderPartial (PTenantRow enriched))
  end.

(** ** The tenant's page *)

Definition tenant_crumbs (t : Tenant) : list breadcrumb :=
  [mkCrumb "Tenants" "/admin/tenants"; mkCrumb (t_Name t) EmptyString].

Definition tenant_page (t : Tenant) (e : enrichedTenant) (entries : list AuditEntry) (wg : TenantPeerData) :
    HTTPResponse :=
  renderPage ("Tenant: " +:+ t_Name t) "tenants" (tenant_crumbs t)
    (PTenantDetail t (et_ProjectName e) (et_NodeName e) entries wg).

(** The last twenty entries; an error leaves the list empty. *)
Definition audit_entries (id : string) : P (list AuditEntry) :=
  if ad_auditStore h then
    let? entries := AuditStore.ListByEntity "tenant" id 20 catch e => Ret [] in Ret entries
  else Ret [].

(** The QR code as base64, empty when it cannot be made. *)
Definition qr_base64 (config : string) : string :=
  match GenerateQRCode config with Ok png => base64_encode png | Fail _ => EmptyString end.

(** The WireGuard section: the peer and its configuration without the key. *)
Definition tenant_peer (t : Tenant) : P TenantPeerData :=
  match ad_wg h with
  | None => Ret (mkTenantPeer None EmptyString EmptyString false EmptyString)
  | Some s =>
      let! wgPeer := WGStore.GetByTenantID (t_ID t) in
      Ret (match wgPeer with
           | Ok (Some peer) =>
               let config := BuildPeerConfig s peer WGHandler.placeholder in
               mkTenantPeer (Some peer) config (qr_base64 config) true EmptyString
           | _ => mkTenantPeer None EmptyString EmptyString true EmptyString
           end)
  end.

Definition tenantDetail (id : string) : P HTTPResponse :=
  with_tenant id (fun t =>
    let! enriched := enrichSingle t in
    let! entries := audit_entries id in
    let! wg := tenant_peer t in
    Ret (tenant_page t enriched entries wg)).

(** ** Suspension and resumption *)

(** The tenant an endpoint that answers with flashes acts on. *)
Definition with_flash_tenant (id : string) (k : Tenant -> P HTTPResponse) : P HTTPResponse :=
  let? t := TenantStore.GetByID id catch e => Ret (renderFlash "Tenant not found") in
  match t with
  | None => Ret (renderFlash "Tenant not found")
  | Some t => k t
  end.

Definition suspendTenant (id : string) : P HTTPResponse :=
  if negb (ValidUUID id) then Ret (renderFlash "Invalid tenant ID") else
  with_flash_tenant id (fun t =>
    if negb (status_eqb (t_Status t) active) then Ret (renderFlash "Tenant must be active to suspend") else
    if_err e := TenantStore.SetSuspended id then
      Ret (renderFlash (if errors_Is e TenantStore.ErrStateConflict
                        then "Tenant is not in a suspendable state" else "Failed to suspend tenant"))
    else
    let! stopped := match t_LXCID t with
                    | Some lxc => Suspend (t_ID t) (t_NodeID t) lxc
                    | None => Ret None
                    end in
    match stopped with
    | Some e =>
        let! _rb := TenantStore.SetResumed id in
        Ret (renderFlash "Failed to stop container")
    | None =>
        AdminUI.audit_log h "suspend" "tenant" id None ;;;
        Ret (hx_redirect [] ("/admin/tenants/" +:+ id))
    end).

Definition resumeTenant (id : string) : P HTTPResponse :=
  if negb (ValidUUID id) then Ret (renderFlash "Invalid tenant ID") else
  with_flash_tenant id (fun t =>
    if negb (status_eqb (t_Status t) suspended) then Ret (renderFlash "Tenant must be suspended to resume") else
    if_err e := TenantStore.SetResumed id then
      Ret (renderFlash (if errors_Is e TenantStore.ErrStateConflict
                        then "Tenant is not in a resumable state" else "Failed to resume tenant"))
    else
    let! started := match t_LXCID t with
                    | Some lxc => Resume (t_ID t) (t_NodeID t) lxc
                    | None => Ret None
                    end in
    match started with
    | Some e =>
        let! _rb := TenantStore.SetSuspended id in
        Ret (renderFlash "Failed to start container")
    | None =>
        AdminUI.audit_log h "resume" "tenant" id None ;;;
        Ret (hx_redirect [] ("/admin/tenants/" +:+ id))
    end).

(** ** A tenant's WireGuard peer *)

Definition tenant_peer_request (t : Tenant) : CreatePeerRequest :=
  mkCreatePeer ("tenant-" +:+ t_Name t) "user" EmptyString (t_ID t) EmptyString.

(** The rest of [createTenantPeer] once the peer is in the table. *)
Definition show_new_tenant_peer (s : Service) (t : Tenant) (id : string) (peer : Peer) (privateKey : string) :
    P HTTPResponse :=
  let! _applyErr := ApplyPeer s peer in
  AdminUI.audit_log h "create" "wireguard_peer" (pe_ID peer) (Some [("name", pe_Name peer); ("tenant_id", t_ID t)]) ;;;
  let! enriched := enrichSingle t in
  let! entries := audit_entries id in
  let config := BuildPeerConfig s peer privateKey in
  Ret (tenant_page t enriched entries (mkTenantPeer (Some peer) config (qr_base64 config) true privateKey)).

Definition createTenantPeer (id : string) : P HTTPResponse :=
  if negb (ValidUUID id) then Ret (renderFlash "Invalid tenant ID") else
  match ad_wg h with
  | None => Ret (renderFlash "WireGuard not configured")
  | Some s =>
      with_flash_tenant id (fun t =>
        if negb (status_eqb (t_Status t) active) then
          Ret (renderFlash "Tenant must be active to create WG peer")
        else
        let? existing := WGStore.GetByTenantID (t_ID t)
        catch e => Ret (renderFlash "Failed to check existing peer") in
        match existing with
        | Some _ => Ret (renderFlash "WireGuard peer already exists for this tenant")
        | None =>
            let? created := WGService.CreatePeer s (tenant_peer_request t)
            catch e => Ret (renderFlash (if is_pg_code e unique_violation
                                         then "Peer with this public key or IP already exists"
                                         else "Failed to create WG peer")) in
            show_new_tenant_peer s t id created.1 created.2
        end)
  end.

End Tenants.
