(* ===== verification/AdminNetwork.v ===== *)
(** * internal/admin/handler_network.go: the WireGuard pages

    When WireGuard is not configured the store and the service are nil
    interfaces: the pages that test for it say so, the others panic at their
    first call. *)

From stdpp Require Import gmap strings list fin_maps.
From Stdlib Require Import Ascii ZArith Lia.
From S2P Require Import Prelude GoStrings World Response WGValidate WGStore WGService.
From S2P Require Import AdminAuth AdminUI AdminNodes.
From S2P Require NodeStore AuditStore WGHandler AdminTenants.

Open Scope Z_scope.

Section Network.
Context `{Env} `{WgLib} (h : Handler).

Definition not_configured : string := "WireGuard not configured".

(** A handler that calls the store or the service without testing for nil. *)
Definition with_wg (k : Service -> P HTTPResponse) : P HTTPResponse :=
  match ad_wg h with Some s => k s | None => Ret recovered end.

Definition of_type (ty : string) (p : Peer) : bool := String.eqb (pe_Type p) ty.

Definition count (f : Peer -> bool) (l : list Peer) : Z := Z.of_nat (length (List.filter f l)).

Definition networkPage (q : string -> string) : P HTTPResponse :=
  match ad_wg h with
  | None => Ret (httpError not_configured 500)
  | Some _ =>
      let? allPeers := WGStore.List catch e => Ret internal in
      let filterType := q "type" in
      let peers := if negb (is_empty filterType) && ValidPeerTypes filterType
                   then List.filter (of_type filterType) allPeers else allPeers in
      Ret (renderPage "Network" "network" []
             (PNetwork peers filterType (count (of_type "admin") allPeers) (count (of_type "node") allPeers)
                (count (of_type "user") allPeers) (count pe_Enabled allPeers) (Z.of_nat (length allPeers))))
  end.

Definition peer_page (peer : Peer) (config privateKey : string) : HTTPResponse :=
  renderPage ("Peer: " +:+ pe_Name peer) "network"
    [mkCrumb "Network" "/admin/network"; mkCrumb (pe_Name peer) EmptyString]
    (PPeerDetail peer config (AdminTenants.qr_base64 config) privateKey).

(** The rest of [createPeerAdmin] once the form is checked. *)
Definition store_peer (s : Service) (req : CreatePeerRequest) : P HTTPResponse :=
  let? created := WGService.CreatePeer s req
  catch e => Ret (renderFlash (if is_pg_code e unique_violation
                               then "Peer with this public key or IP already exists"
                               else "Failed to create peer")) in
  let '(peer, privateKey) := created in
  let! _applyErr := ApplyPeer s peer in
  AdminUI.audit_log h "create" "wireguard_peer" (pe_ID peer)
    (Some [("name", cp_Name req); ("type", cp_Type req)]) ;;;
  Ret (peer_page peer (BuildPeerConfig s peer privateKey) privateKey).

Definition createPeerAdmin (form : Form) : P HTTPResponse :=
  match ad_wg h with
  | None => Ret (renderFlash not_configured)
  | Some s =>
      match form with
      | None => Ret (renderFlash "Invalid form data")
      | Some r =>
          let name := trim_space (r "name") in
          let peerType := trim_space (r "type") in
          let endpoint := trim_space (r "endpoint") in
          let tenantID := trim_space (r "tenant_id") in
          let allowedIPs := trim_space (r "allowed_ips") in
          if is_empty name || is_empty peerType then Ret (renderFlash "Name and type are required") else
          if negb (ValidPeerTypes peerType) then
            Ret (renderFlash "Invalid type: must be admin, node, or user")
          else
          match (if is_empty allowedIPs then None else ValidateAllowedIPs allowedIPs) with
          | Some e => Ret (renderFlash ("Invalid AllowedIPs: " +:+ e))
          | None => store_peer s (mkCreatePeer name peerType endpoint tenantID allowedIPs)
          end
      end
  end.

(** The peer a page shows, or the plain error. *)
Definition with_peer (id : string) (k : Peer -> P HTTPResponse) : P HTTPResponse :=
  let? peer := WGStore.GetByID id catch e => Ret internal in
  match peer with
  | None => Ret (httpError "not found" 404)
  | Some peer => k peer
  end.

Definition peerDetail (id : string) : P HTTPResponse :=
  match ad_wg h with
  | None => Ret (httpError not_configured 500)
  | Some s =>
      if negb (ValidUUID id) then Ret (httpError "invalid ID" 400) else
      with_peer id (fun peer =>
        Ret (peer_page peer (BuildPeerConfig s peer WGHandler.placeholder) EmptyString))
  end.

Definition peer_done (action msg id : string) : P HTTPResponse :=
  AdminUI.audit_log h action "wireguard_peer" id None ;;;
  Ret (hx_redirect [triggerToast msg "success"] ("/admin/network/peers/" +:+ id)).

Definition updatePeerAdmin (id : string) (form : Form) : P HTTPResponse :=
  if negb (ValidUUID id) then Ret (renderFlash "Invalid peer ID") else
  match form with
  | None => Ret (renderFlash "Invalid form data")
  | Some r =>
      with_wg (fun _ =>
        let? _p := WGStore.Update id (mkUpdatePeer (opt_field (r "name")) (opt_field (r "endpoint")) None)
        catch e => Ret (renderFlash (if errors_Is e ErrNoUpdate then "No changes to apply"
                                     else "Failed to update peer")) in
        peer_done "update" "Peer updated" id)
  end.

Definition deletePeerAdmin (id : string) : P HTTPResponse :=
  if negb (ValidUUID id) then Ret (renderFlash "Invalid peer ID") else
  with_wg (fun s => with_peer id (fun peer =>
    let! _removeErr := RemovePeer s (pe_PublicKey peer) in
    if_err e := WGStore.Delete id then
      Ret (if errors_Is e NodeStore.ErrNoRows then httpError "not found" 404
           else renderFlash "Failed to delete peer")
    else
    (AdminUI.audit_log h "delete" "wireguard_peer" id (Some [("name", pe_Name peer)]) ;;;
     Ret (hx_redirect [] "/admin/network")))).

Definition enablePeerAdmin (id : string) : P HTTPResponse :=
  if negb (ValidUUID id) then Ret (renderFlash "Invalid peer ID") else
  with_wg (fun s =>
    if_err e := SetEnabled id true then
      Ret (renderFlash (if errors_Is e NodeStore.ErrNoRows then "Peer not found" else "Failed to enable peer"))
    else
    (let! peer := WGStore.GetByID id in
     match peer with
     | Ok (Some peer) => let! _applyErr := ApplyPeer s peer in Ret tt
     | _ => Ret tt
     end) ;;;
    peer_done "enable" "Peer enabled" id).

Definition disablePeerAdmin (id : string) : P HTTPResponse :=
  if negb (ValidUUID id) then Ret (renderFlash "Invalid peer ID") else
  with_wg (fun s =>
    let? peer := WGStore.GetByID id catch e => Ret (renderFlash "Failed to get peer") in
    match peer with
    | None => Ret (renderFlash "Peer not found")
    | Some peer =>
        if_err e := SetEnabled id false then Ret (renderFlash "Failed to disable peer") else
        let! _removeErr := RemovePeer s (pe_PublicKey peer) in
        peer_done "disable" "Peer disabled" id
    end).

End Network.
