(* ===== verification/AdminPages.v ===== *)
(** * internal/admin/handler_dashboard.go, handler_settings.go, handler_audit.go

    The dashboard, the settings with the list of passkeys, and the audit log;
    and from templates.go the functions the templates compute with. *)

From stdpp Require Import gmap strings list fin_maps.
From Stdlib Require Import Ascii ZArith Lia.
From S2P Require Import Prelude GoStrings World Response AdminAuth AdminUI AdminNodes.
From S2P Require NodeStore ProjectStore TenantStore AuditStore WebAuthnStore.

Open Scope Z_scope.

(** Additions of a Go int. *)
Definition sum64 (l : list Z) : Z := foldl (fun a x => wrap64 (a + x)) 0 l.

Definition count_tenants (f : Tenant -> bool) (l : list Tenant) : Z := Z.of_nat (length (List.filter f l)).

Definition has_status (st : TenantStatus) (t : Tenant) : bool := status_eqb (t_Status t) st.

(** Active with the given health; any other text is unknown. *)
Definition healthy (t : Tenant) : bool := has_status active t && String.eqb (t_HealthStatus t) "healthy".
Definition unhealthy (t : Tenant) : bool := has_status active t && String.eqb (t_HealthStatus t) "unhealthy".
Definition unknown_health (t : Tenant) : bool :=
  has_status active t && negb (String.eqb (t_HealthStatus t) "healthy") && negb (String.eqb (t_HealthStatus t) "unhealthy").

Section Pages.
Context `{Env} (h : Handler).

Definition dashboard : P HTTPResponse :=
  let? nodes := NodeStore.List catch e => Ret internal in
  let? projects := ProjectStore.List catch e => Ret internal in
  let? tenants := TenantStore.List catch e => Ret internal in
  let maps := buildMaps nodes projects in
  let! recentAudit := (if ad_auditStore h then
                         let? entries := AuditStore.List 10 0 EmptyString EmptyString catch e => Ret [] in
                         Ret entries.1
                       else Ret []) in
  Ret (renderPage "Dashboard" "dashboard" [] (PDashboard (mkDashboardData nodes projects tenants
    (sum64 (map n_TotalRAMMB nodes)) (sum64 (map n_AllocatedRAMMB nodes))
    (count_tenants (has_status active) tenants) (count_tenants (has_status suspended) tenants)
    (count_tenants (has_status errored) tenants)
    (count_tenants healthy tenants) (count_tenants unhealthy tenants) (count_tenants unknown_health tenants)
    (map (fun t => enrichTenant t maps.1 maps.2) (firstn 10 tenants)) recentAudit))).

(** A failing query empties its part of the page and is reported as the state
    of the database. *)
Definition settingsPage : P HTTPResponse :=
  let! nodes := NodeStore.List in
  let! allTenants := TenantStore.List in
  let! credentials := WebAuthnStore.ListCredentialInfos in
  let items {A} (r : res (list A)) : list A := match r with Ok l => l | Fail _ => [] end in
  let dbStatus := match nodes, allTenants with Ok _, Ok _ => "healthy" | _, _ => "error" end in
  Ret (renderPage "Settings" "settings" [mkCrumb "Settings" EmptyString]
         (PSettings dbStatus (Z.of_nat (length (items nodes))) (count_tenants (has_status active) (items allTenants))
            (items credentials))).

(** The last passkey must stay: without one the setup token opens the door. *)
Definition deleteCredential (id : string) : P HTTPResponse :=
  if negb (ValidUUID id) then Ret (renderFlash "Invalid credential ID") else
  let? creds := WebAuthnStore.ListCredentialInfos
  catch e => Ret (renderFlash "Failed to check credentials") in
  if Z.of_nat (length creds) <=? 1 then Ret (renderFlash "Cannot delete the last credential") else
  if_err e := WebAuthnStore.DeleteCredential id then Ret (renderFlash "Failed to delete credential") else
  Ret (hx_redirect [] "/admin/settings").

Definition auditPage (q : string -> string) : P HTTPResponse :=
  let params := ParseListParams q in
  let entityType := q "entity_type" in
  let action := q "action" in
  let? found := (if ad_auditStore h then AuditStore.List (lp_Limit params) (lp_Offset params) entityType action
                 else Ret (Ok ([], 0)))
  catch e => Ret internal in
  Ret (renderPage "Audit Log" "audit" [mkCrumb "Audit Log" EmptyString]
         (PAudit found.1 found.2 (lp_Limit params) (lp_Offset params)
            (hasMore (lp_Offset params) found.1 found.2) entityType action)).

End Pages.

(** ** templates.go: the functions of the templates *)

Definition joinInts (ints : list Z) : string := join ", " (map itoa ints).

Definition freeRAM (n : Node) : Z := wrap64 (n_TotalRAMMB n - n_AllocatedRAMMB n).

Definition ramPercent (n : Node) : Z :=
  if n_TotalRAMMB n =? 0 then 0 else Z.quot (wrap64 (n_AllocatedRAMMB n * 100)) (n_TotalRAMMB n).

Definition ramColor (n : Node) : string :=
  if n_TotalRAMMB n =? 0 then "green" else
  let pct := Z.quot (wrap64 (n_AllocatedRAMMB n * 100)) (n_TotalRAMMB n) in
  if 90 <? pct then "red" else if 70 <? pct then "orange" else "green".

Definition derefInt (p : option Z) : Z := default 0 p.
Definition derefStr (p : option string) : string := default EmptyString p.
