(* ===== verification/AdminRoutes.v ===== *)
(** * internal/admin/handler.go: the routes under /admin

    [Routes]: the check of nosurf on every route, and behind the session of
    [requireAuth] all but the sign-in. Rate limits and the static files are
    left out; a form beyond [maxBodySize] is one [ParseForm] refuses. *)

From stdpp Require Import gmap strings list fin_maps.
From Stdlib Require Import Ascii ZArith Lia.
From S2P Require Import Prelude GoStrings World Response WGService Lifecycle AdminAuth AdminUI.
From S2P Require AdminNodes AdminTenants AdminNetwork AdminPages.

Open Scope Z_scope.

(** What nosurf answers to a request without its token. *)
Class Nosurf := { nosurf_failure : HTTPResponse }.

Inductive AdminRequest :=
(* public *)
| LoginPage
| Logout
| RegisterBegin
| RegisterFinish
| LoginBegin
| LoginFinish
(* pages *)
| Dashboard
| NodesList
| NodeDetail (id : string)
| ProjectsList
| ProjectDetail (id : string)
| TenantsList (q : string -> string)
| TenantDetail (id : string)
| AuditPage (q : string -> string)
| SettingsPage
(* nodes *)
| CreateNode (form : Form)
| UpdateNodeAdmin (id : string) (form : Form)
| DeleteNodeAdmin (id : string)
(* projects *)
| CreateProject (form : Form)
| UpdateProjectAdmin (id : string) (form : Form)
| DeleteProjectAdmin (id : string)
(* tenants *)
| CreateTenant (form : Form)
| DeleteTenant (id : string)
| SuspendTenant (id : string)
| ResumeTenant (id : string)
| CreateTenantPeer (id : string)
| TenantRow (id : string)
(* network *)
| NetworkPage (q : string -> string)
| CreatePeerAdmin (form : Form)
| PeerDetail (id : string)
| UpdatePeerAdmin (id : string) (form : Form)
| DeletePeerAdmin (id : string)
| EnablePeerAdmin (id : string)
| DisablePeerAdmin (id : string)
(* passkeys *)
| DeleteCredential (id : string).

(** GET, which nosurf lets through. *)
Definition safe_method (r : AdminRequest) : bool :=
  match r with
  | LoginPage | Dashboard | NodesList | NodeDetail _ | ProjectsList | ProjectDetail _ | TenantsList _
  | TenantDetail _ | AuditPage _ | SettingsPage | TenantRow _ | NetworkPage _ | PeerDetail _ => true
  | _ => false
  end.

(** [csrf.ExemptPaths]. *)
Definition csrf_exempt (r : AdminRequest) : bool :=
  match r with RegisterBegin | RegisterFinish | LoginBegin | LoginFinish => true | _ => false end.

(** The routes outside the group of [requireAuth]. *)
Definition public (r : AdminRequest) : bool :=
  match r with LoginPage | Logout | RegisterBegin | RegisterFinish | LoginBegin | LoginFinish => true | _ => false end.

Section Routes.
Context `{Env} `{ProvisionerOps} `{WgLib} `{WebAuthnLib} `{Nosurf} (h : Handler).

Definition csrf (hd : AdminHeaders) (r : AdminRequest) (next : P HTTPResponse) : P HTTPResponse :=
  if safe_method r || csrf_exempt r || ah_CSRF hd then next else Ret nosurf_failure.

Definition public_route (hd : AdminHeaders) (r : AdminRequest) : P HTTPResponse :=
  match r with
  | LoginPage => loginPage (ad_encryptionKey h) hd
  | Logout => logout
  | RegisterBegin => registerBegin (ad_encryptionKey h) (ad_setupToken h) hd
  | RegisterFinish => registerFinish (ad_encryptionKey h) hd
  | LoginBegin => loginBegin
  | LoginFinish => loginFinish (ad_encryptionKey h) hd
  | _ => Ret (mkResponse StatusNotFound BEmpty [])
  end.

Definition protected_route (r : AdminRequest) : P HTTPResponse :=
  match r with
  | Dashboard => AdminPages.dashboard h
  | NodesList => AdminNodes.nodesList
  | NodeDetail id => AdminNodes.nodeDetail id
  | ProjectsList => AdminNodes.projectsList
  | ProjectDetail id => AdminNodes.projectDetail id
  | TenantsList q => AdminTenants.tenantsList q
  | TenantDetail id => AdminTenants.tenantDetail h id
  | AuditPage q => AdminPages.auditPage h q
  | SettingsPage => AdminPages.settingsPage
  | CreateNode f => AdminNodes.createNode h f
  | UpdateNodeAdmin id f => AdminNodes.updateNodeAdmin h id f
  | DeleteNodeAdmin id => AdminNodes.deleteNodeAdmin h id
  | CreateProject f => AdminNodes.createProject h f
  | UpdateProjectAdmin id f => AdminNodes.updateProjectAdmin h id f
  | DeleteProjectAdmin id => AdminNodes.deleteProjectAdmin h id
  | CreateTenant f => AdminTenants.createTenant h f
  | DeleteTenant id => AdminTenants.deleteTenant h id
  | SuspendTenant id => AdminTenants.suspendTenant h id
  | ResumeTenant id => AdminTenants.resumeTenant h id
  | CreateTenantPeer id => AdminTenants.createTenantPeer h id
  | TenantRow id => AdminTenants.tenantRow id
  | NetworkPage q => AdminNetwork.networkPage h q
  | CreatePeerAdmin f => AdminNetwork.createPeerAdmin h f
  | PeerDetail id => AdminNetwork.peerDetail h id
  | UpdatePeerAdmin id f => AdminNetwork.updatePeerAdmin h id f
  | DeletePeerAdmin id => AdminNetwork.deletePeerAdmin h id
  | EnablePeerAdmin id => AdminNetwork.enablePeerAdmin h id
  | DisablePeerAdmin id => AdminNetwork.disablePeerAdmin h id
  | DeleteCredential id => AdminPages.deleteCredential id
  | _ => Ret (mkResponse StatusNotFound BEmpty [])
  end.

Definition Routes (hd : AdminHeaders) (r : AdminRequest) : P HTTPResponse :=
  csrf hd r (if public r then public_route hd r
             else requireAuth (ad_encryptionKey h) hd (protected_route r)).

End Routes.
