(* ===== verification/AdminSafe.v ===== *)
(** * The administration interface keeps the invariant

    Every route under /admin, as a program, keeps the invariant of the tables
    and moves tenants along the machine of [TenantFSM]. *)

From stdpp Require Import gmap strings list fin_maps.
From Stdlib Require Import ZArith Lia.
From S2P Require Import Prelude GoStrings World Response Tables TenantFSM StoreSafe Lifecycle TenantHandlerSpec ServicesSafe.
From S2P Require Import WGService AdminAuth AdminUI AdminNodes AdminRoutes.
From S2P Require WebAuthnStore NodeStore ProjectStore TenantStore AuditStore WGStore NodeHandler.
From S2P Require AdminTenants AdminNetwork AdminPages.
Import WebAuthnStore(keys_ok).

Open Scope Z_scope.

Section Safe.
Context `{Env} `{HL : ProvisionerLaws} `{WgLib} `{WebAuthnLib} `{Nosurf} (h : Handler).

(** ** The passkeys *)

Lemma write_keys_ok k w : keys_ok (set_keys k w) -> world_ok w -> world_ok (set_keys k w) /\ world_step w (set_keys k w).
Proof. intros Hk []. split; [by split|by apply world_step_frame]. Qed.

Lemma keeps_insert_credential c : keeps any (stmt (WebAuthnStore.insert_credential c)).
Proof.
  apply keeps_stmt_any. intros w Hw. pose proof (WebAuthnStore.insert_credential_ok c w (ok_keys _ Hw)) as Hok.
  unfold WebAuthnStore.insert_credential in *. cbv zeta in *.
  destruct (_ || _); [auto using world_step_refl|by apply write_keys_ok].
Qed.

Lemma keeps_AddCredential c : keeps any (WebAuthnStore.AddCredential c).
Proof.
  unfold WebAuthnStore.AddCredential. destruct (negb _); [apply safe_any|].
  apply safe_bind_any; [apply keeps_insert_credential|]. intros []; apply safe_any.
Qed.

Lemma keeps_UpdateSignCount id n : keeps any (WebAuthnStore.UpdateSignCount id n).
Proof.
  unfold WebAuthnStore.UpdateSignCount. destruct (negb _); [apply safe_any|].
  apply safe_bind_any; [|intros []; apply safe_any]. apply keeps_stmt_any. intros w Hw.
  apply write_keys_ok; [|done]. apply WebAuthnStore.update_sign_count_ok, ok_keys, Hw.
Qed.

Lemma keeps_DeleteCredential id : keeps any (WebAuthnStore.DeleteCredential id).
Proof.
  apply safe_bind_any; [|intros []; apply safe_any]. apply keeps_stmt_any. intros w Hw.
  apply write_keys_ok; [|done]. apply WebAuthnStore.delete_credential_ok, ok_keys, Hw.
Qed.

Lemma keeps_ListCredentials : keeps any WebAuthnStore.ListCredentials.
Proof. apply (safe_query_any _ _). Qed.
Lemma keeps_HasCredentials : keeps any WebAuthnStore.HasCredentials.
Proof. apply (safe_query_any _ _). Qed.
Lemma keeps_ListCredentialInfos : keeps any WebAuthnStore.ListCredentialInfos.
Proof. apply (safe_query_any _ _). Qed.

(** The map of challenges is not part of the invariant. *)
Lemma set_sessions_ok m n w : world_ok w ->
  world_ok (set_tick n (WebAuthnStore.set_sessions m w)) /\ world_step w (set_tick n (WebAuthnStore.set_sessions m w)).
Proof. intros []. split; [by split|by apply world_step_frame]. Qed.

Lemma set_tick_ok n w : world_ok w -> world_ok (set_tick n w) /\ world_step w (set_tick n w).
Proof. intros []. split; [by split|by apply world_step_frame]. Qed.

Lemma keeps_Sessions_Get tok fl : keeps any (Sessions_Get tok fl).
Proof.
  apply keeps_local. intros w Hw. unfold take_session. cbv zeta.
  destruct (WebAuthnStore.sessions w !! tok) as [e|]; [|by apply set_tick_ok].
  pose proof (set_sessions_ok (base.delete tok (WebAuthnStore.sessions w)) (S (w_tick w)) w Hw) as Hok.
  repeat (destruct (_ : bool)); exact Hok.
Qed.

Lemma keeps_Sessions_Set fl d : keeps any (Sessions_Set fl d).
Proof.
  unfold Sessions_Set, generateToken.
  apply safe_bind_any; [apply safe_bind_any; [apply keeps_sample|intros []; apply safe_any]|].
  intros [tok|e]; [|apply safe_any]. apply safe_bind_any; [|intros; apply safe_any].
  apply keeps_local. intros w Hw. by apply set_sessions_ok.
Qed.

Hint Resolve keeps_AddCredential keeps_UpdateSignCount keeps_DeleteCredential keeps_ListCredentials
  keeps_HasCredentials keeps_ListCredentialInfos keeps_Sessions_Get keeps_Sessions_Set : safe.

(** ** Signing in *)

Lemma keeps_isAuthenticated k hd : keeps any (isAuthenticated k hd).
Proof. unfold isAuthenticated. safe_auto. Qed.
Lemma keeps_setSessionCookie k : keeps any (setSessionCookie k).
Proof. unfold setSessionCookie. safe_auto. Qed.
Hint Resolve keeps_isAuthenticated keeps_setSessionCookie : safe.

Lemma keeps_send_challenge fl b : keeps any (send_challenge fl b).
Proof. unfold send_challenge. safe_auto. Qed.
Lemma keeps_admin_sign_in k msg : keeps any (AdminAuth.sign_in k msg).
Proof. unfold AdminAuth.sign_in. safe_auto. Qed.
Hint Resolve keeps_send_challenge keeps_admin_sign_in : safe.

Lemma keeps_public_admin hd r : keeps any (AdminRoutes.public_route h hd r).
Proof.
  destruct r; cbn [AdminRoutes.public_route]; try apply safe_any.
  - unfold loginPage. safe_auto.
  - unfold registerBegin, begin_registration. safe_auto.
  - unfold registerFinish. safe_auto.
  - unfold loginBegin. safe_auto.
  - unfold loginFinish, finish_login. safe_auto.
Qed.

Lemma keeps_requireAuth k hd next : keeps any next -> keeps any (requireAuth k hd next).
Proof. intros Hn. unfold requireAuth. safe_auto. Qed.

(** ** Pages and forms *)

Lemma keeps_lists :
  keeps any NodeStore.List /\ keeps any ProjectStore.List /\ keeps any TenantStore.List /\
  keeps any TenantStore.Count /\ (forall t, keeps any (WGStore.GetByTenantID t)) /\
  (forall l o t a, keeps any (AuditStore.List l o t a)) /\
  (forall t i l, keeps any (AuditStore.ListByEntity t i l)).
Proof. split_and!; intros; apply keeps_read; intros []; apply safe_any. Qed.

Lemma keeps_node_List : keeps any NodeStore.List. Proof. apply keeps_lists. Qed.
Lemma keeps_project_List : keeps any ProjectStore.List. Proof. apply keeps_lists. Qed.
Lemma keeps_tenant_List : keeps any TenantStore.List. Proof. apply keeps_lists. Qed.
Lemma keeps_tenant_Count : keeps any TenantStore.Count. Proof. apply keeps_lists. Qed.
Lemma keeps_GetByTenantID t : keeps any (WGStore.GetByTenantID t). Proof. apply keeps_lists. Qed.
Lemma keeps_audit_List l o t a : keeps any (AuditStore.List l o t a). Proof. apply keeps_lists. Qed.
Lemma keeps_audit_ListByEntity t i l : keeps any (AuditStore.ListByEntity t i l). Proof. apply keeps_lists. Qed.
Lemma keeps_admin_audit a t id d : keeps any (AdminUI.audit_log h a t id d).
Proof. unfold AdminUI.audit_log. apply keeps_audit_log. Qed.
Lemma keeps_enrichSingle t : keeps any (enrichSingle t).
Proof. unfold enrichSingle, name_of. safe_auto. Qed.
Lemma keeps_InvalidateClient id : keeps any (NodeHandler.InvalidateClient id).
Proof. apply keeps_set_clients. Qed.

Hint Resolve keeps_node_List keeps_project_List keeps_tenant_List keeps_tenant_Count keeps_GetByTenantID
  keeps_audit_List keeps_audit_ListByEntity keeps_admin_audit keeps_enrichSingle keeps_InvalidateClient : safe.

Lemma positive_field_pos s n : positive_field s = Some n -> 0 < n.
Proof. unfold positive_field. destruct (atoi s); [|done]. destruct (Z.ltb_spec 0 z); [by intros [= <-]|done]. Qed.

Lemma nonnegative_field_nonneg s n : nonnegative_field s = Some n -> 0 <= n.
Proof. unfold nonnegative_field. destruct (atoi s); [|done]. destruct (Z.ltb_spec z 0); [done|by intros [= <-]]. Qed.

Lemma keeps_createNode f : keeps any (createNode h f).
Proof.
  unfold createNode. destruct f as [r|]; [|apply safe_any]. cbv zeta.
  do 4 (match goal with |- safe _ _ any (if ?b then _ else _) => destruct b end; [apply safe_any|]).
  destruct (positive_field _) as [n|] eqn:En; [|apply safe_any]. apply positive_field_pos in En.
  apply safe_bind_any; [eauto with safe|]. intros [enc|e]; [|apply safe_any].
  apply safe_bind_any; [apply keeps_node_Create; simpl; lia|]. safe_auto.
Qed.

Lemma keeps_store_project req : create_project_ok req -> keeps any (store_project h req).
Proof. intros Hr. unfold store_project. safe_auto. Qed.

Lemma keeps_createProject f : keeps any (createProject h f).
Proof.
  unfold createProject. destruct f as [r|]; [|apply safe_any]. cbv zeta.
  destruct (_ || _); [apply safe_any|]. destruct (positive_field _); [|apply safe_any].
  destruct (if is_empty (trim_space (r "ports")) then _ else _) as [bad|ports]; [apply safe_any|].
  destruct (if is_empty (r "ram_mb") then _ else _) as [ram|] eqn:Er; [|apply safe_any].
  apply keeps_store_project. unfold create_project_ok. simpl.
  destruct (is_empty _); [by injection Er as <-|by eapply nonnegative_field_nonneg].
Qed.

Lemma keeps_updateProjectAdmin id f : keeps any (updateProjectAdmin h id f).
Proof.
  unfold updateProjectAdmin. destruct (negb _); [apply safe_any|]. destruct f as [r|]; [|apply safe_any].
  destruct (number_field positive_field _) as [tpl|]; [|apply safe_any].
  destruct (number_field nonnegative_field _) as [ram|] eqn:Er; [|apply safe_any].
  apply safe_bind_any; [apply keeps_project_Update|safe_auto].
  intros v. simpl. intros ->. unfold number_field in Er. destruct (is_empty _); [done|].
  destruct (nonnegative_field _) eqn:En; [|done]. injection Er as ->. by eapply nonnegative_field_nonneg.
Qed.

(** *** Tenants *)

Lemma keeps_get_by_form_id {A} (Q : res (option A) -> Prop) (get : string -> P (res (option A))) id :
  (forall e, Q (Fail e)) -> keeps Q (get id) -> keeps Q (AdminTenants.get_by_form_id get id).
Proof.
  intros HQ Hg. unfold AdminTenants.get_by_form_id. destruct (ValidUUID id); [done|].
  by apply keeps_bad_text.
Qed.

Lemma keeps_createTenant f : keeps any (AdminTenants.createTenant h f).
Proof.
  unfold AdminTenants.createTenant. destruct f as [r|]; [|apply safe_any]. cbv zeta.
  destruct (_ || _); [apply safe_any|]. destruct (ValidateSubdomain _); [apply safe_any|].
  apply safe_bind_any; [apply keeps_get_by_form_id; [done|eauto with safe]|].
  intros [[n|]|e]; [|apply safe_any..]. destruct (negb _); [apply safe_any|].
  apply (safe_bind _ _ ok_project); [apply keeps_get_by_form_id; [done|apply keeps_project_GetByID]|].
  intros [[proj|]|e] Hp; [|apply safe_any..].
  apply safe_bind_any; [by apply keeps_Create|]. intros []; apply safe_any.
Qed.

Lemma keeps_admin_with_tenant id k : (forall t, keeps any (k t)) -> keeps any (AdminTenants.with_tenant id k).
Proof. intros Hk. unfold AdminTenants.with_tenant. safe_auto. Qed.

Lemma keeps_with_flash id k : (forall t, keeps any (k t)) -> keeps any (AdminTenants.with_flash_tenant id k).
Proof. intros Hk. unfold AdminTenants.with_flash_tenant. safe_auto. Qed.

Lemma keeps_audit_entries id : keeps any (AdminTenants.audit_entries h id).
Proof. unfold AdminTenants.audit_entries. safe_auto. Qed.
Lemma keeps_tenant_peer t : keeps any (AdminTenants.tenant_peer h t).
Proof. unfold AdminTenants.tenant_peer. safe_auto. Qed.
Hint Resolve keeps_audit_entries keeps_tenant_peer : safe.

Lemma keeps_container_opt (t : Tenant) (op : string -> string -> Z -> P (option error)) :
  (forall a b c, keeps any (op a b c)) ->
  keeps any (match t_LXCID t with Some lxc => op (t_ID t) (t_NodeID t) lxc | None => Ret None end).
Proof. intros Hop. destruct (t_LXCID t); [apply Hop|apply safe_any]. Qed.

Lemma keeps_suspendTenant id : keeps any (AdminTenants.suspendTenant h id).
Proof.
  unfold AdminTenants.suspendTenant. destruct (negb _); [apply safe_any|]. apply keeps_with_flash. intros t.
  destruct (negb _); [apply safe_any|]. apply safe_bind_any; [eauto with safe|]. intros [e|]; [apply safe_any|].
  apply safe_bind_any; [apply keeps_container_opt, keeps_Suspend|]. safe_auto.
Qed.

Lemma keeps_resumeTenant id : keeps any (AdminTenants.resumeTenant h id).
Proof.
  unfold AdminTenants.resumeTenant. destruct (negb _); [apply safe_any|]. apply keeps_with_flash. intros t.
  destruct (negb _); [apply safe_any|]. apply safe_bind_any; [eauto with safe|]. intros [e|]; [apply safe_any|].
  apply safe_bind_any; [apply keeps_container_opt, keeps_Resume|]. safe_auto.
Qed.

Lemma keeps_createTenantPeer id : keeps any (AdminTenants.createTenantPeer h id).
Proof.
  unfold AdminTenants.createTenantPeer. destruct (negb _); [apply safe_any|].
  destruct (ad_wg h) as [s|]; [|apply safe_any]. apply keeps_with_flash. intros t.
  unfold AdminTenants.show_new_tenant_peer. safe_auto.
Qed.

(** *** Network *)

Lemma keeps_admin_with_wg k : (forall s, keeps any (k s)) -> keeps any (AdminNetwork.with_wg h k).
Proof. intros Hk. unfold AdminNetwork.with_wg. safe_auto. Qed.
Lemma keeps_admin_with_peer id k : (forall p, keeps any (k p)) -> keeps any (AdminNetwork.with_peer id k).
Proof. intros Hk. unfold AdminNetwork.with_peer. safe_auto. Qed.
Lemma keeps_peer_done a m id : keeps any (AdminNetwork.peer_done h a m id).
Proof. unfold AdminNetwork.peer_done. safe_auto. Qed.
Hint Resolve keeps_peer_done : safe.

Lemma keeps_createPeerAdmin f : keeps any (AdminNetwork.createPeerAdmin h f).
Proof. unfold AdminNetwork.createPeerAdmin, AdminNetwork.store_peer. safe_auto. Qed.

(** Past the id check and the look-ups of a handler. *)
Ltac guards :=
  repeat first
    [ match goal with |- safe _ _ any (if negb (ValidUUID _) then _ else _) => destruct (negb (ValidUUID _)); [apply safe_any|] end
    | apply keeps_admin_with_wg; intros
    | apply keeps_admin_with_peer; intros
    | apply keeps_admin_with_tenant; intros ].

Lemma keeps_protected r : keeps any (protected_route h r).
Proof.
  destruct r; cbn [protected_route]; try apply safe_any.
  - unfold AdminPages.dashboard. safe_auto.
  - unfold nodesList. safe_auto.
  - unfold nodeDetail. safe_auto.
  - unfold projectsList. safe_auto.
  - unfold projectDetail. safe_auto.
  - unfold AdminTenants.tenantsList. safe_auto.
  - unfold AdminTenants.tenantDetail. guards. safe_auto.
  - unfold AdminPages.auditPage. safe_auto.
  - unfold AdminPages.settingsPage. safe_auto.
  - apply keeps_createNode.
  - unfold updateNodeAdmin. guards. safe_auto.
  - unfold deleteNodeAdmin. safe_auto.
  - apply keeps_createProject.
  - apply keeps_updateProjectAdmin.
  - unfold deleteProjectAdmin. safe_auto.
  - apply keeps_createTenant.
  - unfold AdminTenants.deleteTenant. guards. safe_auto.
  - apply keeps_suspendTenant.
  - apply keeps_resumeTenant.
  - apply keeps_createTenantPeer.
  - unfold AdminTenants.tenantRow. safe_auto.
  - unfold AdminNetwork.networkPage. safe_auto.
  - apply keeps_createPeerAdmin.
  - unfold AdminNetwork.peerDetail. destruct (ad_wg h); [|apply safe_any]. guards. safe_auto.
  - unfold AdminNetwork.updatePeerAdmin. destruct (negb _); [apply safe_any|]. destruct form; [|apply safe_any]. guards. safe_auto.
  - unfold AdminNetwork.deletePeerAdmin. guards. safe_auto.
  - unfold AdminNetwork.enablePeerAdmin. guards. safe_auto.
  - unfold AdminNetwork.disablePeerAdmin. guards. safe_auto.
  - unfold AdminPages.deleteCredential. safe_auto.
Qed.

Lemma keeps_Routes hd r : keeps any (Routes h hd r).
Proof.
  unfold Routes, csrf. destruct (_ || _); [|apply safe_any]. destruct (public r); [apply keeps_public_admin|].
  apply keeps_requireAuth, keeps_protected.
Qed.

End Safe.
