(* ===== verification/AdminPagesSpec.v ===== *)
(** * What the tenants page shows

    The page reads four tables in four statements and joins them itself. On a
    database that answers and does not change meanwhile the join is exact. *)

From stdpp Require Import gmap strings list fin_maps.
From Stdlib Require Import ZArith Lia.
From S2P Require Import Prelude GoStrings World Response Tables TenantFSM AdminAuth AdminUI AdminNodes.
From S2P Require NodeStore ProjectStore TenantStore AdminTenants.

Open Scope Z_scope.

(** ** Names by id *)

(** The last entry of a table folded into a map, when its keys are its rows' ids. *)
Lemma lookup_names {A} (key name : A -> string) (l : list A) id v :
  (foldl (fun (m : gmap string string) x => <[key x := name x]> m) ∅ l) !! id = Some v ->
  exists x, x ∈ l /\ key x = id /\ name x = v.
Proof.
  induction l as [|x l IH] using rev_ind; cbn [foldl]; [by rewrite lookup_empty|].
  rewrite foldl_app. cbn [foldl]. rewrite lookup_insert. case_decide as Hk.
  - intros [= <-]. exists x. split_and!; [set_solver|done|done].
  - intros (y & Hy & ? & ?)%IH. exists y. split_and!; [set_solver|done|done].
Qed.

Lemma names_lookup {A} (key name : A -> string) (l : list A) x :
  x ∈ l -> is_Some ((foldl (fun (m : gmap string string) x => <[key x := name x]> m) ∅ l) !! key x).
Proof.
  induction l as [|y l IH] using rev_ind; intros Hx; [by apply elem_of_nil in Hx|].
  rewrite foldl_app. cbn [foldl]. rewrite lookup_insert. case_decide as Hk; [by eexists|].
  apply IH. set_solver.
Qed.

(** The name under an id when its rows agree on it. *)
Lemma names_agree {A} (key name : A -> string) (l : list A) id v x :
  (forall y, y ∈ l -> key y = id -> name y = v) -> x ∈ l -> key x = id ->
  (foldl (fun (m : gmap string string) y => <[key y := name y]> m) ∅ l) !! id = Some v.
Proof.
  intros Hall Hin Hk. destruct (names_lookup key name _ _ Hin) as [v' Hv]. rewrite Hk in Hv. rewrite Hv.
  apply lookup_names in Hv as (y & Hy & Hyk & <-). by rewrite (Hall _ Hy Hyk).
Qed.

(** ** The page *)

Section Page.
Context `{Env} (Hup : forall t, env_fault t = None).

Lemma run_read {A B} (f : World -> A) (k : res A -> P B) w :
  run (bind (query f) k) w = run (k (Ok (f (set_tick (S (w_tick w)) w)))) (set_tick (S (w_tick w)) w).
Proof. unfold query, stmt. by rewrite run_bind, run_atom, Hup. Qed.

Lemma node_name w id n :
  NodeStore.nodes_ok (w_nodes w) -> w_nodes w !! id = Some n ->
  nodeMap (map NodeStore.scan_node (order_desc n_CreatedAt (rows (w_nodes w)))) !! id = Some (n_Name n).
Proof.
  intros [Hok _] Hn. apply (names_agree _ _ _ _ _ (NodeStore.scan_node n)).
  - intros y Hy Hk. apply list_elem_of_In, in_map_iff in Hy as (z & <- & Hz%list_elem_of_In).
    apply elem_of_order_desc, elem_of_rows in Hz as [j Hj]. destruct (Hok _ _ Hj) as [Hjk _].
    change (n_ID z = id) in Hk. change (n_Name z = n_Name n). rewrite Hjk in Hk. subst j. rewrite Hn in Hj. by injection Hj as ->.
  - apply list_elem_of_In, in_map_iff. exists n. split; [done|]. apply list_elem_of_In, elem_of_order_desc, elem_of_rows. by exists id.
  - exact (proj1 (Hok _ _ Hn)).
Qed.

Lemma project_name w id p :
  (forall i q, w_projects w !! i = Some q -> p_ID q = i /\ 0 <= p_RAMMB q) -> w_projects w !! id = Some p ->
  projectMap (order_desc p_CreatedAt (rows (w_projects w))) !! id = Some (p_Name p).
Proof.
  intros Hok Hp. apply (names_agree _ _ _ _ _ p).
  - intros y Hy Hk. apply elem_of_order_desc, elem_of_rows in Hy as [j Hj]. destruct (Hok _ _ Hj) as [Hjk _].
    rewrite Hjk in Hk. subst j. rewrite Hp in Hj. by injection Hj as ->.
  - apply elem_of_order_desc, elem_of_rows. by exists id.
  - exact (proj1 (Hok _ _ Hp)).
Qed.

(** A limit of all rows cuts nothing off. *)
Lemma page_all {T} (f : T -> bool) (created : T -> Z) (m : gmap string T) :
  page (Z.of_nat (length (rows m))) 0 (order_desc created (select f m)) = order_desc created (select f m).
Proof.
  unfold page. rewrite drop_0. apply take_ge. rewrite length_order_desc, Nat2Z.id. unfold select.
  induction (rows m) as [|x l IH]; simpl; [lia|]. destruct (f x); simpl; lia.
Qed.

(** The row shown for a tenant: its node's and its project's name, or the start
    of the id when the name is empty. *)
Definition shown (w : World) (t : Tenant) (e : enrichedTenant) : Prop :=
  et_Tenant e = t /\
  (exists n, w_nodes w !! t_NodeID t = Some n /\ et_NodeName e = name_or_id (n_Name n) (t_NodeID t)) /\
  (exists p, w_projects w !! t_ProjectID t = Some p /\ et_ProjectName e = name_or_id (p_Name p) (t_ProjectID t)).

(** The four statements of the page, each one tick later. *)
Lemma run_tenantsList (q : string -> string) w :
  TenantStore.id_filter_ok (q "node_id") && TenantStore.id_filter_ok (q "project_id") = true ->
  let nodes := map NodeStore.scan_node (order_desc n_CreatedAt (rows (w_nodes w))) in
  let projects := order_desc p_CreatedAt (rows (w_projects w)) in
  let found := order_desc t_CreatedAt
    (select (TenantStore.tenant_where (q "status") (q "node_id") (q "project_id")) (w_tenants w)) in
  run (AdminTenants.tenantsList q) w =
    (renderPage "Tenants" "tenants" []
       (PTenants nodes projects (map (fun t => enrichTenant t (nodeMap nodes) (projectMap projects)) found)
          (q "status") (q "project_id") (q "node_id") (Z.of_nat (length (rows (w_tenants w))))),
     set_tick (4 + w_tick w) w).
Proof.
  intros Hq nodes projects found.
  unfold AdminTenants.tenantsList, NodeStore.List, ProjectStore.List, TenantStore.Count, TenantStore.ListPaginated.
  rewrite Hq, run_bind, run_read. cbn [run fst snd]. rewrite run_bind, run_read. cbn [run fst snd].
  rewrite run_bind, run_read. cbn [run fst snd]. rewrite run_bind, run_read. cbn [run fst snd].
  unfold paginated. cbn [fst w_tenants w_nodes w_projects set_tick]. rewrite page_all. done.
Qed.

(** C12. The tenants page is complete. On a database that answers and stays still,
    for filters whose ids are UUIDs or absent, the page shows every tenant of the
    table that passes the three filters, newest first, none left out although the
    query has a limit, each with the names of its own node and project; and the
    total is the size of the table. *)
Theorem tenants_page_complete (q : string -> string) (w : World) (Hok : world_ok w)
  (Hq : TenantStore.id_filter_ok (q "node_id") && TenantStore.id_filter_ok (q "project_id") = true) :
  exists nodes projects ts w', unchanged w w' /\
    run (AdminTenants.tenantsList q) w =
      (renderPage "Tenants" "tenants" []
         (PTenants nodes projects ts (q "status") (q "project_id") (q "node_id")
            (Z.of_nat (size (w_tenants w)))), w') /\
    Forall2 (shown w)
      (order_desc t_CreatedAt
         (select (TenantStore.tenant_where (q "status") (q "node_id") (q "project_id")) (w_tenants w))) ts.
Proof.
  pose proof (run_tenantsList q w Hq) as Hr. cbv zeta in Hr.
  eexists _, _, _, (set_tick (4 + w_tick w) w). split; [by destruct w|]. split.
  { rewrite Hr, rows_size. done. }
  apply Forall2_fmap_r, Forall2_same_length_lookup_2; [done|]. intros i t t' Hi Hi'.
  rewrite Hi in Hi'. injection Hi' as <-. apply list_elem_of_lookup_2, elem_of_order_desc, elem_of_select in Hi as [_ [id Ht]].
  destruct (ok_refs w Hok _ _ Ht) as [[n Hn] [p Hp]]. split; [done|].
  split; [exists n|exists p]; (split; [done|]).
  - unfold enrichTenant. cbn [et_NodeName]. by rewrite (node_name _ _ _ (ok_nodes w Hok) Hn).
  - unfold enrichTenant. cbn [et_ProjectName]. by rewrite (project_name _ _ _ (ok_projects w Hok) Hp).
Qed.

End Page.
