(* ===== verification/AdminSpec.v ===== *)
(** * Who gets into the administration interface

    The session cookie, signing in, registering a passkey, and what stays out
    of reach without either. *)

From stdpp Require Import gmap strings list fin_maps relations.
From Stdlib Require Import Ascii ZArith Lia.
From S2P Require Import Prelude GoStrings GoTime World Response Tables GoJson GoJsonText GoJsonPrint Crypto WebAuthnStore.
From S2P Require Import WGService Lifecycle AdminAuth AdminUI AdminRoutes.
From S2P Require AdminPages WGSpec.

Open Scope Z_scope.

(** ** The text of a session *)

(** A character that stands for itself between quotes. *)
Definition plain (c : ascii) : bool :=
  negb (Ascii.eqb c "034") && negb (Ascii.eqb c "\") && (32 <=? byte_of c).

Lemma escape_plain l : Forall (fun c => plain c = true) l -> concat (map escape l) = l.
Proof.
  induction 1 as [|c l Hc _ IH]; [done|]. cbn [map concat]. rewrite IH. unfold plain in Hc.
  rewrite !andb_true_iff, !negb_true_iff in Hc. destruct Hc as ((E1 & E2) & Hb%Z.leb_le).
  unfold escape. rewrite E1, E2. destruct (Z.ltb_spec (byte_of c) 32); [lia|done].
Qed.

Lemma quote_print s : Forall (fun c => plain c = true) (to_chars s) -> to_chars (quote s) = print_string s.
Proof.
  intros Hs. unfold quote, print_string. rewrite (escape_plain _ Hs).
  change (to_chars (String "034" ?t)) with ("034"%char :: to_chars t). by rewrite to_chars_app.
Qed.

(** What [json.Unmarshal] makes of what [json.Marshal] wrote. *)
Lemma ParseJSON_session exp :
  Forall (fun c => plain c = true) (to_chars exp) ->
  ParseJSON ("{" +:+ quote "uid" +:+ ":" +:+ quote "admin" +:+ "," +:+ quote "exp" +:+ ":" +:+ quote exp +:+ "}") =
  Some (JObject [("uid", JString "admin"); ("exp", JString exp)]).
Proof.
  intros Hp. rewrite <- (ParseJSON_print (JObject [("uid", JString "admin"); ("exp", JString exp)])) by done.
  f_equal. unfold print_json. rewrite <- (of_to_chars ("{" +:+ _)). f_equal.
  rewrite !to_chars_app, !quote_print by first [done|repeat constructor]. cbn [print map join fst snd].
  rewrite <- !app_assoc. done.
Qed.

Lemma digit_plain n : 0 <= n < 10 -> plain (digit n) = true.
Proof. exact (each_digit (fun n => plain (digit n)) n eq_refl). Qed.

Lemma pad2_plain n s :
  0 <= n < 100 -> Forall (fun c => plain c = true) (String.list_ascii_of_string s) ->
  Forall (fun c => plain c = true) (String.list_ascii_of_string (pad2 n s)).
Proof.
  intros Hn Hs. unfold pad2. cbn [String.list_ascii_of_string].
  repeat (apply Forall_cons; split); [apply digit_plain; Z.to_euclidean_division_equations; lia..|done].
Qed.

Lemma FormatRFC3339_plain t s :
  FormatRFC3339 t = Some s -> Forall (fun c => plain c = true) (String.list_ascii_of_string s).
Proof.
  unfold FormatRFC3339. destruct (date_of_days _) as [[y m] d] eqn:Ed.
  destruct (date_of_days_spec _ _ _ _ Ed) as (Hm & Hd & Hd31 & _).
  destruct (Z.ltb_spec y 0); [done|]. destruct (Z.ltb_spec 9999 y); [done|]. intros [= <-].
  pose proof (Z.mod_pos_bound t 86400). set (r := t mod 86400) in *. clearbody r.
  unfold pad4. repeat first
    [ apply pad2_plain; [Z.to_euclidean_division_equations; lia|]
    | cbn [String.list_ascii_of_string]; apply Forall_cons; split; [done|]
    | by repeat constructor ].
Qed.

(** A session read back is the session that was written. *)
Lemma unmarshal_marshal now data :
  marshal_session (mkSession "admin" (10 ^ 9 * now)) = Some data ->
  unmarshal_session data = Some (mkSession "admin" (10 ^ 9 * now)).
Proof.
  unfold marshal_session. cbn [sp_ExpiresAt sp_UserID]. rewrite Z.mul_comm, Z.div_mul by lia.
  destruct (FormatRFC3339 now) as [exp|] eqn:Ef; [|done]. intros [= <-].
  unfold unmarshal_session, Unmarshal. rewrite ParseJSON_session by by eapply FormatRFC3339_plain.
  pose proof (ParseRFC3339_Format _ _ Ef) as Hp.
  change (d_struct session_fields zero_session _) with
    (option_map (fun v => mkSession "admin" v) (d_time (sp_ExpiresAt zero_session) (JString exp))).
  cbn [d_time]. rewrite Hp. cbn [option_map]. by rewrite Z.mul_comm.
Qed.

(** ** The session cookie *)

Section Cookie.
Context `{Env} (key : string).

(** The cookie of a request is accepted at this time: by the guard of the pages,
    and, a little more strictly, by the sign-in endpoints. *)
Definition session_valid (hd : AdminHeaders) (now : Z) : bool :=
  match read_session key (ah_Session hd) with
  | Some sess => negb (is_empty (ah_Session hd)) && (10 ^ 9 * now <=? sp_ExpiresAt sess)
  | None => false
  end.

Lemma run_requireAuth hd next w :
  session_valid hd (env_now (w_tick w)) = true ->
  run (requireAuth key hd next) w = run next (set_tick (S (w_tick w)) w).
Proof.
  unfold session_valid, requireAuth. destruct (read_session _ _) as [sess|]; [|done].
  intros [He%negb_true_iff Ht%Z.leb_le]%andb_true_iff. rewrite He, run_bind. unfold sample. rewrite run_atom. cbn [fst snd].
  by destruct (Z.ltb_spec (sp_ExpiresAt sess) (10 ^ 9 * env_now (w_tick w))); [lia|].
Qed.

(** The refusals: to the login page, with the cookie cleared or not. *)
Definition to_login (r : HTTPResponse) : Prop :=
  r = redirect loginURL [] \/ r = redirect loginURL [clearSessionCookie].

Lemma wp_requireAuth_refused hd next Q w :
  session_valid hd (env_now (w_tick w)) = false ->
  (forall r w', unchanged w w' -> to_login r -> Q r w') -> wp (requireAuth key hd next) Q w.
Proof.
  unfold session_valid, requireAuth. intros Hv HQ.
  destruct (is_empty (ah_Session hd)) eqn:Ee; [apply wp_ret, HQ; [done|by left]|].
  destruct (read_session _ _) as [sess|] eqn:Er; [|apply wp_ret, HQ; [done|by right]].
  apply wp_bind, wp_sample. intros w1 H1. destruct (Z.ltb_spec (sp_ExpiresAt sess) (10 ^ 9 * env_now (w_tick w))).
  - apply wp_ret, HQ; [done|by right].
  - apply andb_false_iff in Hv as [Hv|Hv]; [done|]. apply Z.leb_gt in Hv. lia.
Qed.

(** What [setSessionCookie] makes: a cookie of eight hours around the encrypted
    session. *)
Lemma wp_setSessionCookie (Laws : CryptoLaws) Q w :
  (forall e w', unchanged w w' -> Q (Fail e) w') ->
  (forall v w', unchanged w w' -> v <> EmptyString ->
     read_session key v = Some (mkSession "admin" (10 ^ 9 * (env_now (w_tick w) + sessionMaxAge))) ->
     Q (Ok (session_cookie v sessionMaxAge)) w') ->
  wp (setSessionCookie key) Q w.
Proof.
  intros HF HO. unfold setSessionCookie. apply wp_bind, wp_sample. intros w1 H1.
  set (exp := env_now (w_tick w) + sessionMaxAge).
  destruct (marshal_session _) as [data|] eqn:Em; [|by apply wp_ret, HF].
  apply wp_bind, wp_Encrypt_raw.
  - intros e w2 H2. apply wp_ret, HF. by etrans.
  - intros k nonce w2 H2 Hk Hr. apply wp_ret, HO; [by etrans| |].
    + pose proof (rand_length _ _ _ Hr) as Hlen. by destruct nonce.
    + unfold read_session. rewrite (Decrypt_sealed Laws k) by (done || by eapply rand_length).
      by apply unmarshal_marshal.
Qed.

(** C30. A session lasts eight hours. The cookie [setSessionCookie] makes at some
    time goes to /admin only, over HTTPS only, unreadable to scripts, and for
    8 hours; sent back at any later point it opens the pages until 8 hours after
    it was made, to the second, and is then refused with a redirect to the login
    page that clears it, without running the page. *)
Theorem session_lifetime (Laws : CryptoLaws) (w : World) (c : Cookie) (hd : AdminHeaders)
  (next : P HTTPResponse) (later : World)
  (Hset : (run (setSessionCookie key) w).1 = Ok c) (Hhd : ah_Session hd = ck_Value c) :
  let expiry := env_now (w_tick w) + 8 * 3600 in
  c = mkCookie "admin_session" (ck_Value c) "/admin" true true true (8 * 3600) /\
  run (requireAuth key hd next) later =
    (if env_now (w_tick later) <=? expiry then run next (set_tick (S (w_tick later)) later)
     else (redirect "/admin/login" [clearSessionCookie], set_tick (S (w_tick later)) later)).
Proof.
  intros expiry.
  assert (ck_Value c <> EmptyString /\ c = session_cookie (ck_Value c) sessionMaxAge /\
    read_session key (ck_Value c) = Some (mkSession "admin" (10 ^ 9 * expiry))) as (Hne & Hc & Hr).
  { revert Hset. apply (wp_setSessionCookie Laws (fun r _ => r = Ok c -> _)); [done|].
    intros v w' _ Hv Hr [= <-]. done. }
  split; [done|]. unfold requireAuth. rewrite Hhd, Hr. apply is_empty_false in Hne. rewrite Hne, run_bind.
  unfold sample. rewrite run_atom. cbn [fst snd sp_ExpiresAt].
  destruct (Z.leb_spec (env_now (w_tick later)) expiry), (Z.ltb_spec (10 ^ 9 * expiry) (10 ^ 9 * env_now (w_tick later)));
    [lia|done|done|lia].
Qed.

End Cookie.

(** ** The pages *)

Section Access.
Context `{Env} `{ProvisionerOps} `{WgLib} `{WebAuthnLib} `{Nosurf} (h : Handler).

(** C29. The administration pages need a session. A request to any route but the
    sign-in ones whose cookie does not decrypt to a session that has not expired
    is redirected to the login page (or refused by the CSRF check) and changes
    nothing; one whose cookie does is run, and then only if it is a GET or
    carries the CSRF token. *)
Theorem admin_access (hd : AdminHeaders) (r : AdminRequest) (w : World) (Hr : public r = false) :
  if session_valid (ad_encryptionKey h) hd (env_now (w_tick w)) && (safe_method r || ah_CSRF hd) then
    run (Routes h hd r) w = run (protected_route h r) (set_tick (S (w_tick w)) w)
  else
    wp (Routes h hd r) (fun resp w' => unchanged w w' /\ (to_login resp \/ resp = nosurf_failure)) w.
Proof.
  assert (csrf_exempt r = false) as Hex by by destruct r. unfold Routes, csrf. rewrite Hex, Hr, orb_false_r.
  destruct (safe_method r || ah_CSRF hd); [|rewrite andb_false_r; apply wp_ret; split; [done|by right]].
  rewrite andb_true_r. destruct (session_valid _ _ _) eqn:Ev; [by apply run_requireAuth|].
  apply wp_requireAuth_refused; auto.
Qed.

End Access.

(** ** Signing in *)

Section SignIn.
Context `{Env} `{L : WebAuthnLib} (key : string).

(** No cookie unless the sign-in succeeded. *)
Lemma wp_admin_sign_in msg Q w :
  (forall r w', unchanged w w' -> Q r w') -> wp (sign_in key msg) Q w.
Proof.
  intros HQ. unfold sign_in. apply wp_bind. unfold setSessionCookie. apply wp_bind, wp_sample. intros w1 H1.
  destruct (marshal_session _); [|by apply wp_ret, wp_ret, HQ].
  apply wp_bind, wp_Encrypt_raw; intros; apply wp_ret, wp_ret, HQ; by etrans.
Qed.

Definition pending (flow token : string) (d : SessionData) (w : World) : Prop :=
  exists e, sessions w !! token = Some e /\ se_flowType e = flow /\ se_data e = d /\
    env_now (w_tick w) <= sd_Expires d.

(** [Get]: whatever it answers, the token is used up. *)
Lemma wp_Sessions_Get token flow Q w :
  (forall d w', sessions w' = base.delete token (sessions w) -> credentials w' = credentials w ->
     (forall d', d = Some d' -> pending flow token d' w) -> Q d w') ->
  wp (Sessions_Get token flow) Q w.
Proof.
  intros HQ. apply wp_atom. unfold take_session. cbv zeta.
  destruct (sessions w !! token) as [e|] eqn:Ee.
  - destruct (String.eqb_spec (se_flowType e) flow) as [Hf|]; cbn [negb]; [|by apply HQ].
    unfold expired. destruct (Z.ltb_spec (sd_Expires (se_data e)) (env_now (w_tick w))) as [|Hx]; [by apply HQ|].
    apply HQ; [done..|]. intros d' [= <-]. by exists e.
  - apply HQ; [|done..]. change (sessions w = base.delete token (sessions w)). by rewrite delete_id.
Qed.

Lemma unchanged_keys w w' : unchanged w w' -> w_keys w' = w_keys w.
Proof. by intros [(_&_&_&_&_&_&_&_&?) _]. Qed.

Lemma unchanged_sessions w w' : unchanged w w' -> sessions w' = sessions w.
Proof. unfold sessions. by intros ->%unchanged_keys. Qed.

Lemma wp_finish_login (Laws : WebAuthnLaws L) session body Q w :
  (forall e w', unchanged w w' -> Q (Fail e) w') ->
  (forall c t u id r w', unchanged w w' -> wa_verify_login t u session body = Ok c ->
     credentials w !! id = Some r -> wc_ID (cd_Credential r) = wc_ID c -> Q (Ok c) w') ->
  wp (finish_login key session body) Q w.
Proof.
  intros HF HO. unfold finish_login. apply wp_bind, wp_sample. intros w1 H1.
  destruct (wa_parse_login _ _ _) as [p|e]; [|by apply wp_ret, HF].
  apply wp_bind, wp_query; [intros e w2 H2 _; apply wp_ret, HF; by etrans|]. intros w2 H2 _.
  apply wp_sample. intros w3 H3. assert (unchanged w w3) as H03 by (etrans; [by etrans|done]).
  destruct (wa_verify_login _ _ _ _) as [c|e] eqn:Ev; [|by apply HF].
  destruct (law_verify_login _ _ _ _ _ Ev) as (c0 & Hc0 & Hid).
  assert (credentials w2 = credentials w) as Ec.
  { unfold credentials. by rewrite (unchanged_keys _ _ (transitivity H1 H2)). }
  cbn [NewAdminUser aw_credentials] in Hc0. rewrite Ec in Hc0.
  apply list_elem_of_fmap in Hc0 as (r & -> & Hr).
  unfold oldest_first in Hr. apply elem_of_order_desc, elem_of_rows in Hr as (id & Hr).
  by eapply HO.
Qed.

(** C28. Signing in is sound. [loginFinish] sets a cookie only for a request whose
    session token names a login challenge that this server issued, that has not
    expired and has not been used, and whose body the WebAuthn library verified
    against that challenge with a passkey stored for the administrator. Whatever
    the answer, the challenge is used up: a second request with the same token
    cannot sign in. *)
Theorem loginFinish_sound (Laws : WebAuthnLaws L) (hd : AdminHeaders) (w : World)
  (Htok : ah_SessionToken hd <> EmptyString) :
  wp (loginFinish key hd) (fun resp w' =>
    sessions w' = base.delete (ah_SessionToken hd) (sessions w) /\
    (r_Cookies resp <> [] -> exists session t u c id r,
       pending "login" (ah_SessionToken hd) session w /\
       wa_verify_login t u session (ah_Body hd) = Ok c /\
       credentials w !! id = Some r /\ wc_ID (cd_Credential r) = wc_ID c)) w.
Proof.
  unfold loginFinish. apply is_empty_false in Htok. rewrite Htok.
  apply wp_bind, wp_Sessions_Get. intros d w1 Hs Hc Hd. destruct d as [session|]; [|by apply wp_ret].
  specialize (Hd _ eq_refl). apply wp_bind, (wp_finish_login Laws).
  - intros e w2 H2. apply wp_ret. split; [|done]. rewrite <- Hs. by apply unchanged_sessions.
  - intros c t u id r w2 H2 Hv Hr Hid. apply wp_bind. unfold UpdateSignCount.
    assert (sessions w2 = sessions w1) as Hs2 by by by apply unchanged_sessions.
    assert (forall w3, sessions w3 = sessions w2 -> wp (sign_in key "authenticated but failed to create session")
      (fun resp w' => sessions w' = base.delete (ah_SessionToken hd) (sessions w) /\
        (r_Cookies resp <> [] -> exists session t u c id r,
          pending "login" (ah_SessionToken hd) session w /\ wa_verify_login t u session (ah_Body hd) = Ok c /\
          credentials w !! id = Some r /\ wc_ID (cd_Credential r) = wc_ID c)) w3) as Hfin.
    { intros w3 H3. apply wp_admin_sign_in. intros resp w4 E4%unchanged_sessions. split.
      - congruence.
      - intros _. exists session, t, u, c, id, r. by rewrite <- Hc. }
    destruct (negb _); [apply wp_ret; by apply Hfin|].
    apply wp_bind, wp_stmt; intros; apply wp_ret; by apply Hfin.
Qed.

End SignIn.

(** ** Outsiders *)

Section Outsiders.
Context `{Env} `{ProvisionerOps} `{WgLib} `{WebAuthnLib} `{Nosurf} (h : Handler).

(** A request that carries neither a session accepted at any time of the clock,
    nor the setup token, nor an assertion that the WebAuthn library verifies. *)
Record outsider (hd : AdminHeaders) : Prop := {
  od_session : forall n, session_valid (ad_encryptionKey h) hd (env_now n) = false;
  od_setup : ad_setupToken h = EmptyString \/ ah_SetupToken hd <> ad_setupToken h;
  od_passkey : forall t u d c, wa_verify_login t u d (ah_Body hd) <> Ok c }.

(** Every table and every passkey as it was, and no registration under way. *)
Definition untouched (w0 w : World) : Prop :=
  w_tenants w = w_tenants w0 /\ w_nodes w = w_nodes w0 /\ w_projects w = w_projects w0 /\
  w_audit w = w_audit w0 /\ w_auth w = w_auth w0 /\ w_peers w = w_peers w0 /\ w_radio w = w_radio w0 /\
  w_clients w = w_clients w0 /\ w_jobs w = w_jobs w0 /\ credentials w = credentials w0 /\
  (forall tok e, sessions w !! tok = Some e -> se_flowType e <> "register").

(** A response that gives its client no session: a session cookie is at most
    cleared. *)
Definition no_session (r : HTTPResponse) : Prop :=
  forall c, c ∈ r_Cookies r -> ck_Name c = sessionCookieName -> ck_Value c = EmptyString.

Lemma no_cookies r : r_Cookies r = [] -> no_session r.
Proof. intros E c. rewrite E. by intros ?%elem_of_nil. Qed.

Lemma cleared_cookie url : no_session (redirect url [clearSessionCookie]).
Proof. intros c Hc. cbn [redirect r_Cookies] in Hc. apply list_elem_of_singleton in Hc as ->. done. Qed.

Definition anyG (_ _ : World) : Prop := True.

Context (w0 : World).
Local Abbreviation shut Q p := (safe (untouched w0) anyG Q p).

#[local] Instance untouched_quiet : Quiet (untouched w0) anyG.
Proof. by split. Qed.

Lemma untouched_keys k n w :
  untouched w0 w -> pk_credentials k = credentials w ->
  (forall tok e, pk_sessions k !! tok = Some e -> se_flowType e <> "register") ->
  untouched w0 (set_tick n (set_keys k w)).
Proof. intros (?&?&?&?&?&?&?&?&?&Hc&_) Hk Hs. split_and!; try done. by etrans. Qed.

Lemma shut_plain r : r_Cookies r = [] -> shut no_session (Ret r).
Proof. intros. by apply safe_ret, no_cookies. Qed.

Lemma shut_isAuthenticated hd : outsider hd -> shut (fun b => b = false) (isAuthenticated (ad_encryptionKey h) hd).
Proof.
  intros [Hv _ _]. unfold isAuthenticated. destruct (is_empty _) eqn:Ee; [done|].
  destruct (read_session _ _) as [sess|] eqn:Er; [|done].
  apply (safe_bind _ _ (fun now => exists n, now = env_now n)).
  - apply safe_atom. intros w Hw. split_and!; [by apply (quiet_tick (I := untouched w0))|done|by eexists].
  - intros now [n ->]. apply safe_ret. specialize (Hv n). unfold session_valid in Hv. rewrite Er, Ee in Hv.
    cbn [negb andb] in Hv. apply Z.leb_gt in Hv. apply Z.ltb_ge. lia.
Qed.

Lemma shut_send_challenge b : shut no_session (send_challenge "login" b).
Proof.
  apply (safe_bind _ _ any); [by apply safe_sample|]. intros now _. apply (safe_bind _ _ any); [|intros [] _; by apply shut_plain].
  unfold Sessions_Set, generateToken. apply safe_bind_any; [apply safe_bind_any; [by apply safe_sample|intros []; apply safe_any]|].
  intros [tok|e]; [|apply safe_any]. apply safe_bind_any; [|intros; apply safe_any].
  apply safe_atom. intros w Hw. split_and!; [|done..]. unfold put_session. apply untouched_keys; [done..|].
  cbn [pk_sessions]. intros t e. rewrite lookup_insert. case_decide; [by intros [= <-]|].
  intros [He _]%map_lookup_filter_Some. destruct Hw as (_&_&_&_&_&_&_&_&_&_&Hs). by eapply Hs.
Qed.

(** A challenge taken leaves the rest; there is none of a registration. *)
Lemma shut_Sessions_Get tok flow :
  shut (fun d => flow = "register" -> d = None) (Sessions_Get tok flow).
Proof.
  apply safe_atom. intros w Hw. destruct Hw as (?&?&?&?&?&?&?&?&?&?&Hs).
  assert (untouched w0 w) as Hw by by repeat split. unfold take_session. cbv zeta.
  destruct (sessions w !! tok) as [e|] eqn:Ee; [|by split_and!].
  assert (untouched w0 (set_sessions (base.delete tok (sessions w)) (set_tick (S (w_tick w)) w))) as Hw2.
  { apply (untouched_keys _ (S (w_tick w)) w Hw); [done|]. cbn [pk_sessions]. intros t e' [_ He]%lookup_delete_Some. by eapply Hs. }
  destruct (String.eqb_spec (se_flowType e) flow) as [Hf|]; cbn [negb]; [|by split_and!].
  destruct (expired _ _); (split_and!; [exact Hw2|done|]); intros Hr; [done|]. destruct (Hs _ _ Ee). congruence.
Qed.

Lemma shut_finish_login hd session :
  outsider hd -> shut (fun r => forall c, r <> Ok c) (finish_login (ad_encryptionKey h) session (ah_Body hd)).
Proof.
  intros [_ _ Hp]. unfold finish_login. apply (safe_bind _ _ any); [by apply safe_sample|]. intros [p|e] _; [|done].
  apply (safe_bind _ _ any); [by apply safe_query_any|]. intros [l|e] _; [|done].
  apply safe_atom. intros w Hw. split_and!; [by apply (quiet_tick (I := untouched w0))|done|]. intros c. apply Hp.
Qed.

Lemma shut_public_route hd r : outsider hd -> public r = true -> shut no_session (public_route h hd r).
Proof.
  intros Ho Ep. destruct r; try done; cbn [public_route].
  - unfold loginPage. apply (safe_bind _ _ (fun b => b = false)); [by apply shut_isAuthenticated|]. intros ? ->.
    apply (safe_bind _ _ any); [by apply safe_query_any|]. intros [] _; by apply shut_plain.
  - apply safe_ret, cleared_cookie.
  - unfold registerBegin. apply (safe_bind _ _ any); [by apply safe_query_any|]. intros [has|e] _; [|by apply shut_plain].
    destruct has.
    + apply (safe_bind _ _ (fun f => f = true)); [|intros ? ->; by apply shut_plain].
      apply (safe_bind _ _ (fun b => b = false)); [by apply shut_isAuthenticated|intros ? ->; done].
    + apply (safe_bind _ _ (fun f => f = false)); [by apply safe_ret|]. intros ? ->. unfold setup_allowed.
      destruct (is_empty (ad_setupToken h)) eqn:Ee; [by apply shut_plain|].
      destruct (String.eqb_spec (ah_SetupToken hd) (ad_setupToken h)) as [Heq|]; [|by apply shut_plain].
      destruct (od_setup hd Ho) as [Hset|Hset]; [by rewrite Hset in Ee|done].
  - unfold registerFinish. apply (safe_bind _ _ any); [by apply safe_query_any|]. intros [has|e] _; [|by apply shut_plain].
    apply (safe_bind _ _ any).
    { destruct has; [|apply safe_any]. apply safe_bind_any; [|intros; apply safe_any].
      eapply safe_mono; [by apply shut_isAuthenticated|done]. }
    intros [|] _; [by apply shut_plain|]. destruct (is_empty _); [by apply shut_plain|].
    eapply safe_bind; [apply shut_Sessions_Get|]. intros d Hd. rewrite (Hd eq_refl). by apply shut_plain.
  - unfold loginBegin. apply (safe_bind _ _ any); [by apply safe_sample|].
    intros [] _; [apply shut_send_challenge|by apply shut_plain].
  - unfold loginFinish. destruct (is_empty _); [by apply shut_plain|].
    apply (safe_bind _ _ any); [eapply safe_mono; [apply shut_Sessions_Get|done]|]. intros [d|] _; [|by apply shut_plain].
    eapply safe_bind; [by apply shut_finish_login|]. intros [c|e] Hc; [by destruct (Hc c)|by apply shut_plain].
Qed.

(** A look at the table, then a refusal either way. *)
Lemma shut_Routes hd r : outsider hd -> no_session nosurf_failure -> shut no_session (Routes h hd r).
Proof.
  intros Ho Hn. unfold Routes, csrf. destruct (_ || _); [|by apply safe_ret].
  destruct (public r) eqn:Ep; [by apply shut_public_route|]. unfold requireAuth.
  destruct (is_empty _) eqn:Ee; [by apply shut_plain|].
  destruct (read_session _ _) as [sess|] eqn:Er; [|apply safe_ret, cleared_cookie].
  apply (safe_bind _ _ (fun now => exists n, now = env_now n)).
  - apply safe_atom. intros w Hw. split_and!; [by apply (quiet_tick (I := untouched w0))|done|by eexists].
  - intros now [n ->]. pose proof (od_session hd Ho n) as Hv. unfold session_valid in Hv. rewrite Er, Ee in Hv.
    cbn [negb andb] in Hv. apply Z.leb_gt in Hv.
    destruct (Z.ltb_spec (sp_ExpiresAt sess) (10 ^ 9 * env_now n)); [apply safe_ret, cleared_cookie|lia].
Qed.

End Outsiders.

(** A request under /admin as a thread over the world and the responses sent so
    far; no goroutine is started beside them. *)
Definition admin_thread `{Env} `{ProvisionerOps} `{WgLib} `{WebAuthnLib} `{Nosurf} (h : Handler)
    (r : AdminHeaders * AdminRequest) : Prog (World * list HTTPResponse) unit :=
  let! resp := on_fst (Routes h r.1 r.2) in atom (fun s => (tt, (s.1, s.2 ++ [resp]))).

Definition nothing_else {W A} (_ : W) (_ : A) (_ : W) : Prop := False.

Lemma safe_on_fst {V W A} (I : V -> Prop) (J : W -> Prop) (Q : A -> Prop) (p : Prog V A) :
  safe I (fun _ _ => True) Q p ->
  safe (fun s : V * W => I s.1 /\ J s.2) (fun _ _ => True) Q (on_fst p).
Proof.
  induction p as [a|B op k IH]; simpl; [done|]. intros Hp [v w] [Hv Hw]. simpl in *.
  destruct (Hp v Hv) as (?&_&?). auto.
Qed.

(** C27. An outsider cannot get in. Whatever requests are sent under /admin, in
    whatever number and interleaving, by clients that have no session cookie
    the server accepts, no setup token and no passkey (the WebAuthn library
    verifies no assertion of theirs), while no registration of somebody else is
    pending: no table of the control plane changes, no passkey is added, removed
    or altered, no registration is begun, and no response sets a session cookie
    (one may be cleared). What nosurf answers to a request without its token is
    taken to set none either. *)
Theorem outsiders_stay_out `{Env} `{ProvisionerOps} `{WgLib} `{WebAuthnLib} `{Nosurf} (h : Handler)
  (rs : list (AdminHeaders * AdminRequest)) (w w' : World) (sent : list HTTPResponse)
  (ts : list (Prog (World * list HTTPResponse) unit))
  (Hrs : Forall (fun r => outsider h r.1) rs) (Hnosurf : no_session nosurf_failure)
  (Hnone : forall tok e, sessions w !! tok = Some e -> se_flowType e <> "register")
  (Hreach : rtc (pool_step nothing_else) (map (admin_thread h) rs, (w, [])) (ts, (w', sent))) :
  untouched w w' /\ Forall no_session sent.
Proof.
  destruct (safe_pool nothing_else (fun s => untouched w s.1 /\ Forall no_session s.2) (fun _ _ => True) _ _
    (fun _ _ _ F => match F with end) Hreach) as [Hw _]; [by split; [split_and!|]| |done].
  apply Forall_map. eapply Forall_impl; [done|]. intros r Hr. unfold compose, admin_thread.
  apply (safe_bind _ _ no_session); [apply safe_on_fst; by apply shut_Routes|].
  intros resp Hresp. apply safe_atom. intros [w1 l] [Hw1 Hl]. split_and!; [done| |done..].
  simpl. apply Forall_app. split; [done|by constructor].
Qed.

(** ** The last passkey *)

Section LastPasskey.
Context `{Env}.

Definition delete_thread (id : string) : P unit := let! _resp := AdminPages.deleteCredential id in Ret tt.

(** The deletion alone: it happens only when two passkeys are there. *)
Lemma wp_deleteCredential id Q w :
  (forall r w', unchanged w w' -> Q r w') ->
  (forall w1 w2 r, unchanged w w1 -> 1 < Z.of_nat (length (rows (credentials w))) ->
     unchanged (set_credentials (base.delete id (credentials w1)) w1) w2 -> Q r w2) ->
  wp (AdminPages.deleteCredential id) Q w.
Proof.
  intros HF HO. unfold AdminPages.deleteCredential. destruct (negb _); [by apply wp_ret, HF|].
  apply wp_bind, wp_query; [intros e w1 H1 _; by apply wp_ret, HF|]. intros w1 H1 _.
  unfold oldest_first. rewrite length_map, length_order_desc. unfold credentials at 1. rewrite (unchanged_keys _ _ H1).
  destruct (Z.leb_spec (Z.of_nat (length (rows (pk_credentials (w_keys w))))) 1) as [|Hl]; [by apply wp_ret, HF|].
  apply wp_bind, wp_bind, wp_stmt.
  - intros e _. apply wp_ret, wp_ret, HF. by etrans.
  - intros _. apply wp_ret, wp_ret.
    eapply (HO (set_tick (S (w_tick w1)) w1)); [by etrans|done|done].
Qed.

(** A deletion after it has counted the passkeys. *)
Definition delete_rest (id : string) (r : res (list CredentialInfo)) : P unit :=
  let! _resp := (let? creds := Ret r catch e => Ret (renderFlash "Failed to check credentials") in
    if Z.of_nat (length creds) <=? 1 then Ret (renderFlash "Cannot delete the last credential") else
    if_err e := WebAuthnStore.DeleteCredential id then Ret (renderFlash "Failed to delete credential") else
    Ret (hx_redirect [] "/admin/settings")) in Ret tt.

Lemma delete_thread_split id : ValidUUID id = true -> delete_thread id = bind ListCredentialInfos (delete_rest id).
Proof. intros Hv. unfold delete_thread, AdminPages.deleteCredential. by rewrite Hv. Qed.

Section Up.
Context (Hup : forall t, env_fault t = None).

Lemma run_ListCredentialInfos w :
  run ListCredentialInfos w =
  (Ok (map credential_info (oldest_first (rows (credentials w)))), set_tick (S (w_tick w)) w).
Proof. unfold ListCredentialInfos, query, stmt. by rewrite run_atom, Hup. Qed.

Lemma run_delete_rest id w v :
  1 < Z.of_nat (size (credentials w)) ->
  run (delete_rest id (run ListCredentialInfos w).1) v =
  (tt, set_credentials (base.delete id (credentials v)) (set_tick (S (w_tick v)) v)).
Proof.
  intros Hs. rewrite run_ListCredentialInfos. cbn [fst]. unfold delete_rest. rewrite !run_bind. cbn [run].
  unfold oldest_first. rewrite length_map, length_order_desc, rows_size.
  destruct (Z.leb_spec (Z.of_nat (size (credentials w))) 1); [lia|]. unfold WebAuthnStore.DeleteCredential, stmt.
  rewrite !run_bind, run_atom, Hup. done.
Qed.

(** Both count, then both delete. *)
Lemma both_delete id1 id2 w :
  ValidUUID id1 = true -> ValidUUID id2 = true -> 1 < Z.of_nat (size (credentials w)) ->
  exists w', rtc (pool_step nothing_else) ([delete_thread id1; delete_thread id2], w) ([], w') /\
    credentials w' = base.delete id2 (base.delete id1 (credentials w)).
Proof.
  intros Hv1 Hv2 Hs. rewrite !delete_thread_split by done.
  set (w1 := (run ListCredentialInfos w).2). set (w2 := (run ListCredentialInfos w1).2).
  assert (w1 = set_tick (S (w_tick w)) w) as E1 by by unfold w1; rewrite run_ListCredentialInfos.
  assert (w2 = set_tick (S (w_tick w1)) w1) as E2 by by unfold w2; rewrite run_ListCredentialInfos.
  destruct (run (delete_rest id1 (run ListCredentialInfos w).1) w2) as [u w3] eqn:E3.
  exists (run (delete_rest id2 (run ListCredentialInfos w1).1) w3).2. split.
  - etrans; [apply (pool_bind nothing_else ListCredentialInfos (delete_rest id1) [] [_])|].
    etrans; [apply (pool_bind nothing_else ListCredentialInfos (delete_rest id2) [_] [])|].
    cbn [app]. etrans; [apply pool_run|]. fold w1 w2. rewrite E3. apply pool_run.
  - rewrite run_delete_rest in E3 by done. injection E3 as _ <-.
    rewrite run_delete_rest by by rewrite E1. cbn [snd].
    change (base.delete id2 (base.delete id1 (credentials w2)) = base.delete id2 (base.delete id1 (credentials w))).
    by rewrite E2, E1.
Qed.

End Up.

(** The guard of the last passkey is not atomic. On its own, deleting a
    passkey never empties the table, which would let the holder of the setup
    token register again. But when two passkeys are left and two requests delete
    one each, the second may count before the first deletes: both pass the guard
    and no passkey is left. *)
Theorem last_passkey_race (id1 id2 : string) (w : World)
  (Hup : forall t, env_fault t = None) (Hv1 : ValidUUID id1 = true) (Hv2 : ValidUUID id2 = true)
  (Hne : id1 <> id2) (Htwo : dom (credentials w) = {[id1; id2]}) :
  (forall id, wp (AdminPages.deleteCredential id) (fun _ w' => credentials w' <> ∅) w) /\
  exists w', rtc (pool_step nothing_else) ([delete_thread id1; delete_thread id2], w) ([], w') /\
    credentials w' = ∅.
Proof.
  assert (size (credentials w) = 2%nat) as Hsize.
  { rewrite <- size_dom, Htwo, size_union, !size_singleton by set_solver. done. }
  split.
  - intros id. apply wp_deleteCredential.
    + intros _ w' Hu He. unfold credentials in *. rewrite (unchanged_keys _ _ Hu) in He. by rewrite He in Hsize.
    + intros w1 w2 _ H1 _ H2 He. unfold credentials in He. rewrite (unchanged_keys _ _ H2) in He.
      cbn [w_keys set_credentials set_keys pk_credentials] in He. unfold credentials in He. rewrite (unchanged_keys _ _ H1) in He.
      assert (dom (base.delete id (credentials w)) = ∅) as Hd by (unfold credentials; by rewrite He).
      rewrite dom_delete_L, Htwo in Hd. clear - Hd Hne.
      destruct (decide (id = id1)) as [->|Hi]; [apply (not_elem_of_empty (C := gset string) id2)|apply (not_elem_of_empty (C := gset string) id1)];
        rewrite <- Hd; set_solver.
  - destruct (both_delete Hup id1 id2 w Hv1 Hv2) as (w' & Hrun & Hc); [rewrite Hsize; lia|]. exists w'. split; [done|]. rewrite Hc.
    apply dom_empty_inv_L. rewrite !dom_delete_L, Htwo. clear -id1 id2. set_solver.
Qed.

End LastPasskey.

(** ** Examples *)

(** A library that takes a credential's ID for the proof of holding it. *)
Definition demo_webauthn : WebAuthnLib := {|
  wa_begin_registration := fun _ _ => Ok (JObject [], mkSessionData "challenge" 0);
  wa_finish_registration := fun _ _ _ body => Ok (mkCredential body "key" "none" [] EmptyString 0);
  wa_begin_login := fun _ => Ok (JObject [], mkSessionData "challenge" 0);
  wa_parse_login := fun _ _ body => Ok (body, EmptyString);
  wa_verify_login := fun _ u _ body =>
    if is_empty body then Fail (errorString "no assertion") else
    match List.find (fun c => String.eqb (wc_ID c) body) (aw_credentials u) with
    | Some c => Ok c
    | None => Fail (errorString "unknown credential")
    end |}.

Lemma demo_webauthn_laws : WebAuthnLaws demo_webauthn.
Proof.
  split. intros t u s body c. simpl. destruct (is_empty body); [done|]. destruct (List.find _ _) as [c0|] eqn:Ef; [|done]. intros [= ->].
  exists c. split; [|done]. apply find_some in Ef as [Hin _]. by apply list_elem_of_In.
Qed.

Definition demo_nosurf : Nosurf := {| nosurf_failure := mkResponse 400 BEmpty [] |}.

Definition admin_key : string := hex_encode (repeat_string 32 "k").

Definition passkey_row (id cid : string) : CredentialRow :=
  mkCredentialRow id (mkCredential cid "key" "none" [] EmptyString 0) 0.

(** Two passkeys, and a login challenge under the token "t". *)
Definition admin_world : World :=
  set_keys (mkPasskeys {["k1" := passkey_row "k1" "c1"; "k2" := passkey_row "k2" "c2"]}
    {["t" := mkSessionEntry (mkSessionData "challenge" 300) "login"]}) empty_world.

Definition anonymous (token body : string) : AdminHeaders :=
  mkAdminHeaders EmptyString EmptyString token body true.

Definition demo_admin : Handler := mkHandler admin_key "setup" true None.

Lemma calm_crypto : @CryptoLaws calm.
Proof. split; [|done]. intros t n s. simpl. intros [= <-]. apply repeat_string_length. Qed.

Lemma session_lifetime_witness :
  exists c, (run (@setSessionCookie calm admin_key) empty_world).1 = Ok c /\
    let hd := mkAdminHeaders (ck_Value c) EmptyString EmptyString EmptyString true in
    (run (@requireAuth calm admin_key hd (Ret (renderFlash "in"))) (set_tick 28800 empty_world)).1 = renderFlash "in" /\
    (run (@requireAuth calm admin_key hd (Ret (renderFlash "in"))) (set_tick 28801 empty_world)).1 =
      redirect "/admin/login" [clearSessionCookie].
Proof.
  destruct (run (@setSessionCookie calm admin_key) empty_world).1 as [c|e] eqn:E; [|exfalso; vm_compute in E; discriminate].
  exists c. split; [done|]. intros hd.
  pose proof (fun t => proj2 (@session_lifetime calm admin_key calm_crypto empty_world c hd (Ret (renderFlash "in"))
    (set_tick t empty_world) E eq_refl)) as H.
  split; rewrite H; vm_compute; reflexivity.
Defined.

(** A provisioner that only says yes. *)
Definition demo_ops : @ProvisionerOps := {|
  Provision := fun _ _ _ _ _ => Ret tt;
  Deprovision := fun _ _ _ _ _ => Ret None;
  Suspend := fun _ _ _ => Ret None;
  Resume := fun _ _ _ => Ret None |}.

Definition admin_routes : AdminHeaders -> AdminRequest -> P HTTPResponse :=
  @Routes calm demo_ops WGSpec.demo_lib demo_webauthn demo_nosurf demo_admin.

Lemma admin_access_witness :
  wp (admin_routes (anonymous EmptyString EmptyString) (DeleteNodeAdmin "n1"))
    (fun resp w' => unchanged admin_world w' /\ (to_login resp \/ resp = @nosurf_failure demo_nosurf)) admin_world.
Proof.
  exact (@admin_access calm demo_ops WGSpec.demo_lib demo_webauthn demo_nosurf demo_admin
    (anonymous EmptyString EmptyString) (DeleteNodeAdmin "n1") admin_world eq_refl).
Defined.

Lemma loginFinish_sound_witness :
  let r := run (@loginFinish calm demo_webauthn admin_key (anonymous "t" "c1")) admin_world in
  r_Status r.1 = 200 /\ r_Cookies r.1 <> [] /\ sessions r.2 = ∅ /\
  exists id row, credentials admin_world !! id = Some row /\ wc_ID (cd_Credential row) = "c1".
Proof.
  intros r.
  assert (r_Status r.1 = 200) as H1 by (vm_compute; reflexivity).
  assert (r_Cookies r.1 <> []) as H2 by (vm_compute; discriminate).
  destruct (@loginFinish_sound calm demo_webauthn admin_key demo_webauthn_laws (anonymous "t" "c1") admin_world
    ltac:(discriminate)) as [Hs Hc].
  destruct (Hc H2) as (session & t & u & c & id & row & _ & Hv & Hrow & Hid).
  split; [exact H1|]. split; [exact H2|]. split; [exact (eq_trans Hs (delete_singleton_eq _ _))|].
  exists id, row. split; [exact Hrow|]. rewrite Hid. clear - Hv.
  cbn [wa_verify_login demo_webauthn ah_Body anonymous is_empty] in Hv.
  destruct (List.find _ _) as [c0|] eqn:Ef; [|discriminate]. injection Hv as <-.
  apply find_some in Ef as [_ Ef]. exact (proj1 (String.eqb_eq _ _) Ef).
Defined.

(** Without the setup token a registration is not even begun; with it, it is.
    A login challenge answered without a passkey is refused; with one, it is
    not. *)
Lemma outsiders_stay_out_witness :
  let hd := anonymous "t" EmptyString in
  let thread := @admin_thread calm demo_ops WGSpec.demo_lib demo_webauthn demo_nosurf demo_admin (hd, LoginFinish) in
  let s := (run thread (admin_world, [])).2 in
  untouched admin_world s.1 /\ Forall no_session s.2 /\ s.2 = [jsonError "login failed" 401] /\
  r_Status (run (admin_routes (anonymous "t" "c1") LoginFinish) admin_world).1 = 200 /\
  (run (admin_routes hd RegisterBegin) empty_world).1 = jsonError "invalid setup token" 403 /\
  r_Status (run (admin_routes (mkAdminHeaders EmptyString "setup" EmptyString EmptyString true) RegisterBegin) empty_world).1 = 200.
Proof.
  intros hd thread s.
  assert (untouched admin_world s.1 /\ Forall no_session s.2) as [Hu Hs];
    [|split; [exact Hu|split; [exact Hs|split_and!; vm_compute; reflexivity]]].
  refine (@outsiders_stay_out calm demo_ops WGSpec.demo_lib demo_webauthn demo_nosurf demo_admin [(hd, LoginFinish)]
    admin_world s.1 s.2 [] _ _ _ _).
  - constructor; [|constructor]. split; [intros n; reflexivity|right; discriminate|].
    intros t u d c Hv. discriminate Hv.
  - apply no_cookies. reflexivity.
  - intros tok e He. unfold sessions in He. simpl in He. apply lookup_singleton_Some in He as [_ <-]. discriminate.
  - exact (pool_run nothing_else thread [] (admin_world, [])).
Defined.

Lemma last_passkey_race_witness :
  exists w', rtc (pool_step nothing_else) ([@delete_thread calm "k1"; @delete_thread calm "k2"], admin_world) ([], w') /\
    credentials w' = ∅.
Proof.
  refine (proj2 (@last_passkey_race calm "k1" "k2" admin_world (fun _ => eq_refl) eq_refl eq_refl _ _)); [discriminate|].
  vm_compute. reflexivity.
Defined.
