(* ===== verification/AdminAgree.v ===== *)
(** * The administration and the API do the same

    The forms of the administration pages and the endpoints of the API are two
    front ends of one set of operations. Here they are compared: the state after
    one is the state after the other, whatever each answers. *)

From stdpp Require Import gmap strings list fin_maps.
From Stdlib Require Import Ascii ZArith Lia.
From S2P Require Import Prelude GoStrings World Response Tables WGService Lifecycle AdminAuth AdminUI AdminNodes.
From S2P Require NodeStore ProjectStore TenantStore NodeHandler TenantHandler ProjectHandler AdminTenants AdminSpec.

Open Scope Z_scope.

(** ** Programs with the same effect *)

(** Run from the same state, they leave the same tables, caches, goroutines and
    remote calls. *)
Definition agree {A B} (p : P A) (q : P B) (w : World) : Prop := unchanged (run p w).2 (run q w).2.

(** A program that only reads. *)
Definition quiet {A} (p : P A) : Prop := forall w, unchanged w (run p w).2.

Lemma agree_ret {A B} (a : A) (b : B) w : agree (Ret a) (Ret b) w.
Proof. done. Qed.

Lemma agree_bind {A B C} (p : P A) (f : A -> P B) (g : A -> P C) w :
  (forall a w', agree (f a) (g a) w') -> agree (bind p f) (bind p g) w.
Proof. intros Hfg. unfold agree. rewrite !run_bind. destruct (run p w) as [a w']. apply Hfg. Qed.

Lemma agree_quiet {A B} (p : P A) (q : P B) w : quiet p -> quiet q -> agree p q w.
Proof.
  intros Hp Hq. unfold agree. destruct (Hp w) as [(E1&E2&E3&E4&E5&E6&E7&E8&E9) [E10 E11]].
  destruct (Hq w) as [(F1&F2&F3&F4&F5&F6&F7&F8&F9) [F10 F11]]. repeat split; congruence.
Qed.

Section Quiet.
Context `{Env}.

Lemma quiet_ret {A} (a : A) : quiet (Ret a).
Proof. by intros w. Qed.

Lemma quiet_bind {A B} (p : P A) (f : A -> P B) : quiet p -> (forall a, quiet (f a)) -> quiet (bind p f).
Proof. intros Hp Hf w. rewrite run_bind. specialize (Hp w). destruct (run p w) as [a w']. by etrans; [|apply Hf]. Qed.

Lemma quiet_query {A} (f : World -> A) : quiet (query f).
Proof. intros w. unfold query, stmt. rewrite run_atom. by destruct (env_fault _). Qed.

Lemma quiet_read {A B} (f : World -> A) (k : res A -> P B) : (forall r, quiet (k r)) -> quiet (bind (query f) k).
Proof. intros Hk. apply quiet_bind; [apply quiet_query|done]. Qed.

Lemma quiet_GetByID {A} (f : World -> option A) msg :
  quiet (let? x := query f catch e => Ret (Fail (EWrap msg e)) in Ret (Ok x)).
Proof. apply quiet_read. intros []; apply quiet_ret. Qed.

Lemma quiet_enrichSingle t : quiet (enrichSingle t).
Proof.
  unfold enrichSingle, name_of.
  apply quiet_bind; [apply quiet_bind; [apply quiet_GetByID|intros; apply quiet_ret]|]. intros p.
  apply quiet_bind; [apply quiet_bind; [apply quiet_GetByID|intros; apply quiet_ret]|]. intros. apply quiet_ret.
Qed.

Lemma quiet_refreshed id : quiet (TenantHandler.respond_refreshed id).
Proof. apply quiet_bind; [apply quiet_GetByID|]. intros []; apply quiet_ret. Qed.

End Quiet.

(** Walks two programs side by side. *)
Ltac agree_auto :=
  repeat first
    [ progress intros
    | apply agree_ret
    | apply agree_bind
    | match goal with |- agree (match ?x with _ => _ end) (match ?x with _ => _ end) _ => destruct x end
    | match goal with |- agree (match ?x with _ => _ end) _ _ => destruct x end
    | match goal with |- agree _ (match ?x with _ => _ end) _ => destruct x end
    | apply agree_quiet;
      solve [apply quiet_ret | apply quiet_refreshed
            | apply quiet_bind; [apply quiet_enrichSingle|intros; apply quiet_ret]] ].

Section Agree.
Context `{Env} `{ProvisionerOps} (h : Handler).

(** The API's handlers over the same stores and key. *)
Definition api_node_handler : NodeHandler.Handler :=
  NodeHandler.mkHandler (ad_auditStore h) (ad_encryptionKey h) true.

(** The bodies the forms stand for. *)
Definition tenant_request (r : string -> string) : TenantStore.CreateTenantRequest :=
  TenantStore.mkCreateTenant (r "name") (r "project_id") (r "node_id") (r "subdomain").

Definition node_request (r : string -> string) (ram : Z) : NodeStore.CreateNodeRequest :=
  NodeStore.mkCreateNode (trim_space (r "name")) (trim_space (r "tailscale_ip")) (trim_space (r "proxmox_url"))
    (trim_space (r "api_token")) ram.

Lemma suspend_agrees id w :
  agree (AdminTenants.suspendTenant h id) (TenantHandler.Suspend (ad_auditStore h) id) w.
Proof.
  unfold AdminTenants.suspendTenant, TenantHandler.Suspend, TenantHandler.with_tenant, AdminTenants.with_flash_tenant,
    TenantHandler.suspend_tenant, TenantHandler.audit_log, AdminUI.audit_log. agree_auto.
Qed.

Lemma resume_agrees id w :
  agree (AdminTenants.resumeTenant h id) (TenantHandler.Resume (ad_auditStore h) id) w.
Proof.
  unfold AdminTenants.resumeTenant, TenantHandler.Resume, TenantHandler.with_tenant, AdminTenants.with_flash_tenant,
    TenantHandler.resume_tenant, TenantHandler.audit_log, AdminUI.audit_log. agree_auto.
Qed.

Lemma delete_agrees id w :
  agree (AdminTenants.deleteTenant h id) (TenantHandler.Delete (ad_auditStore h) id) w.
Proof.
  unfold AdminTenants.deleteTenant, TenantHandler.Delete, TenantHandler.with_tenant, AdminTenants.with_tenant,
    TenantHandler.delete_tenant, AdminTenants.lifecycle. agree_auto.
Qed.

Lemma create_agrees r w :
  ValidUUID (r "project_id") = true -> ValidUUID (r "node_id") = true ->
  agree (AdminTenants.createTenant h (Some r)) (TenantHandler.Create (ad_auditStore h) (Some (tenant_request r))) w.
Proof.
  intros Hp Hn. unfold AdminTenants.createTenant, TenantHandler.Create, AdminTenants.get_by_form_id, AdminTenants.lifecycle.
  cbn [tenant_request TenantStore.ct_Name TenantStore.ct_ProjectID TenantStore.ct_NodeID TenantStore.ct_Subdomain].
  rewrite Hp, Hn. cbn [negb].
  replace (is_empty (r "name") || is_empty (r "project_id") || is_empty (r "node_id") || is_empty (r "subdomain"))
    with (is_empty (r "name") || is_empty (r "subdomain") || is_empty (r "project_id") || is_empty (r "node_id"))
    by (destruct (is_empty (r "name")), (is_empty (r "subdomain")), (is_empty (r "project_id")), (is_empty (r "node_id")); done).
  cbv zeta. agree_auto.
Qed.

Lemma node_create_agrees r ram w :
  positive_field (r "total_ram_mb") = Some ram ->
  agree (createNode h (Some r)) (NodeHandler.Create api_node_handler (Some (node_request r ram))) w.
Proof.
  intros Hr. unfold createNode, NodeHandler.Create, AdminUI.audit_log, NodeHandler.audit_log. rewrite Hr.
  cbn [node_request NodeStore.cn_Name NodeStore.cn_TailscaleIP NodeStore.cn_ProxmoxURL NodeStore.cn_APIToken NodeStore.cn_TotalRAMMB].
  assert (is_empty (r "total_ram_mb") = false /\ (ram <=? 0) = false) as [-> ->].
  { unfold positive_field in Hr. destruct (atoi _) as [z|] eqn:Ea; [|done].
    destruct (Z.ltb_spec 0 z); [|done]. injection Hr as ->. split; [|by apply Z.leb_gt].
    apply is_empty_false. intros E. by rewrite E in Ea. }
  cbv zeta. agree_auto.
Qed.

Lemma node_delete_agrees id w :
  agree (deleteNodeAdmin h id) (NodeHandler.Delete api_node_handler id) w.
Proof. unfold deleteNodeAdmin, NodeHandler.Delete, AdminUI.audit_log, NodeHandler.audit_log. agree_auto. Qed.

Lemma project_delete_agrees id w :
  agree (deleteProjectAdmin h id) (ProjectHandler.Delete (ad_auditStore h) id) w.
Proof. unfold deleteProjectAdmin, ProjectHandler.Delete, AdminUI.audit_log, ProjectHandler.audit_log. agree_auto. Qed.

(** C32. The administration's forms and the API are one: suspending, resuming,
    deleting and creating a tenant, creating and deleting a node and deleting a
    project leave the same tables, the same audit entries, the same cached
    clients, the same goroutines to run and the same remote calls made, whether
    they come through a form under /admin or through the endpoint of the API
    with the same values; on every outcome of the database and of the remote
    systems. *)
Theorem admin_agrees_with_api (w : World) :
  (forall id,
     agree (AdminTenants.suspendTenant h id) (TenantHandler.Suspend (ad_auditStore h) id) w /\
     agree (AdminTenants.resumeTenant h id) (TenantHandler.Resume (ad_auditStore h) id) w /\
     agree (AdminTenants.deleteTenant h id) (TenantHandler.Delete (ad_auditStore h) id) w /\
     agree (deleteNodeAdmin h id) (NodeHandler.Delete api_node_handler id) w /\
     agree (deleteProjectAdmin h id) (ProjectHandler.Delete (ad_auditStore h) id) w) /\
  (forall r, ValidUUID (r "project_id") = true -> ValidUUID (r "node_id") = true ->
     agree (AdminTenants.createTenant h (Some r)) (TenantHandler.Create (ad_auditStore h) (Some (tenant_request r))) w) /\
  (forall r ram, positive_field (r "total_ram_mb") = Some ram ->
     agree (createNode h (Some r)) (NodeHandler.Create api_node_handler (Some (node_request r ram))) w).
Proof.
  split_and!.
  - intros id. split_and!; [apply suspend_agrees|apply resume_agrees|apply delete_agrees|apply node_delete_agrees
      |apply project_delete_agrees].
  - intros r Hp Hn. by apply create_agrees.
  - intros r ram Hr. by apply node_create_agrees.
Qed.

End Agree.

Definition tenant_form : string -> string := fun k =>
  if String.eqb k "name" then "radio two" else if String.eqb k "subdomain" then "radio-two"
  else if String.eqb k "project_id" then "p1" else if String.eqb k "node_id" then "n1" else EmptyString.

Lemma admin_agrees_with_api_witness :
  agree (@AdminTenants.createTenant calm AdminSpec.demo_ops AdminSpec.demo_admin (Some tenant_form))
    (@TenantHandler.Create calm AdminSpec.demo_ops true (Some (tenant_request tenant_form))) NodeStore.demo_world.
Proof.
  exact (proj1 (proj2 (@admin_agrees_with_api calm AdminSpec.demo_ops AdminSpec.demo_admin NodeStore.demo_world))
    tenant_form eq_refl eq_refl).
Defined.
