(* ===== verification/RequestDecode.v ===== *)
(** * Request bodies: [Decode] of internal/response/response.go and the formats it reads

    [Decode] reads one JSON value of at most a megabyte into a struct and refuses
    keys that no field has. As encoding/json does, it goes on after a key it does
    not know or a value of the wrong type and reports the error at the end, so a
    caller that ignores the error sees what was filled in. A [Format] is a struct
    type with its JSON tags, and how a client writes a value of it. *)

From stdpp Require Import gmap strings list.
From Stdlib Require Import Ascii ZArith Lia.
From S2P Require Import Prelude GoStrings World Response GoJson GoJsonText GoJsonPrint.
From S2P Require NodeStore ProjectStore TenantStore WGStore StationStore UserHandler AuthHandler Billing.

Open Scope Z_scope.

(** ** Decoding that goes on after an error *)

(** The value after decoding over [old], and whether no error was met. *)
Definition Dec (A : Type) := A -> Json -> A * bool.

Definition u_string : Dec string := fun old j =>
  match j with JNull => (old, true) | JString s => (s, true) | _ => (old, false) end.
Definition u_int : Dec Z := fun old j =>
  match j with
  | JNull => (old, true)
  | JInt z => if in_int64 z then (z, true) else (old, false)
  | _ => (old, false)
  end.
Definition u_bool : Dec bool := fun old j =>
  match j with JNull => (old, true) | JBool b => (b, true) | _ => (old, false) end.

(** A pointer: null is nil, anything else is decoded into what it points to. *)
Definition u_ptr {A} (zero : A) (d : Dec A) : Dec (option A) := fun old j =>
  match j with
  | JNull => (None, true)
  | _ => let '(a, ok) := d (default zero old) j in (Some a, ok)
  end.

(** [[]int], where nil is [None], and a pointer to one. The elements are decoded
    over those of an earlier value of the same key. *)
Fixpoint u_elements (old : list Z) (l : list Json) : list Z * bool :=
  match l with
  | [] => ([], true)
  | j :: l =>
      let '(z, ok) := u_int (default 0 (head old)) j in
      let '(zs, oks) := u_elements (tail old) l in
      (z :: zs, ok && oks)
  end.
Definition u_ints : Dec (option (list Z)) := fun old j =>
  match j with
  | JNull => (None, true)
  | JArray l => let '(zs, ok) := u_elements (default [] old) l in (Some zs, ok)
  | _ => (old, false)
  end.

Definition UField (S : Type) := (string * Dec S)%type.

Definition ufield {S A} (name : string) (get : S -> A) (set : A -> S -> S) (d : Dec A) : UField S :=
  (name, fun s j => let '(a, ok) := d (get s) j in (set a s, ok)).

(** The field of a key, whatever its case. *)
Definition u_find {S} (fs : list (UField S)) (key : string) : option (Dec S) :=
  option_map snd (List.find (fun f => String.eqb (fold_name f.1) (fold_name key)) fs).

(** [DisallowUnknownFields]: a key without a field is an error. *)
Definition u_entry {S} (fs : list (UField S)) (r : S * bool) (kv : string * Json) : S * bool :=
  match u_find fs kv.1 with
  | Some d => let '(s, ok) := d r.1 kv.2 in (s, r.2 && ok)
  | None => (r.1, false)
  end.

Definition u_struct {S} (fs : list (UField S)) : Dec S := fun s j =>
  match j with
  | JNull => (s, true)
  | JObject m => foldl (u_entry fs) (s, true) m
  | _ => (s, false)
  end.

(** ** [Decode] *)

(** A struct type: its zero value, its fields, what a client sends for a value
    (a nil pointer is left out), the values JSON can carry, and that these are
    read back. *)
Record Format (A : Type) := mkFormat {
  fm_zero : A;
  fm_fields : list (UField A);
  fm_json : A -> list (string * Json);
  fm_range : A -> Prop;
  fm_whole : forall x, whole (JObject (fm_json x));
  fm_back : forall x, fm_range x -> u_struct fm_fields fm_zero (JObject (fm_json x)) = (x, true) }.
Arguments mkFormat {A}.
Arguments fm_zero {A}. Arguments fm_fields {A}. Arguments fm_json {A}. Arguments fm_range {A}.

Definition maxBody : nat := 2 ^ 20.

(** The decoder stops behind the first value; the reader fails past the limit.
    An object or an array ends by itself, another value only at the next byte or
    at the end of the body. *)
Definition read_value (body : chars) : option Json :=
  let seen := firstn maxBody body in
  match parse_value (2 * length seen + 2) seen with
  | None => None
  | Some (j, rest) =>
      match j, rest, skipn maxBody body with
      | JObject _, _, _ | JArray _, _, _ | _, _ :: _, _ | _, [], [] => Some j
      | _, [], _ :: _ => None
      end
  end.

(** The struct as the caller finds it, and whether there was no error. *)
Definition Decode {A} (f : Format A) (body : string) : A * bool :=
  match read_value (to_chars body) with
  | None => (fm_zero f, false)
  | Some j => u_struct (fm_fields f) (fm_zero f) j
  end.

(** The body of a handler that answers 400 to an error. *)
Definition decoded {A} (f : Format A) (body : string) : option A :=
  let '(x, ok) := Decode f body in if ok then Some x else None.

(** ** The formats *)

(** A pointer that is not nil. *)
Definition given {A} (name : string) (f : A -> Json) (o : option A) : list (string * Json) :=
  match o with Some a => [(name, f a)] | None => [] end.
Definition j_ints (l : list Z) : Json := JArray (map JInt l).
Definition in_opt {A} (P : A -> bool) (o : option A) : Prop := match o with Some a => P a = true | None => True end.

Lemma u_elements_ints l : forallb in_int64 l = true -> forall old, u_elements old (map JInt l) = (l, true).
Proof.
  induction l as [|z l IH]; [done|]. intros [Hz Hl]%andb_prop old. cbn. rewrite Hz, IH by done. done.
Qed.

Lemma u_ints_back l old : forallb in_int64 l = true -> u_ints old (j_ints l) = (Some l, true).
Proof. intros Hl. unfold u_ints, j_ints. by rewrite u_elements_ints. Qed.

Lemma whole_ints l : whole (j_ints l).
Proof. by induction l. Qed.

Lemma whole_app m1 m2 : whole (JObject m1) -> whole (JObject m2) -> whole (JObject (m1 ++ m2)).
Proof. induction m1 as [|kv m1 IH]; [done|]. cbn in *. intros [? ?] ?. split; [done|]. by apply IH. Qed.
Lemma whole_one k j : whole j -> whole (JObject [(k, j)]).
Proof. by split. Qed.
Lemma whole_given {A} k (f : A -> Json) o : (forall a, whole (f a)) -> whole (JObject (given k f o)).
Proof. intros Hf. destruct o as [a|]; [split; [apply Hf|done]|done]. Qed.

#[local] Arguments in_int64 : simpl never.
#[local] Arguments u_ints : simpl never.
#[local] Arguments j_ints : simpl never.

(** A key with its value, when the field takes it. *)
Lemma back_one {S A} (fs : list (UField S)) s name j (get : S -> A) set d a :
  u_find fs name = Some (ufield name get set d).2 -> d (get s) j = (a, true) ->
  foldl (u_entry fs) (s, true) [(name, j)] = (set a s, true).
Proof. intros Hf Hd. cbn. unfold u_entry. cbn [fst snd]. rewrite Hf. cbn. by rewrite Hd. Qed.

(** A key that is left out when there is no value. *)
Lemma back_given {S A} (fs : list (UField S)) s name (f : A -> Json) o (get : S -> option A) set d :
  u_find fs name = Some (ufield name get set d).2 -> set None s = s ->
  match o with Some a => d (get s) (f a) = (Some a, true) | None => True end ->
  foldl (u_entry fs) (s, true) (given name f o) = (set o s, true).
Proof. intros Hf Hs Hd. destruct o as [a|]; [by eapply back_one|]. cbn. by rewrite Hs. Qed.

Ltac whole_auto :=
  repeat lazymatch goal with
  | |- whole (JObject (_ ++ _)) => apply whole_app
  | |- whole (JObject (given _ _ _)) => apply whole_given; intros
  | |- whole (JObject [_]) => apply whole_one
  | |- whole (j_ints _) => apply whole_ints
  | |- whole _ => exact I
  end.

(** Reading back what was written, field by field. *)
Ltac value_auto :=
  cbn; repeat match goal with
  | |- match ?o with _ => _ end => destruct o; cbn in *; [|exact I]
  | H : in_int64 _ = true |- _ => rewrite H
  | H : forallb in_int64 _ = true |- _ => rewrite (u_ints_back _ _ H)
  end; reflexivity.

Ltac back_auto :=
  let Hr := fresh in intros Hr; cbn in Hr;
  repeat match goal with H : _ /\ _ |- _ => destruct H end;
  unfold u_struct; rewrite ?foldl_app;
  repeat first
    [ erewrite back_given; [|reflexivity|reflexivity|value_auto]
    | erewrite back_one; [|reflexivity|value_auto] ];
  reflexivity.

Ltac format_auto := lazymatch goal with |- whole _ => whole_auto | _ => back_auto end.

Definition createNodeRequest_fields : list (UField NodeStore.CreateNodeRequest) := [
  ufield "name" NodeStore.cn_Name (fun v '(NodeStore.mkCreateNode _ b c d e) => NodeStore.mkCreateNode v b c d e) u_string;
  ufield "tailscale_ip" NodeStore.cn_TailscaleIP (fun v '(NodeStore.mkCreateNode a _ c d e) => NodeStore.mkCreateNode a v c d e) u_string;
  ufield "proxmox_url" NodeStore.cn_ProxmoxURL (fun v '(NodeStore.mkCreateNode a b _ d e) => NodeStore.mkCreateNode a b v d e) u_string;
  ufield "api_token" NodeStore.cn_APIToken (fun v '(NodeStore.mkCreateNode a b c _ e) => NodeStore.mkCreateNode a b c v e) u_string;
  ufield "total_ram_mb" NodeStore.cn_TotalRAMMB (fun v '(NodeStore.mkCreateNode a b c d _) => NodeStore.mkCreateNode a b c d v) u_int].
Definition createNodeRequest_json (x : NodeStore.CreateNodeRequest) : list (string * Json) :=
    [("name", JString (NodeStore.cn_Name x))] ++ [("tailscale_ip", JString (NodeStore.cn_TailscaleIP x))] ++
    [("proxmox_url", JString (NodeStore.cn_ProxmoxURL x))] ++ [("api_token", JString (NodeStore.cn_APIToken
    x))] ++ [("total_ram_mb", JInt (NodeStore.cn_TotalRAMMB x))].
Definition createNodeRequest : Format NodeStore.CreateNodeRequest.
Proof.
  refine (mkFormat (NodeStore.mkCreateNode EmptyString EmptyString EmptyString EmptyString 0)
    createNodeRequest_fields createNodeRequest_json
    (fun x => in_int64 (NodeStore.cn_TotalRAMMB x) = true) _ _);
    intros [a b c d e]; unfold createNodeRequest_json; format_auto.
Defined.

Definition updateNodeRequest_fields : list (UField NodeStore.UpdateNodeRequest) := [
  ufield "status" NodeStore.un_Status (fun v '(NodeStore.mkUpdateNode _ b c d) => NodeStore.mkUpdateNode v b c d) (u_ptr EmptyString u_string);
  ufield "total_ram_mb" NodeStore.un_TotalRAMMB (fun v '(NodeStore.mkUpdateNode a _ c d) => NodeStore.mkUpdateNode a v c d) (u_ptr 0 u_int);
  ufield "proxmox_url" NodeStore.un_ProxmoxURL (fun v '(NodeStore.mkUpdateNode a b _ d) => NodeStore.mkUpdateNode a b v d) (u_ptr EmptyString u_string);
  ufield "api_token" NodeStore.un_APIToken (fun v '(NodeStore.mkUpdateNode a b c _) => NodeStore.mkUpdateNode a b c v) (u_ptr EmptyString u_string)].
Definition updateNodeRequest_json (x : NodeStore.UpdateNodeRequest) : list (string * Json) :=
    given "status" JString (NodeStore.un_Status x) ++ given "total_ram_mb" JInt (NodeStore.un_TotalRAMMB x)
    ++ given "proxmox_url" JString (NodeStore.un_ProxmoxURL x) ++ given "api_token" JString
    (NodeStore.un_APIToken x).
Definition updateNodeRequest : Format NodeStore.UpdateNodeRequest.
Proof.
  refine (mkFormat (NodeStore.mkUpdateNode None None None None)
    updateNodeRequest_fields updateNodeRequest_json
    (fun x => in_opt in_int64 (NodeStore.un_TotalRAMMB x)) _ _);
    intros [a b c d]; unfold updateNodeRequest_json; format_auto.
Defined.

Definition createProjectRequest_fields : list (UField ProjectStore.CreateProjectRequest) := [
  ufield "name" ProjectStore.cp_Name (fun v '(ProjectStore.mkCreateProject _ b c d e f g h) => ProjectStore.mkCreateProject v b c d e f g h) u_string;
  ufield "template_id" ProjectStore.cp_TemplateID (fun v '(ProjectStore.mkCreateProject a _ c d e f g h) => ProjectStore.mkCreateProject a v c d e f g h) u_int;
  ufield "ports" ProjectStore.cp_Ports (fun v '(ProjectStore.mkCreateProject a b _ d e f g h) => ProjectStore.mkCreateProject a b v d e f g h) u_ints;
  ufield "stripe_price_id" ProjectStore.cp_StripePriceID (fun v '(ProjectStore.mkCreateProject a b c _ e f g h) => ProjectStore.mkCreateProject a b c v e f g h) (u_ptr EmptyString u_string);
  ufield "health_path" ProjectStore.cp_HealthPath (fun v '(ProjectStore.mkCreateProject a b c d _ f g h) => ProjectStore.mkCreateProject a b c d v f g h) u_string;
  ufield "ram_mb" ProjectStore.cp_RAMMB (fun v '(ProjectStore.mkCreateProject a b c d e _ g h) => ProjectStore.mkCreateProject a b c d e v g h) u_int;
  ufield "network_cidr" ProjectStore.cp_NetworkCIDR (fun v '(ProjectStore.mkCreateProject a b c d e f _ h) => ProjectStore.mkCreateProject a b c d e f v h) u_string;
  ufield "gateway" ProjectStore.cp_Gateway (fun v '(ProjectStore.mkCreateProject a b c d e f g _) => ProjectStore.mkCreateProject a b c d e f g v) u_string].
Definition createProjectRequest_json (x : ProjectStore.CreateProjectRequest) : list (string * Json) :=
    [("name", JString (ProjectStore.cp_Name x))] ++ [("template_id", JInt (ProjectStore.cp_TemplateID x))] ++
    given "ports" j_ints (ProjectStore.cp_Ports x) ++ given "stripe_price_id" JString
    (ProjectStore.cp_StripePriceID x) ++ [("health_path", JString (ProjectStore.cp_HealthPath x))] ++
    [("ram_mb", JInt (ProjectStore.cp_RAMMB x))] ++ [("network_cidr", JString (ProjectStore.cp_NetworkCIDR
    x))] ++ [("gateway", JString (ProjectStore.cp_Gateway x))].
Definition createProjectRequest : Format ProjectStore.CreateProjectRequest.
Proof.
  refine (mkFormat (ProjectStore.mkCreateProject EmptyString 0 None None EmptyString 0 EmptyString EmptyString)
    createProjectRequest_fields createProjectRequest_json
    (fun x => in_int64 (ProjectStore.cp_TemplateID x) = true /\ in_opt (forallb in_int64) (ProjectStore.cp_Ports x) /\
    in_int64 (ProjectStore.cp_RAMMB x) = true) _ _);
    intros [a b c d e f g h]; unfold createProjectRequest_json; format_auto.
Defined.

Definition updateProjectRequest_fields : list (UField ProjectStore.UpdateProjectRequest) := [
  ufield "name" ProjectStore.up_Name (fun v '(ProjectStore.mkUpdateProject _ b c d e f g h) => ProjectStore.mkUpdateProject v b c d e f g h) (u_ptr EmptyString u_string);
  ufield "template_id" ProjectStore.up_TemplateID (fun v '(ProjectStore.mkUpdateProject a _ c d e f g h) => ProjectStore.mkUpdateProject a v c d e f g h) (u_ptr 0 u_int);
  ufield "ports" ProjectStore.up_Ports (fun v '(ProjectStore.mkUpdateProject a b _ d e f g h) => ProjectStore.mkUpdateProject a b v d e f g h) u_ints;
  ufield "stripe_price_id" ProjectStore.up_StripePriceID (fun v '(ProjectStore.mkUpdateProject a b c _ e f g h) => ProjectStore.mkUpdateProject a b c v e f g h) (u_ptr EmptyString u_string);
  ufield "health_path" ProjectStore.up_HealthPath (fun v '(ProjectStore.mkUpdateProject a b c d _ f g h) => ProjectStore.mkUpdateProject a b c d v f g h) (u_ptr EmptyString u_string);
  ufield "ram_mb" ProjectStore.up_RAMMB (fun v '(ProjectStore.mkUpdateProject a b c d e _ g h) => ProjectStore.mkUpdateProject a b c d e v g h) (u_ptr 0 u_int);
  ufield "network_cidr" ProjectStore.up_NetworkCIDR (fun v '(ProjectStore.mkUpdateProject a b c d e f _ h) => ProjectStore.mkUpdateProject a b c d e f v h) (u_ptr EmptyString u_string);
  ufield "gateway" ProjectStore.up_Gateway (fun v '(ProjectStore.mkUpdateProject a b c d e f g _) => ProjectStore.mkUpdateProject a b c d e f g v) (u_ptr EmptyString u_string)].
Definition updateProjectRequest_json (x : ProjectStore.UpdateProjectRequest) : list (string * Json) :=
    given "name" JString (ProjectStore.up_Name x) ++ given "template_id" JInt (ProjectStore.up_TemplateID x)
    ++ given "ports" j_ints (ProjectStore.up_Ports x) ++ given "stripe_price_id" JString
    (ProjectStore.up_StripePriceID x) ++ given "health_path" JString (ProjectStore.up_HealthPath x) ++ given
    "ram_mb" JInt (ProjectStore.up_RAMMB x) ++ given "network_cidr" JString (ProjectStore.up_NetworkCIDR x)
    ++ given "gateway" JString (ProjectStore.up_Gateway x).
Definition updateProjectRequest : Format ProjectStore.UpdateProjectRequest.
Proof.
  refine (mkFormat (ProjectStore.mkUpdateProject None None None None None None None None)
    updateProjectRequest_fields updateProjectRequest_json
    (fun x => in_opt in_int64 (ProjectStore.up_TemplateID x) /\ in_opt (forallb in_int64) (ProjectStore.up_Ports x) /\
    in_opt in_int64 (ProjectStore.up_RAMMB x)) _ _);
    intros [a b c d e f g h]; unfold updateProjectRequest_json; format_auto.
Defined.

Definition createTenantRequest_fields : list (UField TenantStore.CreateTenantRequest) := [
  ufield "name" TenantStore.ct_Name (fun v '(TenantStore.mkCreateTenant _ b c d) => TenantStore.mkCreateTenant v b c d) u_string;
  ufield "project_id" TenantStore.ct_ProjectID (fun v '(TenantStore.mkCreateTenant a _ c d) => TenantStore.mkCreateTenant a v c d) u_string;
  ufield "node_id" TenantStore.ct_NodeID (fun v '(TenantStore.mkCreateTenant a b _ d) => TenantStore.mkCreateTenant a b v d) u_string;
  ufield "subdomain" TenantStore.ct_Subdomain (fun v '(TenantStore.mkCreateTenant a b c _) => TenantStore.mkCreateTenant a b c v) u_string].
Definition createTenantRequest_json (x : TenantStore.CreateTenantRequest) : list (string * Json) :=
    [("name", JString (TenantStore.ct_Name x))] ++ [("project_id", JString (TenantStore.ct_ProjectID x))] ++
    [("node_id", JString (TenantStore.ct_NodeID x))] ++ [("subdomain", JString (TenantStore.ct_Subdomain x))].
Definition createTenantRequest : Format TenantStore.CreateTenantRequest.
Proof.
  refine (mkFormat (TenantStore.mkCreateTenant EmptyString EmptyString EmptyString EmptyString)
    createTenantRequest_fields createTenantRequest_json
    (fun x => True) _ _);
    intros [a b c d]; unfold createTenantRequest_json; format_auto.
Defined.

Definition updateTenantRequest_fields : list (UField TenantStore.UpdateTenantRequest) := [
  ufield "name" TenantStore.ut_Name (fun v '(TenantStore.mkUpdateTenant _ b c) => TenantStore.mkUpdateTenant v b c) (u_ptr EmptyString u_string);
  ufield "stripe_subscription_id" TenantStore.ut_StripeSubscriptionID (fun v '(TenantStore.mkUpdateTenant a _ c) => TenantStore.mkUpdateTenant a v c) (u_ptr EmptyString u_string);
  ufield "stripe_customer_id" TenantStore.ut_StripeCustomerID (fun v '(TenantStore.mkUpdateTenant a b _) => TenantStore.mkUpdateTenant a b v) (u_ptr EmptyString u_string)].
Definition updateTenantRequest_json (x : TenantStore.UpdateTenantRequest) : list (string * Json) :=
    given "name" JString (TenantStore.ut_Name x) ++ given "stripe_subscription_id" JString
    (TenantStore.ut_StripeSubscriptionID x) ++ given "stripe_customer_id" JString
    (TenantStore.ut_StripeCustomerID x).
Definition updateTenantRequest : Format TenantStore.UpdateTenantRequest.
Proof.
  refine (mkFormat (TenantStore.mkUpdateTenant None None None)
    updateTenantRequest_fields updateTenantRequest_json
    (fun x => True) _ _);
    intros [a b c]; unfold updateTenantRequest_json; format_auto.
Defined.

Definition createPeerRequest_fields : list (UField WGStore.CreatePeerRequest) := [
  ufield "name" WGStore.cp_Name (fun v '(WGStore.mkCreatePeer _ b c d e) => WGStore.mkCreatePeer v b c d e) u_string;
  ufield "type" WGStore.cp_Type (fun v '(WGStore.mkCreatePeer a _ c d e) => WGStore.mkCreatePeer a v c d e) u_string;
  ufield "endpoint" WGStore.cp_Endpoint (fun v '(WGStore.mkCreatePeer a b _ d e) => WGStore.mkCreatePeer a b v d e) u_string;
  ufield "tenant_id" WGStore.cp_TenantID (fun v '(WGStore.mkCreatePeer a b c _ e) => WGStore.mkCreatePeer a b c v e) u_string;
  ufield "allowed_ips" WGStore.cp_AllowedIPs (fun v '(WGStore.mkCreatePeer a b c d _) => WGStore.mkCreatePeer a b c d v) u_string].
Definition createPeerRequest_json (x : WGStore.CreatePeerRequest) : list (string * Json) :=
    [("name", JString (WGStore.cp_Name x))] ++ [("type", JString (WGStore.cp_Type x))] ++ [("endpoint",
    JString (WGStore.cp_Endpoint x))] ++ [("tenant_id", JString (WGStore.cp_TenantID x))] ++ [("allowed_ips",
    JString (WGStore.cp_AllowedIPs x))].
Definition createPeerRequest : Format WGStore.CreatePeerRequest.
Proof.
  refine (mkFormat (WGStore.mkCreatePeer EmptyString EmptyString EmptyString EmptyString EmptyString)
    createPeerRequest_fields createPeerRequest_json
    (fun x => True) _ _);
    intros [a b c d e]; unfold createPeerRequest_json; format_auto.
Defined.

Definition updatePeerRequest_fields : list (UField WGStore.UpdatePeerRequest) := [
  ufield "name" WGStore.up_Name (fun v '(WGStore.mkUpdatePeer _ b c) => WGStore.mkUpdatePeer v b c) (u_ptr EmptyString u_string);
  ufield "endpoint" WGStore.up_Endpoint (fun v '(WGStore.mkUpdatePeer a _ c) => WGStore.mkUpdatePeer a v c) (u_ptr EmptyString u_string);
  ufield "enabled" WGStore.up_Enabled (fun v '(WGStore.mkUpdatePeer a b _) => WGStore.mkUpdatePeer a b v) (u_ptr false u_bool)].
Definition updatePeerRequest_json (x : WGStore.UpdatePeerRequest) : list (string * Json) :=
    given "name" JString (WGStore.up_Name x) ++ given "endpoint" JString (WGStore.up_Endpoint x) ++ given
    "enabled" JBool (WGStore.up_Enabled x).
Definition updatePeerRequest : Format WGStore.UpdatePeerRequest.
Proof.
  refine (mkFormat (WGStore.mkUpdatePeer None None None)
    updatePeerRequest_fields updatePeerRequest_json
    (fun x => True) _ _);
    intros [a b c]; unfold updatePeerRequest_json; format_auto.
Defined.

Definition createStationRequest_fields : list (UField StationStore.CreateStationRequest) := [
  ufield "name" StationStore.cs_Name (fun v '(StationStore.mkCreateStation _ b c d e f g h i) => StationStore.mkCreateStation v b c d e f g h i) u_string;
  ufield "slug" StationStore.cs_Slug (fun v '(StationStore.mkCreateStation a _ c d e f g h i) => StationStore.mkCreateStation a v c d e f g h i) u_string;
  ufield "genre" StationStore.cs_Genre (fun v '(StationStore.mkCreateStation a b _ d e f g h i) => StationStore.mkCreateStation a b v d e f g h i) u_string;
  ufield "description" StationStore.cs_Description (fun v '(StationStore.mkCreateStation a b c _ e f g h i) => StationStore.mkCreateStation a b c v e f g h i) u_string;
  ufield "artwork_url" StationStore.cs_ArtworkURL (fun v '(StationStore.mkCreateStation a b c d _ f g h i) => StationStore.mkCreateStation a b c d v f g h i) u_string;
  ufield "stream_url" StationStore.cs_StreamURL (fun v '(StationStore.mkCreateStation a b c d e _ g h i) => StationStore.mkCreateStation a b c d e v g h i) u_string;
  ufield "owner_id" StationStore.cs_OwnerID (fun v '(StationStore.mkCreateStation a b c d e f _ h i) => StationStore.mkCreateStation a b c d e f v h i) (u_ptr EmptyString u_string);
  ufield "tenant_id" StationStore.cs_TenantID (fun v '(StationStore.mkCreateStation a b c d e f g _ i) => StationStore.mkCreateStation a b c d e f g v i) (u_ptr EmptyString u_string);
  ufield "is_public" StationStore.cs_IsPublic (fun v '(StationStore.mkCreateStation a b c d e f g h _) => StationStore.mkCreateStation a b c d e f g h v) u_bool].
Definition createStationRequest_json (x : StationStore.CreateStationRequest) : list (string * Json) :=
    [("name", JString (StationStore.cs_Name x))] ++ [("slug", JString (StationStore.cs_Slug x))] ++
    [("genre", JString (StationStore.cs_Genre x))] ++ [("description", JString (StationStore.cs_Description
    x))] ++ [("artwork_url", JString (StationStore.cs_ArtworkURL x))] ++ [("stream_url", JString
    (StationStore.cs_StreamURL x))] ++ given "owner_id" JString (StationStore.cs_OwnerID x) ++ given
    "tenant_id" JString (StationStore.cs_TenantID x) ++ [("is_public", JBool (StationStore.cs_IsPublic x))].
Definition createStationRequest : Format StationStore.CreateStationRequest.
Proof.
  refine (mkFormat (StationStore.mkCreateStation EmptyString EmptyString EmptyString EmptyString EmptyString EmptyString None None false)
    createStationRequest_fields createStationRequest_json
    (fun x => True) _ _);
    intros [a b c d e f g h i]; unfold createStationRequest_json; format_auto.
Defined.

Definition updateStationRequest_fields : list (UField StationStore.UpdateStationRequest) := [
  ufield "name" StationStore.us_Name (fun v '(StationStore.mkUpdateStation _ b c d e f g h) => StationStore.mkUpdateStation v b c d e f g h) (u_ptr EmptyString u_string);
  ufield "slug" StationStore.us_Slug (fun v '(StationStore.mkUpdateStation a _ c d e f g h) => StationStore.mkUpdateStation a v c d e f g h) (u_ptr EmptyString u_string);
  ufield "genre" StationStore.us_Genre (fun v '(StationStore.mkUpdateStation a b _ d e f g h) => StationStore.mkUpdateStation a b v d e f g h) (u_ptr EmptyString u_string);
  ufield "description" StationStore.us_Description (fun v '(StationStore.mkUpdateStation a b c _ e f g h) => StationStore.mkUpdateStation a b c v e f g h) (u_ptr EmptyString u_string);
  ufield "artwork_url" StationStore.us_ArtworkURL (fun v '(StationStore.mkUpdateStation a b c d _ f g h) => StationStore.mkUpdateStation a b c d v f g h) (u_ptr EmptyString u_string);
  ufield "stream_url" StationStore.us_StreamURL (fun v '(StationStore.mkUpdateStation a b c d e _ g h) => StationStore.mkUpdateStation a b c d e v g h) (u_ptr EmptyString u_string);
  ufield "is_public" StationStore.us_IsPublic (fun v '(StationStore.mkUpdateStation a b c d e f _ h) => StationStore.mkUpdateStation a b c d e f v h) (u_ptr false u_bool);
  ufield "is_online" StationStore.us_IsOnline (fun v '(StationStore.mkUpdateStation a b c d e f g _) => StationStore.mkUpdateStation a b c d e f g v) (u_ptr false u_bool)].
Definition updateStationRequest_json (x : StationStore.UpdateStationRequest) : list (string * Json) :=
    given "name" JString (StationStore.us_Name x) ++ given "slug" JString (StationStore.us_Slug x) ++ given
    "genre" JString (StationStore.us_Genre x) ++ given "description" JString (StationStore.us_Description x)
    ++ given "artwork_url" JString (StationStore.us_ArtworkURL x) ++ given "stream_url" JString
    (StationStore.us_StreamURL x) ++ given "is_public" JBool (StationStore.us_IsPublic x) ++ given
    "is_online" JBool (StationStore.us_IsOnline x).
Definition updateStationRequest : Format StationStore.UpdateStationRequest.
Proof.
  refine (mkFormat (StationStore.mkUpdateStation None None None None None None None None)
    updateStationRequest_fields updateStationRequest_json
    (fun x => True) _ _);
    intros [a b c d e f g h]; unfold updateStationRequest_json; format_auto.
Defined.

Definition userCreateRequest_fields : list (UField UserHandler.UserCreateRequest) := [
  ufield "name" UserHandler.uc_Name (fun v '(UserHandler.mkUserCreate _ b) => UserHandler.mkUserCreate v b) u_string;
  ufield "subdomain" UserHandler.uc_Subdomain (fun v '(UserHandler.mkUserCreate a _) => UserHandler.mkUserCreate a v) u_string].
Definition userCreateRequest_json (x : UserHandler.UserCreateRequest) : list (string * Json) :=
    [("name", JString (UserHandler.uc_Name x))] ++ [("subdomain", JString (UserHandler.uc_Subdomain x))].
Definition userCreateRequest : Format UserHandler.UserCreateRequest.
Proof.
  refine (mkFormat (UserHandler.mkUserCreate EmptyString EmptyString)
    userCreateRequest_fields userCreateRequest_json
    (fun x => True) _ _);
    intros [a b]; unfold userCreateRequest_json; format_auto.
Defined.

Definition registerRequest_fields : list (UField AuthHandler.registerRequest) := [
  ufield "email" AuthHandler.rq_Email (fun v '(AuthHandler.mkRegister _ b c d) => AuthHandler.mkRegister v b c d) u_string;
  ufield "password" AuthHandler.rq_Password (fun v '(AuthHandler.mkRegister a _ c d) => AuthHandler.mkRegister a v c d) u_string;
  ufield "display_name" AuthHandler.rq_DisplayName (fun v '(AuthHandler.mkRegister a b _ d) => AuthHandler.mkRegister a b v d) u_string;
  ufield "registration_token" AuthHandler.rq_RegistrationToken (fun v '(AuthHandler.mkRegister a b c _) => AuthHandler.mkRegister a b c v) u_string].
Definition registerRequest_json (x : AuthHandler.registerRequest) : list (string * Json) :=
    [("email", JString (AuthHandler.rq_Email x))] ++ [("password", JString (AuthHandler.rq_Password x))] ++
    [("display_name", JString (AuthHandler.rq_DisplayName x))] ++ [("registration_token", JString
    (AuthHandler.rq_RegistrationToken x))].
Definition registerBody : Format AuthHandler.registerRequest.
Proof.
  refine (mkFormat (AuthHandler.mkRegister EmptyString EmptyString EmptyString EmptyString)
    registerRequest_fields registerRequest_json
    (fun x => True) _ _);
    intros [a b c d]; unfold registerRequest_json; format_auto.
Defined.

Definition loginRequest_fields : list (UField AuthHandler.loginRequest) := [
  ufield "email" AuthHandler.lq_Email (fun v '(AuthHandler.mkLogin _ b) => AuthHandler.mkLogin v b) u_string;
  ufield "password" AuthHandler.lq_Password (fun v '(AuthHandler.mkLogin a _) => AuthHandler.mkLogin a v) u_string].
Definition loginRequest_json (x : AuthHandler.loginRequest) : list (string * Json) :=
    [("email", JString (AuthHandler.lq_Email x))] ++ [("password", JString (AuthHandler.lq_Password x))].
Definition loginBody : Format AuthHandler.loginRequest.
Proof.
  refine (mkFormat (AuthHandler.mkLogin EmptyString EmptyString)
    loginRequest_fields loginRequest_json
    (fun x => True) _ _);
    intros [a b]; unfold loginRequest_json; format_auto.
Defined.

Definition passwordRequest_fields : list (UField AuthHandler.passwordRequest) := [
  ufield "old_password" AuthHandler.pq_Old (fun v '(AuthHandler.mkPassword _ b) => AuthHandler.mkPassword v b) u_string;
  ufield "new_password" AuthHandler.pq_New (fun v '(AuthHandler.mkPassword a _) => AuthHandler.mkPassword a v) u_string].
Definition passwordRequest_json (x : AuthHandler.passwordRequest) : list (string * Json) :=
    [("old_password", JString (AuthHandler.pq_Old x))] ++ [("new_password", JString (AuthHandler.pq_New x))].
Definition passwordBody : Format AuthHandler.passwordRequest.
Proof.
  refine (mkFormat (AuthHandler.mkPassword EmptyString EmptyString)
    passwordRequest_fields passwordRequest_json
    (fun x => True) _ _);
    intros [a b]; unfold passwordRequest_json; format_auto.
Defined.

Definition checkoutRequest_fields : list (UField Billing.CheckoutRequest) := [
  ufield "tier" Billing.ck_Tier (fun v '(Billing.mkCheckoutRequest _ b c) => Billing.mkCheckoutRequest v b c) u_string;
  ufield "success_url" Billing.ck_SuccessURL (fun v '(Billing.mkCheckoutRequest a _ c) => Billing.mkCheckoutRequest a v c) u_string;
  ufield "cancel_url" Billing.ck_CancelURL (fun v '(Billing.mkCheckoutRequest a b _) => Billing.mkCheckoutRequest a b v) u_string].
Definition checkoutRequest_json (x : Billing.CheckoutRequest) : list (string * Json) :=
    [("tier", JString (Billing.ck_Tier x))] ++ [("success_url", JString (Billing.ck_SuccessURL x))] ++
    [("cancel_url", JString (Billing.ck_CancelURL x))].
Definition checkoutRequest : Format Billing.CheckoutRequest.
Proof.
  refine (mkFormat (Billing.mkCheckoutRequest EmptyString EmptyString EmptyString)
    checkoutRequest_fields checkoutRequest_json
    (fun x => True) _ _);
    intros [a b c]; unfold checkoutRequest_json; format_auto.
Defined.

Definition refreshToken_fields : list (UField string) := [ufield "refresh_token" id (fun v _ => v) u_string].
Definition refreshToken : Format string.
Proof.
  refine (mkFormat EmptyString refreshToken_fields (fun x => [("refresh_token", JString x)]) (fun _ => True) _ _);
    intros x; format_auto.
Defined.

Definition returnURL_fields : list (UField string) := [ufield "return_url" id (fun v _ => v) u_string].
Definition returnURL : Format string.
Proof.
  refine (mkFormat EmptyString returnURL_fields (fun x => [("return_url", JString x)]) (fun _ => True) _ _);
    intros x; format_auto.
Defined.

(** ** What [Decode] reads *)

Definition container (j : Json) : bool := match j with JObject _ | JArray _ => true | _ => false end.

Lemma read_value_print j rest :
  container j = true -> whole j -> (length (print j) <= maxBody)%nat ->
  read_value (print j ++ rest) = Some j.
Proof.
  intros Hc Hw Hl. unfold read_value. rewrite firstn_app, firstn_all2 by done.
  rewrite parse_print; [by destruct j|done|rewrite length_app; lia|by destruct j].
Qed.

Lemma Decode_back {A} (f : Format A) (x : A) (rest : string) :
  fm_range f x -> (String.length (print_json (JObject (fm_json f x))) <= maxBody)%nat ->
  Decode f (print_json (JObject (fm_json f x)) +:+ rest) = (x, true).
Proof.
  intros Hx Hl. assert (to_chars (print_json (JObject (fm_json f x))) = print (JObject (fm_json f x))) as Ep
    by apply String.list_ascii_of_string_of_list_ascii.
  unfold Decode. rewrite to_chars_app, Ep, read_value_print; [by apply fm_back|done|apply fm_whole|].
  rewrite <- Ep. by rewrite length_to_chars.
Qed.

(** A key that names no field. *)
Definition unknown {A} (f : Format A) (key : string) : Prop := u_find (fm_fields f) key = None.

Lemma u_entries_false {S} (fs : list (UField S)) m s : (foldl (u_entry fs) (s, false) m).2 = false.
Proof.
  revert s. induction m as [|kv m IH]; intros s; [done|]. cbn [foldl]. unfold u_entry at 2. cbn [fst snd].
  destruct (u_find fs kv.1) as [d|]; [|done]. destruct (d s kv.2) as [s' ok]. apply IH.
Qed.

Lemma u_entries_unknown {S} (fs : list (UField S)) m kv r :
  kv ∈ m -> u_find fs kv.1 = None -> (foldl (u_entry fs) r m).2 = false.
Proof.
  intros (m1 & m2 & ->)%list_elem_of_split Hk. rewrite foldl_app. cbn [foldl].
  unfold u_entry at 2. rewrite Hk. apply u_entries_false.
Qed.

Lemma decoded_unknown {A} (f : Format A) body m k j :
  read_value (to_chars body) = Some (JObject m) -> (k, j) ∈ m -> unknown f k -> decoded f body = None.
Proof.
  intros Hr Hin Hk. unfold decoded, Decode. rewrite Hr. cbn [u_struct].
  pose proof (u_entries_unknown (fm_fields f) m (k, j) (fm_zero f, true) Hin Hk) as Hf.
  destruct (foldl _ _ m) as [x ok]. simpl in Hf. by subst.
Qed.

Lemma decoded_unreadable {A} (f : Format A) body : read_value (to_chars body) = None -> decoded f body = None.
Proof. intros Hr. unfold decoded, Decode. by rewrite Hr. Qed.

(** Nothing behind the first megabyte is looked at but to see that it is there. *)
Lemma read_value_limit body body' :
  firstn maxBody body = firstn maxBody body' -> skipn maxBody body <> [] -> skipn maxBody body' <> [] ->
  read_value body = read_value body'.
Proof.
  intros E H1 H2. unfold read_value. rewrite E. destruct (skipn maxBody body), (skipn maxBody body'); done.
Qed.
