(* ===== verification/Server.v ===== *)
(** * internal/server/server.go: the routes and who may take them

    The API routes of [New], each with the middleware of its group: the Bearer
    token of the API ([bearerAuth]), the JWT of a user ([JWTAuth]), or none;
    and /admin, whose routes guard themselves. A WireGuard module that is not
    configured has no routes. [Startup] wires the configuration and adds the
    security headers, CORS and the health endpoint; rate limiting and logging
    are left out: the first only turns requests away, the others do not touch
    the state. *)

From stdpp Require Import gmap strings list fin_maps relations.
From Stdlib Require Import ZArith Lia.
From S2P Require Import Prelude GoStrings World Response AuthHandler TenantHandler Lifecycle.
From S2P Require UserHandler NodeStore ProjectStore TenantStore NodeHandler ProjectHandler Provisioner ProvisionerSafe.
From S2P Require AuthStore Billing WGStore WGService WGHandler StationStore StationHandler AdminAuth AdminUI AdminRoutes.

Open Scope Z_scope.

(** ** The provisioner implements the interface *)

#[export] Instance provisioner_ops `{Env} (p : Provisioner.Provisioner) : ProvisionerOps := {|
  Lifecycle.Provision := Provisioner.Provision;
  Lifecycle.Deprovision := Provisioner.Deprovision p;
  Lifecycle.Suspend := Provisioner.Suspend p;
  Lifecycle.Resume := Provisioner.Resume p |}.

(** ** Requests *)

(** A route and what the request brings to it, the headers apart. *)
Inductive Request :=
| NodeList (q : string -> string)
| NodeGet (id : string)
| NodeCreate (body : option NodeStore.CreateNodeRequest)
| NodeUpdate (id : string) (body : option NodeStore.UpdateNodeRequest)
| NodeDelete (id : string)
| ProjectList (q : string -> string)
| ProjectGet (id : string)
| ProjectCreate (body : option ProjectStore.CreateProjectRequest)
| ProjectUpdate (id : string) (body : option ProjectStore.UpdateProjectRequest)
| ProjectDelete (id : string)
| TenantList (q : string -> string)
| TenantGet (id : string)
| TenantCreate (body : option TenantStore.CreateTenantRequest)
| TenantUpdate (id : string) (body : option TenantStore.UpdateTenantRequest)
| TenantSuspend (id : string)
| TenantResume (id : string)
| TenantDelete (id : string)
| PeerList (type_ : string)
| PeerGet (id : string)
| PeerCreate (body : option WGStore.CreatePeerRequest)
| PeerUpdate (id : string) (body : option WGStore.UpdatePeerRequest)
| PeerDelete (id : string)
| PeerEnable (id : string)
| PeerDisable (id : string)
| PeerConfig (id : string)
| PeerQR (id : string)
| StationList (q : string -> string)
| StationGenres
| StationGet (slug : string)
| StationCreate (body : option StationStore.CreateStationRequest)
| StationUpdate (id : string) (body : option StationStore.UpdateStationRequest)
| StationDelete (id : string)
| UserList
| UserGet (id : string)
| UserCreate (body : option UserHandler.UserCreateRequest)
| UserSSOToken (id : string)
| UserSuspend (id : string)
| UserResume (id : string)
| UserDelete (id : string)
| AuthRegister (body : option registerRequest)
| AuthLogin (body : option loginRequest)
| AuthRefresh (body : option string)
| AuthMe
| AuthLogout (body : option string)
| AuthPassword (body : option passwordRequest)
| BillingCheckout (body : option Billing.CheckoutRequest)
| BillingPortal (body : option string)
| BillingStatus
| StripeWebhook (body : res string) (signature : string)
| Admin (hd : AdminAuth.AdminHeaders) (r : AdminRoutes.AdminRequest).

(** The group a route is registered in. *)
Inductive Access := ApiToken | UserJWT | Public | Session.

Definition access (r : Request) : Access :=
  match r with
  | NodeList _ | NodeGet _ | NodeCreate _ | NodeUpdate _ _ | NodeDelete _
  | ProjectList _ | ProjectGet _ | ProjectCreate _ | ProjectUpdate _ _ | ProjectDelete _
  | TenantList _ | TenantGet _ | TenantCreate _ | TenantUpdate _ _ | TenantSuspend _ | TenantResume _
  | TenantDelete _
  | PeerList _ | PeerGet _ | PeerCreate _ | PeerUpdate _ _ | PeerDelete _ | PeerEnable _ | PeerDisable _
  | PeerConfig _ | PeerQR _
  | StationCreate _ | StationUpdate _ _ | StationDelete _ => ApiToken
  | UserList | UserGet _ | UserCreate _ | UserSSOToken _ | UserSuspend _ | UserResume _ | UserDelete _
  | AuthMe | AuthLogout _ | AuthPassword _
  | BillingCheckout _ | BillingPortal _ | BillingStatus => UserJWT
  | AuthRegister _ | AuthLogin _ | AuthRefresh _ | StripeWebhook _ _
  | StationList _ | StationGenres | StationGet _ => Public
  | Admin _ _ => Session
  end.

(** The server's configuration; [None] for a module that is not configured. *)
Record Config := mkConfig {
  cf_APIToken : string; cf_node : NodeHandler.Handler; cf_audit : bool; cf_user : UserHandler.UserHandler;
  cf_prov : Provisioner.Provisioner; cf_auth : AuthHandler.Handler; cf_billing : option Billing.Service;
  cf_wg : option WGHandler.Handler;
  cf_station : StationHandler.Handler; cf_encryptionKey : string; cf_setupToken : string }.

(** The administration's handler: it shares the audit store, and WireGuard when
    that is configured. *)
Definition admin_handler (cf : Config) : AdminUI.Handler :=
  AdminUI.mkHandler (cf_encryptionKey cf) (cf_setupToken cf) (cf_audit cf)
    (option_map WGHandler.wh_service (cf_wg cf)).

Section Server.
Context `{HE : Env} `{HA : AuthLib} `{HB : Billing.Stripe} `{HW : WGService.WgLib}
  `{HK : AdminAuth.WebAuthnLib} `{HN : AdminRoutes.Nosurf} (cf : Config).

Definition bearerAuth (token : string) (hd : Headers) (next : P HTTPResponse) : P HTTPResponse :=
  let authHeader := hd_Authorization hd in
  if is_empty authHeader then Ret (Error StatusUnauthorized "missing authorization header") else
  match trim_prefix_opt "Bearer " authHeader with
  | None => Ret (Error StatusUnauthorized "invalid authorization header format")
  | Some provided =>
      if negb (String.eqb provided token) then Ret (Error StatusUnauthorized "invalid token") else next
  end.

(** The WireGuard routes exist when the module is configured. *)
Definition with_wg (k : WGHandler.Handler -> P HTTPResponse) : P HTTPResponse :=
  match cf_wg cf with
  | Some h => k h
  | None => Ret (mkResponse StatusNotFound BEmpty [])
  end.

(** The endpoints behind the API token. *)
Definition api_route (r : Request) : P HTTPResponse :=
  let _ops := provisioner_ops (cf_prov cf) in
  match r with
  | NodeList q => NodeHandler.List (cf_node cf) q
  | NodeGet id => NodeHandler.Get (cf_node cf) id
  | NodeCreate b => NodeHandler.Create (cf_node cf) b
  | NodeUpdate id b => NodeHandler.Update (cf_node cf) id b
  | NodeDelete id => NodeHandler.Delete (cf_node cf) id
  | ProjectList q => ProjectHandler.List q
  | ProjectGet id => ProjectHandler.Get id
  | ProjectCreate b => ProjectHandler.Create (cf_audit cf) b
  | ProjectUpdate id b => ProjectHandler.Update (cf_audit cf) id b
  | ProjectDelete id => ProjectHandler.Delete (cf_audit cf) id
  | TenantList q => TenantHandler.List q
  | TenantGet id => TenantHandler.Get id
  | TenantCreate b => TenantHandler.Create (cf_audit cf) b
  | TenantUpdate id b => TenantHandler.Update (cf_audit cf) id b
  | TenantSuspend id => TenantHandler.Suspend (cf_audit cf) id
  | TenantResume id => TenantHandler.Resume (cf_audit cf) id
  | TenantDelete id => TenantHandler.Delete (cf_audit cf) id
  | PeerList t => with_wg (fun _ => WGHandler.ListPeers t)
  | PeerGet id => with_wg (fun _ => WGHandler.GetPeer id)
  | PeerCreate b => with_wg (fun h => WGHandler.CreatePeer h b)
  | PeerUpdate id b => with_wg (fun h => WGHandler.UpdatePeer h id b)
  | PeerDelete id => with_wg (fun h => WGHandler.DeletePeer h id)
  | PeerEnable id => with_wg (fun h => WGHandler.EnablePeer h id)
  | PeerDisable id => with_wg (fun h => WGHandler.DisablePeer h id)
  | PeerConfig id => with_wg (fun h => WGHandler.GetPeerConfig h id)
  | PeerQR id => with_wg (fun h => WGHandler.GetPeerQR h id)
  | StationCreate b => StationHandler.Create (cf_station cf) b
  | StationUpdate id b => StationHandler.Update (cf_station cf) id b
  | StationDelete id => StationHandler.Delete (cf_station cf) id
  | _ => Ret (mkResponse StatusNotFound BEmpty [])
  end.

(** The endpoints behind a JWT, run for the user it names. *)
Definition user_route (hd : Headers) (r : Request) (u : User) : P HTTPResponse :=
  let _ops := provisioner_ops (cf_prov cf) in
  let id := Some (us_ID u) in
  match r with
  | UserList => UserHandler.List id
  | UserGet t => UserHandler.Get id t
  | UserCreate b => UserHandler.Create (cf_user cf) id b
  | UserSSOToken t => UserHandler.SSOToken (cf_user cf) id t
  | UserSuspend t => UserHandler.Suspend (cf_user cf) id t
  | UserResume t => UserHandler.Resume (cf_user cf) id t
  | UserDelete t => UserHandler.Delete (cf_user cf) id t
  | AuthMe => Me (Some u)
  | AuthLogout b => Logout (cf_auth cf) (Some u) hd b
  | AuthPassword b => ChangePassword (cf_auth cf) (Some u) b
  | BillingCheckout b => Billing.CreateCheckout (cf_billing cf) (Some u) b
  | BillingPortal b => Billing.CreatePortal (cf_billing cf) (Some u) b
  | BillingStatus => Billing.Status (cf_billing cf) (Some u)
  | _ => Ret (mkResponse StatusNotFound BEmpty [])
  end.

(** The endpoints anyone may call. *)
Definition public_route (hd : Headers) (r : Request) : P HTTPResponse :=
  match r with
  | AuthRegister b => Register (cf_auth cf) hd b
  | AuthLogin b => Login (cf_auth cf) b
  | AuthRefresh b => Refresh (cf_auth cf) hd b
  | StripeWebhook b s => Billing.Webhook (cf_billing cf) b s
  | StationList q => StationHandler.List (cf_station cf) q
  | StationGenres => StationHandler.Genres
  | StationGet slug => StationHandler.GetBySlug (cf_station cf) slug
  | _ => Ret (mkResponse StatusNotFound BEmpty [])
  end.

Definition handle (hd : Headers) (r : Request) : P HTTPResponse :=
  match access r with
  | ApiToken => bearerAuth (cf_APIToken cf) hd (api_route r)
  | UserJWT => JWTAuth (cf_auth cf) hd (user_route hd r)
  | Public => public_route hd r
  | Session =>
      match r with
      | Admin ahd ar =>
          let _ops := provisioner_ops (cf_prov cf) in
          AdminRoutes.Routes (admin_handler cf) ahd ar
      | _ => Ret (mkResponse StatusNotFound BEmpty [])
      end
  end.

End Server.
