(* ===== verification/ServerSpec.v ===== *)
(** * Who may do what

    The middleware of the server: without the right credentials a request to a
    protected route does nothing. *)

From stdpp Require Import gmap strings list fin_maps.
From Stdlib Require Import ZArith Lia Ascii.
From S2P Require Import Prelude GoStrings World Response AuthStore AuthHandler Server.
From S2P Require UserHandler NodeHandler Provisioner Billing WGService WGHandler StationHandler.
From S2P Require AuthSpec BillingSpec WGSpec AdminAuth AdminRoutes AdminSpec.
Import AuthSpec(demo_auth, auth_world, bearer_headers, no_headers) BillingSpec(demo_stripe) WGSpec(demo_lib).

Open Scope Z_scope.

(** ** Prefixes of headers *)

Section Middleware.
Context `{HE : Env} `{HA : AuthLib}.

(** The request carries a JWT for the user [u] which the server accepts when it
    arrives: signed and not expired at that moment, not revoked, and of an
    existing account. *)
Definition authenticated (h : Handler) (hd : Headers) (u : User) (w : World) : Prop :=
  bearer hd <> EmptyString /\
  exists c sub id, jwt_parse (ah_jwtSecret h) (env_now (w_tick w)) (bearer hd) = Some c /\
    (forall jti, cl_jti c = Some jti -> jti <> EmptyString -> revoked_tokens w !! jti = None) /\
    cl_sub c = Some sub /\ uuid_parse sub = Some id /\ users w !! id = Some u.

(** The refusals of the middleware. *)
Definition refused (r : HTTPResponse) : Prop :=
  r_Status r = StatusUnauthorized \/ r_Status r = StatusInternalServerError.

Lemma wp_JWTAuth h hd (next : User -> P HTTPResponse) Q w :
  (forall r w', unchanged w w' -> refused r -> Q r w') ->
  (forall u w', unchanged w w' -> authenticated h hd u w -> wp (next u) Q w') ->
  wp (JWTAuth h hd next) Q w.
Proof.
  intros HF HO. unfold JWTAuth. destruct (is_empty (bearer hd)) eqn:Eb; [apply wp_ret, HF; [done|by left]|].
  apply wp_bind, wp_sample. intros w1 H1.
  destruct (jwt_parse _ _ _) as [c|] eqn:Ej; [|apply wp_ret, HF; [done|by left]].
  set (check := match cl_jti c with Some jti => _ | None => _ end).
  assert (forall K : res bool -> World -> Prop, (forall e w', unchanged w w' -> K (Fail e) w') ->
    (forall w', unchanged w w' -> K (Ok true) w') ->
    (forall w', unchanged w w' -> (forall jti, cl_jti c = Some jti -> jti <> EmptyString ->
       revoked_tokens w !! jti = None) -> K (Ok false) w') -> wp check K w1) as Hcheck.
  { intros K KF KT KO. unfold check. destruct (cl_jti c) as [jti|]; [|by apply wp_ret, KO].
    destruct (is_empty jti) eqn:Ee.
    - apply wp_ret, KO; [done|]. intros j [= <-] Hne. by apply is_empty_true in Ee.
    - apply wp_query; [intros e w2 H2 _; apply KF; by etrans|]. intros w2 H2 _.
      assert (unchanged w w2) as H02 by by etrans.
      assert (w_auth w2 = w_auth w) as Ea by apply H02.
      case_bool_decide as Hr; [by apply KT|]. apply KO; [done|]. intros j [= <-] _.
      rewrite <- eq_None_not_Some in Hr. unfold revoked_tokens in *. by rewrite Ea in Hr. }
  apply wp_bind, Hcheck.
  - intros e w2 H2. apply wp_ret, HF; [done|by right].
  - intros w2 H2. apply wp_ret, HF; [done|by left].
  - intros w2 H2 Hrev. destruct (cl_sub c) as [sub|] eqn:Es; [|apply wp_ret, HF; [done|by left]].
    destruct (uuid_parse sub) as [id|] eqn:Eu; [|apply wp_ret, HF; [done|by left]].
    apply wp_bind, wp_bind, wp_query.
    { intros e w3 H3 _. apply wp_ret, wp_ret, HF; [by etrans|by right]. }
    intros w3 H3 _. apply wp_ret. assert (unchanged w w3) as H03 by by etrans.
    destruct (users w3 !! id) as [u|] eqn:Eus; [|apply wp_ret, HF; [done|by left]].
    apply HO; [done|]. split; [by apply is_empty_false|]. exists c, sub, id. split_and!; try done.
    assert (w_auth w3 = w_auth w) as Ea by apply H03. unfold users in *. by rewrite Ea in Eus.
Qed.

(** Such a request reaches the endpoint, with the user of the token, whenever the
    database answers. *)
Lemma JWTAuth_serves (Hup : forall t, env_fault t = None) h hd (next : User -> P HTTPResponse) u w :
  authenticated h hd u w ->
  exists w1, unchanged w w1 /\ run (JWTAuth h hd next) w = run (next u) w1.
Proof.
  intros [Hne (c & sub & id & Hp & Hrev & Hsub & Hid & Hu)].
  assert (wp (JWTAuth h hd next) (fun r w' => exists w1, unchanged w w1 /\ (r, w') = run (next u) w1) w) as (w1 & Hun & Hr).
  2: { exists w1. split; [done|]. by rewrite <- Hr, <- surjective_pairing. }
  unfold JWTAuth. cbv zeta. rewrite (proj2 (is_empty_false _) Hne).
  apply wp_bind, wp_sample. intros w1 H1. rewrite Hp.
  set (check := match cl_jti c with Some jti => _ | None => _ end).
  assert (wp check (fun r w2 => r = Ok false /\ unchanged w w2) w1) as Hcheck.
  { unfold check. destruct (cl_jti c) as [jti|]; [|by apply wp_ret].
    destruct (is_empty jti) eqn:Ee; [by apply wp_ret|]. apply is_empty_false in Ee.
    apply wp_query; [intros m w2 _ Hf; by rewrite Hup in Hf|]. intros w2 H2 _.
    assert (unchanged w w2) as H02 by by etrans. split; [|done]. f_equal.
    apply bool_decide_eq_false. unfold revoked_tokens in *. rewrite (AuthSpec.unchanged_auth _ _ H02).
    rewrite (Hrev jti eq_refl Ee). by intros [? [=]]. }
  apply wp_bind. eapply wp_mono; [exact Hcheck|]. intros r w2 [-> H02]. rewrite Hsub, Hid.
  apply wp_bind. unfold GetByID. apply wp_bind, wp_query; [intros m w3 _ Hf; by rewrite Hup in Hf|].
  intros w3 H3 _. apply wp_ret. assert (unchanged w w3) as H03 by by etrans.
  assert (users w3 !! id = Some u) as -> by (unfold users in *; by rewrite (AuthSpec.unchanged_auth _ _ H03)).
  exists w3. split; [done|]. by destruct (run _ _).
Qed.

(** Without the token, or with it. *)
Lemma bearerAuth_refuses token hd next w :
  hd_Authorization hd <> "Bearer " +:+ token ->
  exists msg, run (bearerAuth token hd next) w = (Error StatusUnauthorized msg, w).
Proof.
  intros Hne. unfold bearerAuth. destruct (is_empty _); [by eexists|].
  destruct (trim_prefix_opt "Bearer " (hd_Authorization hd)) as [p|] eqn:Et; [|by eexists].
  destruct (String.eqb_spec p token) as [->|]; [|by eexists]. by apply trim_prefix_opt_iff in Et.
Qed.

Lemma bearerAuth_accepts token hd next :
  hd_Authorization hd = "Bearer " +:+ token -> bearerAuth token hd next = next.
Proof.
  intros Hh. unfold bearerAuth. assert (trim_prefix_opt "Bearer " (hd_Authorization hd) = Some token) as ->
    by by apply trim_prefix_opt_iff. rewrite Hh. by rewrite String.eqb_refl.
Qed.

Context `{HB : Billing.Stripe} `{HW : WGService.WgLib} `{HK : AdminAuth.WebAuthnLib} `{HN : AdminRoutes.Nosurf}
  (cf : Config).

(** C24. Access. A request to any route of the API whose Authorization header is
    not the API token is answered 401 and performs no operation at all; with the
    token it is exactly the endpoint. A request to any route of a user's own
    account that carries no JWT the server accepts when it arrives (one that
    verifies, has not expired, is not revoked and names an existing account) is
    answered 401, or 500 when the database fails, and changes nothing; what is
    served is served for the user the JWT names. And whenever the database
    answers, a request with such a JWT is served: it runs the endpoint for that
    user, on the tables as they are. *)
Theorem access_control (hd : Headers) (r : Request) (w : World) :
  (access r = ApiToken ->
     if bool_decide (hd_Authorization hd = "Bearer " +:+ cf_APIToken cf)
     then handle cf hd r = api_route cf r
     else exists msg, run (handle cf hd r) w = (Error StatusUnauthorized msg, w)) /\
  (access r = UserJWT ->
     wp (handle cf hd r) (fun resp w' =>
       (unchanged w w' /\ refused resp) \/
       exists u w1, unchanged w w1 /\ authenticated (cf_auth cf) hd u w /\
         run (user_route cf hd r u) w1 = (resp, w')) w /\
     forall u, authenticated (cf_auth cf) hd u w -> (forall t, env_fault t = None) ->
       exists w1, unchanged w w1 /\ run (handle cf hd r) w = run (user_route cf hd r u) w1).
Proof.
  unfold handle. split; intros ->.
  - case_bool_decide as Hh; [by apply bearerAuth_accepts|by apply bearerAuth_refuses].
  - split; [|intros u Ha Hup; by apply JWTAuth_serves].
    apply wp_JWTAuth; [intros resp w' Hu Hr; by left|]. intros u w1 Hu Ha. right. exists u, w1.
    split_and!; [done..|]. by destruct (run _ _).
Qed.

End Middleware.

(** ** Example *)

Definition server_config : Config :=
  mkConfig "api-token" (NodeHandler.mkHandler true EmptyString true) true
    (UserHandler.NewUserHandler true EmptyString EmptyString) (Provisioner.New EmptyString)
    (mkHandler "secret" EmptyString true) None None (StationHandler.mkStationHandler true true true)
    AdminSpec.admin_key "setup".

Lemma access_control_witness :
  (exists msg, run (@handle calm demo_auth demo_stripe demo_lib AdminSpec.demo_webauthn AdminSpec.demo_nosurf server_config no_headers (NodeDelete "n1")) auth_world =
     (Error StatusUnauthorized msg, auth_world)) /\
  r_Status (run (@handle calm demo_auth demo_stripe demo_lib AdminSpec.demo_webauthn AdminSpec.demo_nosurf server_config bearer_headers AuthMe) auth_world).1 = StatusOK.
Proof.
  split; [|vm_compute; reflexivity].
  exact (proj1 (@access_control calm demo_auth demo_stripe demo_lib AdminSpec.demo_webauthn AdminSpec.demo_nosurf server_config no_headers (NodeDelete "n1") auth_world) eq_refl).
Defined.
