(* ===== verification/RequestSpec.v ===== *)
(** * From the text of a body to the effect of a request

    The endpoints that read a body, with the format each reads it in. A request
    written by a client is the one served, and a body that is not JSON or has a
    key its format does not know changes nothing, whichever endpoint it is sent
    to. *)

From stdpp Require Import gmap strings list.
From Stdlib Require Import Ascii ZArith Lia.
From S2P Require Import Prelude GoStrings World Response GoJson GoJsonText GoJsonPrint AuthHandler RequestDecode Server ServerSpec.
From S2P Require NodeStore NodeHandler ProjectStore ProjectHandler TenantStore TenantHandler WGStore WGHandler StationStore StationHandler.
From S2P Require UserHandler Billing WGService AdminAuth AdminRoutes Provisioner Lifecycle.
From S2P Require AuthSpec BillingSpec WGSpec AdminSpec.

Open Scope Z_scope.

(** The endpoints with a body, by the type it is decoded into. *)
Inductive Endpoint : Type -> Type :=
| ENodeCreate : Endpoint NodeStore.CreateNodeRequest
| ENodeUpdate (id : string) : Endpoint NodeStore.UpdateNodeRequest
| EProjectCreate : Endpoint ProjectStore.CreateProjectRequest
| EProjectUpdate (id : string) : Endpoint ProjectStore.UpdateProjectRequest
| ETenantCreate : Endpoint TenantStore.CreateTenantRequest
| ETenantUpdate (id : string) : Endpoint TenantStore.UpdateTenantRequest
| EPeerCreate : Endpoint WGStore.CreatePeerRequest
| EPeerUpdate (id : string) : Endpoint WGStore.UpdatePeerRequest
| EStationCreate : Endpoint StationStore.CreateStationRequest
| EStationUpdate (id : string) : Endpoint StationStore.UpdateStationRequest
| EUserCreate : Endpoint UserHandler.UserCreateRequest
| ERegister : Endpoint registerRequest
| ELogin : Endpoint loginRequest
| EPassword : Endpoint passwordRequest
| ECheckout : Endpoint Billing.CheckoutRequest
| EPortal : Endpoint string.

Definition format_of {A} (e : Endpoint A) : Format A :=
  match e with
  | ENodeCreate => createNodeRequest
  | ENodeUpdate _ => updateNodeRequest
  | EProjectCreate => createProjectRequest
  | EProjectUpdate _ => updateProjectRequest
  | ETenantCreate => createTenantRequest
  | ETenantUpdate _ => updateTenantRequest
  | EPeerCreate => createPeerRequest
  | EPeerUpdate _ => updatePeerRequest
  | EStationCreate => createStationRequest
  | EStationUpdate _ => updateStationRequest
  | EUserCreate => userCreateRequest
  | ERegister => registerBody
  | ELogin => loginBody
  | EPassword => passwordBody
  | ECheckout => checkoutRequest
  | EPortal => returnURL
  end.

Definition request_of {A} (e : Endpoint A) : option A -> Request :=
  match e with
  | ENodeCreate => NodeCreate
  | ENodeUpdate id => NodeUpdate id
  | EProjectCreate => ProjectCreate
  | EProjectUpdate id => ProjectUpdate id
  | ETenantCreate => TenantCreate
  | ETenantUpdate id => TenantUpdate id
  | EPeerCreate => PeerCreate
  | EPeerUpdate id => PeerUpdate id
  | EStationCreate => StationCreate
  | EStationUpdate id => StationUpdate id
  | EUserCreate => UserCreate
  | ERegister => AuthRegister
  | ELogin => AuthLogin
  | EPassword => AuthPassword
  | ECheckout => BillingCheckout
  | EPortal => BillingPortal
  end.

(** The request a body makes. *)
Definition receive {A} (e : Endpoint A) (body : string) : Request := request_of e (decoded (format_of e) body).

(** [Refresh] and [Logout] ignore the error of [Decode]: what was filled in
    counts, and without it the cookie does. *)
Definition receive_refresh (body : string) : Request := AuthRefresh (Some (Decode refreshToken body).1).
Definition receive_logout (body : string) : Request := AuthLogout (Some (Decode refreshToken body).1).

(** A key that is none of the format's, whatever its case. *)
Lemma unknown_iff {A} (f : Format A) k :
  unknown f k <-> Forall (fun fd => fold_name fd.1 <> fold_name k) (fm_fields f).
Proof.
  unfold unknown, u_find. rewrite Forall_forall. split.
  - intros Hf fd Hin E. destruct (List.find _ _) as [x|] eqn:Ef; [done|].
    apply list_elem_of_In, (List.find_none _ _ Ef) in Hin. by rewrite E, String.eqb_refl in Hin.
  - intros Hall. destruct (List.find _ _) as [x|] eqn:Ef; [|done].
    apply List.find_some in Ef as [Hin E%String.eqb_eq]. apply list_elem_of_In in Hin. by destruct (Hall x).
Qed.

(** C25. What a client writes is what is served, for every endpoint with a body
    and every value of its type that JSON can carry, whatever characters its
    texts contain: the object with the JSON names of its fields, a nil pointer
    left out, is decoded into that value. What follows the object, up to
    anything, is not looked at; only the object has to fit the first megabyte. *)
Theorem body_roundtrip {A} (e : Endpoint A) (x : A) (rest : string)
  (Hx : fm_range (format_of e) x)
  (Hfits : (String.length (print_json (JObject (fm_json (format_of e) x))) <= maxBody)%nat) :
  receive e (print_json (JObject (fm_json (format_of e) x)) +:+ rest) = request_of e (Some x).
Proof. unfold receive, decoded. by rewrite Decode_back. Qed.

Section Refused.
Context `{HE : Env} `{HA : AuthLib} `{HB : Billing.Stripe} `{HW : WGService.WgLib}
  `{HK : AdminAuth.WebAuthnLib} `{HN : AdminRoutes.Nosurf} (cf : Config).

Definition refusals : list Z := [400; 401; 404; 500; 501].

Definition turned_away (w : World) (resp : HTTPResponse) (w' : World) : Prop :=
  unchanged w w' /\ r_Status resp ∈ refusals.

Lemma wp_bearerAuth token hd next Q w :
  (forall msg, Q (Error StatusUnauthorized msg) w) -> wp next Q w -> wp (bearerAuth token hd next) Q w.
Proof. intros H1 H2. unfold bearerAuth. repeat case_match; first [done|by apply wp_ret]. Qed.

Lemma wp_refuse resp w w' : unchanged w w' -> r_Status resp ∈ refusals -> wp (Ret resp) (turned_away w) w'.
Proof. intros H1 H2. by apply wp_ret. Qed.

(** Every handler answers an undecodable body before it does anything. *)
Ltac refuse_auto :=
  repeat match goal with
  | |- wp (Ret _) _ _ => apply wp_refuse; [done|unfold refusals; cbn; set_solver]
  | |- wp (match ?x with _ => _ end) _ _ => destruct x
  end.

(** Without a decoded body no endpoint does anything. *)
Lemma wp_no_body {A} (e : Endpoint A) hd w : wp (handle cf hd (request_of e None)) (turned_away w) w.
Proof.
  destruct e; unfold handle; cbn [request_of access];
    first [apply wp_bearerAuth; [intros; split; [reflexivity|unfold refusals; cbn; set_solver]|]
          |apply wp_JWTAuth; [intros r w' Hu [Hr|Hr]; (split; [done|rewrite Hr; unfold refusals; set_solver])|intros u w' Hu _]
          |idtac];
    cbn [api_route user_route public_route]; cbv zeta;
    unfold with_wg, NodeHandler.Create, NodeHandler.Update, ProjectHandler.Create, ProjectHandler.Update,
      TenantHandler.Create, TenantHandler.Update, WGHandler.CreatePeer, WGHandler.UpdatePeer,
      StationHandler.Create, StationHandler.Update, UserHandler.Create, Register, Login, ChangePassword,
      Billing.CreateCheckout, Billing.CreatePortal, Billing.with_enabled, Billing.with_user;
    refuse_auto.
Qed.
(** C26. For every endpoint that answers 400 to an error of [Decode], which is
    all with a body but [Refresh] and [Logout]: a body that does not parse, or
    that has a key none of the endpoint's fields matches, as encoding/json
    compares them, changes nothing. Whatever the credentials, the request is
    refused, with the database and everything else as it was and no remote call
    made. *)
Theorem malformed_body_harmless {A} (e : Endpoint A) (hd : Headers) (body : string) (w : World)
  (Hbad : read_value (to_chars body) = None \/
    exists m k j, read_value (to_chars body) = Some (JObject m) /\ (k, j) ∈ m /\
      Forall (fun fd => fold_name fd.1 <> fold_name k) (fm_fields (format_of e))) :
  wp (handle cf hd (receive e body)) (fun resp w' => unchanged w w' /\ r_Status resp ∈ refusals) w.
Proof.
  unfold receive. assert (decoded (format_of e) body = None) as ->; [|apply wp_no_body].
  destruct Hbad as [Hr|(m & k & j & Hr & Hin & Hk)]; [by apply decoded_unreadable|].
  eapply decoded_unknown; [done|done|]. by apply unknown_iff.
Qed.

End Refused.

(** ** Examples *)

(** A text with a quote, a newline and a backslash in a name. *)
Definition odd_name : string := "a" +:+ String "034" (String "010" (String "092" "b")).

Lemma body_roundtrip_witness :
  let x := TenantStore.mkCreateTenant odd_name "p1" "n1" "radio-one" in
  receive ETenantCreate (print_json (JObject (fm_json createTenantRequest x)) +:+ "} trailing") = TenantCreate (Some x).
Proof.
  intros x. apply (body_roundtrip ETenantCreate x); [exact I|].
  apply Nat.leb_le. vm_compute. reflexivity.
Defined.

(** The misspelt key is refused, and the request with it. *)
Lemma malformed_body_harmless_witness :
  let body := print_json (JObject [("name", JString "node"); ("total_ram", JInt 4096)]) in
  r_Status (run (@handle calm AuthSpec.demo_auth BillingSpec.demo_stripe WGSpec.demo_lib AdminSpec.demo_webauthn AdminSpec.demo_nosurf
    server_config (mkHeaders "Bearer api-token" EmptyString None None) (receive ENodeCreate body)) empty_world).1 = 400 /\
  wp (@handle calm AuthSpec.demo_auth BillingSpec.demo_stripe WGSpec.demo_lib AdminSpec.demo_webauthn AdminSpec.demo_nosurf
    server_config (mkHeaders "Bearer api-token" EmptyString None None) (receive ENodeCreate body))
    (fun resp w' => unchanged empty_world w' /\ r_Status resp ∈ refusals) empty_world.
Proof.
  intros body. split; [vm_compute; reflexivity|].
  apply (@malformed_body_harmless calm AuthSpec.demo_auth BillingSpec.demo_stripe WGSpec.demo_lib AdminSpec.demo_webauthn
    AdminSpec.demo_nosurf server_config _ ENodeCreate).
  right. exists [("name", JString "node"); ("total_ram", JInt 4096)], "total_ram", (JInt 4096). split_and!.
  - vm_compute. reflexivity.
  - right. left.
  - repeat constructor; vm_compute; discriminate.
Defined.

(** A body that is just null is an empty request, and not an error. *)
Example null_body : decoded updateTenantRequest "null" = Some (TenantStore.mkUpdateTenant None None None).
Proof. vm_compute. reflexivity. Qed.

(** The token counts although the body has an unknown key. *)
Example refresh_despite_error :
  let body := print_json (JObject [("extra", JInt 1); ("refresh_token", JString "tok")]) in
  receive_refresh body = AuthRefresh (Some "tok") /\ (Decode refreshToken body).2 = false.
Proof. split; vm_compute; reflexivity. Qed.
