(* ===== verification/Startup.v ===== *)
(** * cmd/server/main.go and [New] of internal/server/server.go: from the environment to a server

    [main] loads the configuration, connects, migrates, builds the server and
    starts it with its background loops. The file system, the SSH key parser,
    the libraries of the database, of the templates and of CORS, and
    [webauthn.New] are parameters. *)

From stdpp Require Import gmap strings list fin_maps.
From Stdlib Require Import ZArith Lia.
From S2P Require Import Prelude GoStrings World Response Templates Config Database AuthHandler Server ServerSpec.
From S2P Require SSHExec NodeHandler UserHandler Provisioner Billing WGService WGHandler StationHandler StationPoller.
From S2P Require CaddyClient WebAuthnStore AdminAuth AdminRoutes AdminSpec AuthSpec BillingSpec WGSpec.

Open Scope Z_scope.

(** ** The server *)

(** github.com/rs/cors: its options, what it reads of a request, the answer it
    gives a preflight in place of the rest of the chain, and the headers it puts
    on any other response. *)
Record CorsOptions := mkCors {
  co_AllowedOrigins : list string; co_AllowedMethods : list string; co_AllowedHeaders : list string;
  co_AllowCredentials : bool; co_MaxAge : Z }.

Class CorsLib := {
  cors_request : Type;
  cors_preflight : CorsOptions -> cors_request -> option HTTPResponse;
  cors_headers : CorsOptions -> cors_request -> list (string * string) }.

Definition cors_options (cfg : Config.Config) : CorsOptions :=
  mkCors (c_CORSOrigins cfg) ["GET"; "POST"; "PUT"; "DELETE"; "OPTIONS"] ["Authorization"; "Content-Type"] true 300.

(** What [New] returns: the routes, the poller and the janitor with their
    intervals, and, for the goroutine that reconciles the routes once, the
    client of Caddy. *)
Record Server `{TemplateLib} := mkServer {
  sv_templates : Templates;
  sv_cors : CorsOptions;
  sv_config : Server.Config;
  sv_poller : StationPoller.Poller; sv_pollerInterval : Z; sv_janitorInterval : Z;
  sv_caddy : option CaddyClient.Client; sv_ssh : option SSHExec.Client }.

(** The level of the log, from the text of the configuration. *)
Inductive Level := LevelDebug | LevelInfo | LevelWarn | LevelError.

Definition log_level (s : string) : Level :=
  if String.eqb s "debug" then LevelDebug
  else if String.eqb s "warn" then LevelWarn
  else if String.eqb s "error" then LevelError
  else LevelInfo.

Section Build.
Context `{TemplateLib} (ReadFile : string -> res string) (ParsePrivateKey : string -> option error)
  (webauthn_New : string -> string -> option error) (price_order : gmap string string -> list (string * string)).

(** The SSH client; an unusable key only disables it. *)
Definition ssh_client (cfg : Config.Config) : option SSHExec.Client :=
  if is_empty (c_SSHKeyPath cfg) then None else
  match SSHExec.NewClient ReadFile ParsePrivateKey (c_SSHKeyPath cfg) with
  | Fail _ => None
  | Ok c => Some (SSHExec.WithPort (c_SSHPort cfg) (SSHExec.WithUser (c_SSHUser cfg) c))
  end.

Definition caddy_client (cfg : Config.Config) : option CaddyClient.Client :=
  if is_empty (c_CaddyAdminURL cfg) then None else
  Some (CaddyClient.WithUpstreamPort
    (CaddyClient.NewClient (c_CaddyAdminURL cfg) (c_CaddyServerName cfg) (c_CaddyDomain cfg)) (c_CaddyUpstreamPort cfg)).

(** The provisioner with what is configured, in the order of the calls. *)
Definition wire_provisioner (cfg : Config.Config) : Provisioner.Provisioner :=
  let p := Provisioner.New (c_EncryptionKey cfg) in
  let p := Provisioner.WithStationCreator (c_CaddyDomain cfg) p in
  let p := if ssh_client cfg is Some _ then Provisioner.WithSSHClient p else p in
  let p := Provisioner.WithTopology (c_LXCBridge cfg) (c_TenantMountRoot cfg) (c_TenantAppDir cfg) p in
  let p := if is_empty (c_FreeRadioRepoURL cfg) then p
           else Provisioner.WithFreeRadioRepo (c_FreeRadioRepoURL cfg) (c_FreeRadioRepoBranch cfg) p in
  if caddy_client cfg is Some _ then Provisioner.WithCaddyClient p else p.

(** The relying party of WebAuthn and its origin. *)
Definition relying_party (cfg : Config.Config) : string * string :=
  let rpID := if is_empty (c_WebAuthnRPID cfg) then "localhost" else c_WebAuthnRPID cfg in
  (rpID, if is_empty (c_WebAuthnOrigin cfg) then "https://" +:+ rpID else c_WebAuthnOrigin cfg).

Definition wg_handler (cfg : Config.Config) : option WGHandler.Handler :=
  if is_empty (c_WGHubPublicKey cfg) then None else
  let service := WGService.NewService (c_EncryptionKey cfg) (c_WGHubPublicKey cfg) (c_WGHubEndpoint cfg) (c_WGNetworkCIDR cfg) in
  Some (WGHandler.mkHandler
    (WGService.WithKeepalive (c_WGKeepalive cfg)
      (WGService.WithDNSAddr (c_WGDNSAddr cfg) (WGService.WithInterface (c_WGInterface cfg) service))) true).

Definition billing_service (cfg : Config.Config) : option Billing.Service :=
  if is_empty (c_StripeSecretKey cfg) then None else
  Some (Billing.NewService (c_StripeWebhookSecret cfg) (c_StripePrices cfg) (price_order (c_StripePrices cfg))).

Definition New (cfg : Config.Config) : res Server :=
  let '(rpID, rpOrigin) := relying_party cfg in
  match webauthn_New rpID rpOrigin with
  | Some e => Fail (EWrap "webauthn" e)
  | None =>
  match ParseTemplates with
  | Fail e => Fail (EWrap "admin handler" e)
  | Ok tmpl => Ok {|
      sv_templates := tmpl;
      sv_cors := cors_options cfg;
      sv_config := {|
        cf_APIToken := c_APIToken cfg;
        cf_node := NodeHandler.mkHandler true (c_EncryptionKey cfg) true;
        cf_audit := true;
        cf_user := UserHandler.NewUserHandler true (c_SSODomain cfg) (c_SSOScheme cfg);
        cf_prov := wire_provisioner cfg;
        cf_auth := AuthHandler.mkHandler (c_JWTSecret cfg) (c_RegistrationToken cfg) (c_CookieSecure cfg);
        cf_billing := billing_service cfg;
        cf_wg := wg_handler cfg;
        cf_station := StationHandler.mkStationHandler true true true;
        cf_encryptionKey := c_EncryptionKey cfg;
        cf_setupToken := c_SetupToken cfg |};
      sv_poller := StationPoller.mkPoller false;
      sv_pollerInterval := c_PollerInterval cfg;
      sv_janitorInterval := c_JanitorInterval cfg;
      sv_caddy := caddy_client cfg;
      sv_ssh := ssh_client cfg |}
  end
  end.

(** ** The process *)

(** How [main] goes: it exits with status 1, before the listener or because of
    it; or the server runs; or it runs until a background loop has made its first
    pass and asks for its ticker, whose panic ends the process. *)
Inductive Outcome `{TemplateLib} :=
| Exited (e : error)
| Panicked (s : Server)
| Serving (s : Server) (level : Level).

(** [time.NewTicker] panics unless the interval is positive. *)
Definition NewTicker (d : Z) : option unit := if 0 <? d then Some tt else None.

(** [ListenAndServe] is the error the listener fails with, if it does not take
    connections; [listener_first] tells whether that error or the panic of a
    ticker comes first, when both are on their way. *)
Definition main `{DatabaseLib} (ListenAndServe : string -> option error) (listener_first : bool)
    (env : string -> string) : Outcome :=
  match Load env with
  | Fail e => Exited e
  | Ok cfg =>
      match Connect (c_DatabaseURL cfg) with
      | Some e => Exited e
      | None =>
          match Migrate (c_DatabaseURL cfg) with
          | Some e => Exited e
          | None =>
              match New cfg with
              | Fail e => Exited e
              | Ok s =>
                  match NewTicker (sv_pollerInterval s), NewTicker (sv_janitorInterval s),
                    ListenAndServe (c_ListenAddr cfg) with
                  | Some _, Some _, None => Serving s (log_level (c_LogLevel cfg))
                  | Some _, Some _, Some e => Exited e
                  | _, _, Some e => if listener_first then Exited e else Panicked s
                  | _, _, None => Panicked s
                  end
              end
          end
      end
  end.

End Build.

(** ** What the listener serves *)

Section Listener.
Context `{HE : Env} `{HA : AuthLib} `{HB : Billing.Stripe} `{HW : WGService.WgLib}
  `{HK : AdminAuth.WebAuthnLib} `{HN : AdminRoutes.Nosurf} `{HC : CorsLib}.

(** [securityHeaders]: the headers of every response that reaches it. *)
Definition security_headers : list (string * string) :=
  [("X-Frame-Options", "DENY"); ("X-Content-Type-Options", "nosniff");
   ("Referrer-Policy", "strict-origin-when-cross-origin");
   ("Strict-Transport-Security", "max-age=63072000; includeSubDomains");
   ("Content-Security-Policy",
    "default-src 'self'; script-src 'self'; style-src 'self' 'unsafe-inline'; img-src 'self' data:")].

Definition with_security (r : HTTPResponse) : HTTPResponse :=
  mkHTTPResponse (r_Status r) (r_Body r) (r_Cookies r) (security_headers ++ r_Headers r).

Definition securityHeaders (next : P HTTPResponse) : P HTTPResponse := let! r := next in Ret (with_security r).

(** internal/health/handler.go: the ping is one round trip to the database. *)
Definition Healthz : P HTTPResponse :=
  let? _u := query (fun _ => tt) catch _e => Ret (Error StatusServiceUnavailable "database unreachable") in
  Ret (JSON StatusOK (BJson (JObject [("status", JString "ok")]))).

Inductive Route := HealthRoute | Endpoint (r : Request).

(** The CORS handler stands before [securityHeaders] and answers preflights itself. *)
Definition cors (opts : CorsOptions) (q : cors_request) (next : P HTTPResponse) : P HTTPResponse :=
  match cors_preflight opts q with
  | Some r => Ret r
  | None =>
      let! r := next in
      Ret (mkHTTPResponse (r_Status r) (r_Body r) (r_Cookies r) (cors_headers opts q ++ r_Headers r))
  end.

Definition ServeHTTP `{TemplateLib} (s : Server) (q : cors_request) (hd : Headers) (r : Route) : P HTTPResponse :=
  cors (sv_cors s) q
    (securityHeaders (match r with HealthRoute => Healthz | Endpoint r => handle (sv_config s) hd r end)).

(** What a response becomes on the way out. *)
Definition sent `{TemplateLib} (s : Server) (q : cors_request) (r : HTTPResponse) : HTTPResponse :=
  mkHTTPResponse (r_Status r) (r_Body r) (r_Cookies r) (cors_headers (sv_cors s) q ++ security_headers ++ r_Headers r).

(** ** What starts *)

Lemma run_securityHeaders next w : run (securityHeaders next) w = (with_security (run next w).1, (run next w).2).
Proof. unfold securityHeaders. rewrite run_bind. by destruct (run next w). Qed.

Lemma wp_securityHeaders next Q w :
  wp next (fun r w' => Q (with_security r) w') w -> wp (securityHeaders next) Q w.
Proof. intros Hn. unfold securityHeaders. apply wp_bind. eapply wp_mono; [exact Hn|]. intros r w' HQ. by apply wp_ret. Qed.

Lemma run_ServeHTTP `{TemplateLib} s q hd r w :
  cors_preflight (sv_cors s) q = None ->
  let a := run (match r with HealthRoute => Healthz | Endpoint r => handle (sv_config s) hd r end) w in
  run (ServeHTTP s q hd r) w = (sent s q a.1, a.2).
Proof.
  intros Hq a. unfold ServeHTTP, cors. rewrite Hq, run_bind, run_securityHeaders. by subst a; destruct (run _ w).
Qed.

Lemma wp_ServeHTTP `{TemplateLib} s q hd r Q w :
  cors_preflight (sv_cors s) q = None ->
  wp (handle (sv_config s) hd r) (fun r w' => Q (sent s q r) w') w -> wp (ServeHTTP s q hd (Endpoint r)) Q w.
Proof.
  intros Hq Hn. unfold ServeHTTP, cors. rewrite Hq. apply wp_bind, wp_securityHeaders.
  eapply wp_mono; [exact Hn|]. intros a w' HQ. by apply wp_ret.
Qed.

(** No registration begins on an empty server without a setup token. *)
Lemma wp_no_setup key hd Q w :
  WebAuthnStore.credentials w = ∅ ->
  (forall r w', unchanged w w' -> r_Status r = 403 \/ r_Status r = 500 -> Q r w') ->
  wp (AdminAuth.registerBegin key EmptyString hd) Q w.
Proof.
  intros He HQ. unfold AdminAuth.registerBegin. apply wp_bind. apply wp_query.
  - intros e w1 H1 _. apply wp_ret, HQ; [done|by right].
  - intros w1 H1 _. rewrite bool_decide_eq_false_2.
    + apply wp_bind, wp_ret, wp_ret, HQ; [done|by left].
    + intros Hn. apply Hn. unfold WebAuthnStore.credentials in *. by rewrite (AdminSpec.unchanged_keys _ _ H1).
Qed.

End Listener.

(** ** What starting gives *)

Section Started.
Context `{HT : TemplateLib} (ReadFile : string -> res string) (ParsePrivateKey : string -> option error)
  (webauthn_New : string -> string -> option error) (price_order : gmap string string -> list (string * string))
  (env : string -> string) (ListenAndServe : string -> option error) (listener_first : bool) `{HD : DatabaseLib}.

Definition outcome : Outcome :=
  main ReadFile ParsePrivateKey webauthn_New price_order ListenAndServe listener_first env.

(** Why a start fails: a required variable, the database, its migrations, the
    parameters of WebAuthn, the templates, or the listener. *)
Definition start_failure (e : error) : Prop :=
  (exists key, key ∈ required /\ env key = EmptyString /\
     e = errorString ("required environment variable " +:+ key +:+ " is not set")) \/
  Connect (env "DATABASE_URL") = Some e \/ Migrate (env "DATABASE_URL") = Some e \/
  (exists rpID origin e', webauthn_New rpID origin = Some e' /\ e = EWrap "webauthn" e') \/
  (exists e', ParseTemplates = Fail e' /\ e = EWrap "admin handler" e') \/
  ListenAndServe (getEnv env "LISTEN_ADDR" "127.0.0.1:8080") = Some e.

(** A duration variable that is a number of seconds too large for 64 bits of
    nanoseconds. *)
Definition oversized (key : string) : Prop :=
  exists sec, atoi (env key) = Some sec /\ 2 ^ 63 <= sec * Config.second.

Lemma Load_cases :
  match Load env with
  | Fail e => start_failure e
  | Ok cfg => c_DatabaseURL cfg = env "DATABASE_URL" /\ c_APIToken cfg = env "API_TOKEN" /\
      c_ListenAddr cfg = getEnv env "LISTEN_ADDR" "127.0.0.1:8080" /\
      env "API_TOKEN" <> EmptyString /\ c_WGHubPublicKey cfg = env "WG_HUB_PUBLIC_KEY" /\
      c_SetupToken cfg = env "SETUP_TOKEN" /\ c_StripeSecretKey cfg = env "STRIPE_SECRET_KEY" /\
      duration_ok env "POLLER_INTERVAL" (c_PollerInterval cfg) /\
      duration_ok env "AUTH_JANITOR_INTERVAL" (c_JanitorInterval cfg)
  end.
Proof.
  unfold Load, requireEnv.
  destruct (is_empty (env "DATABASE_URL")) eqn:E1; [left; eexists; split; [|by apply is_empty_true in E1]; set_solver|].
  destruct (is_empty (env "API_TOKEN")) eqn:E2; [left; eexists; split; [|by apply is_empty_true in E2]; set_solver|].
  destruct (is_empty (env "ENCRYPTION_KEY")) eqn:E3; [left; eexists; split; [|by apply is_empty_true in E3]; set_solver|].
  destruct (is_empty (env "JWT_SECRET")) eqn:E4; [left; eexists; split; [|by apply is_empty_true in E4]; set_solver|].
  split_and!; try done.
  - by apply is_empty_false.
  - by apply parseDuration_ok.
  - by apply parseDuration_ok.
Qed.

Lemma NewTicker_oversized key d : duration_ok env key d -> NewTicker d = None -> oversized key.
Proof. unfold NewTicker. intros [H|H]; [|done]. by destruct (Z.ltb_spec 0 d); [|lia]. Qed.

Lemma NewTicker_pos d u : NewTicker d = Some u -> 0 < d.
Proof. unfold NewTicker. by destruct (Z.ltb_spec 0 d). Qed.

Context `{HE : Env} `{HA : AuthLib} `{HB : Billing.Stripe} `{HW : WGService.WgLib}
  `{HK : AdminAuth.WebAuthnLib} `{HN : AdminRoutes.Nosurf} `{HC : CorsLib}.


(** The wrapped interval ends the process. With ten billion seconds for the
    poller, a value the parser neither refuses nor replaces by the documented
    fallback of 10 seconds, and nothing else wrong, the interval is negative and
    the process dies in [time.NewTicker] after the first poll. *)
Theorem interval_wraps (c : Config.Config) (s : Server)
  (Henv : env "POLLER_INTERVAL" = "10000000000") (Hload : Load env = Ok c)
  (Hc : Connect (c_DatabaseURL c) = None) (Hm : Migrate (c_DatabaseURL c) = None)
  (Hs : New ReadFile ParsePrivateKey webauthn_New price_order c = Ok s)
  (Hlisten : ListenAndServe (c_ListenAddr c) = None) :
  outcome = Panicked s /\ sv_pollerInterval s < 0.
Proof.
  destruct (poller_interval_wrapped env c Henv Hload) as [_ Hneg].
  assert (sv_pollerInterval s = c_PollerInterval c) as Ei.
  { revert Hs. unfold New. destruct (relying_party c). destruct (webauthn_New _ _); [done|].
    destruct ParseTemplates; [|done]. by intros [= <-]. }
  split; [|by rewrite Ei]. unfold outcome, main. rewrite Hload, Hc, Hm, Hs, Ei, Hlisten. unfold NewTicker.
  by destruct (Z.ltb_spec 0 (c_PollerInterval c)); [lia|].
Qed.

End Started.

(** ** Examples *)

(** A host without an SSH key, a database that answers, a library that takes any
    relying party. *)
Definition demo_new : Config.Config -> res (@Server demo_templates) :=
  @New demo_templates (fun _ => Fail (errorString "no such file")) (fun _ => None) (fun _ _ => None) (fun m => map_to_list m).
Definition demo_database : DatabaseLib := {|
  pgx_ParseConfig := fun _ => None; pgx_NewWithConfig := fun _ => None; pgx_Ping := fun _ => None;
  iofs_New := None; migrate_New := fun _ => None; migrate_Up := fun _ => Some ErrNoChange |}.
Definition demo_main (env : string -> string) : @Outcome demo_templates :=
  @outcome demo_templates (fun _ => Fail (errorString "no such file")) (fun _ => None) (fun _ _ => None) (fun m => map_to_list m)
    env (fun _ => None) false demo_database.

(** A request is a preflight or not, and every other response names the method. *)
Definition demo_cors : CorsLib := {|
  cors_request := bool;
  cors_preflight := fun _ q => if q then Some (mkHTTPResponse 204 BEmpty [] [("Vary", "Origin")]) else None;
  cors_headers := fun _ _ => [("Vary", "Origin")] |}.

Definition demo_serve (s : @Server demo_templates) (q : bool) (r : Route) : P HTTPResponse :=
  @ServeHTTP calm AuthSpec.demo_auth BillingSpec.demo_stripe WGSpec.demo_lib AdminSpec.demo_webauthn
    AdminSpec.demo_nosurf demo_cors demo_templates s q AuthSpec.no_headers r.


Lemma interval_wraps_witness :
  exists s : @Server demo_templates, demo_main (demo_env "10000000000") = Panicked s /\ sv_pollerInterval s < 0.
Proof.
  eexists.
  exact (@interval_wraps demo_templates (fun _ => Fail (errorString "no such file")) (fun _ => None) (fun _ _ => None)
    (fun m => map_to_list m) (demo_env "10000000000") (fun _ => None) false demo_database _ _
    eq_refl eq_refl eq_refl eq_refl eq_refl eq_refl).
Defined.
