(* ===== verification/System.v ===== *)
(** * The control plane as a concurrent system

    Every route of the server, the administration's among them, the provisioning goroutines, the status
    poller, the janitor and the synchronisation of the hub run concurrently over
    one database, one atomic operation at a time, in any order. The
    theorems hold in every reachable state, with every statement free to fail
    and every remote system free to answer anything. *)

From stdpp Require Import gmap strings list fin_maps relations.
From Stdlib Require Import ZArith Lia.
From S2P Require Import Prelude GoStrings World Response AuthHandler Tables TenantFSM StoreSafe TenantHandler Lifecycle LifecycleSpec TenantHandlerSpec ServicesSafe Server.
From S2P Require UserHandler NodeStore ProjectStore TenantStore NodeHandler ProjectHandler Provisioner ProvisionerSafe ProvisionerSpec.
From S2P Require AuthStore Billing WGStore WGService WGHandler StationStore StationPoller StationHandler AdminAuth AdminRoutes AdminSafe WebAuthnStore.

Open Scope Z_scope.

#[export] Instance provisioner_laws `{Env} (p : Provisioner.Provisioner) :
  @ProvisionerLaws (provisioner_ops p).
Proof.
  split; simpl.
  - done.
  - intros. apply ProvisionerSafe.keeps_Deprovision.
  - intros. apply ProvisionerSafe.keeps_Suspend.
  - intros. apply ProvisionerSafe.keeps_Resume.
  - intros. by apply ProvisionerSafe.keeps_Provision.
Qed.

(** Project requests with a RAM figure that is not negative, which the
    endpoints do not check. *)
Definition request_ok (r : Request) : Prop :=
  match r with
  | ProjectCreate (Some req) => create_project_ok req
  | ProjectUpdate _ (Some req) => update_project_ok req
  | _ => True
  end.

Section System.
Context `{HE : Env} `{HA : AuthLib} `{HB : Billing.Stripe} `{HW : WGService.WgLib}
  `{HK : AdminAuth.WebAuthnLib} `{HN : AdminRoutes.Nosurf} (cf : Config).

(** A request as a thread whose response goes to its client. *)
Definition thread (r : Headers * Request) : P unit := let! _resp := handle cf r.1 r.2 in Ret tt.

(** The goroutines [main] starts besides the listener: the status poller for as
    many ticks as it gets, the janitor's sweeps, and the first synchronisation
    of the WireGuard interface. *)
Inductive background : P unit -> Prop :=
| bg_poller n : background (StationPoller.Run (StationPoller.mkPoller false) n)
| bg_janitor tokens n : background (AuthHandler.JanitorRun tokens n)
| bg_sync h : cf_wg cf = Some h ->
    background (let! _e := WGService.SyncPeers (WGHandler.wh_service h) in Ret tt).

(** A pending provisioning goroutine starts, or one of those. *)
Definition starts (w : World) (p : P unit) (w' : World) : Prop :=
  (exists l1 j l2, w_jobs w = l1 ++ j :: l2 /\ p = Provisioner.run_job (cf_prov cf) j /\
    w' = set_jobs (l1 ++ l2) w) \/
  (background p /\ w' = w).

(** States reachable from [w] by serving [rs] concurrently. *)
Definition reachable (rs : list (Headers * Request)) (w w' : World) : Prop :=
  exists ts, rtc (pool_step starts) (map thread rs, w) (ts, w').

(** A single request served alone. *)
Lemma reachable_one r w : reachable [r] w (run (thread r) w).2.
Proof. exists []. exact (pool_run starts (thread r) [] w). Qed.

(** ** Every endpoint is safe *)

Lemma keeps_NodeCreate b : keeps any (NodeHandler.Create (cf_node cf) b).
Proof.
  unfold NodeHandler.Create. destruct b as [req|]; [|apply safe_any].
  destruct (_ || _) eqn:E; [apply safe_any|]. apply orb_false_elim in E as [_ E%Z.leb_gt].
  do 3 (destruct (_ : bool); [apply safe_any|]).
  apply safe_bind_any; [eauto with safe|]. intros [enc|e]; [|apply safe_any].
  apply safe_bind_any; [apply keeps_node_Create; simpl; lia|]. intros [n|e].
  - apply safe_bind_any; [apply keeps_audit_log|]. intros _. apply safe_any.
  - destruct (is_pg_code _ _); apply safe_any.
Qed.

Lemma keeps_update_encrypted id req : keeps any (NodeHandler.update_encrypted (cf_node cf) id req).
Proof.
  unfold NodeHandler.update_encrypted. apply safe_bind_any; [eauto with safe|]. intros [[n|]|e].
  - apply safe_bind_any.
    + destruct (NodeStore.un_APIToken req); [|apply safe_any].
      destruct (NodeHandler.h_provisioner _); [apply keeps_set_clients|apply safe_any].
    + intros _. apply safe_bind_any; [apply keeps_audit_log|]. intros _. apply safe_any.
  - apply safe_any.
  - destruct (errors_Is _ _); [apply safe_any|]. destruct (errors_Is _ _); apply safe_any.
Qed.

Lemma keeps_NodeUpdate id b : keeps any (NodeHandler.Update (cf_node cf) id b).
Proof.
  unfold NodeHandler.Update. destruct (negb _); [apply safe_any|]. destruct b as [req|]; [|apply safe_any].
  do 3 (match goal with |- safe _ _ any (if ?b then _ else _) => destruct b end; [apply safe_any|]).
  destruct (NodeStore.un_APIToken req); [|apply keeps_update_encrypted].
  apply safe_bind_any; [eauto with safe|]. intros [enc|e]; [|apply safe_any].
  apply keeps_update_encrypted.
Qed.

Lemma keeps_NodeDelete id : keeps any (NodeHandler.Delete (cf_node cf) id).
Proof.
  unfold NodeHandler.Delete. destruct (negb _); [apply safe_any|].
  apply safe_bind_any; [eauto with safe|]. intros [c|e]; [|apply safe_any].
  destruct (0 <? c); [apply safe_any|]. apply safe_bind_any; [eauto with safe|]. intros [e|].
  - destruct (errors_Is _ _); apply safe_any.
  - apply safe_bind_any; [apply keeps_audit_log|]. intros _. apply safe_any.
Qed.

Lemma keeps_ProjectCreate b :
  request_ok (ProjectCreate b) -> keeps any (ProjectHandler.Create (cf_audit cf) b).
Proof.
  intros Hok. unfold ProjectHandler.Create. destruct b as [req|]; [|apply safe_any].
  destruct (_ || _); [apply safe_any|].
  apply safe_bind_any; [by apply keeps_project_Create|]. intros [p|e].
  - apply safe_bind_any; [apply keeps_audit_log|]. intros _. apply safe_any.
  - destruct (is_pg_code _ _); apply safe_any.
Qed.

Lemma keeps_ProjectUpdate id b :
  request_ok (ProjectUpdate id b) -> keeps any (ProjectHandler.Update (cf_audit cf) id b).
Proof.
  intros Hok. unfold ProjectHandler.Update. destruct (negb _); [apply safe_any|].
  destruct b as [req|]; [|apply safe_any].
  apply safe_bind_any; [by apply keeps_project_Update|]. intros [[p|]|e].
  - apply safe_bind_any; [apply keeps_audit_log|]. intros _. apply safe_any.
  - apply safe_any.
  - destruct (errors_Is _ _); [apply safe_any|]. destruct (is_pg_code _ _); apply safe_any.
Qed.

Lemma keeps_ProjectDelete id : keeps any (ProjectHandler.Delete (cf_audit cf) id).
Proof.
  unfold ProjectHandler.Delete. destruct (negb _); [apply safe_any|].
  apply safe_bind_any; [eauto with safe|]. intros [c|e]; [|apply safe_any].
  destruct (0 <? c); [apply safe_any|]. apply safe_bind_any; [eauto with safe|]. intros [e|].
  - destruct (errors_Is _ _); apply safe_any.
  - apply safe_bind_any; [apply keeps_audit_log|]. intros _. apply safe_any.
Qed.

Lemma keeps_bearerAuth token hd next : keeps any next -> keeps any (bearerAuth token hd next).
Proof. intros Hn. unfold bearerAuth. safe_auto. Qed.

Lemma keeps_with_wg k : (forall h, keeps any (k h)) -> keeps any (with_wg cf k).
Proof. intros Hk. unfold with_wg. safe_auto. Qed.

Lemma keeps_api_route r : request_ok r -> keeps any (api_route cf r).
Proof.
  intros Hok. pose proof (provisioner_laws (cf_prov cf)) as HL.
  destruct r; cbn [api_route]; cbv zeta; try apply safe_any.
  - unfold NodeHandler.List. apply safe_bind_any; [eauto with safe|]. intros []; apply safe_any.
  - unfold NodeHandler.Get. destruct (negb _); [apply safe_any|].
    apply safe_bind_any; [eauto with safe|]. intros [[]|]; apply safe_any.
  - apply keeps_NodeCreate.
  - apply keeps_NodeUpdate.
  - apply keeps_NodeDelete.
  - unfold ProjectHandler.List. apply safe_bind_any; [eauto with safe|]. intros []; apply safe_any.
  - unfold ProjectHandler.Get. destruct (negb _); [apply safe_any|].
    apply safe_bind_any; [eauto with safe|]. intros [[]|]; apply safe_any.
  - by apply keeps_ProjectCreate.
  - by apply keeps_ProjectUpdate.
  - apply keeps_ProjectDelete.
  - apply keeps_Admin_List.
  - apply keeps_with_tenant. intros. apply safe_any.
  - by apply keeps_Admin_Create.
  - apply keeps_Admin_Update.
  - apply keeps_with_tenant. intros. by apply keeps_suspend_tenant.
  - apply keeps_with_tenant. intros. by apply keeps_resume_tenant.
  - apply keeps_with_tenant. intros. by apply keeps_delete_tenant.
  - apply keeps_with_wg. intros. apply keeps_ListPeers.
  - apply keeps_with_wg. intros. apply keeps_with_peer. intros. apply safe_any.
  - apply keeps_with_wg. intros. apply keeps_CreatePeer.
  - apply keeps_with_wg. intros. apply keeps_UpdatePeer.
  - apply keeps_with_wg. intros. apply keeps_DeletePeer.
  - apply keeps_with_wg. intros. apply keeps_EnablePeer.
  - apply keeps_with_wg. intros. apply keeps_DisablePeer.
  - apply keeps_with_wg. intros. apply keeps_with_peer. intros. apply safe_any.
  - apply keeps_with_wg. intros. apply keeps_GetPeerQR.
  - apply keeps_StationCreate.
  - apply keeps_StationUpdate.
  - apply keeps_StationDelete.
Qed.

Lemma keeps_user_route hd r u : keeps any (user_route cf hd r u).
Proof.
  pose proof (provisioner_laws (cf_prov cf)) as HL.
  destruct r; cbn [user_route]; cbv zeta; try apply safe_any.
  - apply keeps_User_List.
  - apply keeps_with_own. intros. apply safe_any.
  - by apply keeps_User_Create.
  - apply keeps_SSOToken.
  - apply keeps_with_own. intros. by apply keeps_suspend_tenant.
  - apply keeps_with_own. intros. by apply keeps_resume_tenant.
  - apply keeps_with_own. intros. by apply keeps_delete_tenant.
  - apply keeps_Logout.
  - apply keeps_ChangePassword.
  - apply keeps_CreateCheckout.
  - apply keeps_CreatePortal.
  - apply keeps_Status.
Qed.

Lemma keeps_public_route hd r : keeps any (public_route cf hd r).
Proof.
  destruct r; cbn [public_route]; try apply safe_any.
  - apply keeps_station_List.
  - apply keeps_Genres.
  - apply keeps_GetBySlug.
  - apply keeps_Register.
  - apply keeps_Login.
  - apply keeps_Refresh.
  - apply keeps_Webhook.
Qed.

Lemma keeps_handle hd r : request_ok r -> keeps any (handle cf hd r).
Proof.
  intros Hok. unfold handle. destruct (access r).
  - by apply keeps_bearerAuth, keeps_api_route.
  - apply keeps_JWTAuth. intros u. apply keeps_user_route.
  - apply keeps_public_route.
  - destruct r; try apply safe_any. cbv zeta. pose proof (provisioner_laws (cf_prov cf)).
    by apply AdminSafe.keeps_Routes.
Qed.

Lemma keeps_background p : background p -> keeps any p.
Proof.
  intros [n|b n|h _]; [apply keeps_poller_Run|apply keeps_JanitorRun|].
  apply safe_bind_any; [apply keeps_SyncPeers|]. intros; apply safe_any.
Qed.

(** ** Reachable states *)

Lemma starts_ok w p w' : starts w p w' -> world_ok w -> world_ok w' /\ world_step w w' /\ keeps any p.
Proof.
  intros [(l1 & j & l2 & Hj & -> & ->)|[Hbg ->]] [T C N Pr R J Pe Au St Ky];
    [|split; [by split|split; [by apply world_step_refl|by apply keeps_background]]].
  split; [|split; [by apply world_step_frame|apply ProvisionerSafe.keeps_run_job]].
  split; try done. simpl. intros j' Hj'. apply J. rewrite Hj. revert Hj'.
  rewrite !elem_of_app, elem_of_cons. tauto.
Qed.

Lemma keeps_threads rs :
  Forall (fun r => request_ok r.2) rs -> Forall (safe world_ok world_step any) (map thread rs).
Proof.
  intros Hrs. apply Forall_map. eapply Forall_impl; [done|]. intros r Hr.
  unfold compose, thread. apply safe_bind_any; [by apply keeps_handle|]. intros. apply safe_any.
Qed.

Lemma reachable_ok rs w w' :
  Forall (fun r => request_ok r.2) rs -> world_ok w -> reachable rs w w' ->
  world_ok w' /\ rtc world_step w w'.
Proof.
  intros Hrs Hw [ts Hts].
  destruct (safe_pool starts world_ok world_step (map thread rs, w) (ts, w')) as (H1 & H2 & _);
    [exact starts_ok|done|done|by apply keeps_threads|done].
Qed.

(** C1. From a consistent database, the constraints of the platform hold in every
    reachable state, under every interleaving of requests to every route of the
    API and of the administration (but requests that give a project a negative
    RAM, which the API accepts and [SystemSpec.negative_ram] shows to break the
    second constraint) with provisioning goroutines, the poller, the janitor and the
    hub's synchronisation, and every pattern of database and remote failures: no
    two tenants that are not deleted share a name or a subdomain; every node's
    reserved RAM stays between zero and its total; every running or suspended
    tenant has its container on record; every tenant's node and project exist;
    no two accounts share an address and no two refresh tokens a hash; no two
    WireGuard peers share a key or an address; no two stations share a slug, and
    a station's tenant exists; no two passkeys of the administrator are one
    credential; and the login limiter holds at most 10,000 addresses. *)
Theorem system_invariant (rs : list (Headers * Request)) (w w' : World)
  (Hrs : Forall (fun r => request_ok r.2) rs) (Hw : world_ok w) (Hreach : reachable rs w w') :
  (forall id1 id2 t1 t2, w_tenants w' !! id1 = Some t1 -> w_tenants w' !! id2 = Some t2 -> id1 <> id2 ->
     t_Status t1 <> deleted -> t_Status t2 <> deleted ->
     t_Name t1 <> t_Name t2 /\ t_Subdomain t1 <> t_Subdomain t2) /\
  (forall id n, w_nodes w' !! id = Some n -> 0 <= n_AllocatedRAMMB n <= n_TotalRAMMB n) /\
  (forall id t, w_tenants w' !! id = Some t ->
     (t_Status t = active \/ t_Status t = suspended -> is_Some (t_LXCID t)) /\
     is_Some (w_nodes w' !! t_NodeID t) /\ is_Some (w_projects w' !! t_ProjectID t)) /\
  (forall i j u v, AuthStore.users w' !! i = Some u -> AuthStore.users w' !! j = Some v -> i <> j ->
     us_Email u <> us_Email v) /\
  (forall i j r s, AuthStore.refresh_tokens w' !! i = Some r -> AuthStore.refresh_tokens w' !! j = Some s -> i <> j ->
     rt_TokenHash r <> rt_TokenHash s) /\
  (forall i j p q, w_peers w' !! i = Some p -> w_peers w' !! j = Some q -> i <> j ->
     pe_PublicKey p <> pe_PublicKey q /\ pe_WgIP p <> pe_WgIP q) /\
  (forall i j a b, StationStore.stations w' !! i = Some a -> StationStore.stations w' !! j = Some b -> i <> j ->
     sr_Slug a <> sr_Slug b) /\
  (forall i a t, StationStore.stations w' !! i = Some a -> sr_TenantID a = Some t -> is_Some (w_tenants w' !! t)) /\
  (forall i j a b, WebAuthnStore.credentials w' !! i = Some a -> WebAuthnStore.credentials w' !! j = Some b -> i <> j ->
     wc_ID (cd_Credential a) <> wc_ID (cd_Credential b)) /\
  Z.of_nat (size (AuthStore.limiter w')) <= 10000.
Proof.
  destruct (reachable_ok rs w w' Hrs Hw Hreach) as [[T C N Pr R J Pe Au St Ky] _]. split_and!.
  - intros id1 id2 t1 t2 H1 H2 Hne L1 L2. apply (proj2 T id1 id2 t1 t2 H1 H2 Hne);
      unfold live, status_eqb; by rewrite bool_decide_eq_false_2.
  - intros id n Hn. by destruct (proj1 N _ _ Hn) as [_ [? _]].
  - intros id t Ht. split; [by apply (C id)|by apply (R id)].
  - intros i j u v Hi Hj Hne Heq. apply Hne. by eapply (AuthStore.ak_emails _ Au).
  - intros i j r s Hi Hj Hne Heq. apply Hne. by eapply (AuthStore.ak_hashes _ Au).
  - intros i j p q Hi Hj Hne. split; intros Heq; apply Hne; eapply (proj2 Pe); eauto.
  - intros i j a b Hi Hj Hne Heq. apply Hne. by eapply (proj2 St).
  - intros i a t Hi Ht. destruct (proj1 St _ _ Hi) as [_ Href]. rewrite Ht in Href. by apply bool_decide_eq_true in Href.
  - intros i j a b Hi Hj Hne Heq. apply Hne. by eapply (proj2 Ky).
  - exact (AuthStore.ak_limiter _ Au).
Qed.

Lemma evolves_path w w' :
  rtc world_step w w' -> forall id t, w_tenants w !! id = Some t ->
  exists t', w_tenants w' !! id = Some t' /\ rtc status_step (t_Status t) (t_Status t') /\
    t_ID t' = t_ID t /\ t_ProjectID t' = t_ProjectID t /\ t_NodeID t' = t_NodeID t /\
    t_Subdomain t' = t_Subdomain t /\ t_OwnerID t' = t_OwnerID t /\ t_CreatedAt t' = t_CreatedAt t.
Proof.
  induction 1 as [w|w1 w2 w3 Hs _ IH]; intros id t Ht.
  - exists t. split; [done|]. split; [apply rtc_refl|]. done.
  - destruct (st_tenants _ _ Hs _ _ Ht) as (t1 & Ht1 & [E1 E2 E3 E4 E5 E6 Est _]).
    destruct (IH _ _ Ht1) as (t2 & Ht2 & Hpath & F1 & F2 & F3 & F4 & F5 & F6).
    exists t2. split; [done|]. split; [|repeat split; congruence].
    destruct Est as [Est|Est]; [by rewrite <- Est|by eapply rtc_l].
Qed.

Lemma deleted_terminal st : rtc status_step deleted st -> st = deleted.
Proof. intros Hp. inversion Hp as [|? st2 ? Hst]; [done|]. inversion Hst. Qed.

(** C2. Every tenant follows the life cycle, in every interleaving: it is never
    removed, its identity, placement, owner and subdomain never change, and
    its status moves only along the edges of the machine (provisioning to
    active or error, active to suspended and back, active, suspended and error
    to deleting, deleting to deleted or error). A deleted tenant stays
    deleted. The requests are those of [system_invariant]. *)
Theorem system_lifecycle (rs : list (Headers * Request)) (w w' : World) (id : string) (t : Tenant)
  (Hrs : Forall (fun r => request_ok r.2) rs) (Hw : world_ok w) (Hreach : reachable rs w w')
  (Ht : w_tenants w !! id = Some t) :
  exists t', w_tenants w' !! id = Some t' /\ rtc status_step (t_Status t) (t_Status t') /\
    (t_ID t', t_ProjectID t', t_NodeID t', t_Subdomain t', t_OwnerID t', t_CreatedAt t') =
      (t_ID t, t_ProjectID t, t_NodeID t, t_Subdomain t, t_OwnerID t, t_CreatedAt t) /\
    (t_Status t = deleted -> t_Status t' = deleted).
Proof.
  destruct (reachable_ok rs w w' Hrs Hw Hreach) as [_ Hsteps].
  destruct (evolves_path w w' Hsteps id t Ht) as (t' & Ht' & Hpath & E1 & E2 & E3 & E4 & E5 & E6).
  exists t'. split; [done|]. split; [done|]. split; [congruence|].
  intros Hd. rewrite Hd in Hpath. by apply deleted_terminal.
Qed.

End System.
