(* ===== verification/SystemSpec.v ===== *)
(** * Endpoints over the real provisioner

    Suspending and resuming with their roll-back, address allocation, and the
    concrete inputs on which the theorems of the previous files are applied. *)

From stdpp Require Import gmap strings list fin_maps relations.
From Stdlib Require Import ZArith Lia.
From S2P Require Import Prelude GoStrings NetIP World IPAlloc Response Tables TenantFSM StoreSafe ProvisionerSpec TenantHandler Lifecycle LifecycleSpec TenantHandlerSpec Server System.
From S2P Require UserHandler NodeStore ProjectStore TenantStore AuditStore Provisioner NodeHandler.
From S2P Require AdminUI AdminTenants AdminPagesSpec AdminSpec.
From S2P Require WGStore AuthStore AuthHandler WGHandler StationStore StationHandler.
From S2P Require AuthSpec BillingSpec WGSpec.
Import AuthSpec(demo_auth) BillingSpec(demo_stripe) WGSpec(demo_lib, demo_service).

Open Scope Z_scope.

Section Suspend.
Context `{Env} (p : Provisioner.Provisioner).

#[local] Instance ops : ProvisionerOps := provisioner_ops p.

(** A status CAS from the status the row is in moves it. *)
Lemma wp_cas msg tid st st' lxc N w :
  in_phase tid st lxc N w -> st <> deleted ->
  wp (TenantStore.exec_tenant msg TenantStore.ErrStateConflict tid (TenantStore.status_in [st])
        [SetStatus st']) (fun r w' =>
    w_trace w' = w_trace w /\
    ((r = None /\ in_phase tid st' lxc N w') \/
     (exists e, r = Some e /\ errors_Is e TenantStore.ErrStateConflict = false /\ faulty /\ in_phase tid st lxc N w'))) w.
Proof.
  intros Hw Hnd. unfold TenantStore.exec_tenant. apply wp_bind, wp_stmt.
  { intros m Hf. apply wp_ret. split; [done|]. right. eexists. split; [done|]. split; [done|].
    split; [by eexists; eexists|]. by apply (tables_only w). }
  intros _.
  set (w1 := set_tick (S (w_tick w)) w).
  assert (in_phase tid st lxc N w1) as Hw1 by by apply (tables_only w).
  pose proof Hw1 as (HN1 & _ & t & Ht & Hst & Hl).
  destruct (update_live tid st lxc N (TenantStore.status_in [st]) [SetStatus st'] w1 t) as [-> Hok];
    [done|done| | |congruence|].
  { apply status_in_spec. rewrite Hst. apply elem_of_cons. by left. }
  { intros c. rewrite !elem_of_cons, elem_of_nil. by intros [->|[]]. }
  apply wp_ret. split; [done|]. left. split; [done|]. split; [done|]. split; [done|].
  exists (apply_sets (env_now (w_tick w1)) [SetStatus st'] t). split; [apply lookup_insert_eq|].
  destruct (apply_sets_fields (env_now (w_tick w1)) [SetStatus st'] t) as (-> & -> & _). by destruct t.
Qed.

Lemma wp_tail tid st lxc N b action meta (Q : HTTPResponse -> World -> Prop) w :
  in_phase tid st lxc N w ->
  (forall r w', in_phase tid st lxc N w' -> w_trace w' = w_trace w ->
     (exists t, w_tenants w' !! tid = Some t /\ r = JSON StatusOK (BTenant (Some t))) \/
     (faulty /\ r = Error StatusInternalServerError "failed to get tenant") -> Q r w') ->
  wp (audit_log b action tid meta ;;; respond_refreshed tid) Q w.
Proof.
  intros Hw HQ. apply wp_bind.
  assert (forall w1, AuditStore.same_but_audit w w1 -> wp (respond_refreshed tid) Q w1) as Hend.
  { intros w1 (E1&E2&_&_&_&E3&_). unfold respond_refreshed, TenantStore.GetByID.
    apply wp_bind, wp_bind, wp_query; intros w2.
    - intros w3 [(F1&F2&_) [_ F3]] Hf. apply wp_ret, wp_ret, HQ; [|congruence|].
      + apply (tables_only w); congruence.
      + right. split; [by eexists; eexists|done].
    - intros [(F1&F2&_) [_ F3]] _. apply wp_ret, wp_ret.
      pose proof Hw as (_ & _ & t & Ht & _).
      assert (w_tenants w2 !! tid = Some t) as Ht2 by congruence.
      rewrite Ht2. apply HQ; [|congruence|left; by exists t].
      apply (tables_only w); congruence. }
  unfold audit_log. destruct b; [by apply AuditStore.wp_Log; auto|].
  apply wp_ret, Hend. by repeat split.
Qed.

(** The container call of a suspension: the phase is kept and the stop is on
    the record when it is answered. *)
Lemma wp_prov_Suspend tid st l N nid lxc w :
  in_phase tid st l N w ->
  wp (Provisioner.Suspend p tid nid lxc) (fun r w' => in_phase tid st l N w' /\
    (r = None -> exists node, EvStopContainer node lxc ∈ w_trace w')) w.
Proof.
  intros Hw. unfold Provisioner.Suspend.
  apply wp_bind, (wp_safe (in_phase tid st l N) anyway any); [eauto with safe typeclass_instances|done|].
  intros [c|e] w1 _ Hw1; [|by apply wp_ret].
  apply wp_bind, wp_ext. intros w2 (E1&E2&_) _ Htr.
  assert (in_phase tid st l N w2) as Hw2 by by apply (tables_only w1).
  destruct (env_ext _ _); [by apply wp_ret|]. apply wp_bind, wp_ext. intros w3 (F1&F2&_) _ Htr3.
  assert (in_phase tid st l N w3) as Hw3 by by apply (tables_only w2).
  destruct (env_ext _ _); [by apply wp_ret|]. apply wp_ret. split; [done|]. intros _.
  exists (c_NodeID c). rewrite Htr3, Htr. rewrite !elem_of_app. left. right. by apply list_elem_of_singleton.
Qed.

Lemma wp_prov_Resume tid st l N nid lxc w :
  in_phase tid st l N w ->
  wp (Provisioner.Resume p tid nid lxc) (fun r w' => in_phase tid st l N w' /\
    (r = None -> exists node, EvStartContainer node lxc ∈ w_trace w')) w.
Proof.
  intros Hw. unfold Provisioner.Resume.
  apply wp_bind, (wp_safe (in_phase tid st l N) anyway any); [eauto with safe typeclass_instances|done|].
  intros [c|e] w1 _ Hw1; [|by apply wp_ret].
  apply wp_bind, wp_ext. intros w2 (E1&E2&_) _ Htr.
  assert (in_phase tid st l N w2) as Hw2 by by apply (tables_only w1).
  destruct (env_ext _ _); [by apply wp_ret|]. apply wp_bind, wp_ext. intros w3 (F1&F2&_) _ Htr3.
  assert (in_phase tid st l N w3) as Hw3 by by apply (tables_only w2).
  destruct (env_ext _ _); [by apply wp_ret|]. apply wp_ret. split; [done|]. intros _.
  exists (c_NodeID c). rewrite Htr3, Htr. rewrite !elem_of_app. left. right. by apply list_elem_of_singleton.
Qed.

(** How a status change with its container call can end, from a tenant in
    status [st], towards [st']; [told] says that the container was told. *)
Definition moved (st st' : TenantStatus) (told : Event -> Prop) (failure : string) (t : Tenant)
    (w : World) (r : HTTPResponse) (w' : World) : Prop :=
  (t_Status t <> st /\ r_Status r = StatusConflict /\ w' = w) \/
  (t_Status t = st /\ w_nodes w' = w_nodes w /\
   ((r_Status r = StatusOK /\ has_status (t_ID t) st' w' /\
     (exists t', r_Body r = BTenant (Some t') /\ t_Status t' = st') /\
     (is_Some (t_LXCID t) -> exists ev, told ev /\ ev ∈ w_trace w')) \/
    (r = Error StatusInternalServerError failure /\ has_status (t_ID t) st w') \/
    (faulty /\ r_Status r = StatusInternalServerError /\
     (has_status (t_ID t) st w' \/ has_status (t_ID t) st' w')))).

Lemma in_phase_status tid st l N w : in_phase tid st l N w -> has_status tid st w.
Proof. intros (_ & _ & t & ? & ? & _). by exists t. Qed.

(** The shape of the two handlers: the status, the container, and the status
    back when the container does not follow. *)
Lemma wp_move st st' msg msg' b action (call : P (option error)) (told : Event -> Prop) failure conflicted failed_ t meta w :
  tenants_ok (w_tenants w) -> w_tenants w !! t_ID t = Some t -> t_Status t = st -> st <> deleted -> st' <> deleted ->
  (forall w1, in_phase (t_ID t) st' (t_LXCID t) (w_nodes w) w1 ->
     wp call (fun r w2 => in_phase (t_ID t) st' (t_LXCID t) (w_nodes w) w2 /\
       (r = None -> is_Some (t_LXCID t) -> exists ev, told ev /\ ev ∈ w_trace w2)) w1) ->
  wp (if_err e := TenantStore.exec_tenant msg TenantStore.ErrStateConflict (t_ID t) (TenantStore.status_in [st])
                    [SetStatus st'] then
        Ret (if errors_Is e TenantStore.ErrStateConflict then Error StatusConflict conflicted
             else Error StatusInternalServerError failed_)
      else
      let! done := call in
      match done with
      | Some e =>
          let! _rb := TenantStore.exec_tenant msg' TenantStore.ErrStateConflict (t_ID t)
                        (TenantStore.status_in [st']) [SetStatus st] in
          Ret (Error StatusInternalServerError failure)
      | None => audit_log b action (t_ID t) meta ;;; respond_refreshed (t_ID t)
      end)
    (moved st st' told failure t w) w.
Proof.
  intros Hok Ht Hst Hd Hd' Hcall. unfold moved.
  assert (in_phase (t_ID t) st (t_LXCID t) (w_nodes w) w) as Hw by (split_and!; eauto).
  apply wp_bind. eapply wp_mono; [by apply wp_cas|].
  intros ? w1 (_ & [(-> & Hw1)|(e & -> & He & Hf & Hw1)]).
  2: { rewrite He. apply wp_ret. right. split; [done|]. split; [apply Hw1|]. right. right.
       split; [done|]. split; [done|]. left. by eapply in_phase_status. }
  apply wp_bind. eapply wp_mono; [by apply Hcall|]. intros [e|] w2 [Hw2 Htold].
  - apply wp_bind. eapply wp_mono; [by apply wp_cas|]. intros ? w3 (_ & Hw3). apply wp_ret. right.
    split; [done|]. destruct Hw3 as [(_ & Hw3)|(e' & _ & _ & Hf & Hw3)]; (split; [apply Hw3|]); right.
    + left. split; [done|]. by eapply in_phase_status.
    + right. split; [done|]. split; [done|]. right. by eapply in_phase_status.
  - eapply wp_tail; [done|]. intros r w3 Hw3 Htr Hr. right. split; [done|]. split; [apply Hw3|].
    pose proof (in_phase_status _ _ _ _ _ Hw3) as Hs3.
    destruct Hr as [(t' & Ht' & ->)|(Hf & ->)]; [left|by right; right; auto].
    split; [done|]. split; [done|]. split.
    + exists t'. split; [done|]. destruct Hs3 as (t'' & ? & ?). congruence.
    + intros Hl. destruct (Htold eq_refl Hl) as (ev & ? & ?). exists ev. by rewrite Htr.
Qed.

Definition stop_of (lxc : option Z) (ev : Event) : Prop :=
  exists node id, lxc = Some id /\ ev = EvStopContainer node id.
Definition start_of (lxc : option Z) (ev : Event) : Prop :=
  exists node id, lxc = Some id /\ ev = EvStartContainer node id.

(** C11. Suspension is consistent with the container: for the row the handler
    has just read, run alone, with Proxmox free to do anything and any database
    statement free to fail. A tenant that is not active is refused with a 409
    and nothing changes. Otherwise no RAM account moves, and: a 200 carries the
    tenant in status suspended, and its container, if it has one, was told to
    stop; or the answer is 500 and the tenant is active again, so that the
    owner can retry. Only when a statement failed (the roll-back itself, or the
    read that follows a success) can a 500 leave the tenant suspended. *)
Theorem suspend_consistent (b : bool) (t : Tenant) (meta : option (list (string * string))) (w : World)
  (Hok : world_ok w) (Ht : w_tenants w !! t_ID t = Some t) :
  wp (suspend_tenant b t (t_ID t) meta) (fun r w' =>
    (t_Status t <> active /\ r_Status r = StatusConflict /\ w' = w) \/
    (t_Status t = active /\ w_nodes w' = w_nodes w /\
     ((r_Status r = StatusOK /\ has_status (t_ID t) suspended w' /\
       (exists t', r_Body r = BTenant (Some t') /\ t_Status t' = suspended) /\
       (is_Some (t_LXCID t) -> exists ev, stop_of (t_LXCID t) ev /\ ev ∈ w_trace w')) \/
      (r = Error StatusInternalServerError "failed to stop container" /\ has_status (t_ID t) active w') \/
      (faulty /\ r_Status r = StatusInternalServerError /\
       (has_status (t_ID t) active w' \/ has_status (t_ID t) suspended w'))))) w.
Proof.
  unfold suspend_tenant. destruct (status_eqb (t_Status t) active) eqn:Hs; cbn [negb];
    [apply bool_decide_eq_true in Hs|apply bool_decide_eq_false in Hs; apply wp_ret; by left].
  apply (wp_move active suspended); try done; [apply Hok|]. intros w1 Hw1.
  destruct (t_LXCID t) as [lxc|] eqn:El.
  - eapply wp_mono; [by apply wp_prov_Suspend|]. intros r w2 [Hw2 Hr]. split; [done|]. intros Hn _.
    destruct (Hr Hn) as [node Hin]. exists (EvStopContainer node lxc). split; [by exists node, lxc|done].
  - apply wp_ret. split; [done|]. by intros _ [? ?].
Qed.

(** Resumption likewise, from suspended to active, starting the container. *)
Theorem resume_consistent (b : bool) (t : Tenant) (meta : option (list (string * string))) (w : World)
  (Hok : world_ok w) (Ht : w_tenants w !! t_ID t = Some t) :
  wp (resume_tenant b t (t_ID t) meta)
    (moved suspended active (start_of (t_LXCID t)) "failed to start container" t w) w.
Proof.
  unfold resume_tenant. destruct (status_eqb (t_Status t) suspended) eqn:Hs; cbn [negb];
    [apply bool_decide_eq_true in Hs|apply bool_decide_eq_false in Hs; apply wp_ret; by left].
  apply (wp_move suspended active); try done; [apply Hok|]. intros w1 Hw1.
  destruct (t_LXCID t) as [lxc|] eqn:El.
  - eapply wp_mono; [by apply wp_prov_Resume|]. intros r w2 [Hw2 Hr]. split; [done|]. intros Hn _.
    destruct (Hr Hn) as [node Hin]. exists (EvStartContainer node lxc). split; [by exists node, lxc|done].
  - apply wp_ret. split; [done|]. by intros _ [? ?].
Qed.

End Suspend.

(** ** Address allocation *)

Section Allocation.
Context `{Env} (Hup : forall t, env_fault t = None).

Lemma wp_GetNextAvailableIP cidr w :
  wp (TenantStore.GetNextAvailableIP cidr) (fun r w' => unchanged w w' /\
    r = match ParsePrefix4 cidr with
        | None => Fail (errNotIPv4 cidr)
        | Some _ => Next cidr (CollectIPs (TenantStore.used_ips w))
        end) w.
Proof.
  unfold TenantStore.GetNextAvailableIP, IPAlloc.Allocate.
  destruct (ParsePrefix4 cidr); [|by apply wp_ret].
  apply wp_bind, wp_query; [intros m w1 _ Hf; by rewrite Hup in Hf|]. intros w1 Hun1 _.
  apply wp_bind, wp_query; [intros m w2 _ Hf; by rewrite Hup in Hf|]. intros w2 Hun2 _.
  apply wp_bind, wp_bind, wp_query; [intros m w3 _ Hf; by rewrite Hup in Hf|]. intros w3 Hun3 _.
  apply wp_ret.
  assert (unchanged w w3) as Hun by (etrans; [exact Hun1|]; etrans; [exact Hun2|exact Hun3]).
  assert (TenantStore.used_ips w3 = TenantStore.used_ips w) as ->
    by (unfold TenantStore.used_ips; by destruct Hun as [(->&_) _]).
  destruct (Next cidr _) eqn:E; [|by apply wp_ret].
  apply wp_bind, wp_query; [intros m w4 _ Hf; by rewrite Hup in Hf|]. intros w4 Hun4 _.
  apply wp_ret. split; [by etrans|done].
Qed.

(** Choosing an address does not reserve it. The choice is a function of
    the addresses on file and writes nothing, and the provisioner records it
    only after it has configured the container's network; so a second
    provisioning that chooses before that record is written, which the
    advisory lock does not prevent, is given the same address. *)
Theorem allocation_not_reserved (cidr : string) (w : World) :
  wp (TenantStore.GetNextAvailableIP cidr) (fun r1 w1 =>
    wp (TenantStore.GetNextAvailableIP cidr) (fun r2 w2 => r2 = r1 /\ w_tenants w2 = w_tenants w) w1) w.
Proof.
  eapply wp_mono; [apply wp_GetNextAvailableIP|]. intros r1 w1 [Hun1 ->].
  eapply wp_mono; [apply wp_GetNextAvailableIP|]. intros r2 w2 [Hun2 ->].
  assert (TenantStore.used_ips w1 = TenantStore.used_ips w) as ->
    by (unfold TenantStore.used_ips; by destruct Hun1 as [(->&_) _]).
  split; [done|]. transitivity (w_tenants w1); [apply Hun2|apply Hun1].
Qed.

End Allocation.

(** ** Witnesses *)

Definition one_tenant_world (t : Tenant) : World := set_tenants {["t1" := t]} (radio_world active None).

Lemma one_tenant_world_ok t :
  t_ID t = "t1" -> t_NodeID t = "n1" -> t_ProjectID t = "p1" -> has_container t ->
  world_ok (one_tenant_world t).
Proof.
  intros Hid Hnid Hpid Hc. unfold one_tenant_world. split; simpl.
  - split.
    + by intros id t0 [<- <-]%lookup_singleton_Some.
    + by intros id1 id2 t1 t2 [<- <-]%lookup_singleton_Some [<- <-]%lookup_singleton_Some.
  - by intros id t0 [<- <-]%lookup_singleton_Some.
  - apply radio_nodes_ok.
  - intros id p [<- <-]%lookup_singleton_Some. by vm_compute.
  - intros id t0 [<- <-]%lookup_singleton_Some. rewrite Hnid, Hpid. split; by eexists.
  - intros j Hj. by apply elem_of_nil in Hj.
  - apply WGStore.peers_ok_empty.
  - apply AuthStore.auth_ok_empty.
  - apply StationStore.stations_ok_empty.
  - by split; intros; simplify_map_eq.
Qed.

Lemma radio_world_ok st lxc :
  (st = active \/ st = suspended -> is_Some lxc) -> world_ok (radio_world st lxc).
Proof. intros Hc. by apply (one_tenant_world_ok (radio_tenant st lxc)). Qed.

Definition demo_config : Config :=
  mkConfig "api-token" (NodeHandler.mkHandler true demo_key true) true
    (UserHandler.NewUserHandler true EmptyString EmptyString) demo_prov
    (AuthHandler.mkHandler "secret" EmptyString true) None (Some (WGHandler.mkHandler demo_service true))
    (StationHandler.mkStationHandler true true true) demo_key "setup".

Definition new_params : CreateParams :=
  mkParams "radio two" "radio-two" radio_project pve_node "u2".


(** The node held two reservations, 3072 MB, before the first tenant's
    provisioning failed. *)
Definition errored_tenant : Tenant :=
  apply_set (SetErrorMessage (Some "provisioning failed: start error")) (radio_tenant errored None).

Definition busy_node : Node := NodeStore.with_allocated 1 3072 pve_node.

Lemma failed_then_deleted_releases_twice_witness :
  let E := calm in
  let O := provisioner_ops demo_prov in
  let s := NewLifecycleService (logger true) in
  let w := one_tenant_world errored_tenant in
  failed "t1" "n1" 1536 busy_node {["n1" := busy_node]} w /\
  option_map n_AllocatedRAMMB
    (w_nodes (run (Delete s errored_tenant (mkActor EmptyString)) w).2 !! "n1") = Some 0.
Proof.
  intros E O s w.
  assert (failed "t1" "n1" 1536 busy_node {["n1" := busy_node]} w) as Hf.
  { split.
    - exists errored_tenant. split; [reflexivity|]. split; [reflexivity|]. split; [eexists; reflexivity|reflexivity].
    - left. split; [reflexivity|]. exists 1. reflexivity. }
  split; [exact Hf|].
  apply (@failed_then_deleted_releases_twice calm O (fun _ => eq_refl) s (mkActor EmptyString)
    errored_tenant radio_project busy_node {["n1" := busy_node]} w).
  - exact Hf.
  - reflexivity.
  - apply one_tenant_world_ok; try reflexivity. intros [|]; discriminate.
  - reflexivity.
  - reflexivity.
  - reflexivity.
  - reflexivity.
Defined.

Lemma foreign_tenant_untouchable_witness :
  let E := calm in
  let O := provisioner_ops demo_prov in
  let w := radio_world active (Some 105) in
  wp (UserHandler.Delete (cf_user demo_config) (Some "u2") "t1") (refused w) w /\
  (run (UserHandler.Delete (cf_user demo_config) (Some "u2") "t1") w).1 = Error StatusNotFound "tenant not found".
Proof.
  intros E O w. split; [|vm_compute; reflexivity].
  apply (@foreign_tenant_untouchable calm O (cf_user demo_config) "u2" "t1" w).
  - reflexivity.
  - intros t Ht. vm_compute in Ht. injection Ht as <-. discriminate.
Defined.

Lemma User_Create_limit_witness :
  let E := calm in
  let O := provisioner_ops demo_prov in
  let w := radio_world active (Some 105) in
  let body := Some (UserHandler.mkUserCreate "radio two" "radio-two") in
  let limit := UserHandler.max_tenants (order_desc t_CreatedAt (select (owned_live "u2") (w_tenants w))) in
  r_Status (run (UserHandler.Create (cf_user demo_config) (Some "u1") body) w).1 = StatusForbidden /\
  r_Status (run (UserHandler.Create (cf_user demo_config) (Some "u2") body) w).1 = StatusAccepted /\
  wp (UserHandler.Create (cf_user demo_config) (Some "u2") body) (fun r w' =>
    w_tenants w' = w_tenants w \/
    (r_Status r = StatusAccepted /\
     count_owned "u2" (w_tenants w') = count_owned "u2" (w_tenants w) + 1 /\
     count_owned "u2" (w_tenants w') <= limit <= 3)) w.
Proof.
  intros E O w body limit. split; [vm_compute; reflexivity|]. split; [vm_compute; reflexivity|].
  apply (@User_Create_limit calm O (@provisioner_laws calm demo_prov)
    (cf_user demo_config) "u2" body w).
  - discriminate.
  - apply radio_world_ok. intros _. eexists. reflexivity.
  - intros id p Hp. vm_compute in Hp. destruct (decide (id = "p1")) as [->|Hne].
    + vm_compute in Hp. injection Hp as <-. reflexivity.
    + exfalso. change (w_projects w !! id = Some p) in Hp. unfold w, radio_world in Hp. simpl in Hp.
      apply lookup_singleton_Some in Hp as [Heq _]. congruence.
Defined.

(** A creation request with the API token, served alone. *)
Definition api_headers : AuthHandler.Headers := AuthHandler.mkHeaders "Bearer api-token" EmptyString None None.
Definition demo_request : AuthHandler.Headers * Request :=
  (api_headers, TenantCreate (Some (TenantStore.mkCreateTenant "radio two" "p1" "n1" "radio-two"))).
Definition demo_thread : P unit := @thread calm demo_auth demo_stripe demo_lib AdminSpec.demo_webauthn AdminSpec.demo_nosurf demo_config demo_request.

Definition demo_final : World := (run demo_thread (radio_world active (Some 105))).2.

(** Without that condition the account of a node goes below zero: the code
    accepts a project with a negative [ram_mb], and [ReserveRAM] adds it. *)
Definition negative_project : AuthHandler.Headers * Request :=
  (api_headers, ProjectCreate (Some (ProjectStore.mkCreateProject "negative" 9000 None None "/api/health" (-4096)
     EmptyString EmptyString))).

Example negative_ram :
  let serve r w := (run (@thread calm demo_auth demo_stripe demo_lib AdminSpec.demo_webauthn AdminSpec.demo_nosurf demo_config r) w).2 in
  let w := serve negative_project (radio_world active (Some 105)) in
  exists id, option_map p_RAMMB (w_projects w !! id) = Some (-4096) /\
    option_map n_AllocatedRAMMB (w_nodes (serve (api_headers, TenantCreate (Some
      (TenantStore.mkCreateTenant "radio two" id "n1" "radio-two"))) w) !! "n1") = Some (-2560).
Proof. exists "uuid-1". split; vm_compute; reflexivity. Qed.

Lemma demo_reachable :
  @reachable calm demo_auth demo_stripe demo_lib AdminSpec.demo_webauthn AdminSpec.demo_nosurf demo_config [demo_request] (radio_world active (Some 105)) demo_final.
Proof. unfold demo_final, demo_thread. apply reachable_one. Qed.

Lemma system_invariant_witness :
  map fst (map_to_list (w_tenants demo_final)) = ["uuid-4"; "t1"] /\
  (forall id n, w_nodes demo_final !! id = Some n -> 0 <= n_AllocatedRAMMB n <= n_TotalRAMMB n).
Proof.
  split; [vm_compute; reflexivity|].
  refine (proj1 (proj2 (@system_invariant calm demo_auth demo_stripe demo_lib AdminSpec.demo_webauthn AdminSpec.demo_nosurf demo_config [demo_request] (radio_world active (Some 105))
    demo_final _ _ demo_reachable))).
  - repeat constructor.
  - apply radio_world_ok. intros _. eexists. reflexivity.
Defined.

Lemma system_lifecycle_witness :
  exists t', w_tenants demo_final !! "t1" = Some t' /\ rtc status_step active (t_Status t') /\
    (t_ID t', t_ProjectID t', t_NodeID t', t_Subdomain t', t_OwnerID t', t_CreatedAt t') =
      ("t1", "p1", "n1", "radio-one", Some "u1", 5) /\
    (active = deleted -> t_Status t' = deleted).
Proof.
  apply (@system_lifecycle calm demo_auth demo_stripe demo_lib AdminSpec.demo_webauthn AdminSpec.demo_nosurf demo_config [demo_request] (radio_world active (Some 105)) demo_final "t1"
    (radio_tenant active (Some 105))).
  - repeat constructor.
  - apply radio_world_ok. intros _. eexists. reflexivity.
  - apply demo_reachable.
  - reflexivity.
Defined.

(** Proxmox cannot stop containers. *)
Definition no_stop : Env :=
  env_with (fun _ => None) (fun _ ev => match ev with
    | EvStopContainer _ _ => Some (errorString "no quorum") | _ => None end).

Lemma suspend_consistent_witness :
  let t := radio_tenant active (Some 105) in
  let w := radio_world active (Some 105) in
  let O := @provisioner_ops no_stop demo_prov in
  has_status "t1" active (run (@suspend_tenant no_stop O true t "t1" None) w).2.
Proof.
  cbv zeta. set (w := radio_world active (Some 105)).
  pose proof (@suspend_consistent no_stop demo_prov true (radio_tenant active (Some 105)) None w) as Hs.
  destruct Hs as [(Hn & _)|(_ & _ & [(Hr & _)|[(_ & Ha)|(Hf & _)]])].
  - apply radio_world_ok. intros _. eexists. reflexivity.
  - reflexivity.
  - destruct Hn. reflexivity.
  - vm_compute in Hr. discriminate Hr.
  - exact Ha.
  - destruct (@up_not_faulty no_stop (fun _ => eq_refl) Hf).
Defined.

Lemma resume_consistent_witness :
  let t := radio_tenant suspended (Some 105) in
  let w := radio_world suspended (Some 105) in
  let O := @provisioner_ops calm demo_prov in
  r_Status (run (@resume_tenant calm O true t "t1" None) w).1 = StatusOK /\
  wp (@resume_tenant calm O true t "t1" None)
    (@moved calm suspended active (start_of (Some 105)) "failed to start container" t w) w.
Proof.
  intros t w O. split; [vm_compute; reflexivity|].
  apply (@resume_consistent calm demo_prov true t None w).
  - apply radio_world_ok. intros _. eexists. reflexivity.
  - reflexivity.
Defined.

Lemma allocation_not_reserved_witness :
  let E := calm in
  let w := radio_world active (Some 105) in
  (run (TenantStore.GetNextAvailableIP "10.10.10.0/24") w).1 = Ok "10.10.10.2" /\
  wp (TenantStore.GetNextAvailableIP "10.10.10.0/24") (fun r1 w1 =>
    wp (TenantStore.GetNextAvailableIP "10.10.10.0/24") (fun r2 w2 => r2 = r1 /\ w_tenants w2 = w_tenants w) w1) w.
Proof.
  intros E w. split; [vm_compute; reflexivity|].
  apply (@allocation_not_reserved calm (fun _ => eq_refl) "10.10.10.0/24" w).
Defined.

Lemma tenants_page_complete_witness :
  let w := radio_world active (Some 105) in
  let q := fun k => if String.eqb k "status" then "active" else EmptyString in
  exists nodes projects ts w',
    run (@AdminTenants.tenantsList calm q) w =
      (AdminUI.renderPage "Tenants" "tenants" []
         (PTenants nodes projects ts "active" EmptyString EmptyString 1), w') /\
    Forall2 (AdminPagesSpec.shown w) [radio_tenant active (Some 105)] ts.
Proof.
  intros w q. destruct (@AdminPagesSpec.tenants_page_complete calm (fun _ => eq_refl) q w) as (ns & ps & ts & w' & _ & Hr & Hs).
  - apply radio_world_ok. intros _. eexists. reflexivity.
  - reflexivity.
  - exists ns, ps, ts, w'. split; [exact Hr|exact Hs].
Defined.
