(* ===== verification/Shutdown.v ===== *)
(** * The end of [main] in cmd/server/main.go

    On a signal [main] stops the background loops, waits for the provisioner
    for at most ten seconds, then closes the listener and waits for the
    requests in progress. Requests, provisioning goroutines and the phases of
    [main] interleave freely. *)

From stdpp Require Import gmap strings list fin_maps relations.
From Stdlib Require Import ZArith Lia.
From S2P Require Import Prelude GoStrings World Response AuthHandler Lifecycle Server System.
From S2P Require Provisioner Billing WGService AdminAuth AdminRoutes AdminSpec SystemSpec TenantStore.
From S2P Require AuthSpec BillingSpec WGSpec ProvisionerSpec.

Open Scope Z_scope.

(** Where [main] stands. *)
Inductive Phase :=
| Listening       (* in the select on the signal *)
| LoopsStopped    (* poller and janitor waited for; in the select on provDone *)
| ProvisionerDone (* past that select; in srv.Shutdown *)
| ListenerClosed  (* srv.Shutdown has closed the listener, connections remain *)
| Exited (code : Z).

(** The process: the requests in progress and the provisioning goroutines, both
    over the world, whose pending goroutines count as started for the wait
    group. *)
Record Process := mkProcess {
  ps_phase : Phase; ps_requests : list (P unit); ps_jobs : list (P unit); ps_world : World }.

(** The listener takes connections until [srv.Shutdown] closes it. *)
Definition accepting (ph : Phase) : bool :=
  match ph with Listening | LoopsStopped | ProvisionerDone => true | _ => false end.

Section Draining.
Context `{HE : Env} `{HA : AuthLib} `{HB : Billing.Stripe} `{HW : WGService.WgLib}
  `{HK : AdminAuth.WebAuthnLib} `{HN : AdminRoutes.Nosurf} (cf : Config).

Definition no_spawn (_ : World) (_ : P unit) (_ : World) : Prop := False.

(** A pending provisioning goroutine starts. *)
Definition job_starts (w : World) (p : P unit) (w' : World) : Prop :=
  exists l1 j l2, w_jobs w = l1 ++ j :: l2 /\ p = Provisioner.run_job (cf_prov cf) j /\ w' = set_jobs (l1 ++ l2) w.

Inductive sd_step : Process -> Process -> Prop :=
| sd_accept ph rs js w r :
    accepting ph = true -> sd_step (mkProcess ph rs js w) (mkProcess ph (thread cf r :: rs) js w)
| sd_request ph rs js w rs' w' :
    pool_step no_spawn (rs, w) (rs', w') ->
    (forall c, ph <> Exited c) -> sd_step (mkProcess ph rs js w) (mkProcess ph rs' js w')
| sd_job ph rs js w js' w' :
    pool_step job_starts (js, w) (js', w') ->
    (forall c, ph <> Exited c) -> sd_step (mkProcess ph rs js w) (mkProcess ph rs js' w')
| sd_signal rs js w : sd_step (mkProcess Listening rs js w) (mkProcess LoopsStopped rs js w)
| sd_listener_failed rs js w : sd_step (mkProcess Listening rs js w) (mkProcess (Exited 1) rs js w)
| sd_provisioner_done rs w :
    w_jobs w = [] -> sd_step (mkProcess LoopsStopped rs [] w) (mkProcess ProvisionerDone rs [] w)
| sd_provisioner_timeout rs js w : sd_step (mkProcess LoopsStopped rs js w) (mkProcess ProvisionerDone rs js w)
| sd_close rs js w : sd_step (mkProcess ProvisionerDone rs js w) (mkProcess ListenerClosed rs js w)
| sd_stopped js w : sd_step (mkProcess ListenerClosed [] js w) (mkProcess (Exited 0) [] js w)
| sd_forced rs js w : sd_step (mkProcess ListenerClosed rs js w) (mkProcess (Exited 1) rs js w).

(** A process with nothing in progress, before the signal. *)
Definition idle (w : World) : Process := mkProcess Listening [] [] w.

Lemma requests_run ph r js w :
  (forall c, ph <> Exited c) ->
  rtc sd_step (mkProcess ph [thread cf r] js w) (mkProcess ph [] js (run (thread cf r) w).2).
Proof.
  intros Hph. pose proof (pool_run no_spawn (thread cf r) [] w) as Hr.
  change (mkProcess ph [] js (run (thread cf r) w).2) with
    ((fun c : list (P unit) * World => mkProcess ph c.1 js c.2) ([], (run (thread cf r) w).2)).
  change (mkProcess ph [thread cf r] js w) with
    ((fun c : list (P unit) * World => mkProcess ph c.1 js c.2) ([thread cf r], w)).
  apply (rtc_congruence (R := pool_step no_spawn)); [|exact Hr]. intros [rs1 w1] [rs2 w2] Hs. by apply sd_request.
Qed.

(** An exit with status 0 has no request in progress, and nothing runs after. *)
Definition settled (s : Process) : Prop := ps_phase s = Exited 0 -> ps_requests s = [].

Lemma settled_step s s' : sd_step s s' -> settled s -> settled s'.
Proof.
  intros Hst Hs Hp. destruct Hst as [? ? ? ? ? Ha|? ? ? ? ? ? ? Hn|? ? ? ? ? ? ? Hn| | | | | | |]; simpl in *; subst; try done.
  - by destruct (Hn 0).
  - by apply Hs.
Qed.

(** What a clean shutdown promises, and what it does not. In every run that
    exits with status 0 each request the listener accepted was answered. But the
    wait for the provisioner comes before the listener closes: although that wait
    did not time out, a request accepted after it that starts a provisioning
    goroutine is answered, the process exits with status 0, and the goroutine
    never runs. *)
Theorem shutdown_outcome (w : World) (r : Headers * Request) (j : Job)
  (Hidle : w_jobs w = []) (Hj : j ∈ w_jobs (run (thread cf r) w).2) :
  (forall s, rtc sd_step (idle w) s -> ps_phase s = Exited 0 -> ps_requests s = []) /\
  exists s, rtc sd_step (idle w) s /\ ps_phase s = Exited 0 /\ ps_jobs s = [] /\ j ∈ w_jobs (ps_world s).
Proof.
  split.
  - assert (forall s s', rtc sd_step s s' -> settled s -> settled s') as Hinv.
    { induction 1 as [|s1 s2 s3 Hs _ IH]; [done|]. intros H1. by apply IH, (settled_step s1). }
    intros s Hr. by apply (Hinv _ _ Hr).
  - exists (mkProcess (Exited 0) [] [] (run (thread cf r) w).2). split_and!; [|done..].
    eapply rtc_l; [apply sd_signal|]. eapply rtc_l; [by apply sd_provisioner_done|].
    eapply rtc_l; [by apply (sd_accept _ _ _ _ r)|]. etrans; [by apply requests_run|].
    eapply rtc_l; [apply sd_close|]. apply rtc_once, sd_stopped.
Qed.

End Draining.

(** ** Example *)

(** A tenant is created while the listener closes. *)
Lemma shutdown_outcome_witness :
  let w := ProvisionerSpec.radio_world active (Some 105) in
  exists s j,
    rtc (@sd_step calm AuthSpec.demo_auth BillingSpec.demo_stripe WGSpec.demo_lib AdminSpec.demo_webauthn AdminSpec.demo_nosurf
           SystemSpec.demo_config) (idle w) s /\
    ps_phase s = Exited 0 /\ ps_jobs s = [] /\ j ∈ w_jobs (ps_world s).
Proof.
  intros w.
  destruct (w_jobs (run (@thread calm AuthSpec.demo_auth BillingSpec.demo_stripe WGSpec.demo_lib AdminSpec.demo_webauthn
    AdminSpec.demo_nosurf SystemSpec.demo_config SystemSpec.demo_request) w).2) as [|j l] eqn:E; [exfalso; vm_compute in E; discriminate|].
  destruct (proj2 (@shutdown_outcome calm AuthSpec.demo_auth BillingSpec.demo_stripe WGSpec.demo_lib AdminSpec.demo_webauthn
    AdminSpec.demo_nosurf SystemSpec.demo_config w SystemSpec.demo_request j eq_refl
    ltac:(rewrite E; apply list_elem_of_here))) as (s & Hs).
  exists s, j. exact Hs.
Defined.
