(* ===== verification/Jobs.v ===== *)
(** * The provisioning goroutines of internal/provisioner/provisioner.go

    [Provision] starts a goroutine that waits for one of ten slots, runs
    [doProvision], and recovers from a panic by recording an error; [Shutdown]
    waits for all of them. Here the goroutines run with their slots and with
    panics, together with the rest of the system. The slots only remove
    interleavings of [System]; a panic keeps the invariants; and without new
    requests the wait comes to an end. *)

From stdpp Require Import gmap strings list fin_maps relations.
From Stdlib Require Import ZArith Lia.
From S2P Require Import Prelude GoStrings World Response Tables NodeStore TenantFSM StoreSafe Server System Provisioner ProvisionerSafe ProvisionerSpec.
From S2P Require AuthSpec BillingSpec WGSpec AdminSpec SystemSpec AuthHandler Billing WGService AdminAuth AdminRoutes ProjectStore TenantStore StationStore IPAlloc SSHExec Crypto.

Open Scope Z_scope.

(** ** Goroutines and slots *)

Definition maxConcurrentJobs : nat := 10.

(** What the deferred function does after a panic. *)
Definition recovery `{Env} (j : Job) : P unit :=
  setError (j_TenantID j) (j_NodeID j) (j_RAMMB j) "provisioning failed: internal panic".

(** A goroutine that has started: waiting for a slot; in [doProvision], holding
    one; or with its slot given back, in the other deferred functions. *)
Inductive Stage :=
| Queued (j : Job)
| Working (j : Job) (p : P unit)
| Leaving (p : P unit).

(** The number of slots taken ([len(p.sem)]) and the goroutines. *)
Record Group := mkGroup { gr_sem : nat; gr_stages : list Stage }.

(** The counter of the wait group: [Provision] adds one before the goroutine
    starts, so the pending ones count. *)
Definition wg_count (g : Group) (w : World) : nat := length (w_jobs w) + length (gr_stages g).

(** [Shutdown] returns. *)
Definition drained (c : Group * World) : Prop := wg_count c.1 c.2 = 0%nat.

Section Goroutines.
Context `{HE : Env} (prov : Provisioner) (may_panic : bool).

(** One step of some goroutine. A panic is free to happen between any two
    operations of [doProvision]; without [may_panic] there is none. *)
Inductive group_step : Group * World -> Group * World -> Prop :=
| gs_start n ss l1 j l2 w :
    w_jobs w = l1 ++ j :: l2 ->
    group_step (mkGroup n ss, w) (mkGroup n (Queued j :: ss), set_jobs (l1 ++ l2) w)
| gs_acquire n ss1 j ss2 w :
    (n < maxConcurrentJobs)%nat ->
    group_step (mkGroup n (ss1 ++ Queued j :: ss2), w)
               (mkGroup (S n) (ss1 ++ Working j (run_job prov j) :: ss2), w)
| gs_work n ss1 j B (op : World -> B * World) k ss2 w :
    group_step (mkGroup n (ss1 ++ Working j (Atom op k) :: ss2), w)
               (mkGroup n (ss1 ++ Working j (k (op w).1) :: ss2), (op w).2)
| gs_release n ss1 j ss2 w :
    group_step (mkGroup (S n) (ss1 ++ Working j (Ret tt) :: ss2), w)
               (mkGroup n (ss1 ++ Leaving (Ret tt) :: ss2), w)
| gs_panic n ss1 j p ss2 w :
    may_panic = true ->
    group_step (mkGroup (S n) (ss1 ++ Working j p :: ss2), w)
               (mkGroup n (ss1 ++ Leaving (recovery j) :: ss2), w)
| gs_leave n ss1 B (op : World -> B * World) k ss2 w :
    group_step (mkGroup n (ss1 ++ Leaving (Atom op k) :: ss2), w)
               (mkGroup n (ss1 ++ Leaving (k (op w).1) :: ss2), (op w).2)
| gs_done n ss1 ss2 w :
    group_step (mkGroup n (ss1 ++ Leaving (Ret tt) :: ss2), w) (mkGroup n (ss1 ++ ss2), w).

(** ** Slots *)

Definition working (s : Stage) : nat := match s with Working _ _ => 1 | _ => 0 end.
Definition slots_held (ss : list Stage) : nat := sum_list_with working ss.

(** The channel holds one token per working goroutine, and ten at most. *)
Definition slots_ok (g : Group) : Prop :=
  gr_sem g = slots_held (gr_stages g) /\ (gr_sem g <= maxConcurrentJobs)%nat.

Lemma slots_held_middle ss1 s ss2 :
  slots_held (ss1 ++ s :: ss2) = (slots_held ss1 + working s + slots_held ss2)%nat.
Proof. unfold slots_held. rewrite sum_list_with_app. simpl. lia. Qed.

Lemma slots_held_app ss1 ss2 : slots_held (ss1 ++ ss2) = (slots_held ss1 + slots_held ss2)%nat.
Proof. apply sum_list_with_app. Qed.

Lemma slots_step c c' : group_step c c' -> slots_ok c.1 -> slots_ok c'.1.
Proof.
  intros Hs [H1 H2]. unfold slots_ok.
  destruct Hs; simpl in *; rewrite ?slots_held_middle in *; rewrite ?slots_held_app in *; simpl in *; lia.
Qed.

Lemma slots_path c c' : rtc group_step c c' -> slots_ok c.1 -> slots_ok c'.1.
Proof. induction 1 as [|c1 c2 c3 Hs _ IH]; [done|]. intros H. by apply IH, (slots_step c1). Qed.

(** ** No goroutine is ever stuck *)

Definition started (s : Stage) : Prop := match s with Queued _ => False | _ => True end.
#[local] Instance started_dec s : Decision (started s).
Proof. destruct s; apply _. Defined.

(** As long as the count is not zero some goroutine can go on: one that holds a
    slot always can, so a slot comes free for those that wait. *)
Lemma group_progress c : slots_ok c.1 -> ~ drained c -> exists c', group_step c c'.
Proof.
  destruct c as [[n ss] w]. unfold drained, wg_count. intros [Hn Hle] Hd. simpl in *.
  destruct (w_jobs w) as [|j l] eqn:Ej; [|eexists; by apply (gs_start n ss [] j l w)].
  destruct (decide (Exists started ss)) as [Hex|Hno].
  - apply Exists_exists in Hex as ([j|j [[]|B op k]|[[]|B op k]] & Hin & Hs); [done|..];
      apply list_elem_of_split in Hin as (ss1 & ss2 & ->).
    + rewrite slots_held_middle in Hn. simpl in Hn. destruct n as [|n]; [lia|]. eexists. apply gs_release.
    + eexists. apply gs_work.
    + eexists. apply gs_done.
    + eexists. apply gs_leave.
  - destruct ss as [|s ss]; [done|]. destruct s as [j| |]; [|exfalso; apply Hno; by left..].
    eexists. apply (gs_acquire n [] j ss w).
    assert (slots_held (Queued j :: ss) = 0%nat) as E; [|unfold maxConcurrentJobs; lia].
    revert Hno. generalize (Queued j :: ss) as l. clear. induction l as [|s l IH]; intros Hno; [done|].
    unfold slots_held in *. simpl. rewrite IH by (intros ?; apply Hno; by right).
    destruct s; [done|exfalso; apply Hno; by left..].
Qed.

(** ** The wait comes to an end *)

(** What a program is after its next operation, whatever that answers. *)
Definition continues (q p : P unit) : Prop :=
  match p with Ret _ => False | Atom _ k => exists b, q = k b end.

(** A step of one goroutine that leaves it in the group. *)
Definition stage_lt (s' s : Stage) : Prop :=
  match s, s' with
  | Queued _, Working _ _ => True
  | Working _ p, Working _ q => continues q p
  | Working _ _, Leaving _ => True
  | Leaving p, Leaving q => continues q p
  | _, _ => False
  end.

Lemma stage_lt_wf : well_founded stage_lt.
Proof.
  assert (forall p, Acc stage_lt (Leaving p)) as HL.
  { induction p as [a|B op k IH]; constructor; intros [j|j q|q] Hs;
      [contradiction..|contradiction|contradiction|]. destruct Hs as [b ->]. apply IH. }
  assert (forall p j, Acc stage_lt (Working j p)) as HW.
  { induction p as [a|B op k IH]; intros j; constructor; intros [j'|j' q|q] Hs;
      [contradiction|contradiction|apply HL|contradiction| |apply HL]. destruct Hs as [b ->]. apply IH. }
  intros [j|j p|p]; [|apply HW|apply HL]. constructor.
  intros [j'|j' q|q] Hs; [contradiction|apply HW|contradiction].
Qed.

(** Jobs start no jobs. *)
Definition same_jobs (w w' : World) : Prop := w_jobs w' = w_jobs w.
Definition always (_ : World) : Prop := True.

Definition startless (s : Stage) : Prop :=
  match s with Queued _ => True | Working _ p | Leaving p => safe always same_jobs any p end.

#[local] Instance untouched_same_jobs : Untouched always same_jobs.
Proof. by split. Qed.

Abbreviation starts_none p := (safe always same_jobs any p).

Lemma none_update {A} (f : World -> res A * World) :
  (forall w, w_jobs (f w).2 = w_jobs w) -> starts_none (stmt f).
Proof. intros Hf. apply (safe_stmt _ _); [done|]. intros w n _. split; [done|]. split; [apply (Hf (set_tick n w))|done]. Qed.

Lemma none_update_tenant id where_ sets (w : World) : w_jobs (update_tenant id where_ sets w).2 = w_jobs w.
Proof. by destruct (update_tenant_cases id where_ sets w) as [(?&?&_&_&_&_&->)|[[_ ->]|(?&_&_&->)]]. Qed.

Lemma none_update_node id where_ sets (w : World) : w_jobs (update_node id where_ sets w).2 = w_jobs w.
Proof. unfold update_node. repeat case_match; done. Qed.

Lemma none_exec msg none id where_ sets : starts_none (TenantStore.exec_tenant msg none id where_ sets).
Proof. apply safe_bind_any; [apply none_update; intros; apply none_update_tenant|]. intros [[]|]; apply safe_any. Qed.

Lemma none_SetHealthStatus id st : starts_none (TenantStore.SetHealthStatus id st).
Proof. apply safe_bind_any; [apply none_update; intros; apply none_update_tenant|]. intros []; apply safe_any. Qed.

Lemma none_SetActive id lxc : starts_none (TenantStore.SetActive id lxc).
Proof. unfold TenantStore.SetActive. destruct (negb _); [apply safe_any|apply none_exec]. Qed.

Lemma none_ReleaseRAM id ram : starts_none (ReleaseRAM id ram).
Proof.
  unfold ReleaseRAM. destruct (negb _); [apply safe_any|].
  apply safe_bind_any; [|intros []; apply safe_any].
  apply none_update. intros w. unfold release_ram. repeat case_match; try done. apply none_update_node.
Qed.

Lemma none_setError tid nid ram msg : starts_none (setError tid nid ram msg).
Proof.
  unfold setError. apply safe_bind_any; [apply none_exec|]. intros _.
  destruct (0 <? ram); [|apply safe_any]. apply safe_bind_any; [apply none_ReleaseRAM|]. intros; apply safe_any.
Qed.

#[local] Hint Resolve none_exec none_SetHealthStatus none_SetActive none_setError : safe.

Lemma none_doProvision tid nid pid sub ram : starts_none (doProvision prov tid nid pid sub ram).
Proof.
  unfold doProvision, finish_provision, configure_network, configure_mounts, start_container, dashboard_token,
    after_active, cleanupAndError, CloneContainer, StartContainer, DeleteContainer, ConfigureNetwork,
    ConfigureMountPoints, SSHExec.ExecOnHost, SSHExec.execCommand, Wait, TenantStore.SetLXCIP, TenantStore.SetDashboardToken.
  stays_auto.
Qed.

Definition all_startless (c : Group * World) : Prop := Forall startless (gr_stages c.1).

Lemma startless_middle ss1 s s' ss2 :
  Forall startless (ss1 ++ s :: ss2) -> (startless s -> startless s') -> Forall startless (ss1 ++ s' :: ss2).
Proof. rewrite !Forall_app, !Forall_cons. tauto. Qed.

(** An operation of a job leaves the pending ones alone. *)
Lemma startless_op {B} (op : World -> B * World) (k : B -> P unit) w :
  starts_none (Atom op k) -> w_jobs (op w).2 = w_jobs w /\ starts_none (k (op w).1).
Proof. intros Hp. by destruct (Hp w I) as (_ & ? & ?). Qed.

Lemma startless_step c c' : group_step c c' -> all_startless c -> all_startless c'.
Proof.
  unfold all_startless. intros Hs H. destruct Hs; simpl in *.
  - by constructor.
  - eapply startless_middle; [done|]. intros _. apply none_doProvision.
  - eapply startless_middle; [done|]. intros Hp. by apply (startless_op op k w) in Hp as [_ ?].
  - eapply startless_middle; [done|]. intros _. apply safe_any.
  - eapply startless_middle; [done|]. intros _. apply none_setError.
  - eapply startless_middle; [done|]. intros Hp. by apply (startless_op op k w) in Hp as [_ ?].
  - rewrite Forall_app, Forall_cons in H. rewrite Forall_app. tauto.
Qed.

(** A step starts a pending goroutine, or is one of a goroutine that runs. *)
Lemma group_descends c c' :
  group_step c c' -> all_startless c ->
  (length (w_jobs c'.2) < length (w_jobs c.2))%nat \/
  (length (w_jobs c'.2) = length (w_jobs c.2) /\ list_step stage_lt (gr_stages c'.1) (gr_stages c.1)).
Proof.
  unfold all_startless. intros Hs H. destruct Hs; simpl in *.
  - left. match goal with E : w_jobs w = _ |- _ => rewrite E end. rewrite !length_app. simpl. lia.
  - right. split; [done|by constructor].
  - rewrite Forall_app, Forall_cons in H. destruct H as (_ & Hp & _). apply (startless_op op k w) in Hp as [-> _].
    right. split; [done|]. constructor. by eexists.
  - right. split; [done|by constructor].
  - right. split; [done|by constructor].
  - rewrite Forall_app, Forall_cons in H. destruct H as (_ & Hp & _). apply (startless_op op k w) in Hp as [-> _].
    right. split; [done|]. constructor. by eexists.
  - right. split; [done|by constructor].
Qed.

Lemma group_terminates c : all_startless c -> Acc (fun c' c => group_step c c') c.
Proof.
  destruct c as [g w]. remember (length (w_jobs w)) as n eqn:En. revert g w En.
  induction (lt_wf n) as [n _ IHn]. intros g w ->.
  remember (gr_stages g) as ss eqn:Es. revert g w IHn Es.
  induction (list_step_wf _ stage_lt_wf ss) as [ss _ IHs]. intros g w IHn -> Hq. constructor. intros [g' w'] Hs.
  pose proof (startless_step _ _ Hs Hq) as Hq'.
  destruct (group_descends _ _ Hs Hq) as [Hl|[Hl Hd]]; simpl in *; [by eapply IHn|].
  eapply IHs; [exact Hd| |done|done]. by rewrite Hl.
Qed.

End Goroutines.

(** ** With the rest of the system *)

(** Two pools that hold the same threads, in whatever order, make the same
    steps. *)
Lemma pool_step_perm {W} (spawns : W -> Prog W unit -> W -> Prop) l m w l' w' :
  pool_step spawns (l, w) (l', w') -> l ≡ₚ m -> exists m', pool_step spawns (m, w) (m', w') /\ l' ≡ₚ m'.
Proof.
  intros Hs Hp. remember (l, w) as c eqn:Ec. remember (l', w') as c' eqn:Ec'.
  destruct Hs as [ts1 ts2 B op k w0|ts1 ts2 w0|ts p w0 w1 Hsp]; simplify_eq/=.
  - assert (Atom op k ∈ m) as (m1 & m2 & ->)%list_elem_of_split.
    { rewrite <- Hp. apply elem_of_app. right. left. }
    exists (m1 ++ k (op w).1 :: m2). split; [apply pool_atom|].
    rewrite <- !Permutation_middle in *. apply Permutation_cons_inv in Hp. by rewrite Hp.
  - assert (Ret tt ∈ m) as (m1 & m2 & ->)%list_elem_of_split.
    { rewrite <- Hp. apply elem_of_app. right. left. }
    exists (m1 ++ m2). split; [apply pool_done|].
    rewrite <- !Permutation_middle in Hp. by apply Permutation_cons_inv in Hp.
  - exists (p :: m). split; [by apply pool_spawn|by f_equiv].
Qed.

Lemma pool_path_perm {W} (spawns : W -> Prog W unit -> W -> Prop) c c' :
  rtc (pool_step spawns) c c' -> forall m, c.1 ≡ₚ m ->
  exists m', rtc (pool_step spawns) (m, c.2) (m', c'.2) /\ c'.1 ≡ₚ m'.
Proof.
  induction 1 as [c|[l1 w1] [l2 w2] c3 Hs _ IH]; intros m Hm; [by exists m; split; [apply rtc_refl|]|].
  destruct (pool_step_perm spawns _ m _ _ _ Hs Hm) as (m2 & Hs2 & Hm2).
  destruct (IH m2 Hm2) as (m3 & Hs3 & Hm3). exists m3. split; [by eapply rtc_l|done].
Qed.

Section Whole.
Context `{HE : Env} `{HA : AuthHandler.AuthLib} `{HB : Billing.Stripe} `{HW : WGService.WgLib}
  `{HK : AdminAuth.WebAuthnLib} `{HN : AdminRoutes.Nosurf} (cf : Config) (may_panic : bool).

(** The loops [main] starts. *)
Definition loop_starts (w : World) (p : P unit) (w' : World) : Prop := background cf p /\ w' = w.

(** Requests and loops, goroutines of the provisioner, and the world. *)
Abbreviation Sys := (list (P unit) * (Group * World))%type.

Inductive sys_step : Sys -> Sys -> Prop :=
| sys_thread ts ts' g w w' :
    pool_step loop_starts (ts, w) (ts', w') -> sys_step (ts, (g, w)) (ts', (g, w'))
| sys_group ts c c' :
    group_step (cf_prov cf) may_panic c c' -> sys_step (ts, c) (ts, c').

(** States reachable by serving [rs]. *)
Definition sys_reach (rs : list (AuthHandler.Headers * Request)) (w : World) : Sys -> Prop :=
  rtc sys_step (map (thread cf) rs, (mkGroup 0 [], w)).

Definition stage_prog (s : Stage) : P unit :=
  match s with Queued j => run_job (cf_prov cf) j | Working _ p | Leaving p => p end.

(** What holds of every such state. *)
Record sys_ok (s : Sys) : Prop := {
  so_world : world_ok s.2.2;
  so_threads : Forall (safe world_ok world_step any) s.1;
  so_stages : Forall (fun g => keeps any (stage_prog g)) (gr_stages s.2.1);
  so_slots : slots_ok s.2.1;
  so_startless : all_startless s.2 }.

Lemma stages_middle (P : Stage -> Prop) ss1 a b ss2 :
  Forall P (ss1 ++ a :: ss2) -> (P a -> P b) -> Forall P (ss1 ++ b :: ss2).
Proof. rewrite !Forall_app, !Forall_cons. tauto. Qed.

Lemma stage_op {B} (op : World -> B * World) (k : B -> P unit) w :
  world_ok w -> keeps any (Atom op k) -> world_ok (op w).2 /\ world_step w (op w).2 /\ keeps any (k (op w).1).
Proof. intros Hw Hp. by apply Hp. Qed.

Abbreviation stages_safe := (Forall (fun g => keeps any (stage_prog g))).

(** A goroutine of the provisioner is as safe as a request, a panic included. *)
Lemma group_safe c c' :
  group_step (cf_prov cf) may_panic c c' -> world_ok c.2 -> stages_safe (gr_stages c.1) ->
  world_ok c'.2 /\ rtc world_step c.2 c'.2 /\ stages_safe (gr_stages c'.1).
Proof.
  intros Hs Hw H. destruct Hs as [n ss l1 j l2 w Hj|n ss1 j ss2 w|n ss1 j B op k ss2 w|n ss1 j ss2 w
    |n ss1 j p ss2 w|n ss1 B op k ss2 w|n ss1 ss2 w]; simpl in *.
  - destruct (starts_ok cf w (run_job (cf_prov cf) j) (set_jobs (l1 ++ l2) w)) as (?&?&?);
      [left; by exists l1, j, l2|done|]. split_and!; [done|by apply rtc_once|by constructor].
  - split_and!; [done|apply rtc_refl|]. by eapply stages_middle.
  - rewrite Forall_app, Forall_cons in H. destruct H as (H1 & Hp & H2).
    destruct (stage_op op k w Hw Hp) as (?&?&?). split_and!; [done|by apply rtc_once|].
    apply Forall_app. split; [done|by constructor].
  - split_and!; [done|apply rtc_refl|]. by eapply stages_middle.
  - split_and!; [done|apply rtc_refl|]. eapply stages_middle; [done|]. intros _. apply keeps_setError.
  - rewrite Forall_app, Forall_cons in H. destruct H as (H1 & Hp & H2).
    destruct (stage_op op k w Hw Hp) as (?&?&?). split_and!; [done|by apply rtc_once|].
    apply Forall_app. split; [done|by constructor].
  - split_and!; [done|apply rtc_refl|]. rewrite Forall_app, Forall_cons in H. apply Forall_app. tauto.
Qed.

Lemma sys_step_ok s s' : sys_step s s' -> sys_ok s -> sys_ok s' /\ rtc world_step s.2.2 s'.2.2.
Proof.
  intros Hs [H1 H2 H3 H4 H5]. destruct Hs as [ts ts' g w w' Hs|ts c c' Hs]; simpl in *.
  - destruct (safe_pool loop_starts world_ok world_step (ts, w) (ts', w')) as (?&?&?); [|by apply rtc_once|done..|].
    + intros w0 p w1 [Hp ->] Hw. split_and!; [done|by apply world_step_refl|by eapply keeps_background].
    + by split.
  - destruct (group_safe _ _ Hs H1 H3) as (?&?&?). split; [|done].
    split; try done; [by apply (slots_step _ _ _ _ Hs)|by apply (startless_step _ _ _ _ Hs)].
Qed.

Lemma sys_path_ok s s' : rtc sys_step s s' -> sys_ok s -> sys_ok s' /\ rtc world_step s.2.2 s'.2.2.
Proof.
  induction 1 as [s|s1 s2 s3 Hs _ IH]; intros Hok; [by split; [|apply rtc_refl]|].
  destruct (sys_step_ok _ _ Hs Hok) as [Hok2 ?]. destruct (IH Hok2). split; [done|by etrans].
Qed.

Lemma sys_reach_ok rs w s :
  Forall (fun r => request_ok r.2) rs -> world_ok w -> sys_reach rs w s -> sys_ok s /\ rtc world_step w s.2.2.
Proof.
  intros Hrs Hw Hs. destruct (sys_path_ok _ _ Hs) as [Hok Hp]; [|by split].
  split; [done|by apply keeps_threads|by constructor|split; simpl; [done|lia]|by constructor].
Qed.

(** A request served alone. *)
Lemma threads_path ts ts' g w w' :
  rtc (pool_step loop_starts) (ts, w) (ts', w') -> rtc sys_step (ts, (g, w)) (ts', (g, w')).
Proof.
  intros Hs. remember (ts, w) as c eqn:Ec. remember (ts', w') as c' eqn:Ec'. revert ts w Ec.
  induction Hs as [c|c [ts2 w2] c3 Hs _ IH]; intros ts w ->; [injection Ec' as -> ->; apply rtc_refl|].
  eapply rtc_l; [by apply sys_thread|by apply IH].
Qed.

Lemma sys_reach_one r w : sys_reach [r] w ([], (mkGroup 0 [], (run (thread cf r) w).2)).
Proof. apply threads_path, (pool_run loop_starts (thread cf r) []). Qed.

(** The invariants of the slots need nothing of the world. *)
Lemma sys_path_slots s s' :
  rtc sys_step s s' -> slots_ok s.2.1 /\ all_startless s.2 -> slots_ok s'.2.1 /\ all_startless s'.2.
Proof.
  induction 1 as [s|s1 s2 s3 Hs _ IH]; [done|]. intros [H1 H2]. apply IH. destruct Hs as [|ts c c' Hs]; [done|].
  split; [by apply (slots_step _ _ _ _ Hs)|by apply (startless_step _ _ _ _ Hs)].
Qed.

Lemma sys_reach_slots rs w s : sys_reach rs w s -> slots_ok s.2.1 /\ all_startless s.2.
Proof. intros Hs. apply (sys_path_slots _ _ Hs). split; [split; simpl; [done|lia]|by constructor]. Qed.


(** The wait of [Shutdown] comes to an end, when every remote call answers. From
    every state reachable with
    any number of requests served and goroutines started or waiting for a slot,
    when no further request is served: the goroutines have no infinite run; the
    only states in which none of them can go on are those where the wait group
    is at zero, so no goroutine waits for a slot for ever and no slot is lost,
    to a panic either; and such a state is reached. *)
Theorem jobs_drain (rs : list (AuthHandler.Headers * Request)) (w : World) (ts : list (P unit)) (c : Group * World)
  (Hreach : sys_reach rs w (ts, c)) :
  (forall e, e O = c -> ~ forall i, group_step (cf_prov cf) may_panic (e i) (e (S i))) /\
  (forall c', rtc (group_step (cf_prov cf) may_panic) c c' ->
     (~ exists c2, group_step (cf_prov cf) may_panic c' c2) -> drained c') /\
  (exists c', rtc (group_step (cf_prov cf) may_panic) c c' /\ drained c').
Proof.
  destruct (sys_reach_slots rs w _ Hreach) as [Hs Hq]. simpl in *.
  pose proof (group_terminates (cf_prov cf) may_panic c Hq) as Hacc. split_and!.
  - intros e <-. by apply (no_descent (fun c' c => group_step (cf_prov cf) may_panic c c')).
  - intros c' Hp Hstuck. destruct (decide (wg_count c'.1 c'.2 = 0%nat)) as [?|Hd]; [done|].
    destruct Hstuck. apply group_progress; [|done]. by apply (slots_path _ _ _ _ Hp).
  - clear Hreach. induction Hacc as [c _ IH]. destruct (decide (wg_count c.1 c.2 = 0%nat)) as [?|Hd].
    { exists c. by split; [apply rtc_refl|]. }
    destruct (group_progress (cf_prov cf) may_panic c Hs Hd) as [c2 Hc2].
    destruct (IH c2 Hc2) as (c' & ? & ?); [by apply (slots_step _ _ _ _ Hc2)|by apply (startless_step _ _ _ _ Hc2)|].
    exists c'. split; [by eapply rtc_l|done].
Qed.

(** ** The slots only remove interleavings *)

(** All threads of the system, as [System] sees them. *)
Definition all_threads (s : Sys) : list (P unit) := s.1 ++ map stage_prog (gr_stages s.2.1).

Lemma loop_step_app ts ts' w w' l :
  pool_step loop_starts (ts, w) (ts', w') -> pool_step (starts cf) (ts ++ l, w) (ts' ++ l, w').
Proof.
  intros Hs. remember (ts, w) as c eqn:Ec. remember (ts', w') as c' eqn:Ec'.
  destruct Hs as [ts1 ts2 B op k w0|ts1 ts2 w0|ts0 p w0 w1 Hsp]; simplify_eq/=; rewrite <- ?app_assoc; simpl.
  - apply pool_atom.
  - apply pool_done.
  - destruct Hsp as [Hb ->]. apply pool_spawn. by right.
Qed.

Lemma group_step_simulated ts c c' :
  may_panic = false -> group_step (cf_prov cf) may_panic c c' ->
  exists l, rtc (pool_step (starts cf)) (all_threads (ts, c), c.2) (l, c'.2) /\ l ≡ₚ all_threads (ts, c').
Proof.
  intros Hnp Hs. unfold all_threads.
  destruct Hs as [n ss l1 j l2 w Hj|n ss1 j ss2 w|n ss1 j B op k ss2 w|n ss1 j ss2 w
    |n ss1 j p ss2 w|n ss1 B op k ss2 w|n ss1 ss2 w]; simpl; rewrite ?map_app; simpl; rewrite ?app_assoc.
  - eexists. split; [apply rtc_once, (pool_spawn _ _ (run_job (cf_prov cf) j) w (set_jobs (l1 ++ l2) w)); left; eauto 10|].
    by rewrite Permutation_middle.
  - eexists. by split; [apply rtc_refl|].
  - eexists. by split; [apply rtc_once, pool_atom|].
  - eexists. by split; [apply rtc_refl|].
  - congruence.
  - eexists. by split; [apply rtc_once, pool_atom|].
  - eexists. by split; [apply rtc_once, pool_done|].
Qed.

Lemma sys_step_simulated s s' :
  may_panic = false -> sys_step s s' ->
  exists l, rtc (pool_step (starts cf)) (all_threads s, s.2.2) (l, s'.2.2) /\ l ≡ₚ all_threads s'.
Proof.
  intros Hnp Hs. destruct Hs as [ts ts' g w w' Hs|ts c c' Hs]; [|by apply group_step_simulated].
  eexists. split; [by apply rtc_once, loop_step_app|done].
Qed.

Lemma sys_path_simulated s s' :
  may_panic = false -> rtc sys_step s s' ->
  exists l, rtc (pool_step (starts cf)) (all_threads s, s.2.2) (l, s'.2.2) /\ l ≡ₚ all_threads s'.
Proof.
  intros Hnp. induction 1 as [s|s1 s2 s3 Hs _ (l2 & Hp2 & Hl2)]; [eexists; by split; [apply rtc_refl|]|].
  destruct (sys_step_simulated _ _ Hnp Hs) as (l1 & Hp1 & Hl1).
  destruct (pool_path_perm _ _ _ Hp2 l1) as (l3 & Hp3 & Hl3); [by symmetry|].
  exists l3. split; [by etrans|]. by rewrite <- Hl3.
Qed.

(** The goroutines with their ten slots implement those of [System]: every
    state of the world that the system reaches without a panic is one that
    [System] reaches, where a started goroutine runs at once. What [System]
    promises of all its interleavings so holds of the program's. *)
Theorem slots_refine (rs : list (AuthHandler.Headers * Request)) (w : World)
    (ts : list (P unit)) (g : Group) (w' : World)
  (Hcalm : may_panic = false) (Hreach : sys_reach rs w (ts, (g, w'))) :
  reachable cf rs w w'.
Proof.
  destruct (sys_path_simulated _ _ Hcalm Hreach) as (l & Hp & _). exists l.
  unfold all_threads in Hp. simpl in Hp. by rewrite app_nil_r in Hp.
Qed.

End Whole.

(** ** What a panic leaves behind *)

Section Panics.
Context `{HE : Env} (prov : Provisioner).

(** A recovering goroutine scheduled without interruption. *)
Lemma leaving_runs p n ss w :
  rtc (group_step prov true) (mkGroup n (Leaving p :: ss), w) (mkGroup n ss, (run p w).2).
Proof.
  revert w. induction p as [[]|B op k IH]; intros w; simpl.
  - apply rtc_once. apply (gs_done prov true n [] ss w).
  - eapply rtc_l; [apply (gs_leave prov true n [] B op k ss w)|]. simpl.
    specialize (IH (op w).1 (op w).2). by destruct (op w).
Qed.

(** The compare-and-swap of [SetError] refuses any other status. *)
Lemma wp_setError_refused tid nid ram msg n w :
  (forall t, env_fault t = None) -> nodes_ok (w_nodes w) -> w_nodes w !! nid = Some n -> in_int4 ram = true ->
  (forall t, w_tenants w !! tid = Some t -> t_Status t <> provisioning /\ t_Status t <> deleting) ->
  wp (setError tid nid ram msg) (fun _ w' =>
    released nid ram n (w_nodes w) (w_nodes w') /\ w_tenants w' = w_tenants w) w.
Proof.
  intros Hup Hnodes Hn Hint Hst. unfold setError, TenantStore.SetError, TenantStore.exec_tenant.
  apply wp_bind, wp_bind, wp_stmt; [intros ? Hf; by rewrite Hup in Hf|]. intros _.
  set (sets := [SetStatus errored; SetErrorMessage (Some msg)]). set (w1 := set_tick (S (w_tick w)) w).
  assert (update_tenant tid (TenantStore.status_in [provisioning; deleting]) sets w1 = (Ok None, w1)) as ->.
  { unfold update_tenant. change (w_tenants w1) with (w_tenants w).
    destruct (w_tenants w !! tid) as [t|] eqn:Et; [|done].
    destruct (TenantStore.status_in [provisioning; deleting] t) eqn:E; [|done].
    apply status_in_spec in E. rewrite !elem_of_cons, elem_of_nil in E. destruct (Hst t eq_refl). tauto. }
  cbn [fst snd]. apply wp_ret. eapply wp_mono; [by apply (wp_release nid ram n (w_nodes w))|].
  intros ? w' ([?|[Hf _]]&?&_); [done|]. by destruct (up_not_faulty Hup Hf).
Qed.

(** Recovering from a panic, on a database that answers: the schedule that lets
    the goroutine finish at once. A goroutine that panics anywhere in [doProvision] gives its slot back and ends. If its tenant
    was still being provisioned, the tenant is then errored with a message and
    the reservation is given back. But if it was active, with its container
    running, it stays active and the reservation is given back all the same:
    [setError] releases the RAM also when [SetError] refused. *)
Theorem panic_recovery (j : Job) (p : P unit) (m : nat) (ss : list Stage) (w : World) (n : Node)
  (Hup : forall t, env_fault t = None) (Htenants : tenants_ok (w_tenants w)) (Hnodes : nodes_ok (w_nodes w))
  (Hn : w_nodes w !! j_NodeID j = Some n) (Hint : in_int4 (j_RAMMB j) = true) :
  exists w', rtc (group_step prov true) (mkGroup (S m) (Working j p :: ss), w) (mkGroup m ss, w') /\
    forall t, w_tenants w !! j_TenantID j = Some t ->
      (fresh t -> failed (j_TenantID j) (j_NodeID j) (j_RAMMB j) n (w_nodes w) w') /\
      (t_Status t = active ->
         w_tenants w' = w_tenants w /\ released (j_NodeID j) (j_RAMMB j) n (w_nodes w) (w_nodes w')).
Proof.
  exists (run (recovery j) w).2. split.
  { eapply rtc_l; [by apply (gs_panic prov true m [] j p ss w)|]. apply leaving_runs. }
  intros t Ht. split.
  - intros [Hst Hl].
    destruct (wp_setError (j_TenantID j) (j_NodeID j) (j_RAMMB j) n (w_nodes w) Hnodes Hn Hint
      "provisioning failed: internal panic" w) as [Hg _]; [by split_and!; eauto|].
    eapply gave_up_failed; [by apply up_not_faulty|exact Hg].
  - intros Hst.
    destruct (wp_setError_refused (j_TenantID j) (j_NodeID j) (j_RAMMB j) "provisioning failed: internal panic" n w)
      as [? ?]; [done..| |done].
    intros t' Ht'. assert (t' = t) as -> by congruence. by rewrite Hst.
Qed.

End Panics.

(** ** Examples *)

(** A creation is served; the goroutine it starts is pending. *)
Abbreviation demo_reach := (@sys_reach calm AuthSpec.demo_auth BillingSpec.demo_stripe WGSpec.demo_lib AdminSpec.demo_webauthn
  AdminSpec.demo_nosurf SystemSpec.demo_config).

Lemma demo_served b :
  demo_reach b [SystemSpec.demo_request] (radio_world active (Some 105)) ([], (mkGroup 0 [], SystemSpec.demo_final)).
Proof. apply sys_reach_one. Qed.


Lemma jobs_drain_witness :
  let c := (mkGroup 0 [], SystemSpec.demo_final) in
  wg_count c.1 c.2 = 1%nat /\
  exists c', rtc (@group_step calm demo_prov true) c c' /\ drained c'.
Proof.
  intros c. split; [vm_compute; reflexivity|].
  exact (proj2 (proj2 (@jobs_drain calm AuthSpec.demo_auth BillingSpec.demo_stripe WGSpec.demo_lib
    AdminSpec.demo_webauthn AdminSpec.demo_nosurf SystemSpec.demo_config true [SystemSpec.demo_request]
    (radio_world active (Some 105)) [] c (demo_served true)))).
Defined.

Lemma slots_refine_witness :
  @reachable calm AuthSpec.demo_auth BillingSpec.demo_stripe WGSpec.demo_lib AdminSpec.demo_webauthn
    AdminSpec.demo_nosurf SystemSpec.demo_config [SystemSpec.demo_request] (radio_world active (Some 105))
    SystemSpec.demo_final.
Proof.
  exact (@slots_refine calm AuthSpec.demo_auth BillingSpec.demo_stripe WGSpec.demo_lib AdminSpec.demo_webauthn
    AdminSpec.demo_nosurf SystemSpec.demo_config false [SystemSpec.demo_request] (radio_world active (Some 105))
    [] (mkGroup 0 []) SystemSpec.demo_final eq_refl (demo_served false)).
Defined.

(** The tenant of [radio_world] is provisioned up to its [i]th operation, and
    the goroutine panics there. *)
Fixpoint run_steps {A} (i : nat) (p : P A) (w : World) : P A * World :=
  match i, p with
  | S i, Atom op k => run_steps i (k (op w).1) (op w).2
  | _, _ => (p, w)
  end.

Definition demo_job : Job := mkJob "t1" "n1" "p1" "radio-one" 1536.

Definition demo_cut (i : nat) : P unit * World :=
  run_steps i (@run_job calm demo_prov demo_job) (radio_world provisioning None).

Definition state_of (w : World) : option (TenantStatus * Z) :=
  match w_tenants w !! "t1", w_nodes w !! "n1" with
  | Some t, Some n => Some (t_Status t, n_AllocatedRAMMB n)
  | _, _ => None
  end.

Lemma panic_recovery_witness :
  state_of (run (@recovery calm demo_job) (demo_cut 10).2).2 = Some (errored, 0) /\
  let w := radio_world active (Some 105) in
  exists w', rtc (@group_step calm demo_prov true) (mkGroup 1 [Working demo_job (demo_cut 24).1], w) (mkGroup 0 [], w') /\
    forall t, w_tenants w !! "t1" = Some t ->
      (fresh t -> failed "t1" "n1" 1536 pve_node (w_nodes w) w') /\
      (t_Status t = active -> w_tenants w' = w_tenants w /\ released "n1" 1536 pve_node (w_nodes w) (w_nodes w')).
Proof.
  split; [vm_compute; reflexivity|]. intros w.
  apply (@panic_recovery calm demo_prov demo_job (demo_cut 24).1 0 [] w pve_node).
  - reflexivity.
  - apply radio_tenants_ok.
  - apply radio_nodes_ok.
  - reflexivity.
  - reflexivity.
Defined.

(** The container runs, the tenant is active, and the account of its node is
    empty. *)
Example panic_after_active :
  state_of (demo_cut 24).2 = Some (active, 1536) /\
  state_of (run (@recovery calm demo_job) (demo_cut 24).2).2 = Some (active, 0).
Proof. split; vm_compute; reflexivity. Qed.
